(* ===== verification/_CoqProject ===== *)
-Q . S2P
Prelude.v
Ieee.v
Exact.v
Round.v
Real.v
Monotone.v
RemSqrt.v
Libm.v
Color.v
ColorBounds.v
Image.v
Palette.v
BeatClock.v
Widget.v
Text.v
Utils.v
LinearWave.v
LinearBounds.v
App.v
RadialWave.v
ClockBounds.v
RadialBounds.v
EventLoop.v
Effects.v
Compositor.v
Display.v
