(* ===== verification/Prelude.v ===== *)
(** * A verification development for the tempo-reactive terminal visualiser

    The program (crate [spotify_player], files [ui/visualizations.rs],
    [ui/effects.rs], [utils.rs], and the demo binary [waveform_test/src/main.rs])
    draws an animated pattern into a rectangle of terminal cells.  Its data flow
    is

      elapsed time, BPM --(beat clock)--> beat phase
      album art --(extract_dominant_color)--> one RGB colour --> palette
      (phase, area, colour, scheme) --(renderer)--> grid of (glyph, colour)
      grid --(Paragraph / Block)--> widget handed to the frame
      frame --(compositing)--> cells of the screen
      keys --(event loop)--> scheme index and tempo of the next frame.

    ** Files, in dependency order

    - [Prelude] (this file): machine integers as [Z] with their wrap-around or
      saturation written out ([saturating_add], [saturating_sub], [wrap]),
      colours ([rgb], the [Color] enum of the terminal library restricted to the
      constructors the sources use), bounded enumeration ([zrange],
      [forall_below], [forall_below2]) with its reflection lemmas, the loops
      that push into a vector ([collect], [grid_by_index]) and the tactics and
      hint databases [viz], [viz_rw] that the component files share.
    - [Ieee], module [F64]: Rust's [f64] as IEEE-754 binary64 on the Standard
      Library's [SpecFloat] (bit-exact round-to-nearest-even, no axioms).
      Arithmetic is [SpecFloat]'s; what the language adds is defined here:
      decimal literals ([lit]), the saturating casts [as u8] and [as usize]
      ([to_u8], [to_usize]), [f64::round] (half away from zero),
      [f64::max], [f64::min] and the [%] operator ([rem], C's fmod).  [sin] is
      not an IEEE operation: it enters through the interface [Libm], and
      [LibmOk] states what a renderer may assume of it.
    - [Exact]: when a result is representable no rounding happens
      ([binary_round_exact]); from it, the remainder by 1.0 of a finite
      non-negative float lies in [0, 1) ([rem_one_in_unit]).
    - [Round]: what one rounding returns, on integers: the significand of the
      result is the truncated one or its successor at the canonical exponent
      ([binary_round_aux_spec]), and every result is well formed.
    - [Real]: the value of a float as a real number ([B2R]) and the standard
      error model on it: a finite result of [+], [-], [*], [/] is within
      [eps * |x| + eta] of the exact result [x] ([add_R], [sub_R], [mul_R],
      [div_R], with [eps = 2^-52] and [eta = 2^-1074]); comparisons, [max] and
      [min] are those of the values; integers below [2^53] convert exactly;
      a cast is the floor of the value, and [round] followed by a cast stays
      below every integer the value is half a unit under and reaches every
      integer the value is at most half a unit under ([round_cast_le],
      [round_cast_ge]).
    - [Monotone]: rounding is monotone and leaves floats unchanged: a sum,
      difference or product whose exact value lies between two floats is a
      float between them ([add_between], [sub_between], [mul_between]), a
      product of at least a positive float is at least that float or has
      overflowed to plus infinity ([mul_at_least]), and the sign of a
      difference is the sign of the exact difference.
    - [RemSqrt]: the [%] operator is exact ([rem_R]: the dividend minus a
      whole multiple of the divisor, smaller than the divisor, with the sign
      of the dividend) and the square root is one rounding of the real
      square root ([sqrt_R]).
    - [Libm], module [SinModel]: an executable sine (128-bit fixed-point
      Taylor series after reduction to a quadrant) and the proof that it
      satisfies [LibmOk]; the instance the concrete evaluations use.
    - [Color], module [Scheme]: [ColorScheme], [apply_intensity] and
      [get_color_for_scheme] of [ui/visualizations.rs], arm by arm, and the
      integer reference [base_ref] that the float code is proved to implement.
    - [ColorBounds]: the resolver on intensities between 0.0 and 1.0, by
      the error model of [Real], and on intensities of 1.0 and more, by the
      monotone rounding of [Monotone].
    - [Image]: the two calls [extract_dominant_color] makes into the image
      library ([resize] with a filter, [to_rgb8]) as the interface [ImageLib],
      the contract [ImageLibOk] the function relies on, and a
      nearest-neighbour model of images as functions from coordinates to
      pixels that satisfies it.
    - [Palette]: [AlbumPalette], its default, [generate_color_palette] of
      [ui/visualizations.rs], and [extract_dominant_color] of [utils.rs] (the
      thumbnail through [ImageLib], then [average_samples]: the sampling loop
      with its [u16] brightness and [u64] accumulators, the fallback and the
      averages) with the reference [dominant_ref].
    - [BeatClock]: the beat phase [(elapsed * bpm / 60.0) % 1.0] of
      [waveform_test/src/main.rs].
    - [Widget], module [Tui]: rectangles, spans, lines, blocks, paragraphs and
      [render_widget] of the terminal library, as data.
    - [Text], module [Str]: the string operations the utilities call
      ([split], [join], [contains], [to_lowercase], the decimal formats).
    - [Utils]: [format_duration], [map_join], the image URL getters,
      [parse_uri], [filtered_items_from_query] (both variants) and
      [fuzzy_search_items] of [utils.rs].
    - [LinearWave], module [Linear]: [render_concentric_waves] of
      [ui/visualizations.rs] (the travelling sine line): the [wave_positions]
      loop, the cell loops and the widget handed to the frame.
    - [LinearBounds]: the real-number analysis of one column of the sine
      line: the centre, the amplitude, the swing and their roundings, for
      areas of five rows and more and for areas of one to four rows.
    - [App], module [Demo]: the demo's [App] ([new], [next_color],
      [prev_color], [increase_bpm], [decrease_bpm], [color_scheme],
      [color_scheme_name]), the key dispatch [handle_key], the transition
      relation [step] and the reachable states.
    - [RadialWave], module [Radial]: [render_concentric_waves] and
      [get_color_for_scheme] of [waveform_test/src/main.rs] (expanding rings,
      four intensity thresholds).
    - [ClockBounds]: the beat phase of the frames the demo draws, from the
      clock reading and the tempo of a reachable state, and the accuracy of
      the number of beats it is the fractional part of.
    - [RadialBounds]: the real-number analysis of one cell of the rings:
      offsets, distance, signed distance to the wave front, phase and
      intensity as finite floats with their ranges.
    - [EventLoop], module [Loop]: [ui] and [main] of
      [waveform_test/src/main.rs].  Every call that can fail or that reads the
      clock takes its answer from an explicit record ([Setup], one [Tick] per
      iteration, [Teardown]); [main] returns how the program ended and the
      state of the terminal at that point; [after_main] adds the destructor
      of the library's terminal, which runs when the local is dropped.  The
      layout solver is the interface [Layout] with the instance
      [stack_layout].
    - [Effects]: both conditional-compilation variants of [EffectsState] of
      [ui/effects.rs].
    - [Compositor], module [Screen]: what the terminal library does with a
      frame: a buffer is a partial function from positions to cells
      ([Layer], compared cell by cell with [layer_eq]); a block draws its
      border and title ([block_layer]) and lays the text out in its inner
      area ([inner], [text_layer]); a widget rendered later lies [over] the
      earlier ones ([screen]).
    - [Display]: the paragraphs of the sine line composited into cells, with
      and without the border.

    ** What the theorems show

    - [Color]: at full intensity the resolver returns the integer base colour
      for every scheme, level and [u8] album colour (by evaluation over the
      whole [u8] domain); the 70% tier is one less than the floor for exactly
      three channel values; an intensity that is not above zero gives black.
    - [ColorBounds]: for an intensity between 0.0 and 1.0 a channel never
      exceeds its base value, and it is the exact product truncated, up to the
      rounding error of the one multiplication; for an intensity of 1.0 or
      more, plus infinity included, the cast saturates and never wraps: a
      channel is at least its base value, at most 255, and 255 as soon as the
      exact product reaches 255.
    - [Palette]: the generated palette is the six documented colours, the float
      blends being equal to [(8a + 2b) / 10] for all 65536 channel pairs; the
      accumulators of [extract_dominant_color] never wrap for any image and
      any library that keeps [ImageLibOk], so the result is the mean of the
      accepted samples of the thumbnail; a uniform image of any size returns
      its colour or the fallback; an image with no accepted pixel returns the
      fallback; the result stays within the range of the image's colours.
    - [BeatClock], [ClockBounds]: the phase is in [0, 1) whenever the number
      of beats is finite and not negative, and is NaN exactly when it is not
      finite; in the demo the tempo of a reachable state is one of 60, ...,
      200 and the uptime fits a [Duration], so every frame is drawn with a
      phase in [0, 1); the number of beats is [elapsed * bpm / 60] up to
      two roundings, and the phase is that number less a whole number of
      beats.
    - [LinearWave], [RadialWave]: the grid has the dimensions of the area; a
      column of the linear wave has one lit cell when the computed position is
      a row of the area, none otherwise (which happens for heights below
      five); a cell of the rings is blank or shows the glyph of its band in the
      resolver's colour; the demo's resolver agrees with the player's.
    - [LinearBounds], [Display]: for a height of five or more, a finite
      phase and any sine within [-1, 1], the position of every column is a
      row of the area, so without a border every column of the screen shows
      exactly one lit cell; the bound is sharp: with one to four rows every
      column whose sine [s] satisfies [3 s >= height - 1] gets a position
      below the last row and shows no lit cell; with the border the grid,
      which is computed for the whole area, loses its last two rows and
      columns, and a lit cell in one of them is not shown.
    - [RadialBounds]: for every area, cell and phase in [0, 1) the intensity
      is a finite float between 0 and 6; outside the wave front it is at most
      1 and the colour of a cell is its base colour dimmed; inside the front
      the remainder is not positive, the intensity is at least 1 and the cell
      is a solid disc; in the demo this holds for every frame, the phase
      coming from the clock and a reachable state.
    - [App], [EventLoop]: the scheme index stays below six and the tempo one
      of 60, 70, ..., 200 in every reachable state and throughout the loop;
      every poll timeout is within the tick; [ui] never indexes out of range;
      [main] returns [Ok] only with the terminal restored, ends when the quit
      key arrives, and leaves the terminal unrestored on every error return;
      the destructor of the terminal leaves raw mode and the alternate screen
      as they are, so after it the terminal is restored on an error return
      only when the failing call was the final [show_cursor] and the
      destructor's second attempt succeeded; the loop ends at the first
      iteration that is not quiet, whatever the environment would answer
      afterwards.
    - [Utils]: formatting a duration and reading it back; [map_join] as a join
      after dropping the leading empty strings; [parse_uri] on five-segment
      URIs and its idempotence; the substring search as a filter with its
      membership condition; the fuzzy search as a stable descending sort of
      the matches.

    ** Bounds and fuel

    [u8], [u16], [u64] and [usize] are [Z] with explicit range predicates;
    [usize] is taken to be 64 bits wide.  Where a value is only matched on or
    divided by a constant the model leaves it an unbounded [Z]: the [level]
    of the resolver ([u8] in the source; the match has a default arm) and
    the seconds of [format_duration] ([i64] in the source; quotient and
    remainder by 60 cannot overflow).  The index [wave_positions[x]] is
    [nth] with a default that is never read, the list having one entry per
    column.  Theorems proved by evaluation
    enumerate the 256 values of a channel (or the 256 x 256 pairs of a blend),
    which is the whole input domain of the code they are about.  The model
    sine uses 128 fractional bits and 40 series terms; it stands for a library
    routine whose bits the language does not fix, so general theorems about
    the renderers assume only [LibmOk] and the model serves the concrete
    evaluations.  A thumbnail has at most 64 x 64 pixels by [ImageLibOk], so
    the [u64] sums of its channels stay far below [2^64].
    The loop of
    [main] runs over a finite list of environment answers and reports
    [Unfinished] when the list ends first; the theorems that the program ends
    give the answers under which it does.  The error model of [Real] uses
    the bound of one unit in the last place ([eps = 2^-52]) where half a unit
    holds: it is what the proofs need, and every use leaves a margin of many
    orders of magnitude.  A [Duration] is below [2^64] seconds, a [Rect] has
    [u16] fields; the buffer of the screen is unbounded and not clipped to
    the terminal, so the theorems about the screen assume that the area ends
    within the [u16] range ([on_screen]).  A call of the environment that
    fails is taken to have changed nothing and is not retried, except by the
    destructor of the terminal.  [sort_by] is a call into the standard
    library; a stable insertion sort stands for it.

    ** Not modelled

    The terminal back end (escape sequences, the event source), the layout
    solver beyond the number of panes, wrapped, aligned or scrolled text and
    characters wider than one cell (the renderers produce none), image
    decoding and the resize filters other than nearest-neighbour (the image
    library is an interface; its contract is assumed of the real library and
    proved of the model), the case mapping of non-ASCII characters, and the
    fuzzy matcher (a parameter of the search). *)

From Stdlib Require Import ZArith Lia Bool List.
Import ListNotations.
#[local] Open Scope Z_scope.

Declare Scope viz_scope.
Delimit Scope viz_scope with viz.

Create HintDb viz discriminated.
Create Rewrite HintDb viz_rw.

(** ** Machine integers *)

Definition u8_max : Z := 255.
Definition u16_max : Z := 65535.
Definition u64_max : Z := 2 ^ 64 - 1.

Definition in_u8 (z : Z) : Prop := 0 <= z <= u8_max.
Definition in_u16 (z : Z) : Prop := 0 <= z <= u16_max.
Definition in_u64 (z : Z) : Prop := 0 <= z <= u64_max.

Definition in_u8b (z : Z) : bool := (0 <=? z) && (z <=? u8_max).

(** [u8::saturating_add] and [u8::saturating_sub]. *)
Definition saturating_add (a b : Z) : Z := Z.min u8_max (a + b).
Definition saturating_sub (a b : Z) : Z := Z.max 0 (a - b).

(** An integer cast [as uN] between integer types keeps the low [w] bits. *)
Definition wrap (w : Z) (z : Z) : Z := z mod 2 ^ w.

(** ** Colours *)

(** An [(u8, u8, u8)] tuple. *)
Definition rgb : Type := (Z * Z * Z)%type.

Definition rgb_ok (c : rgb) : Prop :=
  let '(r, g, b) := c in in_u8 r /\ in_u8 g /\ in_u8 b.

Definition rgb_okb (c : rgb) : bool :=
  let '(r, g, b) := c in in_u8b r && in_u8b g && in_u8b b.

(** The terminal library's [Color], with the constructors the sources build. *)
Inductive Color : Type :=
| Rgb (r g b : Z)
| Black
| Cyan_
| Yellow
| Green_
| Red.

Definition color_ok (c : Color) : Prop :=
  match c with
  | Rgb r g b => rgb_ok (r, g, b)
  | _ => True
  end.

(** ** Bounded enumeration *)

Definition zrange (n : nat) : list Z := map Z.of_nat (seq 0 n).

Definition forall_below (n : nat) (p : Z -> bool) : bool := forallb p (zrange n).

Definition forall_below2 (n m : nat) (p : Z -> Z -> bool) : bool :=
  forall_below n (fun a => forall_below m (p a)).

(** ** Loops that push *)

(** [Vec::push]. *)
Definition push {A : Type} (v : list A) (x : A) : list A := v ++ [x].

(** [let mut v = vec![]; for i in 0..n { v.push(f(i)) }]. *)
Definition collect {A : Type} (n : nat) (f : Z -> A) : list A :=
  fold_left (fun v i => push v (f i)) (zrange n) [].

(** ** Grids *)

(** The nested [for y in 0..h { for x in 0..w { ... } }] loops that push one
    cell per iteration: row [y] holds [f y x] for [x] from 0. *)
Definition grid_by_index {A : Type} (h w : nat) (f : Z -> Z -> A) : list (list A) :=
  map (fun y => map (f y) (zrange w)) (zrange h).

Definition grid_cell {A : Type} (d : A) (g : list (list A)) (y x : nat) : A :=
  nth x (nth y g []) d.

Definition count_col {A : Type} (p : A -> bool) (d : A) (g : list (list A)) (x : nat) : nat :=
  length (filter (fun row => p (nth x row d)) g).

(** ** Lemmas *)

Lemma in_u8b_spec z : in_u8b z = true <-> in_u8 z.
Proof. unfold in_u8b, in_u8, u8_max. lia. Qed.

Lemma rgb_okb_spec c : rgb_okb c = true <-> rgb_ok c.
Proof.
  destruct c as [[r g] b]. unfold rgb_okb, rgb_ok.
  rewrite !andb_true_iff, !in_u8b_spec. tauto.
Qed.

Lemma rgb_ok_intro r g b : in_u8 r -> in_u8 g -> in_u8 b -> rgb_ok (r, g, b).
Proof. now cbn. Qed.

Lemma saturating_add_u8 a b : 0 <= a -> 0 <= b -> in_u8 (saturating_add a b).
Proof. unfold saturating_add, in_u8, u8_max. lia. Qed.

Lemma saturating_sub_u8 a b : in_u8 a -> 0 <= b -> in_u8 (saturating_sub a b).
Proof. unfold saturating_sub, in_u8, u8_max. lia. Qed.

Lemma wrap_small w z : 0 <= z < 2 ^ w -> wrap w z = z.
Proof. intros H. unfold wrap. now apply Z.mod_small. Qed.

Lemma wrap_range w z : 0 <= w -> 0 <= wrap w z < 2 ^ w.
Proof. intros H. unfold wrap. apply Z.mod_pos_bound. now apply Z.pow_pos_nonneg. Qed.

Lemma wrap_u8 z : in_u8 (wrap 8 z).
Proof. pose proof (wrap_range 8 z). unfold in_u8, u8_max. change (2 ^ 8) with 256 in *. lia. Qed.

Lemma length_zrange n : length (zrange n) = n.
Proof. unfold zrange. now rewrite length_map, length_seq. Qed.

Lemma in_zrange n z : In z (zrange n) <-> 0 <= z < Z.of_nat n.
Proof.
  unfold zrange. rewrite in_map_iff. split.
  - intros (k & <- & Hk). apply in_seq in Hk. lia.
  - intros Hz. exists (Z.to_nat z). split; [lia | apply in_seq; lia].
Qed.

Lemma nth_zrange n i d : (i < n)%nat -> nth i (zrange n) d = Z.of_nat i.
Proof.
  intros Hi. unfold zrange.
  rewrite (nth_indep _ d (Z.of_nat 0)) by now rewrite length_map, length_seq.
  now rewrite map_nth, seq_nth.
Qed.

Lemma nth_map_zrange {A} (f : Z -> A) n i d :
  (i < n)%nat -> nth i (map f (zrange n)) d = f (Z.of_nat i).
Proof.
  intros Hi.
  rewrite (nth_indep _ d (f 0)) by now rewrite length_map, length_zrange.
  now rewrite map_nth, nth_zrange.
Qed.

Lemma map_snd_combine {A B} (l : list A) (l' : list B) :
  length l = length l' -> map snd (combine l l') = l'.
Proof.
  revert l'. induction l as [|a l IH]; intros [|b l'] H; cbn in *; try congruence.
  f_equal. apply IH. congruence.
Qed.

Lemma fold_push {A} (f : Z -> A) l : forall acc,
  fold_left (fun v i => push v (f i)) l acc = acc ++ map f l.
Proof.
  induction l as [|i l IH]; intros acc; cbn [fold_left map].
  - now rewrite app_nil_r.
  - rewrite IH. unfold push. now rewrite <- app_assoc.
Qed.

(** The pushing loop builds the list of the values of its body. *)
Lemma collect_map {A} n (f : Z -> A) : collect n f = map f (zrange n).
Proof. unfold collect. now rewrite fold_push. Qed.

Lemma length_collect {A} n (f : Z -> A) : length (collect n f) = n.
Proof. now rewrite collect_map, length_map, length_zrange. Qed.

Lemma nth_collect {A} n (f : Z -> A) i d : (i < n)%nat -> nth i (collect n f) d = f (Z.of_nat i).
Proof. intros H. rewrite collect_map. now apply nth_map_zrange. Qed.

(** The nested pushing loops build the grid of the values of the inner body. *)
Lemma collect_grid {A} h w (f : Z -> Z -> A) :
  collect h (fun y => collect w (f y)) = grid_by_index h w f.
Proof.
  rewrite collect_map. unfold grid_by_index. apply map_ext. intros y. apply collect_map.
Qed.

Lemma zrange_succ n : zrange (S n) = zrange n ++ [Z.of_nat n].
Proof. unfold zrange. now rewrite seq_S, map_app. Qed.

(** Among the indices below [n], exactly one equals [k] when [0 <= k < n] and
    none otherwise. *)
Lemma count_eq_zrange n k :
  length (filter (fun y => y =? k) (zrange n))
  = if (0 <=? k) && (k <? Z.of_nat n) then 1%nat else 0%nat.
Proof.
  induction n as [|n IH].
  { cbn. destruct (Z.leb_spec 0 k), (Z.ltb_spec k 0); try reflexivity; lia. }
  rewrite zrange_succ, filter_app, length_app, IH. cbn [filter].
  destruct (Z.eqb_spec (Z.of_nat n) k) as [<-|Hne].
  - rewrite Z.ltb_irrefl, andb_false_r.
    rewrite (proj2 (Z.leb_le 0 _)), (proj2 (Z.ltb_lt _ (Z.of_nat (S n)))) by lia.
    reflexivity.
  - cbn [length]. rewrite Nat.add_0_r.
    destruct (0 <=? k); [|reflexivity]. cbn [andb].
    destruct (Z.ltb_spec k (Z.of_nat n)), (Z.ltb_spec k (Z.of_nat (S n))); try reflexivity; lia.
Qed.

(** The same count under a guard that does not depend on the row. *)
Lemma count_eq_zrange_if n k (g : bool) :
  length (filter (fun y => (y =? k) && g) (zrange n))
  = if g && ((0 <=? k) && (k <? Z.of_nat n)) then 1%nat else 0%nat.
Proof.
  destruct g; cbn [andb].
  - rewrite <- count_eq_zrange. f_equal. apply filter_ext. intros y. apply andb_true_r.
  - rewrite (filter_ext _ (fun _ => false)) by (intros y; apply andb_false_r).
    now induction (zrange n).
Qed.

Lemma count_col_grid {A} (p : A -> bool) d h w (f : Z -> Z -> A) x :
  (x < w)%nat ->
  count_col p d (grid_by_index h w f) x
  = length (filter (fun y => p (f y (Z.of_nat x))) (zrange h)).
Proof.
  intros Hx. unfold count_col, grid_by_index.
  induction (zrange h) as [|y l IH]; [reflexivity|].
  cbn [map filter]. rewrite nth_map_zrange by assumption.
  destruct (p (f y (Z.of_nat x))); cbn [length]; now rewrite IH.
Qed.

Lemma forall_below_spec n p :
  forall_below n p = true <-> forall z, 0 <= z < Z.of_nat n -> p z = true.
Proof.
  unfold forall_below. rewrite forallb_forall.
  split; intros H z Hz; apply H; now apply in_zrange.
Qed.

Lemma forall_below2_spec n m p :
  forall_below2 n m p = true <->
  forall a b, 0 <= a < Z.of_nat n -> 0 <= b < Z.of_nat m -> p a b = true.
Proof.
  unfold forall_below2. rewrite forall_below_spec. split.
  - intros H a b Ha Hb. specialize (H a Ha). now apply forall_below_spec with (z := b) in H.
  - intros H a Ha. apply forall_below_spec. intros b Hb. now apply H.
Qed.

(** Every [u8] satisfies a property that evaluates to [true] on the 256 of them. *)
Lemma forall_u8 (p : Z -> bool) :
  forall_below 256 p = true -> forall z, in_u8 z -> p z = true.
Proof.
  intros H z Hz. apply (proj1 (forall_below_spec 256 p) H).
  unfold in_u8, u8_max in Hz. lia.
Qed.

Lemma forall_u8_2 (p : Z -> Z -> bool) :
  forall_below2 256 256 p = true -> forall a b, in_u8 a -> in_u8 b -> p a b = true.
Proof.
  intros H a b Ha Hb. apply (proj1 (forall_below2_spec 256 256 p) H);
    unfold in_u8, u8_max in *; lia.
Qed.

Lemma length_grid_by_index {A} h w (f : Z -> Z -> A) :
  length (grid_by_index h w f) = h.
Proof. unfold grid_by_index. now rewrite length_map, length_zrange. Qed.

Lemma grid_by_index_rows {A} h w (f : Z -> Z -> A) :
  Forall (fun row => length row = w) (grid_by_index h w f).
Proof.
  unfold grid_by_index. apply Forall_forall. intros row Hrow.
  apply in_map_iff in Hrow. destruct Hrow as (y & <- & _).
  now rewrite length_map, length_zrange.
Qed.

Lemma nth_grid_by_index {A} h w (f : Z -> Z -> A) y :
  (y < h)%nat -> nth y (grid_by_index h w f) [] = map (f (Z.of_nat y)) (zrange w).
Proof. intros Hy. unfold grid_by_index. now rewrite nth_map_zrange. Qed.

Lemma grid_cell_by_index {A} (d : A) h w (f : Z -> Z -> A) y x :
  (y < h)%nat -> (x < w)%nat ->
  grid_cell d (grid_by_index h w f) y x = f (Z.of_nat y) (Z.of_nat x).
Proof.
  intros Hy Hx. unfold grid_cell.
  now rewrite nth_grid_by_index, nth_map_zrange.
Qed.

#[export] Hint Resolve saturating_add_u8 saturating_sub_u8 : viz.
#[export] Hint Rewrite @length_grid_by_index length_zrange : viz_rw.

(** ** Tactics *)

(** Reduce a goal [p z = true] for a [u8] [z] to the evaluation of [p] on all
    256 values; [enum_u8_2] does the same for two channels. *)
Ltac enum_u8 p z :=
  apply (forall_u8 p); [vm_compute; reflexivity | assumption].

Ltac enum_u8_2 p a b :=
  apply (forall_u8_2 p); [vm_compute; reflexivity | assumption | assumption].

Ltac unfold_u8 := unfold in_u8, in_u16, in_u64, u8_max, u16_max, u64_max in *.
