(* ===== verification/Ieee.v ===== *)
(** * Rust's [f64]: IEEE-754 binary64 on the Standard Library's [SpecFloat]

    Module [F64] fixes the format (53-bit significand, exponent bound 1024),
    names the arithmetic the sources use ([+], [-], [*], [/], [sqrt], the
    comparisons) and defines what the language adds to IEEE arithmetic: decimal
    literals, integer-to-float conversion, the saturating float-to-integer
    casts, [round], [max], [min] and the remainder operator [%].  [Libm] is the
    interface through which [sin] enters. *)

From Stdlib Require Import ZArith Lia Bool List SpecFloat.
From S2P Require Import Prelude.
Import ListNotations.
#[local] Open Scope Z_scope.

Module F64.

Definition f64 : Type := spec_float.

Definition prec : Z := 53.
Definition emax : Z := 1024.

(** An integer conversion [n as f64] (round to nearest even when [n] needs more
    than 53 bits; exact otherwise). *)
Definition of_Z (n : Z) : f64 := binary_normalize prec emax n 0 false.

Definition add : f64 -> f64 -> f64 := SFadd prec emax.
Definition sub : f64 -> f64 -> f64 := SFsub prec emax.
Definition mul : f64 -> f64 -> f64 := SFmul prec emax.
Definition div : f64 -> f64 -> f64 := SFdiv prec emax.
Definition sqrt : f64 -> f64 := SFsqrt prec emax.
Definition neg : f64 -> f64 := SFopp.

(** [a < b], [a <= b], [a > b], [a == b]; all false when an operand is NaN. *)
Definition ltb : f64 -> f64 -> bool := SFltb.
Definition leb : f64 -> f64 -> bool := SFleb.
Definition gtb (a b : f64) : bool := SFltb b a.
Definition eqb : f64 -> f64 -> bool := SFeqb.

(** The decimal literal [n / d] for [d] a power of ten: both are exact as
    floats, so the correctly rounded quotient is the correctly rounded decimal. *)
Definition lit (n d : Z) : f64 := div (of_Z n) (of_Z d).

Definition zero : f64 := S754_zero false.
Definition one : f64 := of_Z 1.

Definition is_nan (x : f64) : bool :=
  match x with S754_nan => true | _ => false end.

Definition is_finite (x : f64) : bool :=
  match x with S754_zero _ | S754_finite _ _ _ => true | _ => false end.

Definition sign (x : f64) : bool :=
  match x with
  | S754_zero s | S754_infinity s | S754_finite s _ _ => s
  | S754_nan => false
  end.

(** The integer part of the magnitude [m * 2^e]: a left shift for [e >= 0], a
    right shift (dropping the fraction bits) otherwise. *)
Definition trunc_mag (m : positive) (e : Z) : Z := Z.shiftl (Zpos m) e.

(** A float-to-integer cast [x as uN] saturates: NaN is 0, values below 0 are
    0, values above the maximum are the maximum, the rest is truncated. *)
Definition to_unsigned (top : Z) (x : f64) : Z :=
  match x with
  | S754_nan | S754_zero _ => 0
  | S754_infinity s => if s then 0 else top
  | S754_finite s m e => if s then 0 else Z.min top (trunc_mag m e)
  end.

Definition to_u8 : f64 -> Z := to_unsigned u8_max.
Definition to_usize : f64 -> Z := to_unsigned u64_max.

(** [f64::round]: nearest integer, halves away from zero; the sign of a zero
    result is the sign of the argument. *)
Definition round (x : f64) : f64 :=
  match x with
  | S754_finite s m e =>
      if 0 <=? e then x
      else
        let q := Z.shiftr (Zpos m) (- e) in
        let n := if Z.testbit (Zpos m) (- e - 1) then q + 1 else q in
        binary_normalize prec emax (cond_Zopp s n) 0 s
  | _ => x
  end.

(** [f64::max] and [f64::min]: a NaN operand is ignored. *)
Definition max (a b : f64) : f64 :=
  if is_nan a then b else if is_nan b then a else if ltb a b then b else a.

Definition min (a b : f64) : f64 :=
  if is_nan a then b else if is_nan b then a else if ltb b a then b else a.

(** The [%] operator on floats (C's [fmod]): the exact remainder of the
    truncated quotient, with the sign of the dividend. *)
Definition rem (x y : f64) : f64 :=
  match x, y with
  | S754_nan, _ | _, S754_nan => S754_nan
  | S754_infinity _, _ => S754_nan
  | _, S754_zero _ => S754_nan
  | S754_zero _, _ => x
  | S754_finite _ _ _, S754_infinity _ => x
  | S754_finite sx mx ex, S754_finite _ my ey =>
      let e := Z.min ex ey in
      let a := Z.shiftl (Zpos mx) (ex - e) in
      let b := Z.shiftl (Zpos my) (ey - e) in
      binary_normalize prec emax (cond_Zopp sx (a mod b)) e sx
  end.

(** Well-formed values of the format: what every operation returns. *)
Definition valid (x : f64) : bool := valid_binary prec emax x.

(** The exact value of a finite float as a fraction [num / 2^k], for
    comparing against integer formulas. *)
Definition to_dyadic (x : f64) : option (Z * Z) :=
  match x with
  | S754_zero _ => Some (0, 0)
  | S754_finite s m e =>
      if 0 <=? e then Some (cond_Zopp s (Z.shiftl (Zpos m) e), 0)
      else Some (cond_Zopp s (Zpos m), - e)
  | _ => None
  end.

(** Bit-for-bit equality (unlike [==], it separates the zeros and equates NaN
    with itself). *)
Definition same (x y : f64) : bool :=
  match x, y with
  | S754_zero a, S754_zero b | S754_infinity a, S754_infinity b => Bool.eqb a b
  | S754_nan, S754_nan => true
  | S754_finite a m e, S754_finite b m' e' => Bool.eqb a b && Pos.eqb m m' && Z.eqb e e'
  | _, _ => false
  end.

(** [x] has sign bit [s], or is NaN (which carries none). *)
Definition has_sign (s : bool) (x : f64) : Prop :=
  match x with
  | S754_zero s' | S754_infinity s' | S754_finite s' _ _ => s' = s
  | S754_nan => True
  end.

End F64.

(** ** The math library

    [sin] is a library routine, not an IEEE operation: its result is not
    determined bit for bit.  The renderers take it through this interface. *)

Class Libm : Type := { sin : F64.f64 -> F64.f64 }.

(** What the renderers rely on: on a finite argument the result is a
    well-formed float in [-1, 1]. *)
Class LibmOk (L : Libm) : Prop := {
  sin_valid : forall x, F64.valid x = true -> F64.valid (sin x) = true;
  sin_range : forall x, F64.is_finite x = true ->
    F64.leb (F64.of_Z (-1)) (sin x) = true /\ F64.leb (sin x) (F64.of_Z 1) = true
}.

(** ** Lemmas *)

Lemma to_unsigned_range top x : 0 <= top -> 0 <= F64.to_unsigned top x <= top.
Proof.
  intros Htop. unfold F64.to_unsigned, F64.trunc_mag.
  destruct x as [s|s| |s m e]; try destruct s; try lia.
  assert (0 <= Z.shiftl (Z.pos m) e) by (apply Z.shiftl_nonneg; lia). lia.
Qed.

Lemma to_u8_range x : in_u8 (F64.to_u8 x).
Proof. apply to_unsigned_range. unfold u8_max. lia. Qed.

Lemma to_usize_range x : in_u64 (F64.to_usize x).
Proof. apply to_unsigned_range. unfold u64_max. lia. Qed.

#[export] Hint Resolve to_u8_range to_usize_range : viz.

Lemma same_spec x y : F64.same x y = true <-> x = y.
Proof.
  destruct x as [a|a| |a m e], y as [b|b| |b m' e']; cbn [F64.same];
    rewrite ?andb_true_iff, ?Bool.eqb_true_iff, ?Pos.eqb_eq, ?Z.eqb_eq;
    split; intros H; try discriminate; try congruence; try reflexivity.
  - now destruct H as [[-> ->] ->].
  - now inversion H.
Qed.

(** Addition is commutative bit for bit, special values and the sign of a
    zero sum included. *)
Lemma add_comm x y : F64.add x y = F64.add y x.
Proof.
  unfold F64.add.
  destruct x as [a|a| |a mx ex], y as [b|b| |b my ey]; cbn [SFadd]; try reflexivity.
  - now destruct a, b.
  - now destruct a, b.
  - now rewrite Z.min_comm, Z.add_comm.
Qed.

(** ** Signs

    Rounding never changes the sign, so the rule of signs holds for the
    rounded product whatever the operands are. *)

Lemma binary_round_aux_sign s m e l :
  F64.has_sign s (binary_round_aux F64.prec F64.emax s m e l).
Proof.
  unfold binary_round_aux.
  destruct (shr_fexp _ _ m e l) as [mrs' e'].
  destruct (shr_fexp _ _ _ e' loc_Exact) as [mrs'' e''].
  destruct (shr_m mrs''); cbn; auto.
  destruct (e'' <=? _); cbn; auto.
Qed.

Lemma binary_normalize_sign m e s :
  F64.has_sign (if m =? 0 then s else m <? 0) (binary_normalize F64.prec F64.emax m e s).
Proof.
  destruct m as [|p|p]; cbn; auto; unfold binary_round;
    destruct (shl_align _ _ _) as [mz ez]; apply binary_round_aux_sign.
Qed.

Lemma of_Z_sign n : 0 <= n -> F64.has_sign false (F64.of_Z n).
Proof.
  intros Hn. unfold F64.of_Z.
  pose proof (binary_normalize_sign n 0 false) as H.
  destruct (Z.eqb_spec n 0); [assumption|].
  now replace (n <? 0) with false in H by lia.
Qed.

Lemma mul_sign sx sy x y :
  F64.has_sign sx x -> F64.has_sign sy y -> F64.has_sign (xorb sx sy) (F64.mul x y).
Proof.
  destruct x as [a|a| |a mx ex], y as [b|b| |b my ey]; cbn; intros; subst; auto.
  apply binary_round_aux_sign.
Qed.

Lemma div_sign sx sy x y :
  F64.has_sign sx x -> F64.has_sign sy y -> F64.has_sign (xorb sx sy) (F64.div x y).
Proof.
  destruct x as [a|a| |a mx ex], y as [b|b| |b my ey]; cbn; intros; subst; auto.
  destruct (SFdiv_core_binary _ _ _ _ _ _) as [[mz ez] lz]. apply binary_round_aux_sign.
Qed.

(** A sum of non-negative terms is non-negative (a zero sum is [+0.0]). *)
Lemma add_sign x y :
  F64.has_sign false x -> F64.has_sign false y -> F64.has_sign false (F64.add x y).
Proof.
  destruct x as [a|a| |a mx ex], y as [b|b| |b my ey]; intros Hx Hy;
    cbn [F64.has_sign] in Hx, Hy; subst; unfold F64.add;
    cbn [SFadd Bool.eqb F64.has_sign cond_Zopp]; auto.
  match goal with |- F64.has_sign _ (binary_normalize _ _ ?m ?e ?s) =>
    pose proof (binary_normalize_sign m e s) as H; destruct (Z.eqb_spec m 0) as [E|E];
      [assumption | now replace (m <? 0) with false in H by lia] end.
Qed.

(** The sign bit of a float that is not NaN. *)
Lemma has_sign_sign s x : F64.is_nan x = false -> F64.has_sign s x -> F64.sign x = s.
Proof. destruct x; cbn; intros; subst; auto; discriminate. Qed.

Lemma to_unsigned_neg top x : F64.has_sign true x -> F64.to_unsigned top x = 0.
Proof. destruct x; cbn; intros; subst; auto. Qed.

(** A float that is not above zero is NaN, a zero, or carries the sign bit. *)
Lemma not_pos_cases i :
  F64.gtb i F64.zero = false ->
  i = S754_nan \/ (exists s, i = S754_zero s) \/ F64.has_sign true i.
Proof. destruct i as [s|s| |s m e]; cbn; eauto; destruct s; cbn; auto; discriminate. Qed.

(** A non-negative factor times a factor that is not above zero casts to 0. *)
Lemma mul_not_pos top c i :
  F64.has_sign false c -> F64.gtb i F64.zero = false ->
  F64.to_unsigned top (F64.mul c i) = 0.
Proof.
  intros Hc Hi. destruct (not_pos_cases i Hi) as [->|[[s ->]|Hs]].
  - now destruct c.
  - now destruct c.
  - apply to_unsigned_neg. apply (mul_sign false true); assumption.
Qed.
