(* ===== verification/Exact.v ===== *)
(** * Exact operations on binary64

    When the exact result of an operation is a float, rounding returns it
    unchanged.  This file proves that for [binary_round] (a significand of at
    most 53 digits above the smallest exponent is stored as it is, shifted to
    its canonical exponent), and derives the shape of [x % 1.0]. *)

From Stdlib Require Import ZArith Lia Bool List SpecFloat.
From S2P Require Import Prelude Ieee.
Import ListNotations.
#[local] Open Scope Z_scope.

Abbreviation fexp := (SpecFloat.fexp F64.prec F64.emax).
Abbreviation emin := (SpecFloat.emin F64.prec F64.emax).

(** The number of binary digits of a significand. *)
Definition digits (m : positive) : Z := Zpos (digits2_pos m).

(** The bits of [1.0]. *)
Definition one_bits : F64.f64 := S754_finite false 4503599627370496 (-52).

(** [0.0 <= p < 1.0], as the program would test it. *)
Definition in_unit (p : F64.f64) : bool := F64.leb F64.zero p && F64.ltb p F64.one.

(** ** Digits *)

Lemma digits2_size p : digits2_pos p = Pos.size p.
Proof. induction p; cbn; congruence. Qed.

Lemma digits_pos m : 0 < digits m.
Proof. unfold digits. lia. Qed.

Lemma digits_bounds m : 2 ^ (digits m - 1) <= Zpos m < 2 ^ digits m.
Proof.
  unfold digits. rewrite digits2_size. split.
  - pose proof (Pos.size_le m) as H.
    assert (H' : (2 ^ Z.pos (Pos.size m) <= 2 * Z.pos m)) by (rewrite <- Pos2Z.inj_pow; lia).
    replace (Z.pos (Pos.size m)) with (Z.succ (Z.pos (Pos.size m) - 1)) in H' by lia.
    rewrite Z.pow_succ_r in H' by lia. lia.
  - pose proof (Pos.size_gt m) as H. rewrite <- Pos2Z.inj_pow. lia.
Qed.

Lemma digits_unique m d : 2 ^ (d - 1) <= Zpos m < 2 ^ d -> digits m = d.
Proof.
  intros [Hl Hu]. pose proof (digits_bounds m) as [Hl' Hu']. pose proof (digits_pos m).
  assert (0 < d).
  { destruct (Z.ltb_spec 0 d); [assumption|]. exfalso.
    destruct (Z.eq_dec d 0) as [->|]; [cbn in Hu; lia|].
    rewrite Z.pow_neg_r in Hu by lia. lia. }
  destruct (Z.lt_trichotomy (digits m) d) as [Hlt|[Heq|Hgt]]; [|assumption|].
  - assert (2 ^ digits m <= 2 ^ (d - 1)) by (apply Z.pow_le_mono_r; lia). lia.
  - assert (2 ^ d <= 2 ^ (digits m - 1)) by (apply Z.pow_le_mono_r; lia). lia.
Qed.

Lemma iter_xO m n : Zpos (Pos.iter xO m n) = Zpos m * 2 ^ Zpos n.
Proof.
  revert m. induction n using Pos.peano_ind; intros m.
  - rewrite Pos.iter_succ_r || cbn. cbn. lia.
  - rewrite Pos.iter_succ. rewrite Pos2Z.inj_xO, IHn, Pos2Z.inj_succ, Z.pow_succ_r by lia. lia.
Qed.

Lemma digits_shift m n : digits (Pos.iter xO m n) = digits m + Zpos n.
Proof.
  apply digits_unique. rewrite iter_xO. pose proof (digits_bounds m) as [Hl Hu].
  pose proof (digits_pos m).
  replace (digits m + Z.pos n - 1) with ((digits m - 1) + Z.pos n) by lia.
  rewrite !Z.pow_add_r by lia.
  assert (0 < 2 ^ Z.pos n) by (apply Z.pow_pos_nonneg; lia). nia.
Qed.

(** ** Normalisation of exact values *)

Lemma shl_align_spec m e e' :
  e' <= e -> exists m', shl_align m e e' = (m', e') /\ Zpos m' = Zpos m * 2 ^ (e - e').
Proof.
  intros H. unfold shl_align. destruct (e' - e) as [|d|d] eqn:E; try lia.
  - assert (e' = e) by lia. subst. exists m. rewrite Z.sub_diag. split; [reflexivity|lia].
  - exists (Pos.iter xO m d). split; [reflexivity|]. rewrite iter_xO. f_equal. f_equal. lia.
Qed.

Lemma shr_fexp_exact m e :
  fexp (digits m + e) <= e ->
  shr_fexp F64.prec F64.emax (Zpos m) e loc_Exact
  = ({| shr_m := Zpos m; shr_r := false; shr_s := false |}, e).
Proof.
  intros H. unfold shr_fexp, shr. cbn [Zdigits2 shr_record_of_loc].
  fold (digits m). now destruct (fexp (digits m + e) - e) eqn:E; try lia.
Qed.

Lemma binary_round_aux_exact s m e :
  fexp (digits m + e) <= e ->
  binary_round_aux F64.prec F64.emax s (Zpos m) e loc_Exact
  = if e <=? F64.emax - F64.prec then S754_finite s m e else S754_infinity s.
Proof.
  intros H. unfold binary_round_aux.
  rewrite shr_fexp_exact by assumption. cbn [shr_m loc_of_shr_record round_nearest_even].
  rewrite shr_fexp_exact by assumption. reflexivity.
Qed.

(** A mantissa of at most 53 digits above the smallest exponent is represented exactly. *)
Lemma binary_round_exact s m e :
  digits m <= F64.prec -> emin <= e ->
  exists m', 
    binary_round F64.prec F64.emax s m e
    = (if fexp (digits m + e) <=? F64.emax - F64.prec
       then S754_finite s m' (fexp (digits m + e)) else S754_infinity s) /\
    fexp (digits m + e) <= e /\
    Zpos m' = Zpos m * 2 ^ (e - fexp (digits m + e)) /\
    digits m' + fexp (digits m + e) = digits m + e.
Proof.
  intros Hd He. unfold binary_round. fold (digits m).
  assert (Hle : fexp (digits m + e) <= e) by (unfold SpecFloat.fexp; lia).
  destruct (shl_align_spec m e _ Hle) as (m' & -> & Hm').
  assert (Hdig : digits m' + fexp (digits m + e) = digits m + e).
  { enough (digits m' = digits m + (e - fexp (digits m + e))) by lia.
    apply digits_unique. rewrite Hm'. pose proof (digits_bounds m) as [Hl Hu].
    pose proof (digits_pos m).
    replace (digits m + (e - fexp (digits m + e)) - 1)
      with ((digits m - 1) + (e - fexp (digits m + e))) by lia.
    rewrite !Z.pow_add_r by lia.
    assert (0 < 2 ^ (e - fexp (digits m + e))) by (apply Z.pow_pos_nonneg; lia). nia. }
  exists m'. rewrite binary_round_aux_exact by (rewrite Hdig; lia).
  auto.
Qed.

Lemma digits_le_pow m k : 0 <= k -> Zpos m < 2 ^ k -> digits m <= k.
Proof.
  intros Hk H. pose proof (digits_bounds m) as [Hl _]. pose proof (digits_pos m).
  destruct (Z.le_gt_cases (digits m) k) as [|Hgt]; [assumption|].
  assert (2 ^ k <= 2 ^ (digits m - 1)) by (apply Z.pow_le_mono_r; lia). lia.
Qed.

Lemma digits_mono a b : (a <= b)%positive -> digits a <= digits b.
Proof.
  intros H. apply digits_le_pow; [pose proof (digits_pos b); lia|].
  pose proof (digits_bounds b). lia.
Qed.

(** ** Well-formed floats *)

Lemma valid_finite s m e :
  F64.valid (S754_finite s m e) = true ->
  digits m <= F64.prec /\ emin <= e /\ e <= F64.emax - F64.prec.
Proof.
  unfold F64.valid, valid_binary, bounded, canonical_mantissa. fold (digits m).
  rewrite andb_true_iff, Z.eqb_eq, Z.leb_le. unfold SpecFloat.fexp. lia.
Qed.

(** ** The remainder by one *)

Lemma one_eq : F64.one = one_bits.
Proof. reflexivity. Qed.

Lemma rem_one_shape s m e :
  digits m <= F64.prec -> emin <= e ->
  F64.rem (S754_finite s m e) F64.one = S754_zero s \/
  exists m' e', F64.rem (S754_finite s m e) F64.one = S754_finite s m' e' /\ e' <= -53.
Proof.
  intros Hd He. rewrite one_eq. unfold one_bits, F64.rem.
  remember (Z.min e (-52)) as e0 eqn:He0.
  assert (Hb : Z.shiftl 4503599627370496 (-52 - e0) = 2 ^ (- e0)).
  { rewrite Z.shiftl_mul_pow2 by lia. change 4503599627370496 with (2 ^ 52).
    rewrite <- Z.pow_add_r by lia. f_equal. lia. }
  rewrite Hb.
  assert (Hpow : 0 < 2 ^ (- e0)) by (apply Z.pow_pos_nonneg; lia).
  pose proof (Z.mod_pos_bound (Z.shiftl (Z.pos m) (e - e0)) (2 ^ (- e0)) Hpow) as [Hr0 Hr1].
  assert (Hra : Z.shiftl (Z.pos m) (e - e0) mod 2 ^ (- e0) <= Z.shiftl (Z.pos m) (e - e0)).
  { apply Z.mod_le; [apply Z.shiftl_nonneg|]; lia. }
  destruct (Z.shiftl (Z.pos m) (e - e0) mod 2 ^ (- e0)) as [|r|r] eqn:Er;
    [left; now destruct s| |lia].
  right.
  assert (Hdr : digits r <= F64.prec).
  { destruct (Z.le_gt_cases e (-52)).
    - replace (e - e0) with 0 in Hra by lia.
      etransitivity; [apply digits_mono|exact Hd]. rewrite Z.shiftl_0_r in Hra. lia.
    - replace (- e0) with 52 in Hr1 by lia.
      etransitivity; [apply (digits_le_pow r 52); lia|]. unfold F64.prec. lia. }
  assert (He' : emin <= e0) by (unfold SpecFloat.emin, F64.prec, F64.emax in *; lia).
  assert (Hn : binary_normalize F64.prec F64.emax (cond_Zopp s (Z.pos r)) e0 s
               = binary_round F64.prec F64.emax s r e0) by now destruct s.
  rewrite Hn.
  destruct (binary_round_exact s r e0 Hdr He') as (m' & -> & Hle & _ & Hdig).
  assert (digits r <= - e0) by (apply digits_le_pow; lia).
  assert (Hf : fexp (digits r + e0) <= -53)
    by (unfold SpecFloat.fexp, SpecFloat.emin, F64.prec, F64.emax; lia).
  replace (fexp (digits r + e0) <=? F64.emax - F64.prec) with true
    by (symmetry; apply Z.leb_le; transitivity (-53); [exact Hf | now cbv]).
  eauto.
Qed.

Lemma in_unit_finite m e : e <= -53 -> in_unit (S754_finite false m e) = true.
Proof.
  intros He. unfold in_unit. rewrite one_eq. unfold one_bits.
  unfold F64.leb, F64.ltb, SFleb, SFltb, SFcompare, F64.zero.
  now rewrite (proj2 (Z.compare_lt_iff e (-52))) by lia.
Qed.

(** The remainder by [1.0] of a well-formed, finite, non-negative float lies in
    [[0, 1)]. *)
Lemma rem_one_in_unit q :
  F64.valid q = true -> F64.is_finite q = true -> F64.sign q = false ->
  in_unit (F64.rem q F64.one) = true.
Proof.
  intros Hv Hf Hs. destruct q as [s|s| |s m e]; try discriminate; cbn in Hs; subst s.
  - reflexivity.
  - apply valid_finite in Hv. destruct Hv as (Hd & He & _).
    destruct (rem_one_shape false m e Hd He) as [->|(m' & e' & -> & He')]; [reflexivity|].
    now apply in_unit_finite.
Qed.

(** The remainder by [1.0] is NaN exactly when the dividend is not finite. *)
Lemma rem_one_nan q :
  F64.valid q = true -> F64.is_nan (F64.rem q F64.one) = negb (F64.is_finite q).
Proof.
  intros Hv. destruct q as [s|s| |s m e]; [reflexivity..|].
  apply valid_finite in Hv. destruct Hv as (Hd & He & _).
  now destruct (rem_one_shape s m e Hd He) as [->|(m' & e' & -> & He')].
Qed.
