(* ===== verification/Round.v ===== *)
(** * What rounding returns

    Every arithmetic operation of [SpecFloat] ends in [binary_round_aux]: it
    shifts the significand right until its exponent is the canonical one,
    rounds to nearest (ties to even) with the bits shifted out, and shifts
    once more when the rounding carried into a 54th digit.  This file proves
    the shape of its result, whatever the bits shifted out are: the
    significand is the truncated one or its successor, at the canonical
    exponent, and the result is a well-formed float.  When nothing is shifted
    out (the input is a multiple of the unit of its canonical exponent) the
    result is that multiple. *)

From Stdlib Require Import ZArith Lia Bool List SpecFloat.
From S2P Require Import Prelude Ieee Exact.
#[local] Open Scope Z_scope.

(** The float of sign [s] and significand [r <= 2^53] at exponent [E]. *)
Definition encode (s : bool) (r E : Z) : F64.f64 :=
  match r with
  | Z0 => S754_zero s
  | Zpos p =>
      if r =? 2 ^ 53
      then if E + 1 <=? F64.emax - F64.prec
           then S754_finite s 4503599627370496 (E + 1) else S754_infinity s
      else if E <=? F64.emax - F64.prec then S754_finite s p E else S754_infinity s
  | Zneg _ => S754_nan
  end.

(** The canonical exponent of a significand [mx] (zero included) at [ex]. *)
Definition cexp (mx ex : Z) : Z := fexp (Zdigits2 mx + ex).

(** No bit has been shifted out so far. *)
Definition clean (mrs : shr_record) : Prop := shr_r mrs = false /\ shr_s mrs = false.

Ltac unfold_fexp := unfold cexp, SpecFloat.fexp, SpecFloat.emin, F64.prec, F64.emax in *.

(** ** Shifting right *)

Lemma shr_1_m mrs : 0 <= shr_m mrs -> shr_m (shr_1 mrs) = shr_m mrs / 2.
Proof.
  destruct mrs as [m r s]. cbn [shr_m]. intros H.
  destruct m as [|[p|p|]|p]; cbn [shr_1 shr_m]; try lia; try reflexivity.
  - apply Z.div_unique with 1; lia.
  - apply Z.div_unique with 0; lia.
Qed.

Lemma shr_iter_m n mrs :
  0 <= shr_m mrs -> shr_m (iter_pos shr_1 n mrs) = shr_m mrs / 2 ^ Zpos n.
Proof.
  revert mrs. induction n as [n IH|n IH|]; intros mrs H; cbn [iter_pos].
  - assert (H1 : 0 <= shr_m (shr_1 mrs)) by (rewrite shr_1_m by assumption; apply Z.div_pos; lia).
    assert (Hp : 0 < 2 ^ Z.pos n) by (apply Z.pow_pos_nonneg; lia).
    assert (H2 : 0 <= shr_m (iter_pos shr_1 n (shr_1 mrs)))
      by (rewrite IH by assumption; apply Z.div_pos; lia).
    rewrite IH, IH, shr_1_m by assumption.
    rewrite !Z.div_div by lia. f_equal.
    replace (Z.pos n~1) with (1 + Z.pos n + Z.pos n) by lia.
    rewrite !Z.pow_add_r by lia. change (2 ^ 1) with 2. ring.
  - assert (Hp : 0 < 2 ^ Z.pos n) by (apply Z.pow_pos_nonneg; lia).
    assert (H2 : 0 <= shr_m (iter_pos shr_1 n mrs))
      by (rewrite IH by assumption; apply Z.div_pos; lia).
    rewrite IH, IH by assumption. rewrite Z.div_div by lia. f_equal.
    replace (Z.pos n~0) with (Z.pos n + Z.pos n) by lia.
    now rewrite Z.pow_add_r by lia.
  - rewrite shr_1_m by assumption. reflexivity.
Qed.

(** ** Digits and exponents *)

Lemma zdigits_nonneg m : 0 <= Zdigits2 m.
Proof. destruct m; cbn; lia. Qed.

Lemma zdigits_bounds m : 0 < m -> 2 ^ (Zdigits2 m - 1) <= m < 2 ^ Zdigits2 m.
Proof. destruct m as [|p|p]; try lia. intros _. apply (digits_bounds p). Qed.

Lemma zdigits_le_pow m k : 0 <= k -> 0 <= m < 2 ^ k -> Zdigits2 m <= k.
Proof.
  intros Hk [H0 H]. destruct m as [|p|p]; cbn [Zdigits2]; try lia.
  now apply (digits_le_pow p k).
Qed.

Lemma fexp_ge_emin e : emin <= fexp e.
Proof. unfold_fexp. lia. Qed.

Lemma shr_record_of_loc_m m l : shr_m (shr_record_of_loc m l) = m.
Proof. now destruct l as [|[]]. Qed.

Lemma shr_fexp_m mx ex lx :
  0 <= mx -> ex <= fexp (Zdigits2 mx + ex) ->
  exists mrs, shr_fexp F64.prec F64.emax mx ex lx = (mrs, fexp (Zdigits2 mx + ex)) /\
              shr_m mrs = mx / 2 ^ (fexp (Zdigits2 mx + ex) - ex).
Proof.
  intros Hm He. unfold shr_fexp, shr.
  destruct (fexp (Zdigits2 mx + ex) - ex) as [|n|n] eqn:En; try lia.
  - eexists. split; [f_equal; lia|]. rewrite shr_record_of_loc_m. now rewrite Z.div_1_r.
  - eexists. split; [f_equal; lia|].
    rewrite shr_iter_m by (rewrite shr_record_of_loc_m; assumption).
    now rewrite shr_record_of_loc_m.
Qed.

Lemma round_nearest_even_cases q l :
  round_nearest_even q l = q \/ round_nearest_even q l = q + 1.
Proof. destruct l as [|[]]; cbn; auto. destruct (Z.even q); auto. Qed.

Lemma shr_fexp_id r E :
  0 <= r < 2 ^ 53 -> emin <= E ->
  shr_fexp F64.prec F64.emax r E loc_Exact = ({| shr_m := r; shr_r := false; shr_s := false |}, E).
Proof.
  intros Hr HE. unfold shr_fexp, shr. cbn [shr_record_of_loc].
  pose proof (zdigits_le_pow r 53 ltac:(lia) Hr) as Hd.
  destruct (fexp (Zdigits2 r + E) - E) as [|n|n] eqn:En; try reflexivity.
  exfalso. revert En. unfold_fexp. lia.
Qed.

Lemma shr_fexp_carry E :
  emin <= E ->
  shr_fexp F64.prec F64.emax (2 ^ 53) E loc_Exact
  = ({| shr_m := 2 ^ 52; shr_r := false; shr_s := false |}, E + 1).
Proof.
  intros HE. unfold shr_fexp, shr. cbn [shr_record_of_loc].
  change (Zdigits2 (2 ^ 53)) with 54.
  replace (fexp (54 + E) - E) with 1 by (unfold_fexp; lia). reflexivity.
Qed.

Lemma encode_eq s r E :
  0 <= r <= 2 ^ 53 -> emin <= E ->
  (let '(mrs, e) := shr_fexp F64.prec F64.emax r E loc_Exact in
   match shr_m mrs with
   | Z0 => S754_zero s
   | Zpos m => if e <=? F64.emax - F64.prec then S754_finite s m e else S754_infinity s
   | Zneg _ => S754_nan
   end) = encode s r E.
Proof.
  intros Hr HE. unfold encode. destruct (Z.eqb_spec r (2 ^ 53)) as [->|Hne].
  - rewrite shr_fexp_carry by assumption. reflexivity.
  - rewrite shr_fexp_id by lia. cbn [shr_m]. now destruct r.
Qed.

Theorem binary_round_aux_spec s mx ex lx :
  0 <= mx -> ex <= fexp (Zdigits2 mx + ex) ->
  exists r,
    (r = mx / 2 ^ (fexp (Zdigits2 mx + ex) - ex) \/
     r = mx / 2 ^ (fexp (Zdigits2 mx + ex) - ex) + 1) /\
    r <= 2 ^ 53 /\
    (fexp (Zdigits2 mx + ex) = emin \/ 2 ^ 52 <= mx / 2 ^ (fexp (Zdigits2 mx + ex) - ex)) /\
    binary_round_aux F64.prec F64.emax s mx ex lx = encode s r (fexp (Zdigits2 mx + ex)).
Proof.
  intros Hm He. set (E := fexp (Zdigits2 mx + ex)) in *. set (n := E - ex).
  assert (Hn : 0 <= n) by (unfold n; lia).
  assert (Hp : 0 < 2 ^ n) by (apply Z.pow_pos_nonneg; lia).
  destruct (shr_fexp_m mx ex lx Hm He) as (mrs & Hs & Hq). fold E in Hs, Hq. fold n in Hq.
  set (q := mx / 2 ^ n) in *.
  assert (Hq0 : 0 <= q) by (apply Z.div_pos; lia).
  assert (Hq53 : q < 2 ^ 53).
  { apply Z.div_lt_upper_bound; [assumption|].
    destruct (Z.eq_dec mx 0) as [->|]; [lia|].
    pose proof (zdigits_bounds mx ltac:(lia)) as [_ Hu].
    assert (2 ^ Zdigits2 mx <= 2 ^ (n + 53)).
    { apply Z.pow_le_mono_r; [lia|]. unfold n, E. unfold_fexp. lia. }
    rewrite Z.pow_add_r in H by lia. lia. }
  assert (Hnorm : E = emin \/ 2 ^ 52 <= q).
  { destruct (Z.eq_dec E emin) as [|Hne]; [now left|right].
    destruct (Z.eq_dec mx 0) as [->|Hmx].
    - exfalso. unfold E in *. cbn [Zdigits2] in *. unfold_fexp. lia.
    - pose proof (zdigits_bounds mx ltac:(lia)) as [Hl _].
      apply Z.div_le_lower_bound; [assumption|].
      assert (Hd : Zdigits2 mx - 1 = n + 52) by (unfold n, E in *; unfold_fexp; lia).
      rewrite Hd, Z.pow_add_r in Hl by lia. lia. }
  exists (round_nearest_even q (loc_of_shr_record mrs)).
  destruct (round_nearest_even_cases q (loc_of_shr_record mrs)) as [Hr|Hr].
  - split; [now left|]. split; [lia|]. split; [assumption|].
    unfold binary_round_aux. rewrite Hs, Hq. apply encode_eq; [lia|apply fexp_ge_emin].
  - split; [now right|]. split; [lia|]. split; [assumption|].
    unfold binary_round_aux. rewrite Hs, Hq. apply encode_eq; [lia|apply fexp_ge_emin].
Qed.

(** ** The result is well-formed *)

Lemma encode_valid s r E :
  0 <= r <= 2 ^ 53 -> emin <= E -> (E = emin \/ 2 ^ 52 <= r) ->
  F64.valid (encode s r E) = true.
Proof.
  intros Hr HE Hn. unfold encode. destruct r as [|p|p]; [reflexivity| |lia].
  destruct (Z.eqb_spec (Z.pos p) (2 ^ 53)) as [Hp|Hp].
  - destruct (Z.leb_spec (E + 1) (F64.emax - F64.prec)) as [Hle|]; [|reflexivity].
    unfold F64.valid, valid_binary, bounded, canonical_mantissa.
    change (Z.pos (digits2_pos 4503599627370496)) with 53.
    apply andb_true_iff. split; [apply Z.eqb_eq; unfold_fexp; lia|now apply Z.leb_le].
  - destruct (Z.leb_spec E (F64.emax - F64.prec)) as [Hle|]; [|reflexivity].
    unfold F64.valid, valid_binary, bounded, canonical_mantissa. fold (digits p).
    apply andb_true_iff. split; [|now apply Z.leb_le]. apply Z.eqb_eq.
    assert (Hd : digits p <= 53) by (apply digits_le_pow; lia).
    destruct Hn as [->|H52]; [unfold_fexp; lia|].
    assert (digits p = 53) by (apply digits_unique; lia).
    unfold_fexp. lia.
Qed.

Lemma binary_round_aux_valid s mx ex lx :
  0 <= mx -> ex <= fexp (Zdigits2 mx + ex) ->
  F64.valid (binary_round_aux F64.prec F64.emax s mx ex lx) = true.
Proof.
  intros Hm He.
  destruct (binary_round_aux_spec s mx ex lx Hm He) as (r & Hr & Hr53 & Hn & ->).
  assert (Hq : 0 <= mx / 2 ^ (fexp (Zdigits2 mx + ex) - ex))
    by (apply Z.div_pos; [assumption|apply Z.pow_pos_nonneg; lia]).
  apply encode_valid; [lia|apply fexp_ge_emin|]. destruct Hn; [now left|right; lia].
Qed.

Lemma encode_sign s r E : F64.has_sign s (encode s r E).
Proof.
  unfold encode. destruct r; cbn; auto.
  repeat match goal with |- context [if ?b then _ else _] => destruct b end; cbn; auto.
Qed.

(** ** Rounding an exact multiple *)

Lemma mod_pow_split a j k :
  0 <= j -> 0 <= k -> a mod 2 ^ (j + k) = 0 -> a mod 2 ^ j = 0 /\ (a / 2 ^ j) mod 2 ^ k = 0.
Proof.
  intros Hj Hk H.
  assert (Pj : 0 < 2 ^ j) by (apply Z.pow_pos_nonneg; lia).
  assert (Pk : 0 < 2 ^ k) by (apply Z.pow_pos_nonneg; lia).
  apply Z.mod_divide in H; [|rewrite Z.pow_add_r by lia; lia].
  destruct H as [c Hc]. rewrite Z.pow_add_r in Hc by lia.
  assert (E : a = (c * 2 ^ k) * 2 ^ j) by lia.
  rewrite E. split; [apply Z.mod_mul; lia|]. rewrite Z.div_mul by lia. apply Z.mod_mul. lia.
Qed.

Lemma shr_1_clean mrs :
  0 <= shr_m mrs -> clean mrs -> shr_m mrs mod 2 ^ 1 = 0 -> clean (shr_1 mrs).
Proof.
  destruct mrs as [m r s]. unfold clean. cbn [shr_m shr_r shr_s]. intros Hm [-> ->] He.
  change (2 ^ 1) with 2 in He.
  destruct m as [|[p|p|]|p]; cbn; auto; try lia.
  - exfalso. rewrite Pos2Z.inj_xI in He. rewrite Z.add_comm, Z.mul_comm, Z.mod_add in He by lia.
    discriminate.
  - discriminate.
Qed.

Lemma shr_iter_clean n mrs :
  0 <= shr_m mrs -> clean mrs -> shr_m mrs mod 2 ^ Zpos n = 0 ->
  clean (iter_pos shr_1 n mrs).
Proof.
  revert mrs. induction n as [n IH|n IH|]; intros mrs Hm Hc Hd; cbn [iter_pos].
  - replace (Z.pos n~1) with (1 + (Z.pos n + Z.pos n)) in Hd by lia.
    apply mod_pow_split in Hd as [H1 H2]; try lia.
    apply mod_pow_split in H2 as [H2 H3]; try lia.
    assert (M1 : shr_m (shr_1 mrs) = shr_m mrs / 2 ^ 1) by now apply shr_1_m.
    assert (P1 : 0 <= shr_m (shr_1 mrs)) by (rewrite M1; apply Z.div_pos; lia).
    assert (C1 : clean (shr_1 mrs)) by now apply shr_1_clean.
    assert (M2 : shr_m (iter_pos shr_1 n (shr_1 mrs)) = shr_m (shr_1 mrs) / 2 ^ Z.pos n)
      by now apply shr_iter_m.
    apply IH.
    + rewrite M2. apply Z.div_pos; [assumption|apply Z.pow_pos_nonneg; lia].
    + apply IH; [assumption|assumption|now rewrite M1].
    + now rewrite M2, M1.
  - replace (Z.pos n~0) with (Z.pos n + Z.pos n) in Hd by lia.
    apply mod_pow_split in Hd as [H1 H2]; try lia.
    assert (M2 : shr_m (iter_pos shr_1 n mrs) = shr_m mrs / 2 ^ Z.pos n) by now apply shr_iter_m.
    apply IH.
    + rewrite M2. apply Z.div_pos; [assumption|apply Z.pow_pos_nonneg; lia].
    + now apply IH.
    + now rewrite M2.
  - now apply shr_1_clean.
Qed.

Lemma clean_loc mrs : clean mrs -> loc_of_shr_record mrs = loc_Exact.
Proof. destruct mrs as [m r s]. intros [H1 H2]. cbn in *. now subst. Qed.

(** Shifting an exact multiple of the shift loses nothing. *)
Lemma shr_fexp_clean mx ex :
  0 <= mx -> ex <= fexp (Zdigits2 mx + ex) ->
  mx mod 2 ^ (fexp (Zdigits2 mx + ex) - ex) = 0 ->
  exists mrs, shr_fexp F64.prec F64.emax mx ex loc_Exact = (mrs, fexp (Zdigits2 mx + ex)) /\
              shr_m mrs = mx / 2 ^ (fexp (Zdigits2 mx + ex) - ex) /\
              loc_of_shr_record mrs = loc_Exact.
Proof.
  intros Hm He Hd. unfold shr_fexp, shr.
  destruct (fexp (Zdigits2 mx + ex) - ex) as [|n|n] eqn:En; try lia.
  - eexists. split; [f_equal; lia|]. cbn [shr_record_of_loc shr_m]. rewrite Z.div_1_r. now split.
  - eexists. split; [f_equal; lia|]. split.
    + rewrite shr_iter_m by (rewrite shr_record_of_loc_m; assumption).
      now rewrite shr_record_of_loc_m.
    + apply clean_loc, shr_iter_clean; cbn [shr_record_of_loc shr_m]; [assumption|now split|assumption].
Qed.

(** An exact multiple of the unit of its canonical exponent is not changed
    by rounding. *)
Theorem binary_round_aux_multiple s mx ex :
  0 <= mx -> ex <= fexp (Zdigits2 mx + ex) ->
  mx mod 2 ^ (fexp (Zdigits2 mx + ex) - ex) = 0 ->
  binary_round_aux F64.prec F64.emax s mx ex loc_Exact
  = encode s (mx / 2 ^ (fexp (Zdigits2 mx + ex) - ex)) (fexp (Zdigits2 mx + ex)).
Proof.
  intros Hm He Hd.
  destruct (binary_round_aux_spec s mx ex loc_Exact Hm He) as (r & _ & _ & Hn & _).
  destruct (shr_fexp_clean mx ex Hm He Hd) as (mrs & Hs & Hq & Hl).
  set (E := fexp (Zdigits2 mx + ex)) in *. set (q := mx / 2 ^ (E - ex)) in *.
  assert (Hq0 : 0 <= q) by (apply Z.div_pos; [assumption|apply Z.pow_pos_nonneg; lia]).
  assert (Hq53 : q < 2 ^ 53).
  { apply Z.div_lt_upper_bound; [apply Z.pow_pos_nonneg; lia|].
    destruct (Z.eq_dec mx 0) as [->|]; [apply Z.mul_pos_pos; apply Z.pow_pos_nonneg; lia|].
    pose proof (zdigits_bounds mx ltac:(lia)) as [_ Hu].
    rewrite <- Z.pow_add_r by lia.
    eapply Z.lt_le_trans; [exact Hu|]. apply Z.pow_le_mono_r; [lia|]. unfold E. unfold_fexp. lia. }
  unfold binary_round_aux. rewrite Hs, Hq, Hl. cbn [round_nearest_even].
  apply encode_eq; [lia|apply fexp_ge_emin].
Qed.
