(* ===== verification/Real.v ===== *)
(** * The real value of a float, and the error of one rounding

    [B2R] gives a float its value as a real number.  On well-formed finite
    operands every operation of the format is the exact operation followed by
    one rounding: the result is well-formed, it is finite when the exact
    result is below [2^1023] in magnitude, and it is [near] the exact result
    (within a relative [2^-52] plus an absolute [2^-1074]).  Comparisons of
    the format are comparisons of the values, integers below [2^53] convert
    exactly, and the saturating casts are floors. *)

From Stdlib Require Import ZArith Lia Bool List SpecFloat Rbase Rfunctions Lra.
From S2P Require Import Prelude Ieee Exact Round.
#[local] Open Scope R_scope.

(** [2^e] for an integer exponent. *)
Definition bpow (e : Z) : R := powerRZ 2 e.

Definition sgn (s : bool) : R := if s then -1 else 1.

(** The real number a float stands for (zero for what is not a number). *)
Definition B2R (x : F64.f64) : R :=
  match x with
  | S754_finite s m e => sgn s * (IZR (Zpos m) * bpow e)
  | _ => 0
  end.

(** The relative error of one rounding is below [eps = 2^-52], the absolute
    error of a rounding into the subnormal range below [eta = 2^-1074]. *)
Definition eps : R := / 4503599627370496.
Definition eta : R := bpow (-1074).

(** [v] is [x] up to one rounding. *)
Definition near (x v : R) : Prop := Rabs (v - x) <= eps * Rabs x + eta.

(** ** Powers of two *)

Lemma bpow_pos e : 0 < bpow e.
Proof. apply powerRZ_lt. lra. Qed.

Lemma bpow_add a b : bpow (a + b) = bpow a * bpow b.
Proof. apply powerRZ_add. lra. Qed.

Lemma bpow_IZR k : (0 <= k)%Z -> bpow k = IZR (2 ^ k).
Proof.
  intros Hk. unfold bpow. rewrite <- (Z2Nat.id k Hk) at 1 2.
  now rewrite <- pow_powerRZ, pow_IZR.
Qed.

Lemma bpow_ge_1 k : (0 <= k)%Z -> 1 <= bpow k.
Proof.
  intros Hk. rewrite bpow_IZR by assumption. apply IZR_le.
  pose proof (Z.pow_pos_nonneg 2 k ltac:(lia) Hk). lia.
Qed.

Lemma bpow_le a b : (a <= b)%Z -> bpow a <= bpow b.
Proof.
  intros H. replace b with (a + (b - a))%Z by lia. rewrite bpow_add.
  pose proof (bpow_pos a). pose proof (bpow_ge_1 (b - a) ltac:(lia)). nra.
Qed.

Lemma bpow_lt a b : (a < b)%Z -> bpow a < bpow b.
Proof.
  intros H. replace b with (a + 1 + (b - a - 1))%Z by lia. rewrite !bpow_add.
  pose proof (bpow_pos a). pose proof (bpow_ge_1 (b - a - 1) ltac:(lia)).
  assert (bpow 1 = 2) by now rewrite bpow_IZR by lia. nra.
Qed.

Lemma bpow_1 : bpow 1 = 2.
Proof. now rewrite bpow_IZR by lia. Qed.

Lemma bpow_0 : bpow 0 = 1.
Proof. reflexivity. Qed.

Lemma bpow_opp k : bpow (- k) = / bpow k.
Proof.
  pose proof (bpow_pos k). apply Rmult_eq_reg_r with (bpow k); [|lra].
  rewrite <- bpow_add, Rinv_l by lra. now replace (- k + k)%Z with 0%Z by lia.
Qed.

Lemma bpow_neg_IZR k : (0 <= k)%Z -> bpow (- k) = / IZR (2 ^ k).
Proof. intros Hk. now rewrite bpow_opp, bpow_IZR. Qed.

Lemma eps_bpow : eps = bpow (-52).
Proof. change (-52)%Z with (- (52))%Z. now rewrite bpow_neg_IZR by lia. Qed.

Lemma eps_pos : 0 < eps.
Proof. unfold eps. lra. Qed.

Lemma eta_pos : 0 < eta.
Proof. apply bpow_pos. Qed.

Lemma eta_small : eta <= / 1267650600228229401496703205376.
Proof.
  unfold eta. transitivity (bpow (-100)); [apply bpow_le; lia|].
  change (-100)%Z with (- (100))%Z. rewrite bpow_neg_IZR by lia. apply Rle_refl.
Qed.

Lemma bpow_lt_inv a b : bpow a < bpow b -> (a < b)%Z.
Proof.
  intros H. destruct (Z.lt_ge_cases a b) as [|Hge]; [assumption|].
  pose proof (bpow_le b a Hge). lra.
Qed.

(** ** The value of a rounded significand *)

Lemma encode_B2R s r E :
  (0 <= r)%Z -> F64.is_finite (encode s r E) = true ->
  B2R (encode s r E) = sgn s * (IZR r * bpow E).
Proof.
  intros Hr. unfold encode. destruct r as [|p|p]; [cbn; intros _; lra| |lia].
  destruct (Z.eqb_spec (Z.pos p) (2 ^ 53)) as [->|Hp].
  - destruct (_ <=? _)%Z; [intros _|discriminate].
    cbn [B2R]. rewrite bpow_add, bpow_1. change (2 ^ 53)%Z with 9007199254740992%Z.
    pose proof (bpow_pos E). destruct s; cbn [sgn]; lra.
  - destruct (_ <=? _)%Z; [intros _|discriminate]. reflexivity.
Qed.

Lemma encode_finite s r E :
  (0 <= r <= 2 ^ 53)%Z -> (E = emin \/ 2 ^ 52 <= r)%Z ->
  IZR r * bpow E < bpow 1024 ->
  F64.is_finite (encode s r E) = true.
Proof.
  intros Hr Hn Hv. unfold encode. destruct r as [|p|p]; [reflexivity| |lia].
  assert (HE : (Z.pos p = 2 ^ 53 -> E + 1 <= 971)%Z).
  { intros Hp. rewrite Hp in Hv. rewrite <- bpow_IZR, <- bpow_add in Hv by lia.
    apply bpow_lt_inv in Hv. lia. }
  assert (HE' : (E <= 971)%Z).
  { destruct Hn as [->|H52]; [unfold_fexp; lia|].
    assert (bpow (52 + E) < bpow 1024); [|apply bpow_lt_inv in H; lia].
    rewrite bpow_add, bpow_IZR by lia. apply IZR_le in H52.
    pose proof (bpow_pos E). nra. }
  destruct (Z.eqb_spec (Z.pos p) (2 ^ 53)) as [Hp|Hp].
  - replace (E + 1 <=? F64.emax - F64.prec)%Z with true; [reflexivity|].
    symmetry. apply Z.leb_le. unfold_fexp. specialize (HE Hp). lia.
  - replace (E <=? F64.emax - F64.prec)%Z with true; [reflexivity|].
    symmetry. apply Z.leb_le. unfold_fexp. lia.
Qed.

(** One rounding of a non-negative real [x] whose truncation to the grid of
    exponent [ex] is [mx]: the result is finite when [x] is below [2^1023],
    carries the sign it is given, and its magnitude is within one unit in the
    last place of [x]. *)
Lemma round_aux_R s mx ex lx (x : R) :
  (0 <= mx)%Z -> (ex <= fexp (Zdigits2 mx + ex))%Z ->
  IZR mx * bpow ex <= x < (IZR mx + 1) * bpow ex ->
  x < bpow 1023 ->
  F64.is_finite (binary_round_aux F64.prec F64.emax s mx ex lx) = true /\
  exists v, B2R (binary_round_aux F64.prec F64.emax s mx ex lx) = sgn s * v /\
            0 <= v /\ Rabs (v - x) <= eps * x + eta.
Proof.
  intros Hm He [Hx0 Hx1] Hx.
  destruct (binary_round_aux_spec s mx ex lx Hm He) as (r & Hr & Hr53 & Hn & ->).
  set (E := fexp (Zdigits2 mx + ex)) in *. set (n := (E - ex)%Z) in *.
  assert (Hn0 : (0 <= n)%Z) by (unfold n; lia).
  assert (Hp : (0 < 2 ^ n)%Z) by (apply Z.pow_pos_nonneg; lia).
  set (q := (mx / 2 ^ n)%Z) in *.
  assert (Hq0 : (0 <= q)%Z) by (apply Z.div_pos; lia).
  pose proof (Z.div_mod mx (2 ^ n) ltac:(lia)) as Hdm. fold q in Hdm.
  pose proof (Z.mod_pos_bound mx (2 ^ n) Hp) as Hrem.
  assert (HE : bpow E = IZR (2 ^ n) * bpow ex).
  { rewrite <- bpow_IZR, <- bpow_add by lia. f_equal. unfold n. lia. }
  pose proof (bpow_pos ex) as Hbe. pose proof (bpow_pos E) as HbE.
  assert (HQ : IZR q * bpow E <= x).
  { rewrite HE. apply Rle_trans with (IZR mx * bpow ex); [|assumption].
    rewrite <- Rmult_assoc, <- mult_IZR. apply Rmult_le_compat_r; [lra|]. apply IZR_le. lia. }
  assert (HQ1 : x < (IZR q + 1) * bpow E).
  { rewrite HE. apply Rlt_le_trans with ((IZR mx + 1) * bpow ex); [assumption|].
    rewrite <- Rmult_assoc. apply Rmult_le_compat_r; [lra|].
    replace ((IZR q + 1) * IZR (2 ^ n)) with (IZR ((q + 1) * 2 ^ n))
      by (rewrite mult_IZR, plus_IZR; ring).
    replace (IZR mx + 1) with (IZR (mx + 1)) by (rewrite plus_IZR; ring).
    apply IZR_le. lia. }
  assert (HU : bpow E <= eps * x + eta).
  { assert (0 <= x) by (apply Rle_trans with (IZR q * bpow E); [|assumption];
                        apply Rmult_le_pos; [apply IZR_le; lia|lra]).
    destruct Hn as [HEm|H52].
    - assert (HbE' : bpow E = eta) by now rewrite HEm.
      pose proof eps_pos. nra.
    - apply IZR_le in H52. change (2 ^ 52)%Z with 4503599627370496%Z in H52.
      pose proof eta_pos. unfold eps. nra. }
  assert (Hv : IZR q * bpow E <= IZR r * bpow E <= (IZR q + 1) * bpow E).
  { destruct Hr as [->| ->]; [lra|]. rewrite plus_IZR. lra. }
  assert (Hfin : F64.is_finite (encode s r E) = true).
  { apply encode_finite; [lia|destruct Hn; [now left|right; lia]|].
    replace 1024%Z with (1023 + 1)%Z by lia. rewrite bpow_add, bpow_1.
    pose proof eta_small. pose proof (bpow_ge_1 1023 ltac:(lia)). unfold eps in HU.
    set (Q := IZR q * bpow E) in *. set (V := IZR r * bpow E) in *.
    replace ((IZR q + 1) * bpow E) with (Q + bpow E) in * by (unfold Q; ring). lra. }
  split; [assumption|]. exists (IZR r * bpow E). split; [apply encode_B2R; [lia|assumption]|].
  split; [apply Rmult_le_pos; [apply IZR_le; lia|lra]|].
  apply Rabs_le.
  set (Q := IZR q * bpow E) in *. set (V := IZR r * bpow E) in *.
  replace ((IZR q + 1) * bpow E) with (Q + bpow E) in * by (unfold Q; ring). lra.
Qed.

(** ** Well-formed operands *)

Lemma valid_canonical s m e :
  F64.valid (S754_finite s m e) = true ->
  (fexp (digits m + e) = e /\ digits m <= 53 /\ emin <= e <= 971 /\
   (digits m = 53 \/ e = emin))%Z.
Proof.
  unfold F64.valid, valid_binary, bounded, canonical_mantissa. fold (digits m).
  rewrite andb_true_iff, Z.eqb_eq, Z.leb_le. pose proof (digits_pos m). unfold_fexp. lia.
Qed.

Lemma digits_ge_pow m k : (2 ^ k <= Z.pos m -> k < digits m)%Z.
Proof.
  intros H. pose proof (digits_bounds m) as [_ Hu]. pose proof (digits_pos m).
  destruct (Z.lt_ge_cases k (digits m)) as [|Hge]; [assumption|].
  assert (2 ^ digits m <= 2 ^ k)%Z by (apply Z.pow_le_mono_r; lia). lia.
Qed.

Lemma digits_mul mx my : (digits mx + digits my - 1 <= digits (mx * my))%Z.
Proof.
  pose proof (digits_bounds mx) as [Hx _]. pose proof (digits_bounds my) as [Hy _].
  pose proof (digits_pos mx). pose proof (digits_pos my).
  enough (digits mx + digits my - 2 < digits (mx * my))%Z by lia.
  apply digits_ge_pow. rewrite Pos2Z.inj_mul.
  replace (digits mx + digits my - 2)%Z with ((digits mx - 1) + (digits my - 1))%Z by lia.
  rewrite Z.pow_add_r by lia.
  apply Z.mul_le_mono_nonneg; try assumption; apply Z.pow_nonneg; lia.
Qed.

(** ** Signs and magnitudes *)

Lemma sgn_xorb a b : sgn (xorb a b) = sgn a * sgn b.
Proof. destruct a, b; cbn; lra. Qed.

Lemma sgn_sq s : sgn s * sgn s = 1.
Proof. destruct s; cbn; lra. Qed.

Lemma near_sgn s X v :
  0 <= X -> Rabs (v - X) <= eps * X + eta -> near (sgn s * X) (sgn s * v).
Proof.
  intros HX H. unfold near. replace (sgn s * v - sgn s * X) with (sgn s * (v - X)) by ring.
  rewrite !Rabs_mult. replace (Rabs (sgn s)) with 1 by (destruct s; cbn; [rewrite Rabs_left|rewrite Rabs_right]; lra).
  rewrite (Rabs_pos_eq X) by assumption. lra.
Qed.

Lemma near_refl x : near x x.
Proof.
  unfold near. replace (x - x) with 0 by ring. rewrite Rabs_R0.
  pose proof eps_pos. pose proof eta_pos. pose proof (Rabs_pos x). nra.
Qed.

Lemma Rabs_sgn s X : 0 <= X -> Rabs (sgn s * X) = X.
Proof.
  intros HX. destruct s; cbn [sgn]; [rewrite Rabs_left1|rewrite Rabs_pos_eq]; lra.
Qed.

(** ** Multiplication *)

Lemma mul_precondition mx ex my ey :
  F64.valid (S754_finite false mx ex) = true -> F64.valid (S754_finite false my ey) = true ->
  (ex + ey <= fexp (Zdigits2 (Z.pos (mx * my)) + (ex + ey)))%Z.
Proof.
  intros Hx Hy. apply valid_canonical in Hx, Hy. cbn [Zdigits2]. fold (digits (mx * my)).
  pose proof (digits_mul mx my). pose proof (digits_pos mx). pose proof (digits_pos my).
  unfold_fexp. lia.
Qed.

Theorem mul_R a b :
  F64.valid a = true -> F64.valid b = true ->
  F64.is_finite a = true -> F64.is_finite b = true ->
  F64.valid (F64.mul a b) = true /\
  (Rabs (B2R a * B2R b) < bpow 1023 ->
   F64.is_finite (F64.mul a b) = true /\ near (B2R a * B2R b) (B2R (F64.mul a b))).
Proof.
  intros Va Vb Fa Fb.
  destruct a as [sa|sa| |sa ma ea], b as [sb|sb| |sb mb eb]; try discriminate;
    try (split; [reflexivity|intros _; split; [reflexivity|]];
         cbn [F64.mul SFmul B2R]; rewrite ?Rmult_0_l, ?Rmult_0_r; apply near_refl).
  assert (Hpre := mul_precondition ma ea mb eb Va Vb).
  unfold F64.mul, SFmul. split.
  - apply binary_round_aux_valid; [lia|assumption].
  - intros Hlt. cbn [B2R] in *.
    set (X := IZR (Z.pos (ma * mb)) * bpow (ea + eb)).
    assert (HX : sgn sa * (IZR (Z.pos ma) * bpow ea) * (sgn sb * (IZR (Z.pos mb) * bpow eb))
                 = sgn (xorb sa sb) * X).
    { unfold X. rewrite sgn_xorb, Pos2Z.inj_mul, mult_IZR, bpow_add. ring. }
    assert (HX0 : 0 <= X).
    { unfold X. apply Rmult_le_pos; [apply IZR_le; lia|]. pose proof (bpow_pos (ea + eb)). lra. }
    rewrite HX in *. rewrite Rabs_sgn in Hlt by assumption.
    destruct (round_aux_R (xorb sa sb) (Z.pos (ma * mb)) (ea + eb) loc_Exact X)
      as (Hf & v & -> & Hv0 & Hv); try assumption; try lia.
    { unfold X. pose proof (bpow_pos (ea + eb)). rewrite Rmult_plus_distr_r. lra. }
    split; [assumption|]. now apply near_sgn.
Qed.

(** ** Normalisation, addition and subtraction *)

Lemma digits_mul_pow m m' k :
  (0 <= k)%Z -> Z.pos m' = (Z.pos m * 2 ^ k)%Z -> digits m' = (digits m + k)%Z.
Proof.
  intros Hk Hm. apply digits_unique. rewrite Hm.
  pose proof (digits_bounds m) as [Hl Hu]. pose proof (digits_pos m).
  replace (digits m + k - 1)%Z with ((digits m - 1) + k)%Z by lia.
  rewrite !Z.pow_add_r by lia.
  assert (0 < 2 ^ k)%Z by (apply Z.pow_pos_nonneg; lia). nia.
Qed.

Lemma IZR_mul_pow m k e : (0 <= k)%Z -> IZR (m * 2 ^ k) * bpow (e - k) = IZR m * bpow e.
Proof.
  intros Hk. rewrite mult_IZR, <- bpow_IZR, Rmult_assoc, <- bpow_add by assumption.
  do 2 f_equal. lia.
Qed.

Lemma shl_align_fexp p e :
  exists mz ez,
    shl_align p e (fexp (digits p + e)) = (mz, ez) /\
    IZR (Z.pos mz) * bpow ez = IZR (Z.pos p) * bpow e /\
    (ez <= fexp (Zdigits2 (Z.pos mz) + ez))%Z.
Proof.
  destruct (Z.le_gt_cases (fexp (digits p + e)) e) as [Hle|Hgt].
  - destruct (shl_align_spec p e _ Hle) as (mz & Hs & Hm).
    exists mz, (fexp (digits p + e)). split; [assumption|]. split.
    + rewrite Hm. replace (fexp (digits p + e)) with (e - (e - fexp (digits p + e)))%Z at 2 by lia.
      apply IZR_mul_pow. lia.
    + cbn [Zdigits2]. fold (digits mz).
      rewrite (digits_mul_pow p mz (e - fexp (digits p + e))) by (assumption || lia).
      replace (digits p + (e - fexp (digits p + e)) + fexp (digits p + e))%Z
        with (digits p + e)%Z by lia. lia.
  - exists p, e. unfold shl_align.
    destruct (fexp (digits p + e) - e)%Z eqn:E; try lia.
    split; [reflexivity|]. split; [reflexivity|]. cbn [Zdigits2]. fold (digits p). lia.
Qed.

Lemma binary_round_R s p e :
  F64.valid (binary_round F64.prec F64.emax s p e) = true /\
  (IZR (Z.pos p) * bpow e < bpow 1023 ->
   F64.is_finite (binary_round F64.prec F64.emax s p e) = true /\
   near (sgn s * (IZR (Z.pos p) * bpow e)) (B2R (binary_round F64.prec F64.emax s p e))).
Proof.
  unfold binary_round. fold (digits p).
  destruct (shl_align_fexp p e) as (mz & ez & -> & Hv & Hpre). split.
  - apply binary_round_aux_valid; [lia|assumption].
  - intros Hlt. rewrite <- Hv in *. pose proof (bpow_pos ez).
    assert (0 <= IZR (Z.pos mz) * bpow ez) by (apply Rmult_le_pos; [apply IZR_le; lia|lra]).
    destruct (round_aux_R s (Z.pos mz) ez loc_Exact (IZR (Z.pos mz) * bpow ez))
      as (Hf & v & -> & Hv0 & Hve); try assumption; try lia.
    { rewrite Rmult_plus_distr_r. lra. }
    split; [assumption|]. now apply near_sgn.
Qed.

Lemma binary_normalize_R m e s0 :
  F64.valid (binary_normalize F64.prec F64.emax m e s0) = true /\
  (Rabs (IZR m * bpow e) < bpow 1023 ->
   F64.is_finite (binary_normalize F64.prec F64.emax m e s0) = true /\
   near (IZR m * bpow e) (B2R (binary_normalize F64.prec F64.emax m e s0))).
Proof.
  pose proof (bpow_pos e). destruct m as [|p|p]; cbn [binary_normalize].
  - split; [reflexivity|]. intros _. split; [reflexivity|]. cbn [B2R].
    rewrite Rmult_0_l. apply near_refl.
  - destruct (binary_round_R false p e) as [Hv Hn]. split; [assumption|]. intros Hlt.
    rewrite Rabs_pos_eq in Hlt by (apply Rmult_le_pos; [apply IZR_le; lia|lra]).
    destruct (Hn Hlt) as [Hf Hnear]. split; [assumption|].
    cbn [sgn] in Hnear. now rewrite Rmult_1_l in Hnear.
  - destruct (binary_round_R true p e) as [Hv Hn]. split; [assumption|]. intros Hlt.
    assert (E : IZR (Z.neg p) * bpow e = sgn true * (IZR (Z.pos p) * bpow e)).
    { change (Z.neg p) with (- Z.pos p)%Z. rewrite opp_IZR. cbn [sgn]. ring. }
    rewrite E in *. rewrite Rabs_sgn in Hlt by (apply Rmult_le_pos; [apply IZR_le; lia|lra]).
    destruct (Hn Hlt) as [Hf Hnear]. now split.
Qed.

Lemma aligned_value s m e ez :
  (ez <= e)%Z ->
  IZR (cond_Zopp s (Z.pos (fst (shl_align m e ez)))) * bpow ez = sgn s * (IZR (Z.pos m) * bpow e).
Proof.
  intros H. destruct (shl_align_spec m e ez H) as (m' & -> & Hm). cbn [fst].
  assert (E : IZR (Z.pos m') * bpow ez = IZR (Z.pos m) * bpow e).
  { rewrite Hm. replace ez with (e - (e - ez))%Z at 2 by lia. apply IZR_mul_pow. lia. }
  destruct s; cbn [cond_Zopp sgn]; [rewrite opp_IZR|]; lra.
Qed.

Theorem add_R a b :
  F64.valid a = true -> F64.valid b = true ->
  F64.is_finite a = true -> F64.is_finite b = true ->
  F64.valid (F64.add a b) = true /\
  (Rabs (B2R a + B2R b) < bpow 1023 ->
   F64.is_finite (F64.add a b) = true /\ near (B2R a + B2R b) (B2R (F64.add a b))).
Proof.
  intros Va Vb Fa Fb.
  destruct a as [sa|sa| |sa ma ea], b as [sb|sb| |sb mb eb]; try discriminate.
  - split; [now destruct sa, sb|]. intros _. split; [now destruct sa, sb|].
    replace (B2R (F64.add (S754_zero sa) (S754_zero sb))) with 0 by now destruct sa, sb.
    cbn [B2R]. rewrite Rplus_0_l. apply near_refl.
  - split; [assumption|]. intros _. split; [reflexivity|].
    cbn [F64.add SFadd B2R]. rewrite Rplus_0_l. apply near_refl.
  - split; [assumption|]. intros _. split; [reflexivity|].
    cbn [F64.add SFadd B2R]. rewrite Rplus_0_r. apply near_refl.
  - unfold F64.add, SFadd. cbn [B2R].
    rewrite <- (aligned_value sa ma ea (Z.min ea eb)), <- (aligned_value sb mb eb (Z.min ea eb)) by lia.
    rewrite <- Rmult_plus_distr_r, <- plus_IZR. apply binary_normalize_R.
Qed.

Theorem sub_R a b :
  F64.valid a = true -> F64.valid b = true ->
  F64.is_finite a = true -> F64.is_finite b = true ->
  F64.valid (F64.sub a b) = true /\
  (Rabs (B2R a - B2R b) < bpow 1023 ->
   F64.is_finite (F64.sub a b) = true /\ near (B2R a - B2R b) (B2R (F64.sub a b))).
Proof.
  intros Va Vb Fa Fb.
  destruct a as [sa|sa| |sa ma ea], b as [sb|sb| |sb mb eb]; try discriminate.
  - split; [now destruct sa, sb|]. intros _. split; [now destruct sa, sb|].
    replace (B2R (F64.sub (S754_zero sa) (S754_zero sb))) with 0 by now destruct sa, sb.
    cbn [B2R]. rewrite Rminus_0_r. apply near_refl.
  - split; [assumption|]. intros _. split; [reflexivity|].
    cbn [F64.sub SFsub B2R].
    replace (0 - sgn sb * (IZR (Z.pos mb) * bpow eb)) with (sgn (negb sb) * (IZR (Z.pos mb) * bpow eb))
      by (destruct sb; cbn [sgn negb]; ring).
    apply near_refl.
  - split; [assumption|]. intros _. split; [reflexivity|].
    cbn [F64.sub SFsub B2R]. rewrite Rminus_0_r. apply near_refl.
  - unfold F64.sub, SFsub. cbn [B2R].
    rewrite <- (aligned_value sa ma ea (Z.min ea eb)), <- (aligned_value sb mb eb (Z.min ea eb)) by lia.
    rewrite <- Rmult_minus_distr_r, <- minus_IZR. apply binary_normalize_R.
Qed.

(** ** Division *)

Lemma fexp_mono a b : (a <= b -> fexp a <= fexp b)%Z.
Proof. unfold_fexp. lia. Qed.

Lemma div_core_spec mx ex my ey :
  exists q l s,
    SFdiv_core_binary F64.prec F64.emax (Z.pos mx) ex (Z.pos my) ey
    = (q, (ex - ey - s)%Z, l) /\
    (0 <= s)%Z /\ q = (Z.pos mx * 2 ^ s / Z.pos my)%Z /\
    (ex - ey - s <= fexp (Zdigits2 q + (ex - ey - s)))%Z.
Proof.
  unfold SFdiv_core_binary. cbn [Zdigits2]. fold (digits mx) (digits my).
  set (e' := Z.min (fexp (digits mx + ex - (digits my + ey))) (ex - ey)).
  set (s := (ex - ey - e')%Z).
  assert (Hs : (0 <= s)%Z) by (unfold s, e'; lia).
  assert (Hm : match s with
               | Z.pos _ => Z.shiftl (Z.pos mx) s
               | 0%Z => Z.pos mx
               | Z.neg _ => 0%Z
               end = (Z.pos mx * 2 ^ s)%Z).
  { destruct s eqn:E; [lia| |lia]. now rewrite Z.shiftl_mul_pow2 by lia. }
  rewrite Hm. pose proof (Z.div_eucl_eq (Z.pos mx * 2 ^ s) (Z.pos my) ltac:(lia)) as Heq.
  assert (Hq : fst (Z.div_eucl (Z.pos mx * 2 ^ s) (Z.pos my)) = (Z.pos mx * 2 ^ s / Z.pos my)%Z)
    by (unfold Z.div; now destruct (Z.div_eucl _ _)).
  destruct (Z.div_eucl (Z.pos mx * 2 ^ s) (Z.pos my)) as [q r]. cbn [fst] in Hq.
  exists q, (new_location (Z.pos my) r), s.
  replace (ex - ey - s)%Z with e' by (unfold s; lia).
  split; [reflexivity|]. split; [assumption|]. split; [assumption|].
  transitivity (fexp (digits mx + ex - (digits my + ey))); [unfold e'; lia|].
  apply fexp_mono.
  destruct (Z.le_gt_cases (digits mx - digits my + s) 0) as [Hk|Hk];
    [pose proof (zdigits_nonneg q); unfold s in *; lia|].
  assert (H2k : (2 ^ (digits mx - digits my + s - 1) <= q)%Z).
  { rewrite Hq. apply Z.div_le_lower_bound; [lia|].
    pose proof (digits_bounds mx) as [Hl _]. pose proof (digits_bounds my) as [_ Hu].
    pose proof (digits_pos my).
    pose proof (digits_pos mx).
    assert (Hpk : (0 < 2 ^ (digits mx - digits my + s - 1))%Z) by (apply Z.pow_pos_nonneg; lia).
    assert (Hps : (0 < 2 ^ s)%Z) by (apply Z.pow_pos_nonneg; lia).
    assert (E : (2 ^ digits my * 2 ^ (digits mx - digits my + s - 1)
                 = 2 ^ (digits mx - 1) * 2 ^ s)%Z)
      by (rewrite <- !Z.pow_add_r by lia; f_equal; lia).
    nia. }
  destruct q as [|qp|qp]; [pose proof (Z.pow_pos_nonneg 2 (digits mx - digits my + s - 1)); lia| |lia].
  cbn [Zdigits2]. fold (digits qp). apply digits_ge_pow in H2k. unfold s in *. lia.
Qed.

Theorem div_R a b :
  F64.valid a = true -> F64.valid b = true ->
  F64.is_finite a = true -> F64.is_finite b = true -> B2R b <> 0 ->
  F64.valid (F64.div a b) = true /\
  (Rabs (B2R a / B2R b) < bpow 1023 ->
   F64.is_finite (F64.div a b) = true /\ near (B2R a / B2R b) (B2R (F64.div a b))).
Proof.
  intros Va Vb Fa Fb Hb.
  destruct a as [sa|sa| |sa ma ea], b as [sb|sb| |sb mb eb]; try discriminate;
    try (now cbn in Hb).
  - split; [reflexivity|]. intros _. split; [reflexivity|].
    cbn [F64.div SFdiv B2R]. unfold Rdiv. rewrite Rmult_0_l. apply near_refl.
  - unfold F64.div, SFdiv.
    destruct (div_core_spec ma ea mb eb) as (q & l & s & -> & Hs & Hq & Hpre).
    assert (Hq0 : (0 <= q)%Z) by (rewrite Hq; apply Z.div_pos; [|lia];
                                   pose proof (Z.pow_pos_nonneg 2 s); lia).
    split; [now apply binary_round_aux_valid|]. intros Hlt. cbn [B2R] in *.
    pose proof (bpow_pos ea). pose proof (bpow_pos eb). pose proof (bpow_pos (ea - eb - s)).
    assert (Hpa : 0 < IZR (Z.pos ma)) by (apply IZR_lt; lia).
    assert (Hpb : 0 < IZR (Z.pos mb)) by (apply IZR_lt; lia).
    set (X := IZR (Z.pos ma * 2 ^ s) / IZR (Z.pos mb) * bpow (ea - eb - s)).
    assert (HX : sgn sa * (IZR (Z.pos ma) * bpow ea) / (sgn sb * (IZR (Z.pos mb) * bpow eb))
                 = sgn (xorb sa sb) * X).
    { unfold X. rewrite sgn_xorb, mult_IZR, <- bpow_IZR by assumption.
      replace (bpow ea) with (bpow s * bpow (ea - eb - s) * bpow eb)
        by (rewrite <- !bpow_add; f_equal; lia).
      destruct sa, sb; cbn [sgn]; field; lra. }
    assert (HX0 : 0 <= X).
    { unfold X. apply Rmult_le_pos; [|lra]. apply Rmult_le_pos; [apply IZR_le|].
      - pose proof (Z.pow_pos_nonneg 2 s). lia.
      - apply Rlt_le, Rinv_0_lt_compat. lra. }
    rewrite HX in *. rewrite Rabs_sgn in Hlt by assumption.
    pose proof (Z.div_mod (Z.pos ma * 2 ^ s) (Z.pos mb) ltac:(lia)) as Hdm.
    pose proof (Z.mod_pos_bound (Z.pos ma * 2 ^ s) (Z.pos mb) ltac:(lia)) as Hrem.
    rewrite <- Hq in Hdm.
    destruct (round_aux_R (xorb sa sb) q (ea - eb - s) l X) as (Hf & v & -> & Hv0 & Hv);
      try assumption.
    { assert (Hlo : IZR q * IZR (Z.pos mb) <= IZR (Z.pos ma * 2 ^ s))
        by (rewrite <- mult_IZR; apply IZR_le; lia).
      assert (Hhi : IZR (Z.pos ma * 2 ^ s) < (IZR q + 1) * IZR (Z.pos mb)).
      { replace (IZR q + 1) with (IZR (q + 1)) by (rewrite plus_IZR; ring).
        rewrite <- mult_IZR. apply IZR_lt. lia. }
      unfold X. split.
      - apply Rmult_le_compat_r; [lra|]. apply Rmult_le_reg_r with (IZR (Z.pos mb)); [lra|].
        unfold Rdiv. rewrite Rmult_assoc, Rinv_l by lra. lra.
      - apply Rmult_lt_compat_r; [lra|]. apply Rmult_lt_reg_r with (IZR (Z.pos mb)); [lra|].
        unfold Rdiv. rewrite Rmult_assoc, Rinv_l by lra. lra. }
    split; [assumption|]. now apply near_sgn.
Qed.

(** ** Comparisons *)

Lemma mag_pos m e : 0 < IZR (Z.pos m) * bpow e.
Proof. apply Rmult_lt_0_compat; [apply IZR_lt; lia|apply bpow_pos]. Qed.

Lemma canonical_lt s1 m1 e1 s2 m2 e2 :
  F64.valid (S754_finite s1 m1 e1) = true -> F64.valid (S754_finite s2 m2 e2) = true ->
  (e1 < e2)%Z -> IZR (Z.pos m1) * bpow e1 < IZR (Z.pos m2) * bpow e2.
Proof.
  intros V1 V2 He. apply valid_canonical in V1, V2.
  destruct V1 as (_ & Hd1 & He1 & _), V2 as (_ & _ & _ & [Hd2|Hm2]); [|lia].
  pose proof (digits_bounds m1) as [_ Hu]. pose proof (digits_bounds m2) as [Hl _].
  rewrite Hd2 in Hl. change (2 ^ (53 - 1))%Z with (2 ^ 52)%Z in Hl.
  assert (Z.pos m1 < 2 ^ 53)%Z.
  { apply Z.lt_le_trans with (2 ^ digits m1)%Z; [assumption|]. apply Z.pow_le_mono_r; lia. }
  apply Rlt_le_trans with (bpow (53 + e1)).
  - rewrite bpow_add, (bpow_IZR 53) by lia. apply Rmult_lt_compat_r; [apply bpow_pos|].
    now apply IZR_lt.
  - apply Rle_trans with (bpow (52 + e2)); [apply bpow_le; lia|].
    rewrite bpow_add, (bpow_IZR 52) by lia. apply Rmult_le_compat_r; [apply Rlt_le, bpow_pos|].
    now apply IZR_le.
Qed.

Lemma mag_compare s1 m1 e1 s2 m2 e2 :
  F64.valid (S754_finite s1 m1 e1) = true -> F64.valid (S754_finite s2 m2 e2) = true ->
  match match (e1 ?= e2)%Z with
        | Lt => Lt | Gt => Gt | Eq => Pos.compare_cont Eq m1 m2
        end with
  | Lt => IZR (Z.pos m1) * bpow e1 < IZR (Z.pos m2) * bpow e2
  | Eq => IZR (Z.pos m1) * bpow e1 = IZR (Z.pos m2) * bpow e2
  | Gt => IZR (Z.pos m2) * bpow e2 < IZR (Z.pos m1) * bpow e1
  end.
Proof.
  intros V1 V2. destruct (Z.compare_spec e1 e2) as [->|Hlt|Hgt].
  - change (Pos.compare_cont Eq m1 m2) with (m1 ?= m2)%positive. pose proof (bpow_pos e2).
    destruct (Pos.compare_spec m1 m2) as [->|H1|H1]; [reflexivity| |];
      apply Rmult_lt_compat_r; try assumption; apply IZR_lt; lia.
  - now apply (canonical_lt s1 m1 e1 s2 m2 e2).
  - now apply (canonical_lt s2 m2 e2 s1 m1 e1).
Qed.

(** On well-formed finite floats the comparison of the format is the
    comparison of the values. *)
Lemma compare_R a b :
  F64.valid a = true -> F64.valid b = true ->
  F64.is_finite a = true -> F64.is_finite b = true ->
  exists c, SFcompare a b = Some c /\
    match c with
    | Lt => B2R a < B2R b
    | Eq => B2R a = B2R b
    | Gt => B2R b < B2R a
    end.
Proof.
  intros Va Vb Fa Fb.
  destruct a as [sa|sa| |sa ma ea], b as [sb|sb| |sb mb eb]; try discriminate; cbn [SFcompare B2R].
  - now exists Eq.
  - pose proof (mag_pos mb eb). destruct sb; eexists; (split; [reflexivity|]); cbn [sgn]; lra.
  - pose proof (mag_pos ma ea). destruct sa; eexists; (split; [reflexivity|]); cbn [sgn]; lra.
  - pose proof (mag_pos ma ea). pose proof (mag_pos mb eb).
    pose proof (mag_compare sa ma ea sb mb eb Va Vb) as H1.
    destruct sa, sb; eexists; (split; [reflexivity|]); cbn [sgn]; try lra;
      destruct (ea ?= eb)%Z; try lra;
      destruct (Pos.compare_cont Eq ma mb); cbn [CompOpp]; lra.
Qed.

Lemma ltb_R a b :
  F64.valid a = true -> F64.valid b = true ->
  F64.is_finite a = true -> F64.is_finite b = true ->
  F64.ltb a b = true <-> B2R a < B2R b.
Proof.
  intros Va Vb Fa Fb. unfold F64.ltb, SFltb.
  destruct (compare_R a b Va Vb Fa Fb) as (c & -> & H).
  destruct c; split; intros; try discriminate; try reflexivity; lra.
Qed.

Lemma leb_R a b :
  F64.valid a = true -> F64.valid b = true ->
  F64.is_finite a = true -> F64.is_finite b = true ->
  F64.leb a b = true <-> B2R a <= B2R b.
Proof.
  intros Va Vb Fa Fb. unfold F64.leb, SFleb.
  destruct (compare_R a b Va Vb Fa Fb) as (c & -> & H).
  destruct c; split; intros; try discriminate; try reflexivity; lra.
Qed.

(** A float between two finite floats is finite. *)
Lemma between_finite lo x hi :
  F64.is_finite lo = true -> F64.is_finite hi = true ->
  F64.leb lo x = true -> F64.leb x hi = true -> F64.is_finite x = true.
Proof.
  destruct x as [s|s| |s m e]; try reflexivity; intros Hlo Hhi.
  - destruct lo as [?|?| |? ? ?], hi as [?|?| |? ? ?], s; try discriminate; cbn;
      try discriminate; repeat match goal with b : bool |- _ => destruct b end; cbn; discriminate.
  - destruct lo; discriminate.
Qed.

Lemma max_R a b :
  F64.valid a = true -> F64.valid b = true ->
  F64.is_finite a = true -> F64.is_finite b = true ->
  F64.valid (F64.max a b) = true /\ F64.is_finite (F64.max a b) = true /\
  B2R (F64.max a b) = Rmax (B2R a) (B2R b).
Proof.
  intros Va Vb Fa Fb. unfold F64.max.
  replace (F64.is_nan a) with false by now destruct a.
  replace (F64.is_nan b) with false by now destruct b.
  pose proof (ltb_R a b Va Vb Fa Fb) as H.
  destruct (F64.ltb a b).
  - repeat split; try assumption. rewrite Rmax_right; [reflexivity|].
    apply Rlt_le, H. reflexivity.
  - repeat split; try assumption. rewrite Rmax_left; [reflexivity|].
    destruct (Rle_lt_dec (B2R b) (B2R a)) as [|Hlt]; [assumption|].
    apply H in Hlt. discriminate.
Qed.

Lemma min_R a b :
  F64.valid a = true -> F64.valid b = true ->
  F64.is_finite a = true -> F64.is_finite b = true ->
  F64.valid (F64.min a b) = true /\ F64.is_finite (F64.min a b) = true /\
  B2R (F64.min a b) = Rmin (B2R a) (B2R b).
Proof.
  intros Va Vb Fa Fb. unfold F64.min.
  replace (F64.is_nan a) with false by now destruct a.
  replace (F64.is_nan b) with false by now destruct b.
  pose proof (ltb_R b a Vb Va Fb Fa) as H.
  destruct (F64.ltb b a).
  - repeat split; try assumption. rewrite Rmin_right; [reflexivity|].
    apply Rlt_le, H. reflexivity.
  - repeat split; try assumption. rewrite Rmin_left; [reflexivity|].
    destruct (Rle_lt_dec (B2R a) (B2R b)) as [|Hlt]; [assumption|].
    apply H in Hlt. discriminate.
Qed.

(** ** Integers *)

(** An integer below [2^53] in magnitude converts exactly. *)
Lemma normalize_exact n s0 :
  (Z.abs n < 2 ^ 53)%Z ->
  F64.valid (binary_normalize F64.prec F64.emax n 0 s0) = true /\
  F64.is_finite (binary_normalize F64.prec F64.emax n 0 s0) = true /\
  B2R (binary_normalize F64.prec F64.emax n 0 s0) = IZR n.
Proof.
  intros Hn. split; [apply binary_normalize_R|].
  assert (Hr : forall s p, (Z.pos p < 2 ^ 53)%Z ->
             F64.is_finite (binary_round F64.prec F64.emax s p 0) = true /\
             B2R (binary_round F64.prec F64.emax s p 0) = sgn s * IZR (Z.pos p)).
  { intros s p Hp.
    assert (Hd : (digits p <= F64.prec)%Z) by (apply digits_le_pow; unfold F64.prec; lia).
    destruct (binary_round_exact s p 0 Hd ltac:(unfold_fexp; lia)) as (m' & -> & Hle & Hm & _).
    replace (fexp (digits p + 0) <=? F64.emax - F64.prec)%Z with true
      by (symmetry; apply Z.leb_le; unfold_fexp; lia).
    split; [reflexivity|]. cbn [B2R]. f_equal. rewrite Hm.
    replace (fexp (digits p + 0)) with (0 - (0 - fexp (digits p + 0)))%Z at 2 by lia.
    rewrite IZR_mul_pow by lia. rewrite bpow_0. ring. }
  destruct n as [|p|p]; cbn [binary_normalize].
  - split; reflexivity.
  - destruct (Hr false p ltac:(lia)) as [Hf ->]. split; [assumption|]. cbn [sgn]. ring.
  - destruct (Hr true p ltac:(lia)) as [Hf ->]. split; [assumption|].
    change (Z.neg p) with (- Z.pos p)%Z. rewrite opp_IZR. cbn [sgn]. ring.
Qed.

Lemma of_Z_R n :
  (Z.abs n < 2 ^ 53)%Z ->
  F64.valid (F64.of_Z n) = true /\ F64.is_finite (F64.of_Z n) = true /\
  B2R (F64.of_Z n) = IZR n.
Proof. apply normalize_exact. Qed.

(** ** Casts to unsigned integers *)

Lemma bpow_div_floor m k :
  (0 <= k)%Z ->
  IZR (Z.pos m / 2 ^ k) <= IZR (Z.pos m) * bpow (- k) < IZR (Z.pos m / 2 ^ k) + 1.
Proof.
  intros Hk. assert (Hp : (0 < 2 ^ k)%Z) by (apply Z.pow_pos_nonneg; lia).
  pose proof (Z.div_mod (Z.pos m) (2 ^ k) ltac:(lia)) as Hdm.
  pose proof (Z.mod_pos_bound (Z.pos m) (2 ^ k) Hp) as Hrem.
  set (q := (Z.pos m / 2 ^ k)%Z) in *. rewrite bpow_neg_IZR by assumption.
  assert (H2 : 0 < IZR (2 ^ k)) by now apply IZR_lt.
  assert (Hlo : IZR q * IZR (2 ^ k) <= IZR (Z.pos m))
    by (rewrite <- mult_IZR; apply IZR_le; lia).
  assert (Hhi : IZR (Z.pos m) < (IZR q + 1) * IZR (2 ^ k)).
  { replace (IZR q + 1) with (IZR (q + 1)) by (rewrite plus_IZR; ring).
    rewrite <- mult_IZR. apply IZR_lt. lia. }
  set (D := IZR (2 ^ k)) in *. set (y := IZR (Z.pos m) * / D).
  assert (E : y * D = IZR (Z.pos m)) by (unfold y; field; lra).
  split; [apply Rmult_le_reg_r with D|apply Rmult_lt_reg_r with D];
    try assumption; now rewrite E.
Qed.

Lemma trunc_mag_floor m e :
  IZR (F64.trunc_mag m e) <= IZR (Z.pos m) * bpow e < IZR (F64.trunc_mag m e) + 1.
Proof.
  unfold F64.trunc_mag. destruct (Z.le_gt_cases 0 e) as [He|He].
  - rewrite Z.shiftl_mul_pow2, mult_IZR, <- bpow_IZR by assumption. lra.
  - replace (Z.shiftl (Z.pos m) e) with (Z.pos m / 2 ^ (- e))%Z
      by (rewrite <- Z.shiftr_div_pow2, <- Z.shiftl_opp_r by lia; f_equal; lia).
    replace (bpow e) with (bpow (- (- e))) by (f_equal; lia).
    apply bpow_div_floor. lia.
Qed.

(** A value below [k + 1] casts to at most [k]. *)
Lemma to_unsigned_le top f k :
  (0 <= k)%Z -> F64.is_finite f = true -> B2R f < IZR k + 1 ->
  (F64.to_unsigned top f <= k)%Z.
Proof.
  intros Hk Hf H. destruct f as [s|s| |s m e]; try discriminate; cbn [F64.to_unsigned]; [lia|].
  destruct s; [lia|]. cbn [B2R sgn] in H. pose proof (trunc_mag_floor m e) as [Hlo _].
  assert (Hlt : IZR (F64.trunc_mag m e) < IZR (k + 1)) by (rewrite plus_IZR; lra).
  apply lt_IZR in Hlt. lia.
Qed.

(** A finite value of at least [k] casts to at least [k], up to the top of
    the integer type. *)
Lemma to_unsigned_ge top f k :
  (0 <= k <= top)%Z -> F64.is_finite f = true -> IZR k <= B2R f ->
  (k <= F64.to_unsigned top f)%Z.
Proof.
  intros Hk Hf H. destruct f as [s|s| |s m e]; try discriminate; cbn [F64.to_unsigned B2R] in *.
  - apply le_IZR in H. lia.
  - pose proof (mag_pos m e). pose proof (trunc_mag_floor m e) as [_ Hhi].
    destruct s; cbn [sgn] in H.
    + assert (Hle : IZR k <= 0) by lra. apply le_IZR in Hle. lia.
    + assert (Hlt : IZR k < IZR (F64.trunc_mag m e + 1)) by (rewrite plus_IZR; lra).
      apply lt_IZR in Hlt. lia.
Qed.

(** ** Rounding to the nearest integer *)

Lemma half_round_le m j k :
  (1 <= j)%Z -> (0 <= k)%Z -> (0 <= m < (2 * k + 1) * 2 ^ (j - 1))%Z ->
  (Z.shiftr m j + (if Z.testbit m (j - 1) then 1 else 0) <= k)%Z.
Proof.
  intros Hj Hk Hm. rewrite Z.testbit_odd, !Z.shiftr_div_pow2 by lia.
  assert (Hp : (0 < 2 ^ (j - 1))%Z) by (apply Z.pow_pos_nonneg; lia).
  set (t := (m / 2 ^ (j - 1))%Z).
  assert (Ht : (0 <= t < 2 * k + 1)%Z).
  { split; [apply Z.div_pos; lia|]. apply Z.div_lt_upper_bound; lia. }
  replace (m / 2 ^ j)%Z with (t / 2)%Z.
  - clearbody t. clear Hm Hp. rewrite <- Z.bit0_odd, Z.bit0_eqb.
    pose proof (Z.div_mod t 2 ltac:(lia)). pose proof (Z.mod_pos_bound t 2 ltac:(lia)).
    destruct (Z.eqb_spec (t mod 2) 1); lia.
  - unfold t. rewrite Z.div_div by lia. f_equal.
    replace j with (j - 1 + 1)%Z at 2 by lia. now rewrite Z.pow_add_r by lia.
Qed.

(** The integer [round] produces from the significand [m] at exponent [e < 0]. *)
Lemma round_nearest_bounds m e k :
  (e < 0)%Z -> (0 <= k)%Z -> (Z.pos m < 2 ^ 53)%Z ->
  IZR (Z.pos m) * bpow e < IZR k + / 2 ->
  let n := if Z.testbit (Z.pos m) (- e - 1)
           then (Z.shiftr (Z.pos m) (- e) + 1)%Z else Z.shiftr (Z.pos m) (- e) in
  (0 <= n <= k /\ n < 2 ^ 53)%Z.
Proof.
  intros He Hk Hm Hx n.
  assert (Hq : (0 <= Z.shiftr (Z.pos m) (- e) <= Z.pos m / 2)%Z).
  { split; [apply Z.shiftr_nonneg; lia|]. rewrite Z.shiftr_div_pow2 by lia.
    replace (- e)%Z with (1 + (- e - 1))%Z by lia. rewrite Z.pow_add_r by lia.
    assert (0 < 2 ^ (- e - 1))%Z by (apply Z.pow_pos_nonneg; lia).
    change (2 ^ 1)%Z with 2%Z. rewrite <- Z.div_div by lia.
    apply Z.div_le_upper_bound; [assumption|].
    assert (0 <= Z.pos m / 2)%Z by (apply Z.div_pos; lia). nia. }
  assert (Hn : (n = Z.shiftr (Z.pos m) (- e) + (if Z.testbit (Z.pos m) (- e - 1) then 1 else 0))%Z)
    by (unfold n; destruct (Z.testbit _ _); lia).
  split; [split|].
  - rewrite Hn. destruct (Z.testbit _ _); lia.
  - rewrite Hn. apply half_round_le; [lia..|].
    split; [lia|]. apply lt_IZR. rewrite mult_IZR, plus_IZR, mult_IZR, <- bpow_IZR by lia.
    pose proof (bpow_pos (- e - 1)) as Hb.
    assert (E : bpow e * bpow (- e - 1) = / 2).
    { rewrite <- bpow_add. replace (e + (- e - 1))%Z with (- (1))%Z by lia.
      now rewrite bpow_opp, bpow_1. }
    assert (Hlt : IZR (Z.pos m) * bpow e * bpow (- e - 1) < (IZR k + / 2) * bpow (- e - 1))
      by (apply Rmult_lt_compat_r; assumption).
    rewrite Rmult_assoc, E in Hlt. lra.
  - assert (Z.pos m / 2 < 2 ^ 52)%Z by (apply Z.div_lt_upper_bound; lia).
    rewrite Hn. destruct (Z.testbit _ _); lia.
Qed.

(** The saturating cast of [round] of a value below [k + 1/2] is at most [k]. *)
Lemma round_cast_le top x k :
  F64.valid x = true -> F64.is_finite x = true -> (0 <= k)%Z ->
  B2R x < IZR k + / 2 -> (F64.to_unsigned top (F64.round x) <= k)%Z.
Proof.
  intros Vx Fx Hk Hx. destruct x as [s|s| |s m e]; try discriminate; [cbn; lia|].
  unfold F64.round. destruct (Z.leb_spec 0 e) as [He|He].
  - apply to_unsigned_le; [assumption|reflexivity|lra].
  - cbv zeta.
    set (n := if Z.testbit (Z.pos m) (- e - 1)
              then (Z.shiftr (Z.pos m) (- e) + 1)%Z else Z.shiftr (Z.pos m) (- e)).
    destruct s.
    + assert (Hn : (0 <= n)%Z).
      { assert (0 <= Z.shiftr (Z.pos m) (- e))%Z by (apply Z.shiftr_nonneg; lia).
        unfold n. destruct (Z.testbit _ _); lia. }
      rewrite to_unsigned_neg; [assumption|]. cbn [cond_Zopp].
      pose proof (binary_normalize_sign (- n) 0 true) as Hs.
      replace (if (- n =? 0)%Z then true else (- n <? 0)%Z) with true in Hs; [exact Hs|].
      destruct (Z.eqb_spec (- n) 0); [reflexivity|]. symmetry. apply Z.ltb_lt. lia.
    + cbn [cond_Zopp B2R sgn] in *. rewrite Rmult_1_l in Hx.
      apply valid_canonical in Vx. destruct Vx as (_ & Hd & _).
      pose proof (digits_bounds m) as [_ Hu].
      assert (Hm53 : (Z.pos m < 2 ^ 53)%Z).
      { apply Z.lt_le_trans with (2 ^ digits m)%Z; [assumption|]. apply Z.pow_le_mono_r; lia. }
      destruct (round_nearest_bounds m e k He Hk Hm53 Hx) as [Hn Hn53]. fold n in Hn, Hn53.
      destruct (normalize_exact n false) as (_ & Hf & Hv); [lia|].
      apply to_unsigned_le; [assumption|assumption|]. rewrite Hv.
      assert (IZR n <= IZR k) by (apply IZR_le; lia). lra.
Qed.

Lemma half_round_ge m j k :
  (1 <= j)%Z -> (0 <= m)%Z -> ((2 * k - 1) * 2 ^ (j - 1) <= m)%Z ->
  (k <= Z.shiftr m j + (if Z.testbit m (j - 1) then 1 else 0))%Z.
Proof.
  intros Hj Hm0 Hm. rewrite Z.testbit_odd, !Z.shiftr_div_pow2 by lia.
  assert (Hp : (0 < 2 ^ (j - 1))%Z) by (apply Z.pow_pos_nonneg; lia).
  set (t := (m / 2 ^ (j - 1))%Z).
  assert (Ht : (2 * k - 1 <= t)%Z) by (apply Z.div_le_lower_bound; lia).
  replace (m / 2 ^ j)%Z with (t / 2)%Z.
  - clearbody t. clear Hm Hp. rewrite <- Z.bit0_odd, Z.bit0_eqb.
    pose proof (Z.div_mod t 2 ltac:(lia)). pose proof (Z.mod_pos_bound t 2 ltac:(lia)).
    destruct (Z.eqb_spec (t mod 2) 1); lia.
  - unfold t. rewrite Z.div_div by lia. f_equal.
    replace j with (j - 1 + 1)%Z at 2 by lia. now rewrite Z.pow_add_r by lia.
Qed.

(** The saturating cast of [round] of a value of at least [k - 1/2] is at
    least [k], up to the top of the integer type. *)
Lemma round_cast_ge top x k :
  F64.valid x = true -> F64.is_finite x = true -> (0 <= k <= top)%Z ->
  IZR k - / 2 <= B2R x -> (k <= F64.to_unsigned top (F64.round x))%Z.
Proof.
  intros Vx Fx Hk Hx.
  destruct (Z.eq_dec k 0) as [->|Hk0];
    [apply (to_unsigned_range top (F64.round x)); lia|].
  assert (Hk1 : 1 <= IZR k) by (apply (IZR_le 1); lia).
  destruct x as [s|s| |s m e]; try discriminate; cbn [B2R] in Hx; [lra|].
  pose proof (mag_pos m e) as Hpos.
  destruct s; cbn [sgn] in Hx; [lra|]. rewrite Rmult_1_l in Hx.
  unfold F64.round. destruct (Z.leb_spec 0 e) as [He|He].
  - apply to_unsigned_ge; [assumption|reflexivity|]. cbn [B2R sgn].
    rewrite Rmult_1_l, bpow_IZR, <- mult_IZR in * by assumption.
    apply IZR_le. set (N := (Z.pos m * 2 ^ e)%Z) in *.
    enough (2 * k - 1 <= 2 * N)%Z by lia.
    apply le_IZR. rewrite minus_IZR, !mult_IZR. lra.
  - cbv zeta.
    set (n := if Z.testbit (Z.pos m) (- e - 1)
              then (Z.shiftr (Z.pos m) (- e) + 1)%Z else Z.shiftr (Z.pos m) (- e)).
    cbn [cond_Zopp].
    apply valid_canonical in Vx. destruct Vx as (_ & Hd & _).
    pose proof (digits_bounds m) as [_ Hu].
    assert (Hm53 : (Z.pos m < 2 ^ 53)%Z).
    { apply Z.lt_le_trans with (2 ^ digits m)%Z; [assumption|]. apply Z.pow_le_mono_r; lia. }
    assert (Hb1 : bpow e <= 1) by (rewrite <- bpow_0; apply bpow_le; lia).
    assert (Hm1 : 1 <= IZR (Z.pos m)) by (apply (IZR_le 1); lia).
    destruct (round_nearest_bounds m e (Z.pos m) He ltac:(lia) Hm53 ltac:(nra)) as [Hn Hn53].
    fold n in Hn, Hn53.
    assert (Hkn : (k <= n)%Z).
    { replace n with (Z.shiftr (Z.pos m) (- e)
                      + (if Z.testbit (Z.pos m) (- e - 1) then 1 else 0))%Z
        by (unfold n; destruct (Z.testbit _ _); lia).
      apply half_round_ge; [lia..|].
      apply le_IZR. rewrite mult_IZR, minus_IZR, mult_IZR, <- bpow_IZR by lia.
      pose proof (bpow_pos (- e - 1)) as Hb.
      assert (E : bpow e * bpow (- e - 1) = / 2).
      { rewrite <- bpow_add. replace (e + (- e - 1))%Z with (- (1))%Z by lia.
        now rewrite bpow_opp, bpow_1. }
      assert (Hle : (IZR k - / 2) * bpow (- e - 1) <= IZR (Z.pos m) * bpow e * bpow (- e - 1))
        by (apply Rmult_le_compat_r; lra).
      rewrite Rmult_assoc, E in Hle. lra. }
    destruct (normalize_exact n false) as (_ & Hf & Hv); [lia|].
    apply to_unsigned_ge; [assumption|assumption|]. rewrite Hv. now apply IZR_le.
Qed.

(** The cast is the floor of a value within the range of the integer type. *)
Lemma to_unsigned_floor top f :
  F64.is_finite f = true -> 0 <= B2R f < IZR top + 1 ->
  IZR (F64.to_unsigned top f) <= B2R f < IZR (F64.to_unsigned top f) + 1.
Proof.
  intros Hf [H0 H1]. destruct f as [s|s| |s m e]; try discriminate; cbn [F64.to_unsigned B2R] in *.
  - lra.
  - pose proof (mag_pos m e). destruct s; cbn [sgn] in *; [lra|].
    pose proof (trunc_mag_floor m e) as [Hlo Hhi].
    assert (Hlt : IZR (F64.trunc_mag m e) < IZR (top + 1)) by (rewrite plus_IZR; lra).
    apply lt_IZR in Hlt. rewrite Z.min_r by lia. lra.
Qed.

(** ** Reading the error model *)

Lemma abs_le_inv x r : Rabs x <= r -> - r <= x <= r.
Proof. unfold Rabs. destruct (Rcase_abs x); lra. Qed.

Lemma near_bounds x v :
  near x v -> 0 <= x -> x * (1 - eps) - eta <= v <= x * (1 + eps) + eta.
Proof.
  unfold near. intros H Hx. rewrite (Rabs_pos_eq x) in H by assumption.
  revert H. unfold Rabs. destruct (Rcase_abs (v - x)); lra.
Qed.

Lemma near_abs x v : near x v -> Rabs v <= Rabs x * (1 + eps) + eta.
Proof.
  unfold near. intros H. pose proof (Rabs_triang (v - x) x) as Ht.
  replace (v - x + x) with v in Ht by ring. lra.
Qed.

(** A well-formed float between two finite floats, as the program tests it,
    is finite and its value lies between theirs. *)
Lemma between_R lo x hi :
  F64.valid lo = true -> F64.valid x = true -> F64.valid hi = true ->
  F64.is_finite lo = true -> F64.is_finite hi = true ->
  F64.leb lo x = true -> F64.leb x hi = true ->
  F64.is_finite x = true /\ B2R lo <= B2R x <= B2R hi.
Proof.
  intros Vlo Vx Vhi Flo Fhi Hlo Hhi.
  assert (Fx := between_finite lo x hi Flo Fhi Hlo Hhi).
  split; [assumption|]. split; now apply leb_R.
Qed.

Lemma one_R : F64.valid F64.one = true /\ F64.is_finite F64.one = true /\ B2R F64.one = 1.
Proof. apply (of_Z_R 1). cbn. lia. Qed.

(** A float whose sign bit is clear has a value that is not negative. *)
Lemma has_sign_false_R f : F64.has_sign false f -> 0 <= B2R f.
Proof.
  destruct f as [s|s| |s m e]; cbn [B2R]; try lra. cbn. intros ->.
  pose proof (mag_pos m e). cbn [sgn]. lra.
Qed.

Lemma has_sign_true_R f : F64.has_sign true f -> B2R f <= 0.
Proof.
  destruct f as [s|s| |s m e]; cbn [B2R]; try lra. cbn. intros ->.
  pose proof (mag_pos m e). cbn [sgn]. lra.
Qed.

(** ** Concrete floats *)

(** The magnitude of a finite well-formed float is below [2^1024]. *)
Lemma valid_lt_max f :
  F64.valid f = true -> Rabs (B2R f) < bpow 1024.
Proof.
  intros V. destruct f as [s|s| |s m e]; cbn [B2R]; try (rewrite Rabs_R0; apply bpow_pos).
  pose proof (mag_pos m e). rewrite Rabs_sgn by lra.
  apply valid_canonical in V. destruct V as (_ & Hd & He & _).
  pose proof (digits_bounds m) as [_ Hu].
  assert (Hm : (Z.pos m < 2 ^ 53)%Z).
  { apply Z.lt_le_trans with (2 ^ digits m)%Z; [assumption|]. apply Z.pow_le_mono_r; lia. }
  apply Rlt_le_trans with (bpow (53 + e)); [|apply bpow_le; lia].
  rewrite bpow_add, (bpow_IZR 53) by lia. apply Rmult_lt_compat_r; [apply bpow_pos|].
  now apply IZR_lt.
Qed.

(** The value of a float given by its bits: turns [bpow] of a literal
    exponent into a rational constant. *)
Ltac float_value :=
  cbn [B2R sgn];
  repeat match goal with
  | |- context [bpow (Z.neg ?p)] =>
      change (Z.neg p) with (- Z.pos p)%Z; rewrite (bpow_neg_IZR (Z.pos p)) by lia;
      let d := fresh "d" in
      set (d := (2 ^ Z.pos p)%Z); vm_compute in d; subst d
  | |- context [bpow (Z.pos ?p)] =>
      rewrite (bpow_IZR (Z.pos p)) by lia;
      let d := fresh "d" in
      set (d := (2 ^ Z.pos p)%Z); vm_compute in d; subst d
  | |- context [bpow 0] => rewrite bpow_0
  end.

Lemma bpow_1023_big :
  1267650600228229401496703205376 <= bpow 1020 /\ bpow 1023 = 8 * bpow 1020 /\
  bpow 1024 = 16 * bpow 1020.
Proof.
  split; [|split].
  - apply Rle_trans with (bpow 100); [|apply bpow_le; lia]. float_value. lra.
  - replace 1023%Z with (3 + 1020)%Z by lia. rewrite bpow_add, (bpow_IZR 3) by lia. cbn. lra.
  - replace 1024%Z with (4 + 1020)%Z by lia. rewrite bpow_add, (bpow_IZR 4) by lia. cbn. lra.
Qed.

(** An integer conversion is one rounding. *)
Lemma of_Z_near n :
  F64.valid (F64.of_Z n) = true /\
  (Rabs (IZR n) < bpow 1023 ->
   F64.is_finite (F64.of_Z n) = true /\ near (IZR n) (B2R (F64.of_Z n))).
Proof.
  pose proof (binary_normalize_R n 0 false) as H. rewrite bpow_0, Rmult_1_r in H. exact H.
Qed.

Lemma bpow_1023_lower : 1267650600228229401496703205376 < bpow 1023.
Proof. destruct bpow_1023_big as (B & E & _). pose proof (bpow_pos 1020). lra. Qed.

(** Crude bounds on the two error terms, for linear arithmetic. *)
Lemma eps_eta_tiny : 0 < eps <= / 1000 /\ 0 < eta <= / 1000.
Proof.
  pose proof eps_pos. pose proof eta_pos. pose proof eta_small.
  repeat split; try assumption; [unfold eps|]; lra.
Qed.

Lemma valid_mantissa_lt s m e : F64.valid (S754_finite s m e) = true -> (Z.pos m < 2 ^ 53)%Z.
Proof.
  intros V. apply valid_canonical in V. destruct V as (_ & Hd & _).
  pose proof (digits_bounds m) as [_ Hu].
  apply Z.lt_le_trans with (2 ^ digits m)%Z; [assumption|]. apply Z.pow_le_mono_r; lia.
Qed.

Lemma IZR_cond_Zopp s n : IZR (cond_Zopp s n) = sgn s * IZR n.
Proof. destruct s; cbn [cond_Zopp sgn]; [rewrite opp_IZR|]; ring. Qed.

(** An integer significand of at most 53 bits at an exponent of the format
    is represented exactly. *)
Lemma normalize_exact_at n e s0 :
  (Z.abs n < 2 ^ 53)%Z -> (emin <= e <= 971)%Z ->
  F64.valid (binary_normalize F64.prec F64.emax n e s0) = true /\
  F64.is_finite (binary_normalize F64.prec F64.emax n e s0) = true /\
  B2R (binary_normalize F64.prec F64.emax n e s0) = IZR n * bpow e.
Proof.
  intros Hn He. split; [apply binary_normalize_R|].
  assert (Hr : forall s p, (Z.pos p < 2 ^ 53)%Z ->
             F64.is_finite (binary_round F64.prec F64.emax s p e) = true /\
             B2R (binary_round F64.prec F64.emax s p e) = sgn s * (IZR (Z.pos p) * bpow e)).
  { intros s p Hp.
    assert (Hd : (digits p <= F64.prec)%Z) by (apply digits_le_pow; unfold F64.prec; lia).
    destruct (binary_round_exact s p e Hd ltac:(lia)) as (m' & -> & Hle & Hm & _).
    replace (fexp (digits p + e) <=? F64.emax - F64.prec)%Z with true
      by (symmetry; apply Z.leb_le; unfold F64.prec in Hd; unfold_fexp; lia).
    split; [reflexivity|]. cbn [B2R]. f_equal. rewrite Hm.
    replace (fexp (digits p + e)) with (e - (e - fexp (digits p + e)))%Z at 2 by lia.
    now rewrite IZR_mul_pow by lia. }
  destruct n as [|p|p]; cbn [binary_normalize].
  - split; [reflexivity|]. cbn [B2R]. ring.
  - destruct (Hr false p ltac:(lia)) as [Hf ->]. split; [assumption|]. cbn [sgn]. ring.
  - destruct (Hr true p ltac:(lia)) as [Hf ->]. split; [assumption|].
    change (Z.neg p) with (- Z.pos p)%Z. rewrite opp_IZR. cbn [sgn]. ring.
Qed.

(** ** Small integers *)

(** A [u16] converts exactly. *)
Lemma of_u16_R n :
  in_u16 n ->
  F64.valid (F64.of_Z n) = true /\ F64.is_finite (F64.of_Z n) = true /\
  F64.has_sign false (F64.of_Z n) /\
  B2R (F64.of_Z n) = IZR n /\ 0 <= IZR n <= 65535.
Proof.
  intros Hn. unfold_u8. destruct (of_Z_R n) as (V & F & E); [lia|].
  repeat split; try assumption; [apply of_Z_sign; lia|apply (IZR_le 0)|apply (IZR_le _ 65535)]; lia.
Qed.

(** A [u16] divided by a float that is a small integer [k]. *)
Lemma div_u16_R n d k :
  in_u16 n -> F64.valid d = true -> F64.is_finite d = true -> F64.has_sign false d ->
  B2R d = IZR k -> (1 <= k)%Z ->
  let q := F64.div (F64.of_Z n) d in
  F64.valid q = true /\ F64.is_finite q = true /\ F64.has_sign false q /\
  near (IZR n / IZR k) (B2R q) /\ 0 <= IZR n / IZR k <= 65535.
Proof.
  intros Hn Vd Fd Sd Ed Hk q. destruct (of_u16_R n Hn) as (V & F & S & E & Hlo & Hhi).
  assert (Hk' : 1 <= IZR k) by (apply (IZR_le 1); lia).
  destruct (div_R _ _ V Vd F Fd) as (Vq & Hq); [rewrite Ed; lra|].
  rewrite E, Ed in Hq. fold q in Vq, Hq.
  assert (Hpos : 0 <= IZR n / IZR k)
    by (apply Rmult_le_pos; [lra|]; left; apply Rinv_0_lt_compat; lra).
  assert (Hup : IZR n / IZR k <= 65535).
  { apply Rmult_le_reg_r with (IZR k); [lra|]. unfold Rdiv.
    rewrite Rmult_assoc, Rinv_l by lra. nra. }
  destruct Hq as (Fq & Nq).
  { pose proof bpow_1023_lower. rewrite Rabs_pos_eq by assumption. lra. }
  repeat split; try assumption. apply (div_sign false false); assumption.
Qed.
