(* ===== verification/Monotone.v ===== *)
(** * Rounding is monotone

    A result that is computed exactly before it is rounded (a sum, a
    difference, a product, an integer conversion) cannot cross a float: when
    the exact value lies between two floats, so does the rounded one, and an
    exact value that is a float is returned unchanged.  This gives bounds
    without an error term, such as [1.0 - p <= 1.0] for [0.0 <= p]. *)

From Stdlib Require Import ZArith Lia Bool List SpecFloat Rbase Rfunctions Lra.
From S2P Require Import Prelude Ieee Exact Round Real.
#[local] Open Scope R_scope.

(** The bounds of a result: two well-formed finite floats around a value. *)
Definition between (lo hi : F64.f64) (x : R) : Prop :=
  F64.valid lo = true /\ F64.valid hi = true /\
  F64.is_finite lo = true /\ F64.is_finite hi = true /\
  B2R lo <= x <= B2R hi.

(** The result of an operation: finite and between the same floats. *)
Definition within (lo hi r : F64.f64) : Prop :=
  F64.is_finite r = true /\ B2R lo <= B2R r <= B2R hi.

(** ** Magnitudes *)

Section Magnitudes.

Variables (s : bool) (mx ex : Z) (my : positive) (ey : Z).

Hypothesis mx_pos : (0 < mx)%Z.
Hypothesis aligned : (ex <= fexp (Zdigits2 mx + ex))%Z.
Hypothesis valid_y : F64.valid (S754_finite false my ey) = true.

Let E := fexp (Zdigits2 mx + ex).
Let n := (E - ex)%Z.
Let q := (mx / 2 ^ n)%Z.
Let X := IZR mx * bpow ex.
Let Y := IZR (Z.pos my) * bpow ey.

Lemma grid_unit : bpow E = IZR (2 ^ n) * bpow ex.
Proof. rewrite <- bpow_IZR, <- bpow_add by (unfold n, E; lia). f_equal. unfold n. lia. Qed.

Lemma quotient_bounds : (0 <= n /\ 0 < 2 ^ n /\ 0 <= q /\ q * 2 ^ n <= mx < (q + 1) * 2 ^ n)%Z.
Proof.
  assert (Hn : (0 <= n)%Z) by (unfold n, E; lia).
  assert (Hp : (0 < 2 ^ n)%Z) by (apply Z.pow_pos_nonneg; lia).
  pose proof (Z.div_mod mx (2 ^ n) ltac:(lia)) as Hdm. fold q in Hdm.
  pose proof (Z.mod_pos_bound mx (2 ^ n) Hp).
  assert (0 <= q)%Z by (apply Z.div_pos; lia). lia.
Qed.

(** The bound's exponent is not below the canonical exponent of a smaller
    magnitude. *)
Lemma exponent_le : X <= Y -> (E <= ey)%Z.
Proof.
  intros H. apply valid_canonical in valid_y as (Hc & Hd & _).
  pose proof (zdigits_bounds mx mx_pos) as [Hl Hlu].
  pose proof (digits_bounds my) as [_ Hu]. pose proof (zdigits_nonneg mx).
  assert (Hd1 : (1 <= Zdigits2 mx)%Z).
  { destruct (Z.eq_dec (Zdigits2 mx) 0) as [E0|]; [rewrite E0 in Hlu; cbn in Hlu; lia|lia]. }
  assert (H1 : bpow (Zdigits2 mx - 1 + ex) <= X).
  { unfold X. rewrite bpow_add. apply Rmult_le_compat_r; [left; apply bpow_pos|].
    rewrite bpow_IZR by lia. now apply IZR_le. }
  assert (H2 : Y < bpow (digits my + ey)).
  { unfold Y. rewrite bpow_add. apply Rmult_lt_compat_r; [apply bpow_pos|].
    pose proof (digits_pos my). rewrite bpow_IZR by lia. now apply IZR_lt. }
  assert (H3 : bpow (Zdigits2 mx - 1 + ex) < bpow (digits my + ey)) by lra.
  apply bpow_lt_inv in H3. rewrite <- Hc. apply fexp_mono. lia.
Qed.

(** The bound as a multiple of the unit of [E]. *)
Lemma bound_multiple :
  (E <= ey)%Z -> Y = IZR (Z.pos my * 2 ^ (ey - E)) * bpow E.
Proof.
  intros H. unfold Y. replace E with (ey - (ey - E))%Z at 2 by lia.
  symmetry. apply IZR_mul_pow. lia.
Qed.

Lemma round_exact_le :
  X <= Y ->
  F64.is_finite (binary_round_aux F64.prec F64.emax s mx ex loc_Exact) = true /\
  exists v, B2R (binary_round_aux F64.prec F64.emax s mx ex loc_Exact) = sgn s * v /\
            0 <= v <= Y.
Proof.
  intros H. pose proof (exponent_le H) as HE. pose proof (bound_multiple HE) as EY.
  destruct quotient_bounds as (Hn & Hp & Hq0 & Hq).
  set (Ny := (Z.pos my * 2 ^ (ey - E))%Z) in *.
  pose proof (bpow_pos ex) as Hbx. pose proof (bpow_pos E) as HbE.
  assert (Hm : (mx <= Ny * 2 ^ n)%Z).
  { apply le_IZR. apply Rmult_le_reg_r with (bpow ex); [assumption|].
    rewrite mult_IZR, Rmult_assoc, <- grid_unit. unfold X in H. lra. }
  assert (HqN : (q <= Ny)%Z) by nia.
  destruct (binary_round_aux_spec s mx ex loc_Exact ltac:(lia) aligned)
    as (r & Hr & Hr53 & Hnorm & Er). fold E in Hr, Hnorm, Er. fold n in Hr, Hnorm. fold q in Hr, Hnorm.
  assert (HR : exists R, (q <= R <= Ny /\ R <= 2 ^ 53)%Z /\
                binary_round_aux F64.prec F64.emax s mx ex loc_Exact = encode s R E).
  { destruct (Z.eq_dec q Ny) as [Eq|Ne].
    - exists q. split.
      + split; [lia|]. destruct Hr; lia.
      + apply binary_round_aux_multiple; [lia|assumption|].
        fold E. fold n. apply Z.mod_divide; [lia|]. exists q. nia.
    - exists r. split; [|assumption]. destruct Hr; lia. }
  destruct HR as (R & (HR1 & HR53) & ER). rewrite ER.
  assert (HV : IZR R * bpow E <= Y).
  { rewrite EY. apply Rmult_le_compat_r; [lra|]. apply IZR_le. lia. }
  pose proof (valid_lt_max _ valid_y) as Hmax. cbn [B2R sgn] in Hmax.
  rewrite Rmult_1_l, Rabs_pos_eq in Hmax by (left; apply mag_pos). fold Y in Hmax.
  assert (HF : F64.is_finite (encode s R E) = true).
  { apply encode_finite; [lia|destruct Hnorm; [now left|right; lia]|lra]. }
  split; [assumption|]. exists (IZR R * bpow E).
  split; [apply encode_B2R; [lia|assumption]|].
  split; [apply Rmult_le_pos; [apply IZR_le; lia|lra]|assumption].
Qed.

Lemma round_exact_ge :
  Y <= X ->
  F64.is_finite (binary_round_aux F64.prec F64.emax s mx ex loc_Exact) = true ->
  exists v, B2R (binary_round_aux F64.prec F64.emax s mx ex loc_Exact) = sgn s * v /\ Y <= v.
Proof.
  intros H. destruct quotient_bounds as (Hn & Hp & Hq0 & Hq).
  pose proof (bpow_pos ex) as Hbx. pose proof (bpow_pos E) as HbE.
  destruct (binary_round_aux_spec s mx ex loc_Exact ltac:(lia) aligned)
    as (r & Hr & Hr53 & Hnorm & ->). fold E in Hr, Hnorm |- *. fold n in Hr, Hnorm. fold q in Hr, Hnorm.
  intros HF. exists (IZR r * bpow E). split; [apply encode_B2R; [destruct Hr; lia|assumption]|].
  apply Rle_trans with (IZR q * bpow E);
    [|apply Rmult_le_compat_r; [lra|apply IZR_le; destruct Hr; lia]].
  destruct (Z.le_gt_cases E ey) as [HE|HE].
  - rewrite (bound_multiple HE). apply Rmult_le_compat_r; [lra|]. apply IZR_le.
    set (Ny := (Z.pos my * 2 ^ (ey - E))%Z).
    assert (Hm : (Ny * 2 ^ n <= mx)%Z).
    { apply le_IZR. apply Rmult_le_reg_r with (bpow ex); [assumption|].
      rewrite mult_IZR, Rmult_assoc, <- grid_unit. unfold Ny.
      rewrite <- (bound_multiple HE). exact H. }
    nia.
  - pose proof (valid_mantissa_lt _ _ _ valid_y) as Hmy.
    apply valid_canonical in valid_y as (_ & _ & Hey & _).
    destruct Hnorm as [HEm|H52]; [lia|].
    apply Rle_trans with (bpow (52 + E)).
    + apply Rle_trans with (bpow (53 + ey)); [|apply bpow_le; lia].
      unfold Y. rewrite bpow_add, (bpow_IZR 53) by lia.
      apply Rmult_le_compat_r; [left; apply bpow_pos|]. apply IZR_le. lia.
    + rewrite bpow_add, (bpow_IZR 52) by lia. apply Rmult_le_compat_r; [lra|now apply IZR_le].
Qed.

End Magnitudes.

(** ** Between two floats *)

Lemma pos_float f :
  F64.is_finite f = true -> 0 < B2R f -> exists m e, f = S754_finite false m e.
Proof.
  destruct f as [s|s| |[|] m e]; try discriminate; cbn [B2R sgn]; intros _ H; try lra; eauto.
  pose proof (mag_pos m e). lra.
Qed.

Lemma neg_float f :
  F64.is_finite f = true -> B2R f < 0 -> exists m e, f = S754_finite true m e.
Proof.
  destruct f as [s|s| |[|] m e]; try discriminate; cbn [B2R sgn]; intros _ H; try lra; eauto.
  pose proof (mag_pos m e). lra.
Qed.

(** Rounding an exact value that lies between two floats gives a float
    between them: rounding is monotone and leaves floats unchanged. *)
Lemma round_aux_between s mx ex lo hi :
  (0 <= mx)%Z -> (ex <= fexp (Zdigits2 mx + ex))%Z ->
  between lo hi (sgn s * (IZR mx * bpow ex)) ->
  within lo hi (binary_round_aux F64.prec F64.emax s mx ex loc_Exact).
Proof.
  intros Hm He (Vl & Vh & Fl & Fh & Hlo & Hhi). unfold within.
  destruct (Z.eq_dec mx 0) as [->|Hne].
  - rewrite binary_round_aux_multiple by (try apply Z.mod_0_l; try lia; apply Z.pow_nonzero; lia).
    rewrite Z.div_0_l by (apply Z.pow_nonzero; lia). cbn [encode F64.is_finite B2R].
    rewrite Rmult_0_l, Rmult_0_r in *. auto.
  - assert (Hpos : (0 < mx)%Z) by lia.
    assert (HX : 0 < IZR mx * bpow ex) by (apply Rmult_lt_0_compat; [now apply IZR_lt|apply bpow_pos]).
    destruct s; cbn [sgn] in *.
    + destruct (neg_float lo Fl ltac:(lra)) as (ml & el & ->). cbn [B2R sgn] in Hlo.
      destruct (round_exact_le true mx ex ml el Hpos He Vl ltac:(lra)) as (F & v & Ev & Hv).
      split; [assumption|]. rewrite Ev. cbn [B2R sgn]. split; [lra|].
      destruct (Rle_lt_dec 0 (B2R hi)) as [H0|H0]; [lra|].
      destruct (neg_float hi Fh H0) as (mh & eh & ->). cbn [B2R sgn] in Hhi |- *.
      destruct (round_exact_ge true mx ex mh eh Hpos He Vh ltac:(lra) F) as (v' & Ev' & Hv').
      rewrite Ev in Ev'. cbn [sgn] in Ev'. lra.
    + destruct (pos_float hi Fh ltac:(lra)) as (mh & eh & ->). cbn [B2R sgn] in Hhi.
      destruct (round_exact_le false mx ex mh eh Hpos He Vh ltac:(lra)) as (F & v & Ev & Hv).
      split; [assumption|]. rewrite Ev. cbn [B2R sgn]. split; [|lra].
      destruct (Rle_lt_dec (B2R lo) 0) as [H0|H0]; [lra|].
      destruct (pos_float lo Fl H0) as (ml & el & ->). cbn [B2R sgn] in Hlo |- *.
      destruct (round_exact_ge false mx ex ml el Hpos He Vl ltac:(lra) F) as (v' & Ev' & Hv').
      rewrite Ev in Ev'. cbn [sgn] in Ev'. lra.
Qed.

Lemma binary_round_between s p e lo hi :
  between lo hi (sgn s * (IZR (Z.pos p) * bpow e)) ->
  within lo hi (binary_round F64.prec F64.emax s p e).
Proof.
  intros H. unfold binary_round. fold (digits p).
  destruct (shl_align_fexp p e) as (mz & ez & -> & Hv & Hpre).
  apply round_aux_between; [lia|assumption|]. now rewrite Hv.
Qed.

Lemma normalize_between n e s0 lo hi :
  between lo hi (IZR n * bpow e) ->
  within lo hi (binary_normalize F64.prec F64.emax n e s0).
Proof.
  intros H. destruct n as [|p|p]; cbn [binary_normalize].
  - destruct H as (_ & _ & _ & _ & H). rewrite Rmult_0_l in H. now split.
  - apply binary_round_between. cbn [sgn]. now rewrite Rmult_1_l.
  - apply binary_round_between. cbn [sgn].
    change (Z.neg p) with (- Z.pos p)%Z in H. rewrite opp_IZR in H.
    now replace (-1 * (IZR (Z.pos p) * bpow e)) with (- IZR (Z.pos p) * bpow e) by ring.
Qed.

(** A sum, a difference or a product whose exact value lies between two
    floats is a float between them. *)
Theorem add_between a b lo hi :
  F64.valid a = true -> F64.valid b = true ->
  F64.is_finite a = true -> F64.is_finite b = true ->
  between lo hi (B2R a + B2R b) -> within lo hi (F64.add a b).
Proof.
  intros Va Vb Fa Fb H.
  destruct a as [sa|sa| |sa ma ea], b as [sb|sb| |sb mb eb]; try discriminate.
  - destruct H as (_ & _ & _ & _ & H). cbn [B2R] in H. rewrite Rplus_0_l in H.
    split; [now destruct sa, sb|].
    now replace (B2R (F64.add (S754_zero sa) (S754_zero sb))) with 0 by now destruct sa, sb.
  - destruct H as (_ & _ & _ & _ & H). cbn [B2R] in H. rewrite Rplus_0_l in H. now split.
  - destruct H as (_ & _ & _ & _ & H). cbn [B2R] in H. rewrite Rplus_0_r in H. now split.
  - unfold F64.add, SFadd. apply normalize_between. cbn [B2R] in H.
    rewrite plus_IZR, Rmult_plus_distr_r, !aligned_value by lia. exact H.
Qed.

Theorem sub_between a b lo hi :
  F64.valid a = true -> F64.valid b = true ->
  F64.is_finite a = true -> F64.is_finite b = true ->
  between lo hi (B2R a - B2R b) -> within lo hi (F64.sub a b).
Proof.
  intros Va Vb Fa Fb H.
  destruct a as [sa|sa| |sa ma ea], b as [sb|sb| |sb mb eb]; try discriminate.
  - destruct H as (_ & _ & _ & _ & H). cbn [B2R] in H. rewrite Rminus_0_r in H.
    split; [now destruct sa, sb|].
    now replace (B2R (F64.sub (S754_zero sa) (S754_zero sb))) with 0 by now destruct sa, sb.
  - destruct H as (_ & _ & _ & _ & H). cbn [B2R] in H. split; [reflexivity|].
    cbn [F64.sub SFsub B2R].
    replace (sgn (negb sb) * (IZR (Z.pos mb) * bpow eb)) with (0 - sgn sb * (IZR (Z.pos mb) * bpow eb))
      by (destruct sb; cbn [sgn negb]; ring).
    exact H.
  - destruct H as (_ & _ & _ & _ & H). cbn [B2R] in H. rewrite Rminus_0_r in H. now split.
  - unfold F64.sub, SFsub. apply normalize_between. cbn [B2R] in H.
    rewrite minus_IZR, Rmult_minus_distr_r, !aligned_value by lia. exact H.
Qed.

Theorem mul_between a b lo hi :
  F64.valid a = true -> F64.valid b = true ->
  F64.is_finite a = true -> F64.is_finite b = true ->
  between lo hi (B2R a * B2R b) -> within lo hi (F64.mul a b).
Proof.
  intros Va Vb Fa Fb H.
  destruct a as [sa|sa| |sa ma ea], b as [sb|sb| |sb mb eb]; try discriminate;
    try (destruct H as (_ & _ & _ & _ & H); cbn [B2R] in H;
         rewrite ?Rmult_0_l, ?Rmult_0_r in H; now split).
  assert (Hpre := mul_precondition ma ea mb eb Va Vb).
  unfold F64.mul, SFmul. apply round_aux_between; [lia|assumption|].
  cbn [B2R] in H.
  replace (sgn (xorb sa sb) * (IZR (Z.pos (ma * mb)) * bpow (ea + eb)))
    with (sgn sa * (IZR (Z.pos ma) * bpow ea) * (sgn sb * (IZR (Z.pos mb) * bpow eb)));
    [exact H|].
  rewrite sgn_xorb, Pos2Z.inj_mul, mult_IZR, bpow_add. ring.
Qed.

(** ** A lower bound that survives overflow *)

Lemma encode_cases s r E :
  (0 <= r)%Z -> F64.is_finite (encode s r E) = true \/ encode s r E = S754_infinity s.
Proof.
  intros Hr. unfold encode. destruct r as [|p|p]; [now left| |lia].
  destruct (_ =? _)%Z; destruct (_ <=? _)%Z; auto.
Qed.

Lemma round_aux_at_least mx ex lo :
  (0 < mx)%Z -> (ex <= fexp (Zdigits2 mx + ex))%Z ->
  F64.valid lo = true -> F64.is_finite lo = true ->
  0 < B2R lo <= IZR mx * bpow ex ->
  binary_round_aux F64.prec F64.emax false mx ex loc_Exact = S754_infinity false \/
  (F64.is_finite (binary_round_aux F64.prec F64.emax false mx ex loc_Exact) = true /\
   B2R lo <= B2R (binary_round_aux F64.prec F64.emax false mx ex loc_Exact)).
Proof.
  intros Hm He Vl Fl [Hl0 Hl].
  destruct (pos_float lo Fl Hl0) as (ml & el & ->). cbn [B2R sgn] in Hl.
  destruct (binary_round_aux_spec false mx ex loc_Exact ltac:(lia) He) as (q & Hq & _ & _ & Er).
  assert (Hq0 : (0 <= q)%Z).
  { assert (0 <= mx / 2 ^ (fexp (Zdigits2 mx + ex) - ex))%Z
      by (apply Z.div_pos; [lia|apply Z.pow_pos_nonneg; lia]).
    destruct Hq; lia. }
  destruct (encode_cases false q (fexp (Zdigits2 mx + ex)) Hq0) as [F|I].
  - right. rewrite <- Er in F. split; [exact F|].
    destruct (round_exact_ge false mx ex ml el Hm He Vl ltac:(lra) F) as (v & -> & Hv).
    cbn [sgn B2R]. lra.
  - left. now rewrite Er.
Qed.

(** A product of at least a positive float is that float at least, or has
    overflowed to plus infinity. *)
Theorem mul_at_least a b lo :
  F64.valid a = true -> F64.valid b = true ->
  F64.is_finite a = true -> F64.is_finite b = true ->
  F64.valid lo = true -> F64.is_finite lo = true ->
  0 < B2R lo <= B2R a * B2R b ->
  F64.mul a b = S754_infinity false \/
  (F64.is_finite (F64.mul a b) = true /\ B2R lo <= B2R (F64.mul a b)).
Proof.
  intros Va Vb Fa Fb Vl Fl H.
  destruct a as [sa|sa| |sa ma ea], b as [sb|sb| |sb mb eb]; try discriminate;
    cbn [B2R] in H; rewrite ?Rmult_0_l, ?Rmult_0_r in H; try lra.
  pose proof (mag_pos ma ea) as Ha. pose proof (mag_pos mb eb) as Hb.
  assert (Hpre := mul_precondition ma ea mb eb Va Vb).
  assert (Hab : 0 < IZR (Z.pos ma) * bpow ea * (IZR (Z.pos mb) * bpow eb))
    by now apply Rmult_lt_0_compat.
  assert (Hs : xorb sa sb = false /\
               B2R lo <= IZR (Z.pos ma) * bpow ea * (IZR (Z.pos mb) * bpow eb)).
  { destruct sa, sb; cbn [sgn xorb] in *; split; try reflexivity; lra. }
  destruct Hs as [Hs Hl]. unfold F64.mul, SFmul. rewrite Hs.
  apply round_aux_at_least; try assumption; [lia|].
  split; [lra|]. rewrite Pos2Z.inj_mul, mult_IZR, bpow_add.
  replace (IZR (Z.pos ma) * IZR (Z.pos mb) * (bpow ea * bpow eb))
    with (IZR (Z.pos ma) * bpow ea * (IZR (Z.pos mb) * bpow eb)) by ring.
  exact Hl.
Qed.

(** ** The sign of a difference *)

Lemma difference_value sa ma ea sb mb eb :
  let e := Z.min ea eb in
  IZR (cond_Zopp sa (Z.pos (fst (shl_align ma ea e))) - cond_Zopp sb (Z.pos (fst (shl_align mb eb e))))
  * bpow e
  = B2R (S754_finite sa ma ea) - B2R (S754_finite sb mb eb).
Proof.
  intros e. cbn [B2R]. rewrite minus_IZR, Rmult_minus_distr_r.
  unfold e. now rewrite !aligned_value by lia.
Qed.

(** The difference of a smaller and a larger float carries the sign bit. *)
Lemma sub_sign_lt a b :
  F64.is_finite a = true -> F64.is_finite b = true -> B2R a < B2R b ->
  F64.has_sign true (F64.sub a b).
Proof.
  intros Fa Fb H.
  destruct a as [sa|sa| |sa ma ea], b as [sb|sb| |sb mb eb]; try discriminate;
    cbn [B2R] in H; unfold F64.sub; cbn [SFsub F64.has_sign].
  - lra.
  - pose proof (mag_pos mb eb). destruct sb; cbn [sgn negb] in *; [lra|reflexivity].
  - pose proof (mag_pos ma ea). destruct sa; cbn [sgn] in *; [reflexivity|lra].
  - pose proof (difference_value sa ma ea sb mb eb) as E. cbv zeta in E. cbn [B2R] in E.
    match goal with |- F64.has_sign _ (binary_normalize _ _ ?n ?e ?s) =>
      pose proof (binary_normalize_sign n e s) as S;
      assert (Hn : (n < 0)%Z)
        by (apply lt_IZR; pose proof (bpow_pos e); nra) end.
    match type of S with F64.has_sign (if ?c then _ else ?d) _ =>
      replace c with false in S by (symmetry; apply Z.eqb_neq; lia);
      replace d with true in S by (symmetry; apply Z.ltb_lt; lia) end.
    exact S.
Qed.

(** The difference of a float without the sign bit and a float that is
    not larger does not carry it. *)
Lemma sub_sign_ge a b :
  F64.is_finite a = true -> F64.is_finite b = true -> F64.has_sign false a ->
  B2R b <= B2R a -> F64.has_sign false (F64.sub a b).
Proof.
  intros Fa Fb Sa H.
  destruct a as [sa|sa| |sa ma ea], b as [sb|sb| |sb mb eb]; try discriminate;
    cbn [F64.has_sign] in Sa; subst sa; cbn [B2R sgn] in H;
    unfold F64.sub; cbn [SFsub F64.has_sign].
  - now destruct sb.
  - pose proof (mag_pos mb eb). destruct sb; cbn [sgn negb] in *; [reflexivity|lra].
  - reflexivity.
  - pose proof (difference_value false ma ea sb mb eb) as E. cbv zeta in E. cbn [B2R sgn] in E.
    match goal with |- F64.has_sign _ (binary_normalize _ _ ?n ?e ?s) =>
      pose proof (binary_normalize_sign n e s) as S;
      assert (Hn : (0 <= n)%Z)
        by (apply le_IZR; pose proof (bpow_pos e); nra) end.
    match type of S with F64.has_sign (if ?c then _ else ?d) _ =>
      destruct c; [exact S|];
      replace d with false in S by (symmetry; apply Z.ltb_ge; lia) end.
    exact S.
Qed.
