(* ===== verification/RemSqrt.v ===== *)
(** * The remainder and the square root

    The [%] operator is exact: the remainder of two finite floats is the
    dividend minus a whole multiple of the divisor, smaller in magnitude than
    the divisor and with the sign of the dividend.  The square root of a
    non-negative finite float is one rounding of the real square root. *)

From Stdlib Require Import ZArith Lia Bool List SpecFloat Rbase Rfunctions R_sqrt Lra.
From S2P Require Import Prelude Ieee Exact Round Real.
#[local] Open Scope R_scope.

(** ** The remainder *)

(** The remainder of two finite floats is exact: it is the dividend minus a
    whole multiple of the divisor, smaller than the divisor, with the sign
    of the dividend. *)
Lemma rem_finite_R sx mx ex sy my ey :
  F64.valid (S754_finite sx mx ex) = true -> F64.valid (S754_finite sy my ey) = true ->
  let X := IZR (Z.pos mx) * bpow ex in
  let Y := IZR (Z.pos my) * bpow ey in
  let r := F64.rem (S754_finite sx mx ex) (S754_finite sy my ey) in
  F64.valid r = true /\ F64.is_finite r = true /\ F64.has_sign sx r /\
  exists (k : Z) (v : R),
    B2R r = sgn sx * v /\ v = X - IZR k * Y /\ 0 <= v < Y /\ (0 <= k)%Z.
Proof.
  intros Vx Vy X Y r.
  pose proof (valid_mantissa_lt _ _ _ Vx) as Hmx. pose proof (valid_mantissa_lt _ _ _ Vy) as Hmy.
  apply valid_canonical in Vx, Vy.
  destruct Vx as (_ & _ & Hex & _), Vy as (_ & _ & Hey & _).
  unfold r, F64.rem. set (e := Z.min ex ey).
  rewrite !Z.shiftl_mul_pow2 by lia.
  set (a := (Z.pos mx * 2 ^ (ex - e))%Z). set (b := (Z.pos my * 2 ^ (ey - e))%Z).
  assert (Hb : (0 < b)%Z) by (unfold b; apply Z.mul_pos_pos; [lia|apply Z.pow_pos_nonneg; lia]).
  assert (Ha : (0 <= a)%Z) by (unfold a; apply Z.mul_nonneg_nonneg; [lia|apply Z.pow_nonneg; lia]).
  pose proof (Z.mod_pos_bound a b Hb) as [Hr0 Hr1].
  pose proof (Z.mod_le a b Ha Hb) as Hra.
  pose proof (Z.div_mod a b ltac:(lia)) as Hdm.
  assert (Hq : (0 <= a / b)%Z) by (apply Z.div_pos; lia).
  assert (Hr53 : (a mod b < 2 ^ 53)%Z).
  { destruct (Z.le_gt_cases ex ey).
    - assert (a = Z.pos mx) by (unfold a; replace (ex - e)%Z with 0%Z by lia; lia). lia.
    - assert (b = Z.pos my) by (unfold b; replace (ey - e)%Z with 0%Z by lia; lia). lia. }
  assert (EX : IZR a * bpow e = X).
  { unfold a, X. replace e with (ex - (ex - e))%Z at 2 by lia. apply IZR_mul_pow. lia. }
  assert (EY : IZR b * bpow e = Y).
  { unfold b, Y. replace e with (ey - (ey - e))%Z at 2 by lia. apply IZR_mul_pow. lia. }
  set (n := cond_Zopp sx (a mod b)).
  assert (Hn : (Z.abs n < 2 ^ 53)%Z) by (unfold n; destruct sx; cbn [cond_Zopp]; lia).
  destruct (normalize_exact_at n e sx Hn ltac:(lia)) as (V & F & E).
  split; [exact V|]. split; [exact F|]. split.
  - pose proof (binary_normalize_sign n e sx) as S. unfold n in *.
    destruct (Z.eqb_spec (cond_Zopp sx (a mod b)) 0) as [E0|E0]; [exact S|].
    destruct sx; cbn [cond_Zopp] in *; [replace (- (a mod b) <? 0)%Z with true in S by lia
                                       |replace (a mod b <? 0)%Z with false in S by lia]; exact S.
  - exists (a / b)%Z, (IZR (a mod b) * bpow e). rewrite E. unfold n. rewrite IZR_cond_Zopp.
    pose proof (bpow_pos e) as He.
    assert (Em : IZR (a mod b) = IZR a - IZR (a / b) * IZR b).
    { rewrite <- mult_IZR, <- minus_IZR. f_equal. lia. }
    split; [ring|]. split; [rewrite Em, <- EX, <- EY; ring|]. split; [|assumption].
    split; [apply Rmult_le_pos; [apply IZR_le; lia|lra]|].
    rewrite <- EY. apply Rmult_lt_compat_r; [assumption|now apply IZR_lt].
Qed.

Theorem rem_R x y :
  F64.valid x = true -> F64.valid y = true ->
  F64.is_finite x = true -> F64.is_finite y = true -> B2R y <> 0 ->
  F64.valid (F64.rem x y) = true /\ F64.is_finite (F64.rem x y) = true /\
  F64.has_sign (F64.sign x) (F64.rem x y) /\
  Rabs (B2R (F64.rem x y)) < Rabs (B2R y) /\
  exists k : Z, B2R (F64.rem x y) = B2R x - IZR k * B2R y.
Proof.
  intros Vx Vy Fx Fy Hy.
  destruct y as [sy|sy| |sy my ey]; try discriminate; [now cbn in Hy|].
  pose proof (mag_pos my ey) as HY.
  assert (Ey : Rabs (B2R (S754_finite sy my ey)) = IZR (Z.pos my) * bpow ey)
    by (cbn [B2R]; apply Rabs_sgn; lra).
  destruct x as [sx|sx| |sx mx ex]; try discriminate.
  - cbn [F64.rem F64.sign F64.has_sign]. repeat split; try reflexivity.
    + rewrite Ey. cbn [B2R]. rewrite Rabs_R0. lra.
    + exists 0%Z. cbn [B2R]. ring.
  - destruct (rem_finite_R sx mx ex sy my ey Vx Vy) as (V & F & S & k & v & E & Ev & Hv & Hk).
    repeat split; try assumption.
    + rewrite Ey, E, Rabs_sgn; lra.
    + exists (if xorb sx sy then (- k)%Z else k). rewrite E, Ev. cbn [B2R].
      destruct sx, sy; cbn [xorb sgn]; rewrite ?opp_IZR; ring.
Qed.

(** ** The square root *)

Lemma div2_add_even a b : Z.div2 (a + 2 * b) = (Z.div2 a + b)%Z.
Proof. rewrite !Z.div2_div. rewrite Z.mul_comm, Z.div_add by lia. reflexivity. Qed.

Lemma div2_double_le e : (2 * Z.div2 e <= e)%Z.
Proof. rewrite Z.div2_div. pose proof (Z.mul_div_le e 2). lia. Qed.

(** The integer square root of a number of [D] bits has [(D + 1) / 2] bits
    or more. *)
Lemma zdigits_sqrt m D :
  (1 <= D)%Z -> (2 ^ (D - 1) <= m)%Z -> (Z.div2 (D + 1) <= Zdigits2 (Z.sqrt m))%Z.
Proof.
  intros HD Hm. set (K := Z.div2 (D + 1)).
  assert (HK : (1 <= K /\ 2 * K <= D + 1)%Z).
  { unfold K. rewrite Z.div2_div. pose proof (Z.mul_div_le (D + 1) 2).
    assert (1 <= (D + 1) / 2)%Z by (apply Z.div_le_lower_bound; lia). lia. }
  assert (Hq : (2 ^ (K - 1) <= Z.sqrt m)%Z).
  { rewrite <- (Z.sqrt_square (2 ^ (K - 1))) by (apply Z.pow_nonneg; lia).
    apply Z.sqrt_le_mono. rewrite <- Z.pow_add_r by lia.
    etransitivity; [|exact Hm]. apply Z.pow_le_mono_r; lia. }
  assert (0 < Z.sqrt m)%Z by (pose proof (Z.pow_pos_nonneg 2 (K - 1)); lia).
  pose proof (zdigits_bounds (Z.sqrt m) ltac:(assumption)) as [_ Hu].
  assert (2 ^ (K - 1) < 2 ^ Zdigits2 (Z.sqrt m))%Z by lia.
  apply Z.pow_lt_mono_r_iff in H0; [lia|lia|apply zdigits_nonneg].
Qed.

Lemma sqrt_core_spec m e :
  F64.valid (S754_finite false m e) = true ->
  exists q e' l,
    SFsqrt_core_binary F64.prec F64.emax (Z.pos m) e = (q, e', l) /\
    (0 <= q)%Z /\ (e' <= fexp (Zdigits2 q + e'))%Z /\
    IZR q * bpow e' <= sqrt (IZR (Z.pos m) * bpow e) < (IZR q + 1) * bpow e'.
Proof.
  intros V. unfold SFsqrt_core_binary. fold (digits m).
  set (e' := Z.min _ (Z.div2 e)).
  assert (He' : (2 * e' <= e)%Z) by (pose proof (div2_double_le e); lia).
  set (s := (e - 2 * e')%Z).
  set (m' := match s with Z.pos _ => Z.shiftl (Z.pos m) s | 0%Z => Z.pos m | Z.neg _ => 0%Z end).
  assert (Hm' : m' = (Z.pos m * 2 ^ s)%Z).
  { unfold m'. destruct s eqn:Es; [lia|now rewrite Z.shiftl_mul_pow2 by lia|lia]. }
  assert (Hpos : (0 < m')%Z).
  { rewrite Hm'. apply Z.mul_pos_pos; [lia|apply Z.pow_pos_nonneg; lia]. }
  pose proof (Z.sqrtrem_spec m' ltac:(lia)) as Hspec.
  pose proof (Z.sqrtrem_sqrt m') as Hfst.
  destruct (Z.sqrtrem m') as [q r]. cbn [fst] in Hfst. subst q.
  destruct Hspec as [Hsq Hr].
  pose proof (Z.sqrt_nonneg m') as Hq0.
  eexists _, _, _. split; [reflexivity|]. split; [assumption|]. split.
  - pose proof (digits_bounds m) as [Hl _]. pose proof (digits_pos m).
    assert (HD : (2 ^ (digits m + s - 1) <= m')%Z).
    { rewrite Hm'. replace (digits m + s - 1)%Z with ((digits m - 1) + s)%Z by lia.
      rewrite Z.pow_add_r by lia. apply Z.mul_le_mono_nonneg_r; [apply Z.pow_nonneg; lia|exact Hl]. }
    pose proof (zdigits_sqrt m' (digits m + s) ltac:(lia) HD) as Hz.
    replace (digits m + s + 1)%Z with ((digits m + e + 1) + 2 * (- e'))%Z in Hz by lia.
    rewrite div2_add_even in Hz.
    etransitivity; [apply Z.le_min_l|]. apply fexp_mono.
    change (IntDef.Z.div2 (Zdigits2 (Z.pos m) + e + 1)) with (Z.div2 (digits m + e + 1)). lia.
  - assert (EX : IZR (Z.pos m) * bpow e = IZR m' * (bpow e' * bpow e')).
    { rewrite <- bpow_add, Hm'. replace (e' + e')%Z with (e - s)%Z by lia.
      symmetry. apply IZR_mul_pow. lia. }
    pose proof (bpow_pos e') as Hb.
    rewrite EX, sqrt_mult, sqrt_square by (try apply Rmult_le_pos; try apply IZR_le; lra || lia).
    assert (Hlo : IZR (Z.sqrt m') <= sqrt (IZR m')).
    { rewrite <- (sqrt_square (IZR (Z.sqrt m'))) by (apply IZR_le; lia).
      apply sqrt_le_1_alt. rewrite <- mult_IZR. apply IZR_le. lia. }
    assert (Hhi : sqrt (IZR m') < IZR (Z.sqrt m') + 1).
    { rewrite <- (sqrt_square (IZR (Z.sqrt m') + 1)) by (apply Rplus_le_le_0_compat; [apply IZR_le; lia|lra]).
      apply sqrt_lt_1_alt. split; [apply IZR_le; lia|].
      rewrite <- plus_IZR, <- mult_IZR. apply IZR_lt. lia. }
    split; [apply Rmult_le_compat_r; lra | apply Rmult_lt_compat_r; lra].
Qed.

Theorem sqrt_R a :
  F64.valid a = true -> F64.is_finite a = true -> F64.has_sign false a ->
  F64.valid (F64.sqrt a) = true /\ F64.is_finite (F64.sqrt a) = true /\
  F64.has_sign false (F64.sqrt a) /\
  near (sqrt (B2R a)) (B2R (F64.sqrt a)).
Proof.
  intros V F S. destruct a as [s|s| |s m e]; try discriminate; cbn [F64.has_sign] in S; subst s.
  - cbn [F64.sqrt SFsqrt B2R]. rewrite sqrt_0. repeat split. apply near_refl.
  - destruct (sqrt_core_spec m e V) as (q & e' & l & E & Hq & He & Hb).
    unfold F64.sqrt. cbn [SFsqrt]. rewrite E.
    pose proof (valid_lt_max _ V) as Hmax. cbn [B2R sgn] in Hmax |- *.
    pose proof (mag_pos m e) as HX. rewrite Rmult_1_l in *. rewrite Rabs_pos_eq in Hmax by lra.
    assert (Hs : sqrt (IZR (Z.pos m) * bpow e) < bpow 1023).
    { apply Rlt_le_trans with (bpow 512); [|apply bpow_le; lia].
      rewrite <- (sqrt_square (bpow 512)) by (left; apply bpow_pos).
      apply sqrt_lt_1_alt. rewrite <- bpow_add. split; [lra|exact Hmax]. }
    destruct (round_aux_R false q e' l _ Hq He Hb Hs) as (Hf & v & Ev & Hv0 & Hve).
    split; [now apply binary_round_aux_valid|]. split; [assumption|].
    split; [apply binary_round_aux_sign|].
    rewrite Ev. cbn [sgn]. rewrite Rmult_1_l. unfold near.
    rewrite (Rabs_pos_eq (sqrt _)) by apply sqrt_pos. exact Hve.
Qed.
