(* ===== verification/Libm.v ===== *)
(** * A model of the math library's [sin]

    [sin] is computed in 128-bit fixed point: the argument is reduced modulo
    [2 pi] and folded into the first quadrant, the Taylor series is summed
    there, and the 53 leading bits of the sum become the significand of the
    result.  The result is within one unit in the last place of the true sine
    for arguments of moderate size; the renderers' theorems use only what
    [LibmOk] states of it.  *)

From Stdlib Require Import ZArith Lia Bool List SpecFloat.
From S2P Require Import Prelude Ieee Exact.
Import ListNotations.
#[local] Open Scope Z_scope.

Module SinModel.

(** The number of fraction bits, and [pi] and [1] with that many. *)
Definition F : Z := 128.
Definition PI : Z := 1069028584064966747859680373161870783300.
Definition ONE : Z := 2 ^ F.

Definition fmul (a b : Z) : Z := Z.shiftr (a * b) F.

(** The terms [r^(2k+1) / (2k+1)!] with alternating signs, [fuel] of them. *)
Fixpoint taylor (fuel : nat) (k term r2 acc : Z) : Z :=
  match fuel with
  | O => acc
  | S fuel' =>
      let term' := fmul term r2 / ((2 * k + 2) * (2 * k + 3)) in
      taylor fuel' (k + 1) term' r2 (if Z.even k then acc - term' else acc + term')
  end.

(** The sine of [r] in the first quadrant. *)
Definition sin_quadrant (r : Z) : Z := taylor 40 0 r (fmul r r) r.

(** Reduction of a non-negative argument: the sign to apply and the argument
    folded into [[0, pi/2]]. *)
Definition reduce (x : Z) : bool * Z :=
  let r := x mod (2 * PI) in
  let '(neg, r) := if PI <? r then (true, r - PI) else (false, r) in
  (neg, if PI / 2 <? r then PI - r else r).

(** [v] rounded to 53 significant bits: the value with half a unit of the
    dropped bits added, and the number of bits to drop from it. *)
Definition round53 (v : Z) : Z * Z :=
  let sh0 := Z.max 0 (Z.log2 v + 1 - 53) in
  let v' := if sh0 =? 0 then v else v + 2 ^ (sh0 - 1) in
  (v', Z.max 0 (Z.log2 v' + 1 - 53)).

(** The float of sign [s] whose magnitude is the fixed-point number [v],
    capped at one. *)
Definition to_float (s : bool) (v : Z) : F64.f64 :=
  if v <=? 0 then S754_zero s
  else
    let '(v', sh) := round53 v in
    if ONE <=? v' then S754_finite s 4503599627370496 (-52)
    else binary_normalize F64.prec F64.emax (cond_Zopp s (Z.shiftr v' sh)) (sh - F) s.

Definition sin (x : F64.f64) : F64.f64 :=
  match x with
  | S754_zero _ => x
  | S754_finite s m e =>
      let '(neg, r) := reduce (Z.shiftl (Zpos m) (e + F)) in
      to_float (xorb s neg) (sin_quadrant r)
  | _ => S754_nan
  end.

(** The results of [to_float]: a zero, plus or minus one, or a well-formed
    float of magnitude below one. *)
Inductive unit_float (s : bool) : F64.f64 -> Prop :=
| unit_zero : unit_float s (S754_zero s)
| unit_one : unit_float s (S754_finite s 4503599627370496 (-52))
| unit_frac m e :
    e <= -53 -> F64.valid (S754_finite s m e) = true -> unit_float s (S754_finite s m e).

End SinModel.

(** The instance of the interface. *)
#[export] Instance model_libm : Libm := {| Ieee.sin := SinModel.sin |}.

Import SinModel.

Lemma digits_log2 p : digits p = Z.log2 (Zpos p) + 1.
Proof.
  apply digits_unique. pose proof (Z.log2_spec (Zpos p) ltac:(lia)) as [Hl Hu].
  replace (Z.log2 (Z.pos p) + 1 - 1) with (Z.log2 (Z.pos p)) by lia.
  replace (Z.log2 (Z.pos p) + 1) with (Z.succ (Z.log2 (Z.pos p))) by lia. lia.
Qed.

Lemma round53_pos v : 0 < v -> 0 < fst (round53 v) /\ 0 <= snd (round53 v).
Proof.
  intros Hv. unfold round53. cbn [fst snd].
  pose proof (Z.pow_nonneg 2 (Z.max 0 (Z.log2 v + 1 - 53) - 1) ltac:(lia)).
  destruct (_ =? 0); split; lia.
Qed.

Lemma to_float_unit s v : unit_float s (to_float s v).
Proof.
  unfold to_float. destruct (Z.leb_spec v 0) as [|Hv]; [constructor|].
  destruct (round53 v) as [v' sh] eqn:E.
  pose proof (round53_pos v Hv) as [Hv' Hsh]. rewrite E in Hv', Hsh. cbn [fst snd] in Hv', Hsh.
  assert (Esh : sh = Z.max 0 (Z.log2 v' + 1 - 53)) by (unfold round53 in E; congruence).
  destruct (Z.leb_spec ONE v') as [|Hone]; [constructor|].
  assert (Hlog : Z.log2 v' < F) by (apply Z.log2_lt_pow2; [lia | exact Hone]).
  assert (Hp : 0 < Z.shiftr v' sh).
  { pose proof (proj2 (Z.shiftr_nonneg v' sh) ltac:(lia)).
    pose proof (proj1 (Z.shiftr_eq_0_iff v' sh)).
    pose proof (Z.log2_nonneg v'). lia. }
  destruct (Z.shiftr v' sh) as [|p|p] eqn:Ep; try lia.
  assert (Hdp : digits p = Z.log2 v' + 1 - sh).
  { rewrite digits_log2, <- Ep, Z.log2_shiftr by lia. pose proof (Z.log2_nonneg v'). lia. }
  assert (Hn : binary_normalize F64.prec F64.emax (cond_Zopp s (Z.pos p)) (sh - F) s
               = binary_round F64.prec F64.emax s p (sh - F)) by now destruct s.
  rewrite Hn.
  assert (Hd53 : digits p <= F64.prec) by (unfold F64.prec; lia).
  assert (Hemin : emin <= sh - F) by (unfold SpecFloat.emin, F64.prec, F64.emax, F; lia).
  destruct (binary_round_exact s p (sh - F) Hd53 Hemin) as (m' & -> & Hle & _ & Hdig).
  assert (Hf : fexp (digits p + (sh - F)) <= -53)
    by (unfold SpecFloat.fexp, SpecFloat.emin, F64.prec, F64.emax, F in *; lia).
  replace (fexp (digits p + (sh - F)) <=? F64.emax - F64.prec) with true
    by (symmetry; apply Z.leb_le; transitivity (-53); [exact Hf | now cbv]).
  apply unit_frac; [exact Hf|].
  unfold F64.valid, valid_binary, bounded, canonical_mantissa. fold (digits m').
  rewrite Hdig, Z.eqb_refl. cbn [andb]. apply Z.leb_le.
  transitivity (-53); [exact Hf | now cbv].
Qed.

Lemma unit_float_valid s r : unit_float s r -> F64.valid r = true.
Proof. now destruct 1. Qed.

Lemma unit_float_range s r :
  unit_float s r ->
  F64.leb (F64.of_Z (-1)) r = true /\ F64.leb r (F64.of_Z 1) = true.
Proof.
  change (F64.of_Z (-1)) with (S754_finite true 4503599627370496 (-52)).
  change (F64.of_Z 1) with (S754_finite false 4503599627370496 (-52)).
  destruct 1 as [| |m e He _]; try (now destruct s).
  unfold F64.leb, SFleb, SFcompare. destruct s; split; try reflexivity.
  - now rewrite (proj2 (Z.compare_gt_iff (-52) e)) by lia.
  - now rewrite (proj2 (Z.compare_lt_iff e (-52))) by lia.
Qed.

Lemma sin_unit x :
  F64.is_finite x = true -> exists s, unit_float s (SinModel.sin x).
Proof.
  destruct x as [s|s| |s m e]; try discriminate; intros _.
  - exists s. constructor.
  - unfold SinModel.sin. destruct (reduce _) as [neg r].
    exists (xorb s neg). apply to_float_unit.
Qed.

#[export] Instance model_libm_ok : LibmOk model_libm.
Proof.
  split.
  - intros x _. cbn [Ieee.sin model_libm].
    destruct x as [s|s| |s m e]; try reflexivity.
    unfold SinModel.sin. destruct (reduce _) as [neg r].
    eapply unit_float_valid, to_float_unit.
  - intros x Hx. cbn [Ieee.sin model_libm].
    destruct (sin_unit x Hx) as [s Hs]. now apply unit_float_range in Hs.
Qed.
