(* ===== verification/Color.v ===== *)
(** * The colour-scheme resolver of [ui/visualizations.rs]

    [ColorScheme], [apply_intensity] and [get_color_for_scheme] as the source
    writes them: every arm picks a base colour by [level] and multiplies each
    channel by [intensity] in [f64], casting back with [as u8].  [scale_ref]
    and [base_ref] are integer reference definitions; the theorems relate the
    float code to them. *)

From Stdlib Require Import ZArith Lia Bool List SpecFloat.
From S2P Require Import Prelude Ieee.
Import ListNotations.
#[local] Open Scope Z_scope.

Module Scheme.

Inductive ColorScheme : Type :=
| Cyan
| Warm
| Purple
| Green
| Sunset
| Ocean
| Custom.

(** The literals [0.85], [0.7], [0.5] of the [Custom] arm. *)
Definition c085 : F64.f64 := Eval vm_compute in F64.lit 85 100.
Definition c07 : F64.f64 := Eval vm_compute in F64.lit 7 10.
Definition c05 : F64.f64 := Eval vm_compute in F64.lit 5 10.

(** [(c as f64 * k) as u8]. *)
Definition scale (c : Z) (k : F64.f64) : Z := F64.to_u8 (F64.mul (F64.of_Z c) k).

(** The closing [Color::Rgb(...)] of every arm: each channel of [base] times
    [intensity]. *)
Definition shade (base : rgb) (intensity : F64.f64) : Color :=
  let '(r, g, b) := base in
  Rgb (scale r intensity) (scale g intensity) (scale b intensity).

Definition apply_intensity (color : rgb) (intensity : F64.f64) : Color :=
  Rgb (scale (fst (fst color)) intensity)
      (scale (snd (fst color)) intensity)
      (scale (snd color) intensity).

(** [let base = match level { 0 => c0, 1 => c1, 2 => c2, _ => c3 }]. *)
Definition tier (c0 c1 c2 c3 : rgb) (level : Z) : rgb :=
  match level with
  | 0 => c0
  | 1 => c1
  | 2 => c2
  | _ => c3
  end.

(** The [Cyan] arm, which the [Custom] arm re-enters when no album colour is
    given. *)
Definition cyan_arm (intensity : F64.f64) (level : Z) : Color :=
  shade (tier (0, 255, 255) (0, 200, 255) (0, 150, 200) (0, 100, 150) level) intensity.

(** The gradient the [Custom] arm derives from the album colour. *)
Definition custom_base (r g b : Z) (level : Z) : rgb :=
  tier (r, g, b)
       (scale r c085, scale g c085, scale b c085)
       (scale r c07, scale g c07, scale b c07)
       (scale r c05, scale g c05, scale b c05)
       level.

Definition get_color_for_scheme (scheme : ColorScheme) (intensity : F64.f64)
  (level : Z) (album_color : option rgb) : Color :=
  match scheme with
  | Custom =>
      match album_color with
      | Some (r, g, b) => shade (custom_base r g b level) intensity
      | None => cyan_arm intensity level
      end
  | Cyan => cyan_arm intensity level
  | Warm =>
      shade (tier (255, 100, 0) (255, 150, 50) (200, 100, 0) (150, 70, 0) level) intensity
  | Purple =>
      shade (tier (200, 50, 255) (180, 80, 230) (150, 50, 200) (100, 30, 150) level) intensity
  | Green =>
      shade (tier (50, 255, 150) (50, 220, 120) (30, 180, 100) (20, 120, 70) level) intensity
  | Sunset =>
      shade (tier (255, 100, 150) (255, 150, 100) (200, 100, 100) (150, 70, 80) level) intensity
  | Ocean =>
      shade (tier (0, 150, 255) (20, 120, 220) (10, 80, 180) (5, 50, 120) level) intensity
  end.

(** ** Integer reference *)

(** What [scale c k] computes for the three tier factors, in integers: the
    floor of the decimal product, except that [0.7] as a float lies below
    7/10 and the product rounds below the integer for three channel values. *)
Definition scale_ref (num den : Z) (c : Z) : Z := c * num / den.

Definition c07_short (c : Z) : bool := (c =? 90) || (c =? 170) || (c =? 180).

Definition scale07_ref (c : Z) : Z :=
  if c07_short c then c * 7 / 10 - 1 else c * 7 / 10.

(** The base colour of a scheme at a level, in integers. *)
Definition base_ref (scheme : ColorScheme) (level : Z) (album_color : option rgb) : rgb :=
  match scheme, album_color with
  | Custom, Some (r, g, b) =>
      tier (r, g, b)
           (scale_ref 85 100 r, scale_ref 85 100 g, scale_ref 85 100 b)
           (scale07_ref r, scale07_ref g, scale07_ref b)
           (scale_ref 1 2 r, scale_ref 1 2 g, scale_ref 1 2 b)
           level
  | Custom, None | Cyan, _ => tier (0, 255, 255) (0, 200, 255) (0, 150, 200) (0, 100, 150) level
  | Warm, _ => tier (255, 100, 0) (255, 150, 50) (200, 100, 0) (150, 70, 0) level
  | Purple, _ => tier (200, 50, 255) (180, 80, 230) (150, 50, 200) (100, 30, 150) level
  | Green, _ => tier (50, 255, 150) (50, 220, 120) (30, 180, 100) (20, 120, 70) level
  | Sunset, _ => tier (255, 100, 150) (255, 150, 100) (200, 100, 100) (150, 70, 80) level
  | Ocean, _ => tier (0, 150, 255) (20, 120, 220) (10, 80, 180) (5, 50, 120) level
  end.

Definition of_rgb (c : rgb) : Color := let '(r, g, b) := c in Rgb r g b.

Definition album_ok (a : option rgb) : Prop :=
  match a with Some c => rgb_ok c | None => True end.

End Scheme.

Import Scheme.

(** ** Channel arithmetic *)

Lemma scale_u8 c k : in_u8 (scale c k).
Proof. apply to_u8_range. Qed.

Lemma shade_ok base k : color_ok (shade base k).
Proof. destruct base as [[r g] b]. cbn. auto using scale_u8. Qed.

Lemma scale_one c : in_u8 c -> scale c F64.one = c.
Proof.
  intros Hc. apply Z.eqb_eq.
  enum_u8 (fun c => scale c F64.one =? c) c.
Qed.

Lemma scale_085 c : in_u8 c -> scale c c085 = scale_ref 85 100 c.
Proof.
  intros Hc. apply Z.eqb_eq.
  enum_u8 (fun c => scale c c085 =? scale_ref 85 100 c) c.
Qed.

Lemma scale_07 c : in_u8 c -> scale c c07 = scale07_ref c.
Proof.
  intros Hc. apply Z.eqb_eq.
  enum_u8 (fun c => scale c c07 =? scale07_ref c) c.
Qed.

Lemma scale_05 c : in_u8 c -> scale c c05 = scale_ref 1 2 c.
Proof.
  intros Hc. apply Z.eqb_eq.
  enum_u8 (fun c => scale c c05 =? scale_ref 1 2 c) c.
Qed.

Lemma shade_one base : rgb_ok base -> shade base F64.one = of_rgb base.
Proof.
  destruct base as [[r g] b]. intros (Hr & Hg & Hb). cbn.
  now rewrite !scale_one.
Qed.

Lemma tier_ok c0 c1 c2 c3 level :
  rgb_ok c0 -> rgb_ok c1 -> rgb_ok c2 -> rgb_ok c3 -> rgb_ok (tier c0 c1 c2 c3 level).
Proof. intros; unfold tier; destruct level as [|[?|[?|?|]|]|?]; assumption. Qed.

Lemma tier_ext c0 c1 c2 c3 d1 d2 d3 level :
  c1 = d1 -> c2 = d2 -> c3 = d3 -> tier c0 c1 c2 c3 level = tier c0 d1 d2 d3 level.
Proof. now intros -> -> ->. Qed.

Lemma custom_base_ref r g b level :
  rgb_ok (r, g, b) -> custom_base r g b level = base_ref Custom level (Some (r, g, b)).
Proof.
  intros (Hr & Hg & Hb). unfold custom_base, base_ref.
  apply tier_ext; now rewrite ?scale_085, ?scale_07, ?scale_05.
Qed.

Lemma scale_ref_u8 num den c :
  0 <= num <= den -> 0 < den -> in_u8 c -> in_u8 (scale_ref num den c).
Proof.
  intros Hn Hd Hc. unfold scale_ref. unfold_u8. split.
  - apply Z.div_pos; nia.
  - apply Z.div_le_upper_bound; nia.
Qed.

Lemma scale07_ref_u8 c : in_u8 c -> in_u8 (scale07_ref c).
Proof.
  intros Hc. apply in_u8b_spec.
  enum_u8 (fun c => in_u8b (scale07_ref c)) c.
Qed.

Lemma base_ref_ok scheme level album :
  album_ok album -> rgb_ok (base_ref scheme level album).
Proof.
  intros Ha.
  assert (Hc : forall r g b, rgb_okb (r, g, b) = true -> rgb_ok (r, g, b))
    by (intros r g b; apply (proj1 (rgb_okb_spec (r, g, b)))).
  destruct scheme; cbn; try (apply tier_ok; now apply Hc).
  destruct album as [[[r g] b]|]; [|apply tier_ok; now apply Hc].
  destruct Ha as (Hr & Hg & Hb).
  apply tier_ok; apply rgb_ok_intro;
    auto using scale07_ref_u8; apply scale_ref_u8; auto; lia.
Qed.

(** The resolver is [shade] of the integer base colour. *)
Lemma get_color_shade scheme intensity level album :
  album_ok album ->
  get_color_for_scheme scheme intensity level album
  = shade (base_ref scheme level album) intensity.
Proof.
  intros Ha. destruct scheme; try reflexivity.
  destruct album as [[[r g] b]|]; [|reflexivity].
  cbn [get_color_for_scheme]. now rewrite custom_base_ref.
Qed.

(** ** Properties of the resolver *)

Lemma scale_not_pos c i : 0 <= c -> F64.gtb i F64.zero = false -> scale c i = 0.
Proof. intros Hc Hi. apply mul_not_pos; [now apply of_Z_sign | assumption]. Qed.

Lemma shade_not_pos base i :
  rgb_ok base -> F64.gtb i F64.zero = false -> shade base i = Rgb 0 0 0.
Proof.
  destruct base as [[r g] b]. intros (Hr & Hg & Hb) Hi. cbn.
  unfold_u8. now rewrite !scale_not_pos by first [assumption | lia].
Qed.

(** C1. At full intensity the resolver returns, for every scheme, every level
    and every album colour of [u8] channels, exactly the integer base colour
    [base_ref]: the tier table for the built-in schemes, and for [Custom] the
    album colour scaled by 100%, 85%, 70% and 50% with the rounding of the
    float product. *)
Theorem get_color_full_intensity scheme level album :
  album_ok album ->
  get_color_for_scheme scheme F64.one level album = of_rgb (base_ref scheme level album).
Proof.
  intros Ha. rewrite get_color_shade by assumption.
  apply shade_one. now apply base_ref_ok.
Qed.

Lemma get_color_full_intensity_witness :
  get_color_for_scheme Custom F64.one 0 (Some (100, 50, 200)) = Rgb 100 50 200.
Proof.
  apply (get_color_full_intensity Custom 0 (Some (100, 50, 200))).
  cbn. unfold_u8. lia.
Defined.

(** C20. The 70% tier of [Custom] is not the floor of [0.7 * c]: the literal
    [0.7] is a float just below 7/10, and for exactly the channel values 90,
    170 and 180 the rounded product falls below the integer [7c/10], so the
    cast yields one less.  For every other [u8] value it is the floor. *)
Theorem custom_tier_70_rounding c :
  in_u8 c ->
  scale c c07 = c * 7 / 10 - (if c07_short c then 1 else 0) /\
  (c07_short c = true <-> c = 90 \/ c = 170 \/ c = 180).
Proof.
  intros Hc. split.
  - rewrite scale_07 by assumption. unfold scale07_ref.
    destruct (c07_short c); lia.
  - unfold c07_short. rewrite !orb_true_iff, !Z.eqb_eq. tauto.
Qed.

Lemma custom_tier_70_rounding_witness :
  scale 90 c07 = 62 /\ (c07_short 90 = true <-> 90 = 90 \/ 90 = 170 \/ 90 = 180).
Proof. apply (custom_tier_70_rounding 90). unfold_u8. lia. Defined.

(** C14. An intensity that is not above zero (a zero of either sign, any
    negative value, minus infinity or NaN) resolves to black for every scheme,
    level and album colour. *)
Theorem get_color_nonpositive_black scheme intensity level album :
  album_ok album ->
  F64.gtb intensity F64.zero = false ->
  get_color_for_scheme scheme intensity level album = Rgb 0 0 0.
Proof.
  intros Ha Hi. rewrite get_color_shade by assumption.
  apply shade_not_pos; [now apply base_ref_ok | assumption].
Qed.

Lemma get_color_nonpositive_black_witness :
  get_color_for_scheme Warm (F64.of_Z (-3)) 1 None = Rgb 0 0 0.
Proof. now apply (get_color_nonpositive_black Warm (F64.of_Z (-3)) 1 None). Defined.

(** Every arm of the resolver is [apply_intensity] applied to the base
    colour of the scheme: the helper the source defines and the inlined
    multiplications of the arms compute the same colour. *)
Theorem get_color_apply_intensity scheme intensity level album :
  album_ok album ->
  get_color_for_scheme scheme intensity level album
  = apply_intensity (base_ref scheme level album) intensity.
Proof.
  intros Ha. rewrite get_color_shade by assumption.
  now destruct (base_ref scheme level album) as [[r g] b].
Qed.

Lemma get_color_apply_intensity_witness :
  get_color_for_scheme Ocean c05 2 None = apply_intensity (10, 80, 180) c05.
Proof. now apply (get_color_apply_intensity Ocean c05 2 None). Defined.
