(* ===== verification/ColorBounds.v ===== *)
(** * The resolver on intensities of the unit interval and above it

    For a well-formed intensity between 0.0 and 1.0 the product of a channel
    and the intensity is one rounding away from the exact product, and the
    cast truncates it.  So a channel never exceeds its base value, and it is
    the exact product truncated, up to a rounding error below 2^-44.  For an
    intensity of 1.0 or more the product is at least the channel, possibly
    infinite, and the cast saturates: the channel never falls below its base
    value and is 255 as soon as the exact product reaches 255. *)

From Stdlib Require Import ZArith Lia Bool List SpecFloat Rbase Rfunctions Lra.
From S2P Require Import Prelude Ieee Exact Round Real Monotone Color.
Import ListNotations.
#[local] Open Scope Z_scope.

Import Scheme.

(** An intensity as the renderers mean it: a well-formed float with
    [0.0 <= i] and [i <= 1.0]. *)
Definition unit_intensity (i : F64.f64) : Prop :=
  F64.valid i = true /\ F64.leb F64.zero i = true /\ F64.leb i F64.one = true.

(** The largest rounding error of a product of a channel and an intensity. *)
Definition channel_error : R := (255 * eps + eta)%R.

(** The channels of a colour of the widget library. *)
Definition channels (c : Color) : option rgb :=
  match c with Rgb r g b => Some (r, g, b) | _ => None end.

(** Channel by channel, [c] is at most [d]. *)
Definition rgb_le (c d : rgb) : Prop :=
  let '(r, g, b) := c in let '(r', g', b') := d in
  0 <= r <= r' /\ 0 <= g <= g' /\ 0 <= b <= b'.

(** [c] is the exact product of [c0] and the intensity, truncated, up to
    the rounding error. *)
Definition channel_near (i : F64.f64) (c0 c : Z) : Prop :=
  (IZR c0 * B2R i - 1 - channel_error < IZR c <= IZR c0 * B2R i + channel_error)%R.

Definition rgb_near (i : F64.f64) (c0 c : rgb) : Prop :=
  let '(r0, g0, b0) := c0 in let '(r, g, b) := c in
  channel_near i r0 r /\ channel_near i g0 g /\ channel_near i b0 b.

(** An intensity that brightens: a well-formed float with [1.0 <= i], plus
    infinity included. *)
Definition bright_intensity (i : F64.f64) : Prop :=
  F64.valid i = true /\ F64.leb F64.one i = true.

(** The channel [c] computed from [c0] has not wrapped: it is at least [c0],
    at most 255, and exactly 255 when the exact product reaches 255. *)
Definition channel_saturated (i : F64.f64) (c0 c : Z) : Prop :=
  c0 <= c <= 255 /\
  (F64.is_finite i = true -> (255 <= IZR c0 * B2R i)%R -> c = 255).

Definition rgb_saturated (i : F64.f64) (c0 c : rgb) : Prop :=
  let '(r0, g0, b0) := c0 in let '(r, g, b) := c in
  channel_saturated i r0 r /\ channel_saturated i g0 g /\ channel_saturated i b0 b.

Lemma unit_intensity_R i :
  unit_intensity i -> F64.is_finite i = true /\ (0 <= B2R i <= 1)%R.
Proof.
  intros (Vi & H0 & H1). destruct one_R as (V1 & F1 & E1).
  rewrite <- E1. now apply (between_R F64.zero i F64.one).
Qed.

Lemma channel_error_small : (0 < channel_error < / 1000000)%R.
Proof.
  unfold channel_error, eps. pose proof eta_pos. pose proof eta_small. lra.
Qed.

(** The product of a channel and a unit intensity, before the cast. *)
Lemma channel_product c i :
  in_u8 c -> unit_intensity i ->
  F64.is_finite (F64.mul (F64.of_Z c) i) = true /\
  (Rabs (B2R (F64.mul (F64.of_Z c) i) - IZR c * B2R i) <= channel_error)%R.
Proof.
  intros Hc Hi. destruct (unit_intensity_R i Hi) as [Fi Ri]. destruct Hi as (Vi & _).
  unfold_u8. destruct (of_Z_R c ltac:(lia)) as (Vc & Fc & Ec).
  destruct (mul_R (F64.of_Z c) i Vc Vi Fc Fi) as [_ H]. rewrite Ec in H.
  assert (Hc0 : (0 <= IZR c <= 255)%R) by (split; apply IZR_le; lia).
  assert (Hx : (0 <= IZR c * B2R i <= 255)%R) by nra.
  destruct H as [Fm Hn].
  { rewrite Rabs_pos_eq by lra. apply Rle_lt_trans with 255%R; [lra|].
    apply Rlt_le_trans with (bpow 8); [rewrite bpow_IZR by lia; cbn; lra|apply bpow_le; lia]. }
  split; [assumption|]. unfold near in Hn. rewrite (Rabs_pos_eq (IZR c * B2R i)) in Hn by lra.
  unfold channel_error. pose proof eps_pos. nra.
Qed.

Lemma product_nonneg c i :
  0 <= c -> F64.leb F64.zero i = true -> (0 <= B2R (F64.mul (F64.of_Z c) i))%R.
Proof.
  intros Hc Hi. pose proof (of_Z_sign c Hc) as Hs.
  destruct i as [s|s| |s m e]; try discriminate.
  - destruct (F64.of_Z c); cbn; lra.
  - destruct (F64.of_Z c); cbn; lra.
  - destruct s; [discriminate|]. apply has_sign_false_R.
    now apply (mul_sign false false).
Qed.

(** The cast of the product truncates it. *)
Lemma scale_floor c i :
  in_u8 c -> unit_intensity i ->
  (IZR (scale c i) <= B2R (F64.mul (F64.of_Z c) i) < IZR (scale c i) + 1)%R.
Proof.
  intros Hc Hi. destruct (channel_product c i Hc Hi) as [Fm Hm].
  destruct (unit_intensity_R i Hi) as [_ Ri]. unfold_u8.
  assert (Hc0 : (0 <= IZR c <= 255)%R) by (split; apply IZR_le; lia).
  pose proof channel_error_small. apply abs_le_inv in Hm.
  apply to_unsigned_floor; [assumption|]. split.
  - apply product_nonneg; [lia|apply Hi].
  - change (IZR u8_max) with 255%R. nra.
Qed.

(** A channel is the exact product truncated, up to the rounding error. *)
Lemma scale_accurate c i :
  in_u8 c -> unit_intensity i ->
  (IZR c * B2R i - 1 - channel_error < IZR (scale c i) <= IZR c * B2R i + channel_error)%R.
Proof.
  intros Hc Hi. destruct (channel_product c i Hc Hi) as [_ Hm]. apply abs_le_inv in Hm.
  pose proof (scale_floor c i Hc Hi). lra.
Qed.

(** A channel never exceeds its base value. *)
Lemma scale_le c i : in_u8 c -> unit_intensity i -> 0 <= scale c i <= c.
Proof.
  intros Hc Hi. split; [apply to_u8_range|].
  pose proof (scale_accurate c i Hc Hi) as [_ Hu].
  destruct (unit_intensity_R i Hi) as [_ Ri]. pose proof channel_error_small.
  assert (Hc0 : (0 <= IZR c)%R) by (apply IZR_le; unfold_u8; lia).
  assert (Hlt : (IZR (scale c i) < IZR (c + 1))%R) by (rewrite plus_IZR; nra).
  apply lt_IZR in Hlt. lia.
Qed.

(** Shading a colour by a unit intensity dims every channel. *)
Lemma shade_dims base i :
  rgb_ok base -> unit_intensity i ->
  exists c, channels (shade base i) = Some c /\ rgb_le c base.
Proof.
  intros Hb Hi. destruct base as [[r0 g0] b0]. destruct Hb as (Hr & Hg & Hb).
  eexists. split; [reflexivity|]. cbn [rgb_le]. auto using scale_le.
Qed.

(** ** Intensities of one and more *)

(** A finite intensity of at least one, as a real number. *)
Lemma bright_intensity_R i :
  bright_intensity i -> F64.is_finite i = true -> (1 <= B2R i)%R.
Proof.
  intros (Vi & Hi) Fi. destruct one_R as (V1 & F1 & E1).
  rewrite <- E1. now apply leb_R.
Qed.

(** The only infinite intensity of at least one is plus infinity. *)
Lemma bright_intensity_inf i :
  bright_intensity i -> F64.is_finite i = false -> i = S754_infinity false.
Proof. intros (_ & Hi). destruct i as [s|[|]| |s m e]; try discriminate; reflexivity. Qed.

(** A positive channel as a float. *)
Lemma channel_float c :
  1 <= c <= 255 -> exists m e, F64.of_Z c = S754_finite false m e.
Proof.
  intros Hc. destruct (of_Z_R c) as (_ & F & E); [lia|].
  apply pos_float; [assumption|]. rewrite E. apply (IZR_lt 0). lia.
Qed.

(** The cast of a product that reaches [k] is at least [k]: the product is
    a float of at least [k] or plus infinity, and the cast saturates. *)
Lemma scale_at_least c i k :
  in_u8 c -> 1 <= k <= 255 ->
  F64.valid i = true -> F64.is_finite i = true ->
  (IZR k <= IZR c * B2R i)%R -> k <= scale c i.
Proof.
  intros Hc Hk Vi Fi H. unfold_u8.
  destruct (of_Z_R c) as (Vc & Fc & Ec); [lia|].
  destruct (of_Z_R k) as (Vk & Fk & Ek); [lia|].
  assert (Hk0 : (0 < IZR k)%R) by (apply (IZR_lt 0); lia).
  destruct (mul_at_least (F64.of_Z c) i (F64.of_Z k) Vc Vi Fc Fi Vk Fk) as [E|[F Hl]];
    [rewrite Ek, Ec; lra| |]; unfold scale, F64.to_u8.
  - rewrite E. cbn [F64.to_unsigned]. unfold_u8. lia.
  - apply to_unsigned_ge; [unfold_u8; lia|assumption|]. now rewrite <- Ek.
Qed.

(** A channel brightened by an intensity of at least one. *)
Lemma scale_saturated c i :
  in_u8 c -> bright_intensity i -> channel_saturated i c (scale c i).
Proof.
  intros Hc Hi. pose proof (to_u8_range (F64.mul (F64.of_Z c) i)) as Hr.
  fold (scale c i) in Hr. unfold_u8. split; [split; [|lia]|].
  - destruct (Z.eq_dec c 0) as [->|Hc0]; [lia|].
    destruct (F64.is_finite i) eqn:Fi.
    + pose proof (bright_intensity_R i Hi Fi).
      assert (Hc1 : (1 <= IZR c)%R) by (apply (IZR_le 1); lia).
      apply scale_at_least; unfold_u8; try lia; try assumption; [apply Hi|nra].
    + rewrite (bright_intensity_inf i Hi Fi).
      destruct (channel_float c) as (m & e & E); [lia|].
      unfold scale. rewrite E. cbn. unfold_u8. lia.
  - intros Fi H. enough (255 <= scale c i) by lia.
    apply scale_at_least; unfold_u8; try lia; try assumption. apply Hi.
Qed.

Lemma shade_saturated base i :
  rgb_ok base -> bright_intensity i ->
  exists c, channels (shade base i) = Some c /\ rgb_saturated i base c.
Proof.
  intros Hb Hi. destruct base as [[r0 g0] b0]. destruct Hb as (Hr & Hg & Hb).
  eexists. split; [reflexivity|]. cbn [rgb_saturated]. auto using scale_saturated.
Qed.

(** ** Theorems *)

(** C16. Dimming never brightens: for a well-formed intensity between 0.0 and
    1.0, every scheme, level and album colour, each channel the resolver
    returns is at most the channel of the base colour (the colour returned at
    full intensity). *)
Theorem get_color_dims scheme i level album :
  album_ok album -> unit_intensity i ->
  exists c,
    channels (get_color_for_scheme scheme i level album) = Some c /\
    rgb_le c (base_ref scheme level album).
Proof.
  intros Ha Hi. rewrite get_color_shade by assumption.
  apply shade_dims; [now apply base_ref_ok|assumption].
Qed.

Lemma get_color_dims_witness :
  exists c,
    channels (get_color_for_scheme Custom c05 1 (Some (200, 100, 50))) = Some c /\
    rgb_le c (base_ref Custom 1 (Some (200, 100, 50))).
Proof.
  apply get_color_dims; [cbn; unfold_u8; lia|]. repeat split; reflexivity.
Defined.

(** C28. Every channel the resolver returns is the exact product of the base
    channel and the intensity, truncated to an integer, up to a rounding
    error below one millionth: it lies in
    [(c * i - 1 - err, c * i + err]]. *)
Theorem get_color_accuracy scheme i level album :
  album_ok album -> unit_intensity i ->
  exists c,
    channels (get_color_for_scheme scheme i level album) = Some c /\
    rgb_near i (base_ref scheme level album) c.
Proof.
  intros Ha Hi. rewrite get_color_shade by assumption.
  pose proof (base_ref_ok scheme level album Ha) as Hb.
  destruct (base_ref scheme level album) as [[r0 g0] b0]. destruct Hb as (Hr & Hg & Hb).
  eexists. split; [reflexivity|]. cbn [rgb_near]. unfold channel_near.
  auto using scale_accurate.
Qed.

Lemma get_color_accuracy_witness :
  exists c,
    channels (get_color_for_scheme Sunset c07 2 None) = Some c /\
    rgb_near c07 (base_ref Sunset 2 None) c.
Proof. apply get_color_accuracy; [exact I|]. repeat split; reflexivity. Defined.

(** C15. The cast saturates, it never wraps: for an intensity of 1.0 or more,
    plus infinity included, every scheme, level and album colour, each
    channel the resolver returns is at least the channel of the base colour
    and at most 255, and it is exactly 255 whenever the exact product of the
    base channel and the intensity reaches 255. *)
Theorem get_color_saturates scheme i level album :
  album_ok album -> bright_intensity i ->
  exists c,
    channels (get_color_for_scheme scheme i level album) = Some c /\
    rgb_saturated i (base_ref scheme level album) c.
Proof.
  intros Ha Hi. rewrite get_color_shade by assumption.
  apply shade_saturated; [now apply base_ref_ok|assumption].
Qed.

Lemma get_color_saturates_witness :
  exists c,
    channels (get_color_for_scheme Custom (F64.lit 15 10) 0 (Some (200, 100, 50))) = Some c /\
    rgb_saturated (F64.lit 15 10) (base_ref Custom 0 (Some (200, 100, 50))) c.
Proof.
  apply get_color_saturates; [cbn; unfold_u8; lia|]. split; reflexivity.
Defined.
