(* ===== verification/Image.v ===== *)
(** * The image library: interface and a nearest-neighbour model

    [extract_dominant_color] ([utils.rs]) calls the image library twice:
    [resize] to at most 64 by 64 pixels with the nearest-neighbour filter, and
    [to_rgb8].  [ImageLib] is the interface of these calls and [ImageLibOk]
    what the function relies on: the RGB view is a well-formed buffer of [u8]
    pixels, a resized image fits the bounds it was given and has at least one
    pixel, and the nearest-neighbour filter copies pixels of the source.
    [Pixels] with [model_image] is an instance that satisfies it. *)

From Stdlib Require Import ZArith Lia Bool List.
From S2P Require Import Prelude.
Import ListNotations.
#[local] Open Scope Z_scope.

Module Image.

(** An [RgbImage]: [data] holds the pixels row by row. *)
Record RgbImage : Type := { width : Z; height : Z; data : list rgb }.

(** [image::imageops::FilterType]. *)
Inductive FilterType : Type := Nearest | Triangle | CatmullRom | Gaussian | Lanczos3.

(** The calls of the library: [img.resize(nwidth, nheight, filter)] and
    [img.to_rgb8()] on a [DynamicImage]. *)
Class ImageLib : Type := {
  DynamicImage : Type;
  resize : DynamicImage -> Z -> Z -> FilterType -> DynamicImage;
  to_rgb8 : DynamicImage -> RgbImage
}.

(** The buffer holds [width * height] pixels with [u8] channels. *)
Definition buffer_ok (img : RgbImage) : Prop :=
  0 <= width img /\ 0 <= height img /\
  Z.of_nat (length (data img)) = width img * height img /\
  Forall rgb_ok (data img).

(** What [extract_dominant_color] relies on. *)
Class ImageLibOk (I : ImageLib) : Prop := {
  to_rgb8_ok : forall img, buffer_ok (to_rgb8 img);
  resize_fits : forall img w h f, 1 <= w -> 1 <= h ->
    1 <= width (to_rgb8 (resize img w h f)) <= w /\
    1 <= height (to_rgb8 (resize img w h f)) <= h;
  resize_nearest : forall img w h, data (to_rgb8 img) <> [] ->
    incl (data (to_rgb8 (resize img w h Nearest))) (data (to_rgb8 img))
}.

(** ** A model: images as functions from coordinates to pixels *)

Record Pixels : Type := { pw : nat; ph : nat; px : Z -> Z -> rgb }.

(** The channels as [u8]. *)
Definition to_u8s (p : rgb) : rgb :=
  let '(r, g, b) := p in (wrap 8 r, wrap 8 g, wrap 8 b).

Definition pixels_rgb8 (img : Pixels) : RgbImage :=
  {| width := Z.of_nat (pw img); height := Z.of_nat (ph img);
     data := concat (grid_by_index (ph img) (pw img) (fun y x => to_u8s (px img x y))) |}.

(** [a / b] rounded to the nearest integer, halves upwards. *)
Definition div_round (a b : Z) : Z := (2 * a + b) / (2 * b).

(** The largest size of the aspect ratio of [iw] by [ih] that fits [w] by
    [h], at least one pixel each way. *)
Definition fit (iw ih w h : Z) : Z * Z :=
  if (iw <=? 0) || (ih <=? 0) then (1, 1)
  else if iw * h <=? ih * w
       then (Z.max 1 (div_round (iw * h) ih), Z.max 1 h)
       else (Z.max 1 w, Z.max 1 (div_round (ih * w) iw)).

(** Every pixel of the result is the pixel of the source under its centre. *)
Definition pixels_resize (img : Pixels) (w h : Z) (f : FilterType) : Pixels :=
  let iw := Z.of_nat (pw img) in
  let ih := Z.of_nat (ph img) in
  let '(nw, nh) := fit iw ih w h in
  {| pw := Z.to_nat nw; ph := Z.to_nat nh;
     px := fun x y => px img ((2 * x + 1) * iw / (2 * nw)) ((2 * y + 1) * ih / (2 * nh)) |}.

#[export] Instance model_image : ImageLib :=
  {| DynamicImage := Pixels; resize := pixels_resize; to_rgb8 := pixels_rgb8 |}.

(** An image of [w] by [h] pixels, all of colour [c]. *)
Definition plain (w h : nat) (c : rgb) : Pixels := {| pw := w; ph := h; px := fun _ _ => c |}.

End Image.

Import Image.

(** ** Lemmas on buffers *)

Lemma length_concat_grid {A} h w (f : Z -> Z -> A) :
  length (concat (grid_by_index h w f)) = (h * w)%nat.
Proof.
  unfold grid_by_index. rewrite <- (length_zrange h) at 2.
  induction (zrange h) as [|y l IH]; [reflexivity|].
  cbn [map concat length]. now rewrite length_app, IH, length_map, length_zrange.
Qed.

Lemma in_concat_grid {A} h w (f : Z -> Z -> A) p :
  In p (concat (grid_by_index h w f)) <->
  exists y x, 0 <= y < Z.of_nat h /\ 0 <= x < Z.of_nat w /\ p = f y x.
Proof.
  unfold grid_by_index. rewrite in_concat. split.
  - intros (row & Hrow & Hp). apply in_map_iff in Hrow. destruct Hrow as (y & <- & Hy).
    apply in_map_iff in Hp. destruct Hp as (x & <- & Hx).
    exists y, x. now rewrite <- !in_zrange.
  - intros (y & x & Hy & Hx & ->). exists (map (f y) (zrange w)). split.
    + apply in_map_iff. exists y. now rewrite in_zrange.
    + apply in_map. now rewrite in_zrange.
Qed.

Lemma to_u8s_ok p : rgb_ok (to_u8s p).
Proof. destruct p as [[r g] b]. apply rgb_ok_intro; apply wrap_u8. Qed.

Lemma pixels_rgb8_ok img : buffer_ok (pixels_rgb8 img).
Proof.
  unfold buffer_ok, pixels_rgb8. cbn [width height data].
  rewrite length_concat_grid. repeat split; try lia.
  apply Forall_forall. intros p Hp. apply in_concat_grid in Hp.
  destruct Hp as (y & x & _ & _ & ->). apply to_u8s_ok.
Qed.

(** ** The size of a resized image *)

Lemma div_round_le a b w : 0 < b -> a <= b * w -> div_round a b <= w.
Proof.
  intros Hb Ha. unfold div_round.
  apply Z.lt_succ_r, Z.div_lt_upper_bound; lia.
Qed.

Lemma fit_bounds iw ih w h :
  1 <= w -> 1 <= h ->
  1 <= fst (fit iw ih w h) <= w /\ 1 <= snd (fit iw ih w h) <= h.
Proof.
  intros Hw Hh. unfold fit.
  destruct (Z.leb_spec iw 0); [cbn; lia|].
  destruct (Z.leb_spec ih 0); [cbn; lia|]. cbn [orb].
  destruct (Z.leb_spec (iw * h) (ih * w)); cbn [fst snd].
  - pose proof (div_round_le (iw * h) ih w). lia.
  - pose proof (div_round_le (ih * w) iw h). lia.
Qed.

Lemma centre_in_range x n i :
  0 < n -> 0 < i -> 0 <= x < n -> 0 <= (2 * x + 1) * i / (2 * n) < i.
Proof.
  intros Hn Hi Hx. split; [apply Z.div_pos; nia | apply Z.div_lt_upper_bound; nia].
Qed.

(** ** The model satisfies the interface *)

Lemma pixels_resize_size img w h f :
  1 <= w -> 1 <= h ->
  1 <= Z.of_nat (pw (pixels_resize img w h f)) <= w /\
  1 <= Z.of_nat (ph (pixels_resize img w h f)) <= h.
Proof.
  intros Hw Hh. unfold pixels_resize.
  pose proof (fit_bounds (Z.of_nat (pw img)) (Z.of_nat (ph img)) w h Hw Hh) as Hb.
  destruct (fit _ _ w h) as [nw nh]. cbn [fst snd pw ph] in *. lia.
Qed.

Lemma pixels_resize_nearest img w h f :
  data (pixels_rgb8 img) <> [] ->
  incl (data (pixels_rgb8 (pixels_resize img w h f))) (data (pixels_rgb8 img)).
Proof.
  intros Hne p Hp. unfold pixels_rgb8 in *. cbn [data] in *.
  assert (Hsrc : (0 < pw img)%nat /\ (0 < ph img)%nat).
  { pose proof (length_concat_grid (ph img) (pw img) (fun y x => to_u8s (px img x y))) as Hl.
    destruct (concat _); [congruence|]. cbn [length] in Hl. nia. }
  apply in_concat_grid in Hp. destruct Hp as (y & x & Hy & Hx & ->).
  unfold pixels_resize in *. destruct (fit _ _ w h) as [nw nh]. cbn [pw ph px] in *.
  apply in_concat_grid.
  exists ((2 * y + 1) * Z.of_nat (ph img) / (2 * nh)), ((2 * x + 1) * Z.of_nat (pw img) / (2 * nw)).
  pose proof (centre_in_range y nh (Z.of_nat (ph img))).
  pose proof (centre_in_range x nw (Z.of_nat (pw img))).
  repeat split; lia.
Qed.

#[export] Instance model_image_ok : ImageLibOk model_image.
Proof.
  constructor.
  - exact pixels_rgb8_ok.
  - intros img w h f Hw Hh. exact (pixels_resize_size img w h f Hw Hh).
  - intros img w h. exact (pixels_resize_nearest img w h Nearest).
Qed.

(** ** Consequences of the interface *)

Section Library.

Context {I : ImageLib} {IOk : ImageLibOk I}.

(** A thumbnail of at most 64 by 64 pixels has at most 4096 of them. *)
Lemma thumbnail_length img f :
  1 <= Z.of_nat (length (data (to_rgb8 (resize img 64 64 f)))) <= 4096.
Proof.
  destruct (to_rgb8_ok (resize img 64 64 f)) as (_ & _ & Hl & _).
  pose proof (resize_fits img 64 64 f ltac:(lia) ltac:(lia)). nia.
Qed.

Lemma thumbnail_pixels img f : Forall rgb_ok (data (to_rgb8 (resize img 64 64 f))).
Proof. apply (to_rgb8_ok (resize img 64 64 f)). Qed.

(** A property of every pixel of the image holds of every pixel of its
    nearest-neighbour thumbnail. *)
Lemma thumbnail_forall (P : rgb -> Prop) img w h :
  Forall P (data (to_rgb8 img)) ->
  data (to_rgb8 img) <> [] ->
  Forall P (data (to_rgb8 (resize img w h Nearest))).
Proof.
  intros HP Hne. apply Forall_forall. intros p Hp.
  apply (proj1 (Forall_forall _ _) HP). now apply (resize_nearest img w h Hne).
Qed.

End Library.
