(* ===== verification/Palette.v ===== *)
(** * Palettes: [AlbumPalette], [generate_color_palette], [extract_dominant_color]

    [generate_color_palette] ([ui/visualizations.rs]) pushes six colours derived
    from a base colour; [extract_dominant_color] ([utils.rs]) asks the image
    library for a thumbnail of at most 64 by 64 pixels and averages its
    sampled pixels with [u64] accumulators.  The reference definitions
    [palette_ref] and [dominant_ref] say the same with unbounded integers; the
    theorems show the code computes them, for every image library that
    satisfies [ImageLibOk]. *)

From Stdlib Require Import ZArith Lia Bool List SpecFloat.
From S2P Require Import Prelude Ieee Image.
Import ListNotations.
Import Image.
#[local] Open Scope Z_scope.

Module Palette.

Record AlbumPalette : Type := { colors : list rgb }.

(** [AlbumPalette::default]. *)
Definition default : AlbumPalette :=
  {| colors := [(0, 255, 255); (0, 200, 255); (50, 150, 255); (100, 100, 255)] |}.

(** The literals [0.8] and [0.2]. *)
Definition c08 : F64.f64 := Eval vm_compute in F64.lit 8 10.
Definition c02 : F64.f64 := Eval vm_compute in F64.lit 2 10.

(** [((a as f64 * ka + b as f64 * kb) as u8).min(255)]. *)
Definition blend (a : Z) (ka : F64.f64) (b : Z) (kb : F64.f64) : Z :=
  Z.min (F64.to_u8 (F64.add (F64.mul (F64.of_Z a) ka) (F64.mul (F64.of_Z b) kb))) 255.

Definition generate_color_palette (r g b : Z) : AlbumPalette :=
  let colors := [] in
  let colors := push colors (r, g, b) in
  let colors := push colors
    (saturating_sub 255 r, saturating_sub 255 g, saturating_sub 255 b) in
  let colors := push colors
    (blend r c08 g c02, blend g c08 b c02, blend b c08 r c02) in
  let colors := push colors
    (blend r c02 b c08, blend g c02 r c08, blend b c02 g c08) in
  let colors := push colors
    (saturating_add r 60, saturating_add g 60, saturating_add b 60) in
  let colors := push colors
    (saturating_sub r 60, saturating_sub g 60, saturating_sub b 60) in
  {| colors := colors |}.

(** ** The sampling loop *)

(** [enumerate_pixels]: every pixel with its coordinates, in row-major order. *)
Definition enumerate_pixels (img : RgbImage) : list (Z * Z * rgb) :=
  map (fun ip => (fst ip mod width img, fst ip / width img, snd ip))
      (combine (zrange (length (data img))) (data img)).

(** The four [u64] accumulators of the loop. *)
Record Acc : Type := { r_sum : Z; g_sum : Z; b_sum : Z; count : Z }.

Definition acc0 : Acc := {| r_sum := 0; g_sum := 0; b_sum := 0; count := 0 |}.

(** [(rgb[0] as u16 + rgb[1] as u16 + rgb[2] as u16) / 3] in [u16]. *)
Definition brightness (p : rgb) : Z :=
  let '(r, g, b) := p in wrap 16 (wrap 16 (r + g) + b) / 3.

(** The test that skips very dark and very light pixels. *)
Definition accepted (p : rgb) : bool :=
  (20 <? brightness p) && (brightness p <? 235).

(** [x % 4 == 0 && y % 4 == 0]. *)
Definition sampled (x y : Z) : bool := (x mod 4 =? 0) && (y mod 4 =? 0).

(** One iteration of the loop body; the additions are [u64] additions. *)
Definition sample_step (acc : Acc) (xyp : Z * Z * rgb) : Acc :=
  let '(x, y, p) := xyp in
  if sampled x y then
    if accepted p then
      let '(r, g, b) := p in
      {| r_sum := wrap 64 (r_sum acc + r);
         g_sum := wrap 64 (g_sum acc + g);
         b_sum := wrap 64 (b_sum acc + b);
         count := wrap 64 (count acc + 1) |}
    else acc
  else acc.

Definition fallback : rgb := (0, 200, 255).

(** The part of [extract_dominant_color] after the two library calls: the
    loop, the fallback for an empty sample, and the three averages cast to
    [u8]. *)
Definition average_samples (rgb_img : RgbImage) : rgb :=
  let acc := fold_left sample_step (enumerate_pixels rgb_img) acc0 in
  if count acc =? 0 then fallback
  else (wrap 8 (r_sum acc / count acc),
        wrap 8 (g_sum acc / count acc),
        wrap 8 (b_sum acc / count acc)).

(** [extract_dominant_color]: the thumbnail, its RGB view, the average. *)
Definition extract_dominant_color {I : ImageLib} (img : DynamicImage) : rgb :=
  let img := resize img 64 64 Nearest in
  let rgb_img := to_rgb8 img in
  average_samples rgb_img.

(** ** Reference definitions *)

Definition blend_ref (na a nb b : Z) : Z := (na * a + nb * b) / 10.

(** The six colours in unbounded integer arithmetic. *)
Definition palette_ref (r g b : Z) : list rgb :=
  [ (r, g, b);
    (255 - r, 255 - g, 255 - b);
    (blend_ref 8 r 2 g, blend_ref 8 g 2 b, blend_ref 8 b 2 r);
    (blend_ref 2 r 8 b, blend_ref 2 g 8 r, blend_ref 2 b 8 g);
    (Z.min 255 (r + 60), Z.min 255 (g + 60), Z.min 255 (b + 60));
    (Z.max 0 (r - 60), Z.max 0 (g - 60), Z.max 0 (b - 60)) ].

(** The pixels the loop adds up: those at coordinates divisible by four whose
    brightness lies strictly between 20 and 235. *)
Definition keep (xyp : Z * Z * rgb) : bool :=
  sampled (fst (fst xyp)) (snd (fst xyp)) && accepted (snd xyp).

Definition kept (l : list (Z * Z * rgb)) : list rgb := map (fun xyp => snd xyp) (filter keep l).

Definition samples (img : RgbImage) : list rgb := kept (enumerate_pixels img).

Definition sumZ (l : list Z) : Z := fold_right Z.add 0 l.

Definition red (p : rgb) : Z := fst (fst p).
Definition green (p : rgb) : Z := snd (fst p).
Definition blue (p : rgb) : Z := snd p.

(** The channel-wise mean of the samples, or the fallback when there is none. *)
Definition dominant_ref (img : RgbImage) : rgb :=
  let s := samples img in
  let n := Z.of_nat (length s) in
  if n =? 0 then fallback
  else (sumZ (map red s) / n, sumZ (map green s) / n, sumZ (map blue s) / n).

(** The accumulators after adding the samples [s] without wrap-around. *)
Definition acc_add (acc : Acc) (s : list rgb) : Acc :=
  {| r_sum := r_sum acc + sumZ (map red s);
     g_sum := g_sum acc + sumZ (map green s);
     b_sum := b_sum acc + sumZ (map blue s);
     count := count acc + Z.of_nat (length s) |}.

(** The accumulators can take [n] more pixels without reaching 2^64. *)
Definition acc_room (acc : Acc) (n : Z) : Prop :=
  0 <= r_sum acc /\ 0 <= g_sum acc /\ 0 <= b_sum acc /\ 0 <= count acc /\
  r_sum acc + 255 * n < 2 ^ 64 /\ g_sum acc + 255 * n < 2 ^ 64 /\
  b_sum acc + 255 * n < 2 ^ 64 /\ count acc + n < 2 ^ 64.

(** A buffer of [w] by [h] pixels, all of colour [c]. *)
Definition uniform (w h : nat) (c : rgb) : RgbImage :=
  {| width := Z.of_nat w; height := Z.of_nat h; data := repeat c (w * h) |}.

(** Every channel of [p] lies between that channel of [lo] and of [hi]. *)
Definition rgb_between (lo hi p : rgb) : Prop :=
  red lo <= red p <= red hi /\ green lo <= green p <= green hi /\
  blue lo <= blue p <= blue hi.

End Palette.

Import Palette.

(** ** Blends *)

Lemma blend_8_2_enum :
  forall_below2 256 256 (fun a b => blend a c08 b c02 =? blend_ref 8 a 2 b) = true.
Proof. vm_cast_no_check (eq_refl true). Qed.

Lemma blend_8_2 a b : in_u8 a -> in_u8 b -> blend a c08 b c02 = blend_ref 8 a 2 b.
Proof.
  intros Ha Hb. apply Z.eqb_eq.
  now apply (forall_u8_2 (fun a b => blend a c08 b c02 =? blend_ref 8 a 2 b) blend_8_2_enum).
Qed.

Lemma blend_comm a ka b kb : blend a ka b kb = blend b kb a ka.
Proof. unfold blend. now rewrite add_comm. Qed.

Lemma blend_2_8 a b : in_u8 a -> in_u8 b -> blend a c02 b c08 = blend_ref 2 a 8 b.
Proof.
  intros Ha Hb. rewrite blend_comm, blend_8_2 by assumption.
  unfold blend_ref. f_equal. lia.
Qed.

Lemma blend_ref_u8 na a nb b :
  0 <= na -> 0 <= nb -> na + nb = 10 -> in_u8 a -> in_u8 b -> in_u8 (blend_ref na a nb b).
Proof.
  intros Hna Hnb Hs Ha Hb. unfold blend_ref. unfold_u8. split.
  - apply Z.div_pos; nia.
  - apply Z.div_le_upper_bound; nia.
Qed.

Lemma saturating_sub_255 c : in_u8 c -> saturating_sub 255 c = 255 - c.
Proof. unfold saturating_sub. unfold_u8. lia. Qed.


(** ** The sampling loop *)

Lemma sample_step_keep acc xyp :
  sample_step acc xyp =
  if keep xyp then
    {| r_sum := wrap 64 (r_sum acc + red (snd xyp));
       g_sum := wrap 64 (g_sum acc + green (snd xyp));
       b_sum := wrap 64 (b_sum acc + blue (snd xyp));
       count := wrap 64 (count acc + 1) |}
  else acc.
Proof.
  destruct xyp as [[x y] [[r g] b]]. unfold sample_step, keep. cbn [fst snd].
  destruct (sampled x y); [|reflexivity]. now destruct (accepted (r, g, b)).
Qed.

Lemma rgb_ok_channels p : rgb_ok p -> in_u8 (red p) /\ in_u8 (green p) /\ in_u8 (blue p).
Proof. now destruct p as [[r g] b]. Qed.

Lemma acc_add_nil acc : acc_add acc [] = acc.
Proof. destruct acc. unfold acc_add. cbn. f_equal; lia. Qed.

Lemma acc_add_cons acc p s :
  acc_add {| r_sum := r_sum acc + red p; g_sum := g_sum acc + green p;
             b_sum := b_sum acc + blue p; count := count acc + 1 |} s
  = acc_add acc (p :: s).
Proof. unfold acc_add, sumZ. cbn [r_sum g_sum b_sum count map fold_right length]. f_equal; lia. Qed.

Lemma fold_sample_step l : forall acc,
  Forall (fun xyp => rgb_ok (snd xyp)) l ->
  acc_room acc (Z.of_nat (length l)) ->
  fold_left sample_step l acc = acc_add acc (kept l).
Proof.
  induction l as [|xyp l IH]; intros acc Hok Hroom.
  - now rewrite acc_add_nil.
  - inversion Hok as [|? ? Hp Hl]; subst.
    apply rgb_ok_channels in Hp. destruct Hp as (Hr & Hg & Hb).
    unfold acc_room in Hroom. cbn [length] in Hroom. unfold_u8.
    cbn [fold_left]. rewrite sample_step_keep. unfold kept. cbn [filter map].
    destruct (keep xyp).
    + rewrite !wrap_small by lia. rewrite IH by (try assumption; unfold acc_room; cbn [r_sum g_sum b_sum count]; lia).
      apply acc_add_cons.
    + apply IH; [assumption | unfold acc_room; lia].
Qed.

Lemma length_enumerate_pixels img : length (enumerate_pixels img) = length (data img).
Proof.
  unfold enumerate_pixels. rewrite length_map, length_combine, length_zrange. lia.
Qed.

Lemma map_snd_enumerate_pixels img :
  map (fun xyp => snd xyp) (enumerate_pixels img) = data img.
Proof.
  unfold enumerate_pixels. rewrite map_map. cbn [snd].
  change (fun x : Z * rgb => snd x) with (@snd Z rgb).
  apply map_snd_combine. now rewrite length_zrange.
Qed.

Lemma enumerate_pixels_ok img :
  Forall rgb_ok (data img) -> Forall (fun xyp => rgb_ok (snd xyp)) (enumerate_pixels img).
Proof.
  intros H. apply (proj1 (Forall_map (fun xyp => snd xyp) rgb_ok _)).
  now rewrite map_snd_enumerate_pixels.
Qed.

Lemma kept_incl P l : Forall (fun xyp => P (snd xyp)) l -> Forall P (kept l).
Proof.
  intros H. unfold kept. apply (proj2 (Forall_map _ P _)).
  apply Forall_forall. intros xyp Hin. apply filter_In in Hin.
  now apply (proj1 (Forall_forall _ l) H).
Qed.

Lemma sumZ_bounds (f : rgb -> Z) s :
  Forall (fun p => in_u8 (f p)) s -> 0 <= sumZ (map f s) <= 255 * Z.of_nat (length s).
Proof.
  induction 1 as [|p s Hp _ IH]; cbn [map sumZ fold_right length]; unfold sumZ in *; unfold_u8; lia.
Qed.

Lemma mean_u8 (f : rgb -> Z) s :
  Forall (fun p => in_u8 (f p)) s -> s <> [] ->
  wrap 8 (sumZ (map f s) / Z.of_nat (length s)) = sumZ (map f s) / Z.of_nat (length s).
Proof.
  intros H Hne. pose proof (sumZ_bounds f s H) as Hb.
  assert (0 < Z.of_nat (length s)) by (destruct s; [congruence | cbn [length]; lia]).
  apply wrap_small. split.
  - apply Z.div_pos; lia.
  - apply Z.div_lt_upper_bound; lia.
Qed.

Lemma samples_ok img : Forall rgb_ok (data img) -> Forall rgb_ok (samples img).
Proof. intros H. apply kept_incl. now apply enumerate_pixels_ok. Qed.

Lemma fold_samples img :
  Forall rgb_ok (data img) ->
  Z.of_nat (length (data img)) < 2 ^ 56 ->
  fold_left sample_step (enumerate_pixels img) acc0 = acc_add acc0 (samples img).
Proof.
  intros Hok Hlen. apply fold_sample_step.
  - now apply enumerate_pixels_ok.
  - rewrite length_enumerate_pixels. unfold acc_room, acc0. cbn [r_sum g_sum b_sum count]. lia.
Qed.

Lemma average_samples_eq img :
  Forall rgb_ok (data img) ->
  Z.of_nat (length (data img)) < 2 ^ 56 ->
  average_samples img = dominant_ref img.
Proof.
  intros Hok Hlen. unfold average_samples, dominant_ref.
  rewrite fold_samples by assumption. cbn [acc_add acc0 r_sum g_sum b_sum count Z.add].
  destruct (Z.eqb_spec (Z.of_nat (length (samples img))) 0) as [|Hn]; [reflexivity|].
  assert (Hne : samples img <> []) by (intros E; rewrite E in Hn; now apply Hn).
  pose proof (samples_ok img Hok) as Hs.
  rewrite !mean_u8; try assumption; try reflexivity;
    eapply Forall_impl; try exact Hs; intros p Hp; now apply rgb_ok_channels in Hp.
Qed.

Lemma fold_no_sample l : forall acc,
  Forall (fun xyp => keep xyp = false) l -> fold_left sample_step l acc = acc.
Proof.
  induction l as [|xyp l IH]; intros acc H; [reflexivity|].
  inversion H as [|? ? Hk Hl]; subst. cbn [fold_left].
  rewrite sample_step_keep, Hk. now apply IH.
Qed.

Lemma rejected_keep img :
  Forall (fun p => accepted p = false) (data img) ->
  Forall (fun xyp => keep xyp = false) (enumerate_pixels img).
Proof.
  intros H.
  assert (H' : Forall (fun xyp => accepted (snd xyp) = false) (enumerate_pixels img)).
  { apply (proj1 (Forall_map (fun xyp => snd xyp) (fun p => accepted p = false) _)).
    now rewrite map_snd_enumerate_pixels. }
  eapply Forall_impl; [|exact H']. intros xyp Hx. unfold keep. rewrite Hx. apply andb_false_r.
Qed.

Lemma kept_none l : Forall (fun xyp => keep xyp = false) l -> kept l = [].
Proof.
  unfold kept. induction 1 as [|xyp l Hk _ IH]; [reflexivity|].
  cbn [filter]. now rewrite Hk.
Qed.

Lemma samples_rejected img :
  Forall (fun p => accepted p = false) (data img) -> samples img = [].
Proof. intros H. apply kept_none. now apply rejected_keep. Qed.

Lemma sumZ_repeat (f : rgb -> Z) c k : sumZ (map f (repeat c k)) = Z.of_nat k * f c.
Proof. induction k as [|k IH]; unfold sumZ in *; cbn [repeat map fold_right]; lia. Qed.

Lemma samples_uniform_all w h c : Forall (eq c) (samples (uniform w h c)).
Proof.
  apply kept_incl.
  apply (proj1 (Forall_map (fun xyp => snd xyp) (eq c) _)).
  rewrite map_snd_enumerate_pixels. cbn [uniform data].
  apply Forall_forall. intros x Hx. symmetry. now apply repeat_spec in Hx.
Qed.

Lemma samples_uniform_head w h c :
  (0 < w)%nat -> (0 < h)%nat -> accepted c = true -> samples (uniform w h c) <> [].
Proof.
  intros Hw Hh Hc. unfold samples, enumerate_pixels. cbn [uniform data width].
  destruct (w * h)%nat as [|k] eqn:E; [nia|].
  cbn [repeat length]. unfold zrange. cbn [seq map combine kept filter].
  rewrite Z.mod_0_l, Z.div_0_l by lia.
  unfold keep at 1. cbn [fst snd]. rewrite Hc. cbn. discriminate.
Qed.

Lemma dominant_ref_uniform w h c :
  (0 < w)%nat -> (0 < h)%nat ->
  dominant_ref (uniform w h c) = if accepted c then c else fallback.
Proof.
  intros Hw Hh. unfold dominant_ref.
  pose proof (Forall_eq_repeat (samples_uniform_all w h c)) as Hrep.
  destruct (accepted c) eqn:Hc.
  - pose proof (samples_uniform_head w h c Hw Hh Hc) as Hne.
    set (s := samples (uniform w h c)) in *.
    assert (Hn : Z.of_nat (length s) <> 0) by (destruct s; [congruence | cbn [length]; lia]).
    destruct (Z.eqb_spec (Z.of_nat (length s)) 0); [contradiction|].
    rewrite Hrep, !sumZ_repeat, repeat_length.
    rewrite !(Z.mul_comm (Z.of_nat (length s))), !Z.div_mul by assumption.
    now destruct c as [[r g] b].
  - rewrite (samples_rejected (uniform w h c)); [reflexivity|].
    apply Forall_forall. intros x Hx. apply repeat_spec in Hx. now subst.
Qed.

Lemma brightness_exact r g b :
  rgb_ok (r, g, b) -> brightness (r, g, b) = (r + g + b) / 3.
Proof.
  intros (Hr & Hg & Hb). unfold brightness. unfold_u8.
  rewrite (wrap_small 16 (r + g)) by lia. now rewrite wrap_small by lia.
Qed.

Lemma palette_eq r g b :
  rgb_ok (r, g, b) -> colors (generate_color_palette r g b) = palette_ref r g b.
Proof.
  intros (Hr & Hg & Hb). unfold generate_color_palette, palette_ref, push. cbn [app colors].
  now rewrite !blend_8_2, !blend_2_8, !saturating_sub_255.
Qed.

Lemma palette_ref_ok r g b : rgb_ok (r, g, b) -> Forall rgb_ok (palette_ref r g b).
Proof.
  intros (Hr & Hg & Hb). unfold palette_ref.
  repeat (apply Forall_cons; [apply rgb_ok_intro|]); try apply Forall_nil;
    try assumption; try (apply blend_ref_u8; auto; lia); unfold_u8; lia.
Qed.

(** ** Properties of the palette *)

(** C2. For every base colour with [u8] channels the generated palette is
    exactly the six colours of [palette_ref], in order: the base, its
    complement [255 - c], the two blends [(8a + 2b) / 10] and [(2a + 8b) / 10]
    over rotated channels (the float products and sum, truncated, equal the
    integer quotient for all 65536 channel pairs), the base plus 60 capped at
    255 and the base minus 60 floored at 0. *)
Theorem generate_color_palette_ref r g b :
  rgb_ok (r, g, b) ->
  colors (generate_color_palette r g b) = palette_ref r g b.
Proof. apply palette_eq. Qed.

Lemma generate_color_palette_ref_witness :
  colors (generate_color_palette 100 50 200)
  = [ (100, 50, 200); (155, 205, 55); (90, 80, 180); (180, 90, 80);
      (160, 110, 255); (40, 0, 140) ].
Proof.
  apply (generate_color_palette_ref 100 50 200). cbn. unfold_u8. lia.
Defined.

(** The generated palette always has exactly six entries and every
    channel of every entry is a [u8]. *)
Theorem generate_color_palette_shape r g b :
  rgb_ok (r, g, b) ->
  length (colors (generate_color_palette r g b)) = 6%nat /\
  Forall rgb_ok (colors (generate_color_palette r g b)).
Proof.
  intros H. rewrite palette_eq by assumption.
  split; [reflexivity | now apply palette_ref_ok].
Qed.

Lemma generate_color_palette_shape_witness :
  length (colors (generate_color_palette 0 255 7)) = 6%nat /\
  Forall rgb_ok (colors (generate_color_palette 0 255 7)).
Proof. apply (generate_color_palette_shape 0 255 7). cbn. unfold_u8. lia. Defined.

(** ** The whole function, for every image library *)

Lemma average_samples_ok img : rgb_ok (average_samples img).
Proof.
  unfold average_samples. destruct (_ =? 0); [cbn; unfold_u8; lia|].
  apply rgb_ok_intro; apply wrap_u8.
Qed.

Lemma buffer_uniform img c :
  buffer_ok img -> Forall (eq c) (data img) ->
  img = uniform (Z.to_nat (width img)) (Z.to_nat (height img)) c.
Proof.
  intros (Hw & Hh & Hl & _) Hc. destruct img as [W H d]. cbn [width height data] in *.
  unfold uniform. rewrite !Z2Nat.id by assumption. f_equal.
  rewrite (Forall_eq_repeat Hc) at 1. f_equal.
  rewrite <- Z2Nat.inj_mul, <- Hl by assumption. now rewrite Nat2Z.id.
Qed.

Lemma average_samples_uniform img c :
  buffer_ok img -> 1 <= width img -> 1 <= height img ->
  Z.of_nat (length (data img)) < 2 ^ 56 ->
  Forall (eq c) (data img) ->
  average_samples img = if accepted c then c else fallback.
Proof.
  intros Hok Hw Hh Hlen Hc.
  rewrite average_samples_eq by (try apply Hok; assumption).
  rewrite (buffer_uniform img c Hok Hc). apply dominant_ref_uniform; lia.
Qed.

Lemma mean_between (f : rgb -> Z) lo hi s :
  Forall (fun p => lo <= f p <= hi) s -> s <> [] ->
  lo <= sumZ (map f s) / Z.of_nat (length s) <= hi.
Proof.
  intros H Hne.
  assert (Hs : Z.of_nat (length s) * lo <= sumZ (map f s) <= Z.of_nat (length s) * hi).
  { clear Hne. induction H as [|p s Hp _ IH]; unfold sumZ in *; cbn [map fold_right length]; lia. }
  assert (0 < Z.of_nat (length s)) by (destruct s; [congruence | cbn [length]; lia]).
  split; [apply Z.div_le_lower_bound | apply Z.lt_succ_r, Z.div_lt_upper_bound]; lia.
Qed.

Lemma dominant_ref_between lo hi img :
  Forall (rgb_between lo hi) (data img) ->
  (samples img = [] /\ dominant_ref img = fallback) \/
  (samples img <> [] /\ rgb_between lo hi (dominant_ref img)).
Proof.
  intros H. unfold dominant_ref.
  destruct (Z.eqb_spec (Z.of_nat (length (samples img))) 0) as [Hn|Hn];
    [left; split; [now apply length_zero_iff_nil, Nat2Z.inj|reflexivity]|right].
  assert (Hne : samples img <> []) by (intros E; rewrite E in Hn; now apply Hn).
  split; [assumption|].
  assert (Hs : Forall (rgb_between lo hi) (samples img)).
  { apply kept_incl. apply (proj1 (Forall_map (fun xyp => snd xyp) _ _)).
    now rewrite map_snd_enumerate_pixels. }
  unfold rgb_between at 1. cbn [red green blue fst snd].
  split; [|split]; apply mean_between; try assumption;
    (eapply Forall_impl; [|exact Hs]); intros p Hp; apply Hp.
Qed.

Section Library.

Context {I : ImageLib} {IOk : ImageLibOk I}.

Lemma thumbnail_room img :
  Z.of_nat (length (data (to_rgb8 (resize img 64 64 Nearest)))) < 2 ^ 56.
Proof. pose proof (thumbnail_length img Nearest). lia. Qed.

Lemma extract_dominant_color_eq img :
  extract_dominant_color img = dominant_ref (to_rgb8 (resize img 64 64 Nearest)).
Proof.
  unfold extract_dominant_color.
  apply average_samples_eq; [apply thumbnail_pixels | apply thumbnail_room].
Qed.

End Library.

(** ** Properties of the dominant colour *)

(** C3. For every image, with every image library that keeps its contract
    (a thumbnail of at most 64 by 64 [u8] pixels), the [u64] accumulators
    never wrap and the final casts to [u8] lose nothing: the loop leaves the
    exact sums and count of the samples of the thumbnail, and the result is
    the channel-wise mean of these samples (or the fallback colour when there
    is none), every channel a [u8]. *)
Theorem extract_dominant_color_ref {I : ImageLib} {IOk : ImageLibOk I} (img : DynamicImage) :
  let rgb_img := to_rgb8 (resize img 64 64 Nearest) in
  fold_left sample_step (enumerate_pixels rgb_img) acc0 = acc_add acc0 (samples rgb_img) /\
  extract_dominant_color img = dominant_ref rgb_img /\
  rgb_ok (extract_dominant_color img).
Proof.
  intros rgb_img. split; [|split].
  - apply fold_samples; [apply thumbnail_pixels | apply thumbnail_room].
  - apply extract_dominant_color_eq.
  - apply average_samples_ok.
Qed.

Lemma extract_dominant_color_ref_witness :
  let img := {| pw := 9; ph := 6; px := fun x y => (10 * x, 200, 30 + y) |} in
  let rgb_img := to_rgb8 (resize (ImageLib := model_image) img 64 64 Nearest) in
  fold_left sample_step (enumerate_pixels rgb_img) acc0 = acc_add acc0 (samples rgb_img) /\
  extract_dominant_color (I := model_image) img = dominant_ref rgb_img /\
  rgb_ok (extract_dominant_color (I := model_image) img).
Proof.
  intros img. exact (extract_dominant_color_ref (I := model_image) (IOk := model_image_ok) img).
Defined.

(** C22. On an image of one colour the result is that colour when its
    brightness lies strictly between 20 and 235, and the fallback colour
    otherwise, whatever the size of the image: a mid-grey image yields that
    grey, an all-black image the fallback. *)
Theorem extract_dominant_color_uniform {I : ImageLib} {IOk : ImageLibOk I} img c :
  data (to_rgb8 img) <> [] -> Forall (eq c) (data (to_rgb8 img)) ->
  extract_dominant_color img = if accepted c then c else fallback.
Proof.
  intros Hne Hc. unfold extract_dominant_color.
  pose proof (resize_fits img 64 64 Nearest ltac:(lia) ltac:(lia)) as (Hw & Hh).
  apply average_samples_uniform; try lia.
  - apply to_rgb8_ok.
  - apply thumbnail_room.
  - now apply thumbnail_forall.
Qed.

Lemma extract_dominant_color_uniform_witness :
  extract_dominant_color (I := model_image) (plain 5 4 (127, 127, 127)) = (127, 127, 127) /\
  extract_dominant_color (I := model_image) (plain 3 2 (0, 0, 0)) = fallback.
Proof.
  split.
  - apply (extract_dominant_color_uniform (I := model_image) (plain 5 4 (127, 127, 127)) (127, 127, 127)).
    + vm_compute. discriminate.
    + vm_compute. repeat constructor.
  - apply (extract_dominant_color_uniform (I := model_image) (plain 3 2 (0, 0, 0)) (0, 0, 0)).
    + vm_compute. discriminate.
    + vm_compute. repeat constructor.
Defined.

(** C23. When every pixel of the image is rejected by the brightness test,
    whatever its size, no accumulator is touched and the fallback colour
    [(0, 200, 255)] is returned. *)
Theorem extract_dominant_color_fallback {I : ImageLib} {IOk : ImageLibOk I} img :
  data (to_rgb8 img) <> [] ->
  Forall (fun p => accepted p = false) (data (to_rgb8 img)) ->
  extract_dominant_color img = fallback.
Proof.
  intros Hne H. unfold extract_dominant_color, average_samples.
  rewrite fold_no_sample; [reflexivity|].
  apply rejected_keep. now apply thumbnail_forall.
Qed.

Lemma extract_dominant_color_fallback_witness :
  let img := {| pw := 2; ph := 2;
                px := fun x y => if (x =? 0) && (y =? 0) then (0, 0, 0)
                                 else if x =? 0 then (255, 255, 255)
                                 else if y =? 0 then (250, 240, 230) else (20, 20, 20) |} in
  extract_dominant_color (I := model_image) img = fallback.
Proof.
  intros img. apply (extract_dominant_color_fallback (I := model_image) img).
  - vm_compute. discriminate.
  - set (l := data _). vm_compute in l. subst l. repeat constructor.
Defined.

(** C24. The result never leaves the range of the image's colours: when every
    pixel has each channel between that channel of [lo] and of [hi], so has
    the result as soon as one pixel of the thumbnail is sampled; the fallback
    colour is returned only when none is. *)
Theorem extract_dominant_color_between {I : ImageLib} {IOk : ImageLibOk I} img lo hi :
  data (to_rgb8 img) <> [] ->
  Forall (rgb_between lo hi) (data (to_rgb8 img)) ->
  let s := samples (to_rgb8 (resize img 64 64 Nearest)) in
  (s = [] /\ extract_dominant_color img = fallback) \/
  (s <> [] /\ rgb_between lo hi (extract_dominant_color img)).
Proof.
  intros Hne H s. rewrite extract_dominant_color_eq.
  apply dominant_ref_between. now apply thumbnail_forall.
Qed.

Lemma extract_dominant_color_between_witness :
  let img := {| pw := 8; ph := 4; px := fun x y => (100 + x, 50 + y, 200) |} in
  let s := samples (to_rgb8 (resize (ImageLib := model_image) img 64 64 Nearest)) in
  (s = [] /\ extract_dominant_color (I := model_image) img = fallback) \/
  (s <> [] /\
   rgb_between (100, 50, 200) (107, 53, 200) (extract_dominant_color (I := model_image) img)).
Proof.
  intros img. apply (extract_dominant_color_between (I := model_image) img).
  - vm_compute. discriminate.
  - set (l := data _). vm_compute in l. subst l.
    repeat (apply Forall_cons; [unfold rgb_between; cbn; lia|]). apply Forall_nil.
Defined.
