(* ===== verification/BeatClock.v ===== *)
(** * The beat clock of [waveform_test/src/main.rs]

    [render_concentric_waves] starts by turning the time since start-up and the
    tempo into the beat phase [(elapsed * bpm / 60.0) % 1.0]. *)

From Stdlib Require Import ZArith Lia Bool List SpecFloat.
From S2P Require Import Prelude Ieee Exact.
Import ListNotations.
#[local] Open Scope Z_scope.

Module BeatClock.

(** The literal [60.0]. *)
Definition sixty : F64.f64 := Eval vm_compute in F64.of_Z 60.

(** [elapsed * bpm / 60.0]: the beats played so far. *)
Definition beats (elapsed bpm : F64.f64) : F64.f64 :=
  F64.div (F64.mul elapsed bpm) sixty.

(** [(elapsed * bpm / 60.0) % 1.0]. *)
Definition beat_progress (elapsed bpm : F64.f64) : F64.f64 :=
  F64.rem (beats elapsed bpm) F64.one.

End BeatClock.

Import BeatClock.

(** C4. Whenever the number of beats [elapsed * bpm / 60.0] is a finite,
    non-negative float, the beat phase satisfies [0.0 <= phase < 1.0]: the
    remainder is computed exactly and never rounds up to [1.0]. *)
Theorem beat_progress_range elapsed bpm :
  F64.valid (beats elapsed bpm) = true ->
  F64.is_finite (beats elapsed bpm) = true ->
  F64.sign (beats elapsed bpm) = false ->
  in_unit (beat_progress elapsed bpm) = true.
Proof. intros Hv Hf Hs. now apply rem_one_in_unit. Qed.

Lemma beat_progress_range_witness :
  in_unit (beat_progress (F64.lit 725 100) (F64.of_Z 120)) = true.
Proof.
  apply (beat_progress_range (F64.lit 725 100) (F64.of_Z 120)); reflexivity.
Defined.

(** C38. The beat phase is NaN exactly when the number of beats is not
    finite: an overflowing product [elapsed * bpm], an infinite tempo or a NaN
    input give a NaN phase, and nothing else does. *)
Theorem beat_progress_nan elapsed bpm :
  F64.valid (beats elapsed bpm) = true ->
  F64.is_nan (beat_progress elapsed bpm) = negb (F64.is_finite (beats elapsed bpm)).
Proof. intros Hv. now apply rem_one_nan. Qed.

Lemma beat_progress_nan_witness :
  F64.is_nan (beat_progress (F64.lit 1 1) (S754_infinity false)) = true.
Proof.
  apply (beat_progress_nan (F64.lit 1 1) (S754_infinity false)). reflexivity.
Defined.
