(* ===== verification/Widget.v ===== *)
(** * The terminal library's widgets, as far as the renderers use them

    [Rect], [Style], [Span], [Line], [Block], [Paragraph] and the frame's
    [render_widget].  A frame is the sequence of widgets rendered into it, each
    with its area; [Compositor] turns a frame into terminal cells. *)

From Stdlib Require Import String ZArith Lia Bool List.
From S2P Require Import Prelude.
Import ListNotations.
#[local] Open Scope Z_scope.

Module Tui.

(** [Rect]: four [u16] fields. *)
Record Rect : Type := { x : Z; y : Z; width : Z; height : Z }.

Definition rect_ok (r : Rect) : Prop :=
  in_u16 (x r) /\ in_u16 (y r) /\ in_u16 (width r) /\ in_u16 (height r).

(** [Style::default()] and [.fg(color)]. *)
Record Style : Type := { fg : option Color }.

Definition Style_default : Style := {| fg := None |}.
Definition Style_fg (s : Style) (c : Color) : Style := {| fg := Some c |}.

(** A [char] is its Unicode scalar value; a [String] the list of its chars. *)
Definition char : Type := Z.
Definition to_string (c : char) : list char := [c].

(** [Span::styled(content, style)]. *)
Record Span : Type := { content : list char; style : Style }.

Definition Span_styled (content : list char) (style : Style) : Span :=
  {| content := content; style := style |}.

(** [Span::raw(content)]: no style. *)
Definition Span_raw (content : list char) : Span :=
  {| content := content; style := Style_default |}.

(** [Line::from(spans)]. *)
Definition Line : Type := list Span.

(** [Line::from(text)] for a text without line breaks: one unstyled span, and
    no span at all for the empty text. *)
Definition Line_raw (content : list char) : Line :=
  match content with
  | [] => []
  | _ => [Span_raw content]
  end.

Inductive Borders : Type := NONE | ALL.

(** [Block::default().borders(b).title(t)]. *)
Record Block : Type := { borders : Borders; title : string }.

(** [Paragraph::new(text)], optionally with [.block(b)]. *)
Record Paragraph : Type := { text : list Line; block : option Block }.

Definition Paragraph_new (text : list Line) : Paragraph := {| text := text; block := None |}.
Definition with_block (p : Paragraph) (b : Block) : Paragraph :=
  {| text := text p; block := Some b |}.

(** The widgets rendered into a frame so far, oldest first. *)
Definition Frame : Type := list (Paragraph * Rect).

(** [frame.render_widget(widget, area)]. *)
Definition render_widget (f : Frame) (w : Paragraph) (area : Rect) : Frame :=
  f ++ [(w, area)].

(** The glyphs the renderers draw. *)
Definition full_block : char := 9608.
Definition space : char := 32.
Definition black_circle : char := 9679.
Definition fisheye : char := 9673.
Definition white_circle : char := 9675.
Definition middle_dot : char := 183.

(** A span shows the glyph [c] in colour [col]. *)
Definition shows (c : char) (col : Color) (s : Span) : Prop :=
  content s = [c] /\ fg (style s) = Some col.

Definition is_glyph (c : char) (s : Span) : bool :=
  match content s with
  | [c'] => c' =? c
  | _ => false
  end.

Definition blank : Span := Span_styled (to_string space) (Style_fg Style_default Black).

End Tui.
