(* ===== verification/Text.v ===== *)
(** * Strings: what the utilities and the demo's text rely on

    A [String] or [&str] is a [string] of the Standard Library (its UTF-8
    bytes).  This file defines the operations of the language's string library
    that the sources call ([split] by a character, [join], [contains],
    [to_lowercase], the decimal formats [{}] and [{:02}] of an integer) and
    proves the facts the component files share: splitting and joining are
    inverse, a substring test is an existence of a decomposition, printing a
    number and reading it back is the identity. *)

From Stdlib Require Import String Ascii ZArith NArith Lia Bool List.
From Stdlib Require Import DecimalString DecimalZ.
From S2P Require Import Prelude.
Import ListNotations.
#[local] Open Scope Z_scope.

Module Str.

(** [s.is_empty()]. *)
Definition is_empty (s : string) : bool :=
  match s with EmptyString => true | String _ _ => false end.

(** [s.split(c)]: the pieces between the occurrences of [c]; never empty
    (the empty string splits into one empty piece). *)
Fixpoint split (c : ascii) (s : string) : list string :=
  match s with
  | EmptyString => [EmptyString]
  | String a s' =>
      if Ascii.eqb a c then EmptyString :: split c s'
      else match split c s' with
           | [] => [String a EmptyString]
           | p :: ps => String a p :: ps
           end
  end.

(** [parts.join(sep)]. *)
Definition join (sep : string) (parts : list string) : string := String.concat sep parts.

(** The number of occurrences of [c] in [s]. *)
Fixpoint count (c : ascii) (s : string) : nat :=
  match s with
  | EmptyString => 0%nat
  | String a s' => ((if Ascii.eqb a c then 1 else 0) + count c s')%nat
  end.

(** [s.contains(q)]: [q] occurs in [s] as a contiguous substring. *)
Fixpoint contains (s q : string) : bool :=
  String.prefix q s ||
  match s with
  | EmptyString => false
  | String _ s' => contains s' q
  end.

(** Lower case of an ASCII letter; every other byte is unchanged (bytes of
    non-ASCII characters included: their case mapping is not modelled). *)
Definition lower (a : ascii) : ascii :=
  let n := N_of_ascii a in
  if ((65 <=? n) && (n <=? 90))%N then ascii_of_N (n + 32) else a.

Fixpoint to_lowercase (s : string) : string :=
  match s with
  | EmptyString => EmptyString
  | String a s' => String (lower a) (to_lowercase s')
  end.

(** [format!("{}", z)] of a signed integer. *)
Definition fmt_int (z : Z) : string := NilZero.string_of_int (Z.to_int z).

(** Reading a decimal integer back. *)
Definition parse_int (s : string) : option Z :=
  option_map Z.of_int (NilZero.int_of_string s).

(** [format!("{:02}", z)]: zero-padded to two characters, the sign counting
    as one of them. *)
Definition fmt_int_02 (z : Z) : string :=
  if (0 <=? z) && (z <? 10) then String "0"%char (fmt_int z) else fmt_int z.

(** The characters of a string as Unicode scalar values (ASCII text). *)
Fixpoint chars_of (s : string) : list Z :=
  match s with
  | EmptyString => []
  | String a s' => Z.of_N (N_of_ascii a) :: chars_of s'
  end.

End Str.

Import Str.

(** ** Splitting and joining *)

Lemma split_not_nil c s : split c s <> [].
Proof.
  destruct s as [|a s]; cbn; [discriminate|].
  destruct (Ascii.eqb a c); [discriminate|]. destruct (split c s); discriminate.
Qed.

Lemma split_cons c a s :
  split c (String a s) =
  if Ascii.eqb a c then EmptyString :: split c s
  else String a (hd EmptyString (split c s)) :: tl (split c s).
Proof.
  cbn. destruct (Ascii.eqb a c); [reflexivity|].
  pose proof (split_not_nil c s). now destruct (split c s).
Qed.

Lemma join_cons sep p q ps : join sep (p :: q :: ps) = (p ++ sep ++ join sep (q :: ps))%string.
Proof. reflexivity. Qed.

Lemma join_hd_tl sep l :
  l <> [] -> forall a, join sep (String a (hd EmptyString l) :: tl l) = String a (join sep l).
Proof. intros Hl a. destruct l as [|p [|q ps]]; [contradiction|reflexivity|reflexivity]. Qed.

(** Joining the pieces with the separator gives the string back. *)
Lemma join_split c s : join (String c EmptyString) (split c s) = s.
Proof.
  induction s as [|a s IH]; [reflexivity|]. rewrite split_cons.
  destruct (Ascii.eqb_spec a c) as [->|Hne].
  - pose proof (split_not_nil c s). destruct (split c s) as [|p ps] eqn:E; [contradiction|].
    rewrite join_cons. cbn [append]. now rewrite IH.
  - rewrite join_hd_tl by apply split_not_nil. now rewrite IH.
Qed.

(** One piece more than there are separators. *)
Lemma length_split c s : length (split c s) = S (count c s).
Proof.
  induction s as [|a s IH]; [reflexivity|]. rewrite split_cons. cbn [count].
  destruct (Ascii.eqb a c); cbn [length]; rewrite ?IH; [reflexivity|].
  pose proof (split_not_nil c s). destruct (split c s); [contradiction|].
  cbn [tl length] in *. lia.
Qed.

(** No piece holds the separator. *)
Lemma split_no_sep c s : Forall (fun p => count c p = 0%nat) (split c s).
Proof.
  induction s as [|a s IH]; [repeat constructor|]. rewrite split_cons.
  destruct (Ascii.eqb a c) eqn:E; [constructor; [reflexivity|assumption]|].
  pose proof (split_not_nil c s). destruct (split c s) as [|p ps]; [contradiction|].
  inversion IH; subst. constructor; [|assumption]. cbn. now rewrite E.
Qed.

Lemma split_append_sep c p s :
  count c p = 0%nat -> split c (p ++ String c s)%string = p :: split c s.
Proof.
  induction p as [|a p IH]; cbn [append count]; intros Hp.
  - rewrite split_cons. now rewrite Ascii.eqb_refl.
  - rewrite split_cons. destruct (Ascii.eqb a c); [discriminate|].
    now rewrite IH by assumption.
Qed.

Lemma split_no_count c p : count c p = 0%nat -> split c p = [p].
Proof.
  induction p as [|a p IH]; cbn [count]; intros Hp; [reflexivity|].
  rewrite split_cons. destruct (Ascii.eqb a c); [discriminate|]. now rewrite IH.
Qed.

(** Splitting a joined list of separator-free pieces gives the pieces back. *)
Lemma split_join c parts :
  parts <> [] -> Forall (fun p => count c p = 0%nat) parts ->
  split c (join (String c EmptyString) parts) = parts.
Proof.
  induction parts as [|p [|q ps] IH]; intros Hne Hall; [contradiction| |].
  - inversion Hall; subst. now apply split_no_count.
  - inversion Hall; subst. rewrite join_cons. cbn [append].
    rewrite split_append_sep by assumption. f_equal. now apply IH.
Qed.

(** ** Substrings *)

Lemma prefix_spec q s : String.prefix q s = true <-> exists b, s = (q ++ b)%string.
Proof.
  revert s. induction q as [|a q IH]; intros s.
  - split; [intros _; now exists s | now destruct s].
  - destruct s as [|a' s]; [split; [discriminate | intros [b Hb]; discriminate]|].
    cbn [String.prefix append]. destruct (ascii_dec a a') as [->|Hne].
    + rewrite IH. split; intros [b Hb]; exists b; congruence.
    + split; [discriminate | intros [b Hb]; congruence].
Qed.

(** [contains s q] holds exactly when [s] decomposes as [a ++ q ++ b]. *)
Lemma contains_spec s q :
  contains s q = true <-> exists a b, s = (a ++ q ++ b)%string.
Proof.
  induction s as [|c s IH]; cbn [contains]; rewrite orb_true_iff, prefix_spec.
  - split.
    + intros [[b Hb]|H]; [now exists EmptyString, b | discriminate].
    + intros [a [b Hab]]. left. destruct a; [now exists b | discriminate].
  - rewrite IH. split.
    + intros [[b Hb]|[a [b Hab]]]; [now exists EmptyString, b|].
      exists (String c a), b. cbn. now rewrite Hab.
    + intros [[|c' a] [b Hab]]; [left; now exists b|].
      right. exists a, b. cbn in Hab. congruence.
Qed.

Lemma contains_empty s : contains s EmptyString = true.
Proof. apply contains_spec. now exists EmptyString, s. Qed.

Lemma contains_refl s : contains s s = true.
Proof.
  apply contains_spec. exists EmptyString, EmptyString. cbn.
  clear. induction s; cbn; congruence.
Qed.

(** ** Lower case *)

Lemma lower_idem_enum :
  forallb (fun n => Ascii.eqb (lower (lower (ascii_of_nat n))) (lower (ascii_of_nat n)))
          (seq 0 256) = true.
Proof. vm_compute. reflexivity. Qed.

Lemma lower_idem a : lower (lower a) = lower a.
Proof.
  apply Ascii.eqb_eq. rewrite <- (ascii_nat_embedding a).
  apply (proj1 (forallb_forall _ _) lower_idem_enum).
  apply in_seq. pose proof (nat_ascii_bounded a). lia.
Qed.

Lemma to_lowercase_idem s : to_lowercase (to_lowercase s) = to_lowercase s.
Proof. induction s as [|a s IH]; cbn; [reflexivity|]. now rewrite lower_idem, IH. Qed.

Lemma to_lowercase_empty s : is_empty (to_lowercase s) = is_empty s.
Proof. now destruct s. Qed.

(** ** Decimal formats *)

Lemma to_int_not_nil z : Z.to_int z <> Decimal.Pos Decimal.Nil /\ Z.to_int z <> Decimal.Neg Decimal.Nil.
Proof.
  destruct z as [|p|p]; cbn; split; try discriminate;
    intros [= H]; now apply (DecimalPos.Unsigned.to_uint_nonnil p).
Qed.

(** Printing an integer and reading it back is the identity. *)
Lemma parse_fmt_int z : parse_int (fmt_int z) = Some z.
Proof.
  unfold parse_int, fmt_int. destruct (to_int_not_nil z) as [H1 H2].
  rewrite NilZero.isi by assumption. cbn. now rewrite DecimalZ.of_to.
Qed.

Lemma fmt_int_inj a b : fmt_int a = fmt_int b -> a = b.
Proof.
  intros H. apply (f_equal parse_int) in H. rewrite !parse_fmt_int in H. congruence.
Qed.

Lemma fmt_digit_enum :
  forall_below 10 (fun z => (String.length (fmt_int z) =? 1)%nat) = true.
Proof. vm_compute. reflexivity. Qed.

Lemma fmt_two_digits_enum :
  forall_below 100 (fun z => implb (10 <=? z) (String.length (fmt_int z) =? 2)%nat) = true.
Proof. vm_compute. reflexivity. Qed.

(** The two-digit field of a value in [0, 100) is exactly two characters. *)
Lemma length_fmt_int_02 z : 0 <= z < 100 -> String.length (fmt_int_02 z) = 2%nat.
Proof.
  intros Hz. unfold fmt_int_02.
  destruct ((0 <=? z) && (z <? 10)) eqn:E.
  - cbn [String.length]. f_equal. apply Nat.eqb_eq.
    apply (proj1 (forall_below_spec 10 _) fmt_digit_enum). lia.
  - apply Nat.eqb_eq.
    pose proof (proj1 (forall_below_spec 100 _) fmt_two_digits_enum z ltac:(lia)) as H.
    cbn beta in H. replace (10 <=? z) with true in H by lia. exact H.
Qed.
