(* ===== verification/Utils.v ===== *)
(** * The utilities of [utils.rs]

    [format_duration], [map_join], the two image URL getters, [parse_uri] and
    the two variants of [filtered_items_from_query] (substring search, and the
    fuzzy search of the [fzf] feature, whose matcher is a parameter).  The
    dominant colour of an image is in [Palette]. *)

From Stdlib Require Import String Ascii ZArith NArith Lia Bool List Sorted Permutation.
From Stdlib Require Import DecimalString DecimalZ.
From S2P Require Import Prelude Text.
Import ListNotations.
#[local] Open Scope Z_scope.

Module Utils.

Import Str.

(** ** [format_duration] *)

(** A [chrono::Duration], as far as the function reads it: its whole seconds
    (an [i64], rounded towards zero). *)
Record Duration : Type := { num_seconds : Z }.

(** [format!("{}:{:02}", secs / 60, secs % 60)]; division and remainder of
    signed integers truncate towards zero. *)
Definition format_duration (duration : Duration) : string :=
  let secs := num_seconds duration in
  (fmt_int (Z.quot secs 60) ++ ":" ++ fmt_int_02 (Z.rem secs 60))%string.

(** ** [map_join] *)

(** The closure of the fold: the separator is added only to a non-empty
    accumulator. *)
Definition join_step (sep : string) (x y : string) : string :=
  if is_empty x then (x ++ y)%string else ((x ++ sep) ++ y)%string.

Definition map_join {T : Type} (v : list T) (f : T -> string) (sep : string) : string :=
  fold_left (join_step sep) (map f v) EmptyString.

(** ** Image URLs *)

(** The fields of the web API's objects that the getters read. *)
Record Image : Type := { url : string }.
Record SimplifiedAlbum : Type := { album_images : list Image }.
Record FullTrack : Type := { album : SimplifiedAlbum }.
Record SimplifiedShow : Type := { show_images : list Image }.
Record FullEpisode : Type := { show : SimplifiedShow }.

(** [images[0]] behind the emptiness test: the index is always in range. *)
Definition first_url (images : list Image) : option string :=
  if (length images =? 0)%nat then None else option_map url (nth_error images 0).

Definition get_track_album_image_url (track : FullTrack) : option string :=
  first_url (album_images (album track)).

Definition get_episode_show_image_url (episode : FullEpisode) : option string :=
  first_url (show_images (show episode)).

(** ** [parse_uri] *)

Definition colon : ascii := ":"%char.

(** [spotify:user:{user_id}:{type}:{id}] becomes [spotify:{type}:{id}]; any
    other string is returned as it is. *)
Definition parse_uri (uri : string) : string :=
  let parts := split colon uri in
  if (length parts =? 5)%nat
  then join ":" [nth 0 parts EmptyString; nth 3 parts EmptyString; nth 4 parts EmptyString]
  else uri.

(** ** [filtered_items_from_query] *)

Definition blank : ascii := " "%char.

(** [query.split(' ').filter(|q| !q.is_empty())]. *)
Definition words (query : string) : list string :=
  filter (fun q => negb (is_empty q)) (split blank query).

Section Search.

Context {T : Type}.

(** [t.to_string()] of the [Display] implementation of the items. *)
Variable to_string : T -> string.

(** The closure of the filter. *)
Definition matches (query : string) (t : T) : bool :=
  if is_empty query then true
  else
    let t := to_lowercase (to_string t) in
    forallb (fun q => contains t q) (words query).

(** Without the [fzf] feature: the items that contain every word of the
    lower-cased query, in their order. *)
Definition filtered_items_from_query (query : string) (items : list T) : list T :=
  let query := to_lowercase query in
  filter (matches query) items.

(** The matcher of the [fzf] feature: the score of an item for a query, if it
    matches at all. *)
Variable fuzzy : string -> string -> option Z.

(** [filter_map]: the matching items with their scores. *)
Definition scored (items : list T) (query : string) : list (T * Z) :=
  flat_map (fun t =>
    match fuzzy (to_string t) query with
    | Some score => [(t, score)]
    | None => []
    end) items.

(** [sort_by(|(_, a), (_, b)| b.cmp(a))]: a stable sort by descending score,
    as an insertion sort. *)
Fixpoint insert_desc (p : T * Z) (l : list (T * Z)) : list (T * Z) :=
  match l with
  | [] => [p]
  | q :: l' => if snd q <=? snd p then p :: l else q :: insert_desc p l'
  end.

Definition sort_desc (l : list (T * Z)) : list (T * Z) :=
  fold_right insert_desc [] l.

Definition fuzzy_search_items (items : list T) (query : string) : list T :=
  let result := scored items query in
  let result := sort_desc result in
  map fst result.

(** With the [fzf] feature. *)
Definition filtered_items_from_query_fzf (query : string) (items : list T) : list T :=
  let query := to_lowercase query in
  fuzzy_search_items items query.

(** The reference for the substring search: no special case for the empty
    query. *)
Definition matches_ref (query : string) (t : T) : bool :=
  forallb (fun q => contains (to_lowercase (to_string t)) q) (words (to_lowercase query)).

End Search.

(** What [map_join] returns: the strings joined, after the leading empty
    ones are dropped. *)
Fixpoint drop_empty (l : list string) : list string :=
  match l with
  | [] => []
  | y :: l' => if is_empty y then drop_empty l' else l
  end.

(** The separator before each remaining string. *)
Fixpoint tail_join (sep : string) (l : list string) : string :=
  match l with
  | [] => EmptyString
  | y :: l' => (sep ++ y ++ tail_join sep l')%string
  end.

(** A string of [n] spaces. *)
Fixpoint spaces (n : nat) : string :=
  match n with
  | O => EmptyString
  | S n' => String blank (spaces n')
  end.

(** Scores in descending order. *)
Definition desc {T : Type} (p q : T * Z) : Prop := snd q <= snd p.

(** The entries of a given score, in their order. *)
Definition with_score {T : Type} (s : Z) (l : list (T * Z)) : list (T * Z) :=
  filter (fun q => snd q =? s) l.

End Utils.

Import Str Utils.

(** ** Durations *)

Lemma count_colon_uint d : count colon (NilEmpty.string_of_uint d) = 0%nat.
Proof. induction d as [|d IH|d IH|d IH|d IH|d IH|d IH|d IH|d IH|d IH|d IH];
  cbn [NilEmpty.string_of_uint count]; rewrite ?IH; reflexivity. Qed.

Lemma count_colon_fmt_int z : count colon (fmt_int z) = 0%nat.
Proof.
  unfold fmt_int, NilZero.string_of_int, NilZero.string_of_uint.
  destruct (Z.to_int z) as [d|d]; destruct d;
    cbn [count NilEmpty.string_of_uint]; rewrite ?count_colon_uint; reflexivity.
Qed.

Lemma count_colon_fmt_int_02 z : count colon (fmt_int_02 z) = 0%nat.
Proof.
  unfold fmt_int_02. destruct (_ && _); cbn [count]; rewrite count_colon_fmt_int; reflexivity.
Qed.

Lemma parse_padded_enum :
  forall_below 10 (fun z =>
    match parse_int (String "0"%char (fmt_int z)) with Some z' => z' =? z | None => false end)
  = true.
Proof. vm_compute. reflexivity. Qed.

Lemma parse_fmt_int_02 z : parse_int (fmt_int_02 z) = Some z.
Proof.
  unfold fmt_int_02. destruct ((0 <=? z) && (z <? 10)) eqn:E; [|apply parse_fmt_int].
  pose proof (proj1 (forall_below_spec 10 _) parse_padded_enum z ltac:(lia)) as H.
  cbn beta in H. destruct (parse_int _) as [z'|]; [|discriminate].
  apply Z.eqb_eq in H. now subst.
Qed.

Lemma split_format_duration d :
  split colon (format_duration d)
  = [fmt_int (Z.quot (num_seconds d) 60); fmt_int_02 (Z.rem (num_seconds d) 60)].
Proof.
  unfold format_duration. cbn [append].
  rewrite split_append_sep by apply count_colon_fmt_int.
  now rewrite split_no_count by apply count_colon_fmt_int_02.
Qed.

(** ** Joining *)

Lemma is_empty_append x y : is_empty x = false -> is_empty (x ++ y) = false.
Proof. now destruct x. Qed.

Lemma append_assoc (x y z : string) : ((x ++ y) ++ z = x ++ (y ++ z))%string.
Proof. induction x as [|a x IH]; cbn; [reflexivity|now rewrite IH]. Qed.

Lemma append_nil_r (x : string) : (x ++ EmptyString)%string = x.
Proof. induction x as [|a x IH]; cbn; [reflexivity|now rewrite IH]. Qed.

Lemma fold_join_nonempty sep l x :
  is_empty x = false -> fold_left (join_step sep) l x = (x ++ tail_join sep l)%string.
Proof.
  revert x. induction l as [|y l IH]; intros x Hx; cbn [fold_left tail_join].
  - now rewrite append_nil_r.
  - replace (join_step sep x y) with ((x ++ sep) ++ y)%string
      by (unfold join_step; now rewrite Hx).
    rewrite IH by (apply is_empty_append, is_empty_append, Hx).
    now rewrite !append_assoc.
Qed.

Lemma join_tail_join sep y l : join sep (y :: l) = (y ++ tail_join sep l)%string.
Proof.
  revert y. induction l as [|z l IH]; intros y; [now rewrite append_nil_r|].
  rewrite join_cons, IH. reflexivity.
Qed.

Lemma fold_join_drop sep l :
  fold_left (join_step sep) l EmptyString = join sep (drop_empty l).
Proof.
  induction l as [|y l IH]; [reflexivity|]. cbn [fold_left drop_empty].
  destruct y as [|a y]; [exact IH|]. cbn [is_empty join_step append].
  now rewrite fold_join_nonempty, join_tail_join.
Qed.

Lemma drop_empty_id l : Forall (fun y => is_empty y = false) l -> drop_empty l = l.
Proof. destruct 1 as [|y l Hy _]; cbn; [reflexivity|now rewrite Hy]. Qed.

(** ** URIs *)

Lemma count_nth_split c s n : count c (nth n (split c s) EmptyString) = 0%nat.
Proof.
  destruct (Nat.lt_ge_cases n (length (split c s))) as [Hlt|Hge].
  - apply (proj1 (Forall_forall _ _) (split_no_sep c s)). now apply nth_In.
  - now rewrite nth_overflow.
Qed.

Lemma parse_uri_three a b c :
  count colon a = 0%nat -> count colon b = 0%nat -> count colon c = 0%nat ->
  parse_uri (join ":" [a; b; c]) = join ":" [a; b; c].
Proof.
  intros Ha Hb Hc. unfold parse_uri. change ":"%string with (String colon EmptyString).
  rewrite (split_join colon [a; b; c]); [reflexivity|discriminate|auto].
Qed.

Lemma parse_uri_five p0 p1 p2 p3 p4 :
  Forall (fun p => count colon p = 0%nat) [p0; p1; p2; p3; p4] ->
  parse_uri (join ":" [p0; p1; p2; p3; p4]) = join ":" [p0; p3; p4].
Proof.
  intros H. unfold parse_uri. change ":"%string with (String colon EmptyString).
  rewrite (split_join colon [p0; p1; p2; p3; p4]); [reflexivity|discriminate|assumption].
Qed.

Lemma parse_uri_cases uri :
  parse_uri uri = uri \/
  exists a b c, count colon a = 0%nat /\ count colon b = 0%nat /\ count colon c = 0%nat /\
                parse_uri uri = join ":" [a; b; c].
Proof.
  unfold parse_uri. destruct (length (split colon uri) =? 5)%nat; [right|now left].
  eexists _, _, _. repeat split; try reflexivity; apply count_nth_split.
Qed.

(** ** Substring search *)

Lemma words_empty : words EmptyString = [].
Proof. reflexivity. Qed.

Lemma matches_matches_ref {T} (to_string : T -> string) query t :
  matches to_string (to_lowercase query) t = matches_ref to_string query t.
Proof.
  unfold matches, matches_ref.
  destruct (to_lowercase query) as [|a q] eqn:E; [reflexivity|reflexivity].
Qed.

Lemma filtered_filter_ref {T} (to_string : T -> string) query items :
  filtered_items_from_query to_string query items = filter (matches_ref to_string query) items.
Proof.
  unfold filtered_items_from_query. apply filter_ext. intros t. apply matches_matches_ref.
Qed.

Lemma matches_ref_spec {T} (to_string : T -> string) query t :
  matches_ref to_string query t = true <->
  forall w, In w (words (to_lowercase query)) ->
            exists a b, to_lowercase (to_string t) = (a ++ w ++ b)%string.
Proof.
  unfold matches_ref. rewrite forallb_forall.
  split; intros H w Hw; [apply contains_spec | apply contains_spec]; now apply H.
Qed.

(** ** Stable sorting by descending score *)

Section Sorting.

Context {T : Type}.
Implicit Types (p : T * Z) (l : list (T * Z)).

Lemma insert_desc_perm p l : Permutation (insert_desc p l) (p :: l).
Proof.
  induction l as [|q l IH]; cbn; [reflexivity|].
  destruct (snd q <=? snd p); [reflexivity|].
  rewrite IH. apply perm_swap.
Qed.

Lemma sort_desc_perm l : Permutation (sort_desc l) l.
Proof.
  induction l as [|p l IH]; cbn; [reflexivity|].
  rewrite insert_desc_perm. now constructor.
Qed.

Lemma insert_desc_sorted p l :
  StronglySorted desc l -> StronglySorted desc (insert_desc p l).
Proof.
  induction 1 as [|q l Hs IH Hq]; cbn; [repeat constructor|].
  destruct (Z.leb_spec (snd q) (snd p)) as [Hle|Hgt].
  - constructor; [now constructor|]. constructor; [exact Hle|].
    eapply Forall_impl; [|exact Hq]. unfold desc. intros x Hx. lia.
  - constructor; [exact IH|].
    apply (Permutation_Forall (Permutation_sym (insert_desc_perm p l))).
    constructor; [unfold desc; lia | exact Hq].
Qed.

Lemma sort_desc_sorted l : StronglySorted desc (sort_desc l).
Proof. induction l as [|p l IH]; cbn; [constructor|now apply insert_desc_sorted]. Qed.

Lemma insert_desc_with_score s p l :
  with_score s (insert_desc p l) = with_score s (p :: l).
Proof.
  induction l as [|q l IH]; [reflexivity|]. cbn [insert_desc].
  destruct (Z.leb_spec (snd q) (snd p)) as [Hle|Hgt]; [reflexivity|].
  unfold with_score in *. cbn [filter] in *. rewrite IH.
  destruct (Z.eqb_spec (snd q) s), (Z.eqb_spec (snd p) s); try reflexivity. lia.
Qed.

Lemma sort_desc_with_score s l : with_score s (sort_desc l) = with_score s l.
Proof.
  induction l as [|p l IH]; [reflexivity|]. cbn [sort_desc fold_right].
  rewrite insert_desc_with_score. unfold with_score in *. cbn [filter].
  fold (sort_desc l). now rewrite IH.
Qed.

End Sorting.

Lemma words_spaces n : words (to_lowercase (spaces n)) = [].
Proof.
  unfold words. induction n as [|n IH]; [reflexivity|].
  cbn [spaces to_lowercase]. change (lower blank) with blank.
  rewrite split_cons, Ascii.eqb_refl. exact IH.
Qed.

Lemma scored_In {T} (to_string : T -> string) fuzzy items query t z :
  In (t, z) (scored to_string fuzzy items query) <->
  In t items /\ fuzzy (to_string t) query = Some z.
Proof.
  unfold scored. rewrite in_flat_map. split.
  - intros [t' [Ht' Hin]]. destruct (fuzzy (to_string t') query) eqn:E; [|contradiction].
    destruct Hin as [[= <- <-]|[]]. auto.
  - intros [Ht Hz]. exists t. rewrite Hz. split; [assumption|now left].
Qed.

(** ** Theorems *)

(** C32. Formatting a duration and reading it back: for every duration, negative
    ones included, the text splits at its only colon into a minutes field and
    a seconds field; the fields read back as the truncated quotient and the
    remainder of the seconds by 60, and these recombine to the seconds of the
    duration. *)
Theorem format_duration_roundtrip d :
  exists m s,
    split colon (format_duration d) = [m; s] /\
    parse_int m = Some (Z.quot (num_seconds d) 60) /\
    parse_int s = Some (Z.rem (num_seconds d) 60) /\
    60 * Z.quot (num_seconds d) 60 + Z.rem (num_seconds d) 60 = num_seconds d.
Proof.
  eexists _, _. split; [apply split_format_duration|].
  split; [apply parse_fmt_int|]. split; [apply parse_fmt_int_02|].
  symmetry. apply Z.quot_rem'.
Qed.

(** For a duration that is not negative the text is [m:ss]: the minutes
    (the floor of the seconds over 60), a colon, and a seconds field of
    exactly two characters that reads as the seconds modulo 60. *)
Theorem format_duration_seconds_field d :
  0 <= num_seconds d ->
  exists s,
    format_duration d = (fmt_int (num_seconds d / 60) ++ ":" ++ s)%string /\
    String.length s = 2%nat /\
    parse_int s = Some (num_seconds d mod 60).
Proof.
  intros Hd. exists (fmt_int_02 (num_seconds d mod 60)).
  unfold format_duration. cbn zeta.
  rewrite Z.quot_div_nonneg, Z.rem_mod_nonneg by lia.
  split; [reflexivity|]. split; [|apply parse_fmt_int_02].
  apply length_fmt_int_02. pose proof (Z.mod_pos_bound (num_seconds d) 60). lia.
Qed.

Lemma format_duration_seconds_field_witness :
  exists s,
    format_duration {| num_seconds := 125 |}
    = (fmt_int (125 / 60) ++ ":" ++ s)%string /\
    String.length s = 2%nat /\ parse_int s = Some (125 mod 60).
Proof. apply (format_duration_seconds_field {| num_seconds := 125 |}). cbn. lia. Defined.

(** A negative duration carries its sign into the fields separately: minus
    five seconds prints as [0:-5] and minus sixty-five seconds as [-1:-5]. *)
Theorem format_duration_negative :
  format_duration {| num_seconds := -5 |} = "0:-5"%string /\
  format_duration {| num_seconds := -65 |} = "-1:-5"%string.
Proof. split; vm_compute; reflexivity. Qed.

(** C33. [map_join] is the join, with the separator, of the mapped strings after
    the leading empty ones are dropped: an empty accumulator never receives a
    separator. *)
Theorem map_join_spec {T : Type} (v : list T) (f : T -> string) (sep : string) :
  map_join v f sep = join sep (drop_empty (map f v)).
Proof. apply fold_join_drop. Qed.

(** When no mapped string is empty [map_join] is the plain join. *)
Theorem map_join_join {T : Type} (v : list T) (f : T -> string) (sep : string) :
  Forall (fun t => is_empty (f t) = false) v ->
  map_join v f sep = join sep (map f v).
Proof.
  intros H. unfold map_join. rewrite fold_join_drop, drop_empty_id; [reflexivity|].
  now apply Forall_map.
Qed.

Lemma map_join_join_witness :
  map_join ["a"; "b"; "c"]%string (fun s => s) ", " = join ", " (map (fun s => s) ["a"; "b"; "c"]%string).
Proof. apply map_join_join. repeat constructor. Defined.

(** Leading empty strings vanish together with their separators, while
    later empty strings keep theirs: joining ["", "a", "", "b"] with a comma
    gives [a,,b], where the plain join gives [,a,,b]. *)
Theorem map_join_leading_empty :
  map_join [""; "a"; ""; "b"]%string (fun s => s) "," = "a,,b"%string /\
  join "," [""; "a"; ""; "b"]%string = ",a,,b"%string.
Proof. split; reflexivity. Qed.

(** C31. A URI of five colon-free segments loses its second and third segment:
    [spotify:user:{user_id}:{type}:{id}] becomes [spotify:{type}:{id}]. *)
Theorem parse_uri_user_form p0 p1 p2 p3 p4 :
  Forall (fun p => count colon p = 0%nat) [p0; p1; p2; p3; p4] ->
  parse_uri (join ":" [p0; p1; p2; p3; p4]) = join ":" [p0; p3; p4].
Proof. apply parse_uri_five. Qed.

Lemma parse_uri_user_form_witness :
  parse_uri (join ":" ["spotify"; "user"; "alice"; "playlist"; "37i9dQ"]%string)
  = join ":" ["spotify"; "playlist"; "37i9dQ"]%string.
Proof. apply parse_uri_user_form. repeat constructor. Defined.

(** A URI that does not have exactly four colons is returned unchanged. *)
Theorem parse_uri_unchanged uri : count colon uri <> 4%nat -> parse_uri uri = uri.
Proof.
  intros H. unfold parse_uri. rewrite length_split.
  destruct (Nat.eqb_spec (S (count colon uri)) 5); [lia|reflexivity].
Qed.

Lemma parse_uri_unchanged_witness : parse_uri "spotify:track:4uLU6hMC" = "spotify:track:4uLU6hMC"%string.
Proof. apply parse_uri_unchanged. cbn. lia. Defined.

(** C30. [parse_uri] is idempotent: its result is never again of the five-segment
    form. *)
Theorem parse_uri_idempotent uri : parse_uri (parse_uri uri) = parse_uri uri.
Proof.
  destruct (parse_uri_cases uri) as [H|(a & b & c & Ha & Hb & Hc & ->)].
  - now rewrite !H.
  - now apply parse_uri_three.
Qed.

(** C34. Without the fuzzy matcher, an item is returned exactly when it is one of
    the items and its lower-cased text contains every non-empty word of the
    lower-cased query as a substring. *)
Theorem filtered_items_spec {T : Type} (to_string : T -> string) query items t :
  In t (filtered_items_from_query to_string query items) <->
  In t items /\
  forall w, In w (words (to_lowercase query)) ->
            exists a b, to_lowercase (to_string t) = (a ++ w ++ b)%string.
Proof. now rewrite filtered_filter_ref, filter_In, matches_ref_spec. Qed.

(** A query of spaces only, the empty query included, returns every item
    in the original order. *)
Theorem filtered_items_blank_query {T : Type} (to_string : T -> string) n items :
  filtered_items_from_query to_string (spaces n) items = items.
Proof.
  rewrite filtered_filter_ref. unfold matches_ref. rewrite words_spaces. cbn [forallb].
  induction items as [|t items IH]; cbn; [reflexivity|now rewrite IH].
Qed.

(** C35. The fuzzy search returns the matching items sorted by descending score,
    stably: the scored list it projects is a permutation of the matches, its
    scores never increase, and the entries of any one score keep the order
    they had among the items. *)
Theorem fuzzy_search_sorted {T : Type} (to_string : T -> string) fuzzy items query :
  exists l,
    fuzzy_search_items to_string fuzzy items query = map fst l /\
    Permutation l (scored to_string fuzzy items query) /\
    StronglySorted desc l /\
    forall s, with_score s l = with_score s (scored to_string fuzzy items query).
Proof.
  exists (sort_desc (scored to_string fuzzy items query)).
  split; [reflexivity|]. split; [apply sort_desc_perm|].
  split; [apply sort_desc_sorted|]. intros s. apply sort_desc_with_score.
Qed.

(** The fuzzy search returns exactly the items the matcher gives a score. *)
Theorem fuzzy_search_members {T : Type} (to_string : T -> string) fuzzy items query t :
  In t (fuzzy_search_items to_string fuzzy items query) <->
  In t items /\ exists z, fuzzy (to_string t) query = Some z.
Proof.
  unfold fuzzy_search_items. rewrite in_map_iff. split.
  - intros [[t' z] [<- Hin]].
    apply (Permutation_in _ (sort_desc_perm _)) in Hin.
    apply scored_In in Hin. cbn. destruct Hin. eauto.
  - intros [Ht [z Hz]]. exists (t, z). split; [reflexivity|].
    apply (Permutation_in _ (Permutation_sym (sort_desc_perm _))).
    now apply scored_In.
Qed.

(** The image URL getters return the URL of the first image, and nothing
    for an album or show without images; the index 0 is never out of range. *)
Theorem image_url_first track episode :
  get_track_album_image_url track = option_map url (hd_error (album_images (album track))) /\
  get_episode_show_image_url episode = option_map url (hd_error (show_images (show episode))).
Proof.
  unfold get_track_album_image_url, get_episode_show_image_url, first_url.
  split; [destruct (album_images _) | destruct (show_images _)]; reflexivity.
Qed.
