(* ===== verification/LinearWave.v ===== *)
(** * The travelling sine line: [render_concentric_waves] of [ui/visualizations.rs]

    The function computes one row index per column ([wave_positions]), then
    builds the grid cell by cell: the cell of column [x] in the row
    [wave_positions[x]] is a full block in the wave colour, every other cell a
    black space.  [sin] is taken through the interface [Libm]. *)

From Stdlib Require Import String ZArith Lia Bool List SpecFloat.
From S2P Require Import Prelude Ieee Exact Libm Widget.
Import ListNotations.
#[local] Open Scope Z_scope.

Module Linear.

Import Tui.

(** The literals [0.05], [2.0], [5.0], [1.5] and [0.2]. *)
Definition c005 : F64.f64 := Eval vm_compute in F64.lit 5 100.
Definition two : F64.f64 := Eval vm_compute in F64.of_Z 2.
Definition five : F64.f64 := Eval vm_compute in F64.of_Z 5.
Definition c15 : F64.f64 := Eval vm_compute in F64.lit 15 10.
Definition c02 : F64.f64 := Eval vm_compute in F64.lit 2 10.

(** The album colour, or bright cyan. *)
Definition wave_color (album_color : option rgb) : rgb :=
  match album_color with
  | Some (r, g, b) => (r, g, b)
  | None => (0, 255, 255)
  end.

Section WithLibm.

Context {L : Libm}.

(** [center_y + (x_pos * 0.2 + wave_phase).sin() * amplitude] for column [x]. *)
Definition wave_y (area : Rect) (beat_progress : F64.f64) (x : Z) : F64.f64 :=
  let wave_phase := F64.mul beat_progress c005 in
  let center_y := F64.div (F64.of_Z (height area)) two in
  let amplitude := F64.max (F64.div (F64.of_Z (height area)) five) c15 in
  let x_pos := F64.of_Z x in
  F64.add center_y (F64.mul (sin (F64.add (F64.mul x_pos c02) wave_phase)) amplitude).

(** The value pushed for column [x]: [wave_y.round() as usize]. *)
Definition wave_position (area : Rect) (beat_progress : F64.f64) (x : Z) : Z :=
  F64.to_usize (F64.round (wave_y area beat_progress x)).

(** The first loop: one position per column. *)
Definition wave_positions (area : Rect) (beat_progress : F64.f64) : list Z :=
  collect (Z.to_nat (width area)) (wave_position area beat_progress).

(** The body of the inner loop for row [y] and column [x]; the index
    [wave_positions[x as usize]] reads the default only out of range. *)
Definition cell (positions : list Z) (color : rgb) (y x : Z) : Span :=
  let wave_y := nth (Z.to_nat x) positions 0 in
  let '(char, color) :=
    if y =? wave_y
    then (full_block, let '(r, g, b) := color in Rgb r g b)
    else (space, Black) in
  Span_styled (to_string char) (Style_fg Style_default color).

(** The second pair of loops: the lines of the paragraph. *)
Definition lines (area : Rect) (positions : list Z) (color : rgb) : list Line :=
  collect (Z.to_nat (height area))
          (fun y => collect (Z.to_nat (width area)) (cell positions color y)).

Definition render_concentric_waves (frame : Frame) (area : Rect)
  (beat_progress : F64.f64) (album_color : option rgb) (show_border : bool) : Frame :=
  let wave_color := wave_color album_color in
  let wave_positions := wave_positions area beat_progress in
  let text := lines area wave_positions wave_color in
  let widget :=
    if show_border
    then with_block (Paragraph_new text) {| borders := ALL; title := "Visualization"%string |}
    else Paragraph_new text in
  render_widget frame widget area.

(** The paragraph the call renders. *)
Definition rendered (area : Rect) (beat_progress : F64.f64)
  (album_color : option rgb) : list Line :=
  lines area (wave_positions area beat_progress) (wave_color album_color).

(** A cell is lit when it shows the full block. *)
Definition lit (s : Span) : bool := is_glyph full_block s.

End WithLibm.

(** An area of [w] columns and [h] rows at the origin. *)
Definition area_of (w h : Z) : Rect := {| x := 0; y := 0; width := w; height := h |}.

End Linear.

Import Tui Linear.

Section LinearWave.

Context {L : Libm}.
Variable area : Rect.
Variable beat_progress : F64.f64.
Variable album_color : option rgb.

Hypothesis area_ok : rect_ok area.

Let w := Z.to_nat (width area).
Let h := Z.to_nat (height area).

Lemma length_wave_positions : length (wave_positions area beat_progress) = w.
Proof. apply length_collect. Qed.

Lemma nth_wave_positions x :
  0 <= x < width area ->
  nth (Z.to_nat x) (wave_positions area beat_progress) 0 = wave_position area beat_progress x.
Proof.
  intros Hx. unfold wave_positions. rewrite nth_collect by lia. f_equal. lia.
Qed.

Lemma rendered_grid :
  rendered area beat_progress album_color
  = grid_by_index h w (cell (wave_positions area beat_progress) (wave_color album_color)).
Proof. unfold rendered, lines. apply collect_grid. Qed.

Lemma lit_cell positions color y x :
  lit (cell positions color y x) = (y =? nth (Z.to_nat x) positions 0).
Proof.
  unfold cell. destruct (y =? nth (Z.to_nat x) positions 0); [|reflexivity].
  now destruct color as [[r g] b].
Qed.

Lemma cell_cases positions r g b y x :
  (y = nth (Z.to_nat x) positions 0 /\
   shows full_block (Rgb r g b) (cell positions (r, g, b) y x)) \/
  (y <> nth (Z.to_nat x) positions 0 /\ cell positions (r, g, b) y x = blank).
Proof.
  unfold cell. destruct (Z.eqb_spec y (nth (Z.to_nat x) positions 0)); [left|right];
    split; try assumption; try reflexivity. now split.
Qed.

(** C40. The rendered paragraph has exactly [height] lines of exactly [width]
    spans each, and the index [wave_positions[x]] of the cell loop is always
    within the vector: [wave_positions] has one entry per column. *)
Theorem linear_grid_shape :
  length (rendered area beat_progress album_color) = h /\
  Forall (fun line => length line = w) (rendered area beat_progress album_color) /\
  length (wave_positions area beat_progress) = w.
Proof.
  rewrite rendered_grid. split; [apply length_grid_by_index|].
  split; [apply grid_by_index_rows | apply length_wave_positions].
Qed.

(** C25. The cell of row [y] and column [x] shows a full block in the wave
    colour (the album colour, or [(0, 255, 255)] without one) when [y] is the
    position computed for the column, and is a black space otherwise; the
    colour does not depend on the beat. *)
Theorem linear_cell_spec y x :
  0 <= y < height area -> 0 <= x < width area ->
  let s := grid_cell blank (rendered area beat_progress album_color) (Z.to_nat y) (Z.to_nat x) in
  let '(r, g, b) := wave_color album_color in
  if y =? wave_position area beat_progress x
  then shows full_block (Rgb r g b) s
  else s = blank.
Proof.
  intros Hy Hx. cbv zeta. rewrite rendered_grid.
  rewrite grid_cell_by_index by (unfold h, w; lia).
  rewrite !Z2Nat.id by lia.
  destruct (wave_color album_color) as [[r g] b].
  destruct (cell_cases (wave_positions area beat_progress) r g b y x) as [[E H]|[E H]];
    rewrite nth_wave_positions in E by assumption.
  - now rewrite (proj2 (Z.eqb_eq _ _) E).
  - now rewrite (proj2 (Z.eqb_neq _ _) E).
Qed.

(** The lit cells of a column are the rows equal to the column's position. *)
Lemma count_lit_column x :
  0 <= x < width area ->
  count_col lit blank (rendered area beat_progress album_color) (Z.to_nat x)
  = if (0 <=? wave_position area beat_progress x)
       && (wave_position area beat_progress x <? height area)
    then 1%nat else 0%nat.
Proof.
  intros Hx. rewrite rendered_grid, count_col_grid by (unfold w; lia).
  rewrite Z2Nat.id by lia.
  rewrite (filter_ext _ (fun y => y =? wave_position area beat_progress x)).
  - rewrite count_eq_zrange. destruct area_ok as (_ & _ & _ & Hh). unfold in_u16 in Hh.
    unfold h. now rewrite Z2Nat.id by lia.
  - intros y. rewrite lit_cell. now rewrite nth_wave_positions.
Qed.

Lemma wave_position_nonneg x : 0 <= wave_position area beat_progress x.
Proof. apply (to_usize_range (F64.round (wave_y area beat_progress x))). Qed.

(** C5. Every column holds at most one lit cell: exactly one when the
    position computed for the column is a row of the area, none when it lies
    below the last row. *)
Theorem linear_one_lit_per_column x :
  0 <= x < width area ->
  count_col lit blank (rendered area beat_progress album_color) (Z.to_nat x)
  = if wave_position area beat_progress x <? height area then 1%nat else 0%nat.
Proof.
  intros Hx. rewrite count_lit_column by assumption.
  now rewrite (proj2 (Z.leb_le 0 _) (wave_position_nonneg x)).
Qed.

End LinearWave.

Lemma rect_ok_area_of w h : in_u16 w -> in_u16 h -> rect_ok (area_of w h).
Proof. intros Hw Hh. unfold rect_ok, area_of. cbn [x y width height]. unfold_u8. lia. Qed.

Lemma linear_cell_spec_witness :
  let a := area_of 10 5 in
  let bp := F64.lit 5 10 in
  let s := grid_cell blank (rendered (L := model_libm) a bp (Some (10, 20, 30)))
                     (Z.to_nat 3) (Z.to_nat 2) in
  let '(r, g, b) := wave_color (Some (10, 20, 30)) in
  if 3 =? wave_position (L := model_libm) a bp 2
  then shows full_block (Rgb r g b) s
  else s = blank.
Proof.
  apply (linear_cell_spec (L := model_libm) (area_of 10 5) (F64.lit 5 10) (Some (10, 20, 30)) 3 2);
    cbn [area_of height width]; lia.
Defined.

Lemma linear_one_lit_per_column_witness :
  let a := area_of 10 5 in
  let bp := F64.lit 5 10 in
  count_col lit blank (rendered (L := model_libm) a bp None) (Z.to_nat 4)
  = if wave_position (L := model_libm) a bp 4 <? height a then 1%nat else 0%nat.
Proof.
  apply (linear_one_lit_per_column (L := model_libm) (area_of 10 5) (F64.lit 5 10) None).
  - apply rect_ok_area_of; unfold_u8; lia.
  - cbn [area_of width]. lia.
Defined.
