(* ===== verification/LinearBounds.v ===== *)
(** * The travelling sine line stays inside the area, from five rows on

    For an area of height five or more the row computed for every column is
    a row of the area, whatever the math library's [sin] returns within
    [[-1, 1]]: the centre line is half the height, the amplitude is a fifth
    of it (or 1.5), and the four roundings of the computation cannot carry
    the sum past the last row.  Hence every column shows exactly one lit
    cell.  The bound is sharp: in an area of one to four rows the amplitude
    is 1.5, and every column whose sine [s] satisfies [3 s >= height - 1]
    gets a position below the last row and shows no lit cell. *)

From Stdlib Require Import String ZArith Lia Bool List SpecFloat Rbase Rfunctions Lra.
From S2P Require Import Prelude Ieee Exact Round Real Monotone Libm Widget LinearWave.
Import ListNotations.
#[local] Open Scope Z_scope.

Import Tui Linear.

(** An area the wave fits in: a well-formed rectangle of five rows or more. *)
Definition tall_enough (area : Rect) : Prop := rect_ok area /\ 5 <= height area.

(** An area the wave does not fit in: a well-formed rectangle of one to four
    rows. *)
Definition short_area (area : Rect) : Prop := rect_ok area /\ 1 <= height area <= 4.

(** The sine the code computes for column [x]:
    [(x_pos * 0.2 + wave_phase).sin()]. *)
Definition column_sine {L : Libm} (beat_progress : F64.f64) (x : Z) : F64.f64 :=
  sin (F64.add (F64.mul (F64.of_Z x) c02) (F64.mul beat_progress c005)).

(** The sine [s] carries the wave of amplitude 1.5 from the centre line
    [height / 2] to [height - 1/2] or further: [3 s >= height - 1]. *)
Definition at_crest (area : Rect) (s : F64.f64) : Prop :=
  (IZR (height area) - 1 <= 3 * B2R s)%R.

(** The float [k / 2]. *)
Definition half (k : Z) : F64.f64 := binary_normalize F64.prec F64.emax k (-1) false.

(** ** The computation of one column, step by step *)

Section Column.

Context {L : Libm} {LOk : LibmOk L}.
Variable area : Rect.
Variable beat_progress : F64.f64.
Variable x : Z.

Hypothesis area_ok : rect_ok area.
Hypothesis tall : 5 <= height area.
Hypothesis phase_valid : F64.valid beat_progress = true.
Hypothesis phase_finite : F64.is_finite beat_progress = true.
Hypothesis column : 0 <= x < width area.

#[local] Open Scope R_scope.

Let H := IZR (height area).
Let center_y := F64.div (F64.of_Z (height area)) two.
Let amplitude := F64.max (F64.div (F64.of_Z (height area)) five) c15.
Let angle := F64.add (F64.mul (F64.of_Z x) c02) (F64.mul beat_progress c005).

(** ** The literals *)

Lemma two_R : F64.valid two = true /\ F64.is_finite two = true /\ B2R two = 2%R.
Proof. repeat split. unfold two. float_value. lra. Qed.

Lemma five_R : F64.valid five = true /\ F64.is_finite five = true /\ B2R five = 5%R.
Proof. repeat split. unfold five. float_value. lra. Qed.

Lemma c15_R : F64.valid c15 = true /\ F64.is_finite c15 = true /\ B2R c15 = (3 / 2)%R.
Proof. repeat split. unfold c15. float_value. lra. Qed.

Lemma c02_R : F64.valid c02 = true /\ F64.is_finite c02 = true /\ (0 < B2R c02 < / 4)%R.
Proof. repeat split; unfold c02; float_value; lra. Qed.

Lemma c005_R : F64.valid c005 = true /\ F64.is_finite c005 = true /\ (0 < B2R c005 < / 16)%R.
Proof. repeat split; unfold c005; float_value; lra. Qed.

Lemma height_R :
  F64.valid (F64.of_Z (height area)) = true /\
  F64.is_finite (F64.of_Z (height area)) = true /\
  B2R (F64.of_Z (height area)) = H /\ 5 <= H <= 65535.
Proof.
  destruct area_ok as (_ & _ & _ & Hh). unfold_u8.
  destruct (of_Z_R (height area)) as (V & F & E); [lia|].
  repeat split; try assumption; unfold H; [apply (IZR_le 5)|apply (IZR_le _ 65535)]; lia.
Qed.

Lemma column_R :
  F64.valid (F64.of_Z x) = true /\ F64.is_finite (F64.of_Z x) = true /\
  0 <= B2R (F64.of_Z x) <= 65535.
Proof.
  destruct area_ok as (_ & _ & Hw & _). unfold_u8.
  destruct (of_Z_R x) as (V & F & E); [lia|]. rewrite E.
  repeat split; try assumption; [apply (IZR_le 0)|apply (IZR_le _ 65535)]; lia.
Qed.

(** A quotient of the height by one of the literals [2.0], [5.0]. *)
Lemma quotient_R d k :
  F64.valid d = true /\ F64.is_finite d = true /\ B2R d = IZR k -> (2 <= k <= 5)%Z ->
  let q := F64.div (F64.of_Z (height area)) d in
  F64.valid q = true /\ F64.is_finite q = true /\
  0 <= B2R q <= H / IZR k * (1 + eps) + eta.
Proof.
  intros (Vd & Fd & Ed) Hk q. destruct area_ok as (_ & _ & _ & Hh).
  assert (Hk' : 2 <= IZR k) by (apply (IZR_le 2); lia).
  assert (Sd : F64.has_sign false d).
  { destruct d as [s|s| |[|] m e]; try discriminate; cbn [B2R sgn F64.has_sign] in Ed |- *;
      try reflexivity; try lra.
    pose proof (mag_pos m e). lra. }
  destruct (div_u16_R (height area) d k Hh Vd Fd Sd Ed ltac:(lia)) as (V & F & S & N & Hq).
  fold q in V, F, S, N. repeat split; try assumption; [now apply has_sign_false_R|].
  now apply near_bounds.
Qed.

Lemma center_R :
  F64.valid center_y = true /\ F64.is_finite center_y = true /\
  0 <= B2R center_y <= H / 2 * (1 + eps) + eta.
Proof. apply (quotient_R two 2); [apply two_R|lia]. Qed.

Lemma amplitude_R :
  F64.valid amplitude = true /\ F64.is_finite amplitude = true /\
  3 / 2 <= B2R amplitude /\
  (B2R amplitude = 3 / 2 \/ B2R amplitude <= H / 5 * (1 + eps) + eta).
Proof.
  destruct (quotient_R five 5) as (V & F & Hl & Hu); [apply five_R|lia|].
  destruct c15_R as (Vc & Fc & Ec).
  destruct (max_R _ _ V Vc F Fc) as (Vm & Fm & Em). fold amplitude in Vm, Fm, Em.
  repeat split; try assumption; rewrite Em, Ec.
  - apply Rmax_r.
  - unfold Rmax. destruct (Rle_dec _ _); [now left|right; assumption].
Qed.

(** The argument of the sine is a finite number. *)
Lemma angle_R : F64.valid angle = true /\ F64.is_finite angle = true.
Proof.
  destruct column_R as (Vx & Fx & Hx). destruct c02_R as (V2 & F2 & H2).
  destruct c005_R as (V5 & F5 & H5). destruct bpow_1023_big as (B & E1 & E2).
  destruct eps_eta_tiny as ((? & ?) & (? & ?)).
  destruct (mul_R _ _ Vx V2 Fx F2) as (Va & Ha).
  assert (Hxc : 0 <= B2R (F64.of_Z x) * B2R c02 <= 16384) by nra.
  destruct Ha as (Fa & Na); [rewrite Rabs_pos_eq by lra; lra|].
  apply near_abs in Na. rewrite (Rabs_pos_eq (_ * _)) in Na by lra.
  destruct (mul_R _ _ phase_valid V5 phase_finite F5) as (Vb & Hb).
  pose proof (valid_lt_max _ phase_valid) as Hmax.
  assert (Hp : Rabs (B2R beat_progress * B2R c005) <= bpow 1020).
  { rewrite Rabs_mult, (Rabs_pos_eq (B2R c005)) by lra.
    pose proof (Rabs_pos (B2R beat_progress)). nra. }
  destruct Hb as (Fb & Nb); [lra|]. apply near_abs in Nb.
  destruct (add_R _ _ Va Vb Fa Fb) as (Vs & Hs). fold angle in Vs, Hs.
  split; [assumption|]. apply Hs.
  eapply Rle_lt_trans; [apply Rabs_triang|]. unfold eps in *. lra.
Qed.

Lemma sine_R :
  F64.valid (sin angle) = true /\ F64.is_finite (sin angle) = true /\
  -1 <= B2R (sin angle) <= 1.
Proof.
  destruct angle_R as (Va & Fa). pose proof (sin_valid _ Va) as Vs.
  destruct (sin_range _ Fa) as (Hlo & Hhi).
  destruct (of_Z_R (-1)) as (Vm & Fm & Em); [lia|].
  destruct (of_Z_R 1) as (Vo & Fo & Eo); [lia|].
  destruct (between_R _ _ _ Vm Vs Vo Fm Fo Hlo Hhi) as (Fs & Hs).
  rewrite Em, Eo in Hs. repeat split; try assumption; lra.
Qed.

(** The swing around the centre line is at most the amplitude, up to one
    rounding. *)
Lemma swing_R :
  let t := F64.mul (sin angle) amplitude in
  F64.valid t = true /\ F64.is_finite t = true /\
  Rabs (B2R t) <= B2R amplitude * (1 + eps) + eta.
Proof.
  intros t. destruct sine_R as (Vs & Fs & Hs).
  destruct amplitude_R as (Va & Fa & Hlo & Hup).
  destruct height_R as (_ & _ & _ & Hh). destruct bpow_1023_big as (B & E1 & _).
  destruct eps_eta_tiny as ((? & ?) & (? & ?)).
  assert (Hp : Rabs (B2R (sin angle) * B2R amplitude) <= B2R amplitude).
  { rewrite Rabs_mult, (Rabs_pos_eq (B2R amplitude)) by lra.
    assert (Rabs (B2R (sin angle)) <= 1) by (apply Rabs_le; lra).
    pose proof (Rabs_pos (B2R (sin angle))). nra. }
  destruct (mul_R _ _ Vs Va Fs Fa) as (Vt & Ht). fold t in Vt, Ht.
  destruct Ht as (Ft & Nt); [destruct Hup; nra|].
  apply near_abs in Nt. repeat split; try assumption. nra.
Qed.

(** The value rounded to a row lies below the last row's upper half. *)
Lemma wave_y_R :
  F64.valid (wave_y area beat_progress x) = true /\
  F64.is_finite (wave_y area beat_progress x) = true /\
  B2R (wave_y area beat_progress x) < H - / 2.
Proof.
  destruct center_R as (Vc & Fc & Hc0 & Hc). destruct swing_R as (Vt & Ft & Ht).
  destruct amplitude_R as (_ & _ & Hlo & Hup).
  destruct height_R as (_ & _ & _ & Hh). destruct bpow_1023_big as (B & E1 & _).
  destruct eps_eta_tiny as ((? & ?) & (? & ?)).
  destruct (add_R _ _ Vc Vt Fc Ft) as (Vy & Hy).
  change (F64.add _ _) with (wave_y area beat_progress x) in Vy, Hy.
  apply abs_le_inv in Ht.
  assert (Hs : Rabs (B2R center_y + B2R (F64.mul (sin angle) amplitude))
               <= B2R center_y + (B2R amplitude * (1 + eps) + eta)).
  { apply Rabs_le. nra. }
  destruct Hy as (Fy & Ny); [destruct Hup; nra|].
  apply near_abs in Ny. apply abs_le_inv in Ny.
  repeat split; try assumption. destruct Hup; nra.
Qed.

End Column.

(** ** The wave stays inside the area *)

Section InArea.

Context {L : Libm} {LOk : LibmOk L}.
Variable area : Rect.
Variable beat_progress : F64.f64.

Hypothesis tall : tall_enough area.
Hypothesis phase_valid : F64.valid beat_progress = true.
Hypothesis phase_finite : F64.is_finite beat_progress = true.

Lemma wave_position_lt x :
  0 <= x < width area -> wave_position area beat_progress x < height area.
Proof.
  intros Hx.
  destruct tall as [area_ok Hh].
  destruct (wave_y_R area beat_progress x area_ok Hh phase_valid phase_finite Hx)
    as (V & F & Hy).
  enough (wave_position area beat_progress x <= height area - 1) by lia.
  apply round_cast_le; [assumption|assumption|lia|].
  rewrite minus_IZR. lra.
Qed.

(** In an area of five rows or more every column of the rendered grid
    holds exactly one lit cell, whatever the beat phase and the album
    colour: the line is never interrupted. *)
Theorem linear_line_unbroken album_color x :
  0 <= x < width area ->
  count_col lit blank (rendered area beat_progress album_color) (Z.to_nat x) = 1%nat.
Proof.
  intros Hx. rewrite count_lit_column by (assumption || apply tall).
  pose proof (wave_position_nonneg area beat_progress x).
  pose proof (wave_position_lt x Hx).
  rewrite (proj2 (Z.leb_le 0 _)), (proj2 (Z.ltb_lt _ _)) by lia. reflexivity.
Qed.

End InArea.

(** ** Areas of fewer than five rows *)

Lemma half_R k :
  Z.abs k < 2 ^ 53 ->
  F64.valid (half k) = true /\ F64.is_finite (half k) = true /\ (B2R (half k) = IZR k / 2)%R.
Proof.
  intros Hk. destruct (normalize_exact_at k (-1) false Hk) as (V & F & E);
    [split; [apply Z.leb_le; reflexivity|lia]|].
  repeat split; try assumption. unfold half. rewrite E.
  change (-1)%Z with (- (1))%Z. now rewrite bpow_opp, bpow_1.
Qed.

(** With one to four rows the centre line is exact and the amplitude is the
    literal 1.5. *)
Lemma short_parts h :
  1 <= h <= 4 ->
  F64.div (F64.of_Z h) two = half h /\ F64.max (F64.div (F64.of_Z h) five) c15 = c15.
Proof.
  intros Hh. assert (E : h = 1 \/ h = 2 \/ h = 3 \/ h = 4) by lia.
  destruct E as [->|[->|[->| ->]]]; split; vm_compute; reflexivity.
Qed.

Section Short.

Context {L : Libm} {LOk : LibmOk L}.
Variable area : Rect.
Variable beat_progress : F64.f64.
Variable x : Z.

Hypothesis short : short_area area.
Hypothesis phase_valid : F64.valid beat_progress = true.
Hypothesis phase_finite : F64.is_finite beat_progress = true.
Hypothesis column : 0 <= x < width area.
Hypothesis crest : at_crest area (column_sine beat_progress x).

#[local] Open Scope R_scope.

(** The swing [sin * amplitude] is a float between [(height - 1) / 2] and
    [1.5]: the product is rounded once, and rounding is monotone. *)
Lemma swing_short :
  let t := F64.mul (column_sine beat_progress x) c15 in
  F64.valid t = true /\ F64.is_finite t = true /\
  IZR (height area - 1) / 2 <= B2R t <= 3 / 2.
Proof.
  intros t. destruct short as [area_ok Hh].
  destruct (sine_R area beat_progress x area_ok phase_valid phase_finite column) as (Vs & Fs & Hs).
  change (sin _) with (column_sine beat_progress x) in Vs, Fs, Hs.
  destruct c15_R as (Vc & Fc & Ec).
  destruct (half_R (height area - 1)) as (Vl & Fl & El); [lia|].
  destruct (mul_R _ _ Vs Vc Fs Fc) as [Vt _]. fold t in Vt.
  destruct (mul_between (column_sine beat_progress x) c15 (half (height area - 1)) c15
              Vs Vc Fs Fc) as [Ft Ht].
  { unfold at_crest in crest. repeat split; try assumption; rewrite ?El, Ec, ?minus_IZR; lra. }
  fold t in Ft, Ht. rewrite El, Ec in Ht. auto.
Qed.

(** The value rounded to a row is at least [height - 1/2]. *)
Lemma wave_y_short :
  F64.valid (wave_y area beat_progress x) = true /\
  F64.is_finite (wave_y area beat_progress x) = true /\
  IZR (height area) - / 2 <= B2R (wave_y area beat_progress x).
Proof.
  destruct swing_short as (Vt & Ft & Ht). destruct short as [area_ok Hh].
  unfold wave_y. cbv zeta. destruct (short_parts (height area) Hh) as [-> ->].
  fold (column_sine beat_progress x).
  set (t := F64.mul (column_sine beat_progress x) c15) in *.
  destruct (half_R (height area)) as (Vc & Fc & Ec); [lia|].
  destruct (half_R (2 * height area - 1)) as (Vl & Fl & El); [lia|].
  destruct (half_R (height area + 3)) as (Vh & Fh & Eh); [lia|].
  rewrite minus_IZR in Ht. rewrite minus_IZR, mult_IZR in El. rewrite plus_IZR in Eh.
  destruct (add_R _ _ Vc Vt Fc Ft) as [Vy _].
  destruct (add_between (half (height area)) t (half (2 * height area - 1))
              (half (height area + 3)) Vc Vt Fc Ft) as [Fy Hy].
  { repeat split; try assumption; rewrite ?El, ?Eh, Ec; lra. }
  rewrite El in Hy. repeat split; try assumption. lra.
Qed.

Lemma wave_position_short : (height area <= wave_position area beat_progress x)%Z.
Proof.
  destruct wave_y_short as (V & F & Hy). destruct short as [_ Hh].
  apply round_cast_ge; try assumption. unfold_u8. lia.
Qed.

End Short.

(** C39. The bound of five rows is sharp.  In an area of one to four rows the
    amplitude is 1.5, and in every column whose sine [s] satisfies
    [3 s >= height - 1] (any non-negative sine for one row, a sine of 1.0
    for four) the position computed is at least [height], a row below the
    area: the column shows no lit cell, for every finite beat phase, album
    colour and math library whose sine stays within [[-1, 1]]. *)
Theorem linear_wave_leaves_short_area {L : Libm} {LOk : LibmOk L}
    area beat_progress album_color x :
  short_area area ->
  F64.valid beat_progress = true -> F64.is_finite beat_progress = true ->
  0 <= x < width area ->
  at_crest area (column_sine beat_progress x) ->
  height area <= wave_position area beat_progress x /\
  count_col lit blank (rendered area beat_progress album_color) (Z.to_nat x) = 0%nat.
Proof.
  intros Hs Hv Hf Hx Hc.
  pose proof (wave_position_short area beat_progress x Hs Hv Hf Hx Hc) as Hp.
  split; [assumption|]. rewrite count_lit_column by (assumption || apply Hs).
  now rewrite (proj2 (Z.ltb_ge _ _) Hp), andb_false_r.
Qed.

Lemma linear_wave_leaves_short_area_witness :
  3 <= wave_position (L := model_libm) (area_of 10 3) (F64.lit 5 10) 4 /\
  count_col lit blank (rendered (L := model_libm) (area_of 10 3) (F64.lit 5 10) None)
            (Z.to_nat 4) = 0%nat.
Proof.
  apply (linear_wave_leaves_short_area (L := model_libm) (LOk := model_libm_ok)
           (area_of 10 3) (F64.lit 5 10) None 4).
  - split; [apply rect_ok_area_of; unfold_u8; lia | cbn [area_of height]; lia].
  - reflexivity.
  - reflexivity.
  - cbn [area_of width]. lia.
  - unfold at_crest. cbn [area_of height].
    set (s := column_sine _ _). vm_compute in s. subst s. float_value. lra.
Defined.

(** C18. In an area of five rows or more, for every finite beat phase and
    every math library whose sine stays within [[-1, 1]], the row computed
    for each column is a row of the area: the index the cell loop compares
    the row number with is never out of the grid. *)
Theorem linear_wave_in_area {L : Libm} {LOk : LibmOk L} area beat_progress x :
  tall_enough area ->
  F64.valid beat_progress = true -> F64.is_finite beat_progress = true ->
  0 <= x < width area ->
  0 <= wave_position area beat_progress x < height area.
Proof.
  intros Ht Hv Hf Hx. split; [apply wave_position_nonneg | now apply wave_position_lt].
Qed.

Lemma linear_wave_in_area_witness :
  0 <= wave_position (L := model_libm) (area_of 10 5) (F64.lit 5 10) 4 < 5.
Proof.
  apply (linear_wave_in_area (L := model_libm) (LOk := model_libm_ok)
           (area_of 10 5) (F64.lit 5 10)).
  - split; [apply rect_ok_area_of; unfold_u8; lia | cbn [area_of height]; lia].
  - reflexivity.
  - reflexivity.
  - cbn [area_of width]. lia.
Defined.

Lemma linear_line_unbroken_witness :
  count_col lit blank (rendered (L := model_libm) (area_of 80 24) (F64.lit 25 100) None)
            (Z.to_nat 79) = 1%nat.
Proof.
  apply (linear_line_unbroken (L := model_libm) (LOk := model_libm_ok)
           (area_of 80 24) (F64.lit 25 100)).
  - split; [apply rect_ok_area_of; unfold_u8; lia | cbn [area_of height]; lia].
  - reflexivity.
  - reflexivity.
  - cbn [area_of width]. lia.
Defined.
