(* ===== verification/App.v ===== *)
(** * The demo's application state ([waveform_test/src/main.rs])

    [App] holds the index of the colour scheme, the start instant and the
    simulated tempo.  The four handlers change it; [color_scheme] and
    [color_scheme_name] read it.  [step] is the transition relation of the
    handlers and [app_ok] the invariant of the states reachable from [new]. *)

From Stdlib Require Import String ZArith Lia Bool List SpecFloat.
From S2P Require Import Prelude Ieee.
Import ListNotations.
#[local] Open Scope Z_scope.

Module Demo.

(** The demo's own [ColorScheme] (no [Custom]). *)
Inductive ColorScheme : Type :=
| Cyan
| Warm
| Purple
| Green
| Sunset
| Ocean.

(** An [Instant], in nanoseconds of the monotonic clock. *)
Definition Instant : Type := Z.

Record App : Type := {
  current_color_scheme : Z;
  start_time : Instant;
  simulated_bpm : F64.f64
}.

(** The literals [120.0], [10.0], [200.0] and [60.0]. *)
Definition c120 : F64.f64 := Eval vm_compute in F64.of_Z 120.
Definition c10 : F64.f64 := Eval vm_compute in F64.of_Z 10.
Definition c200 : F64.f64 := Eval vm_compute in F64.of_Z 200.
Definition c60 : F64.f64 := Eval vm_compute in F64.of_Z 60.

(** [App::new()], given the instant [Instant::now()] returns. *)
Definition new (now : Instant) : App :=
  {| current_color_scheme := 0; start_time := now; simulated_bpm := c120 |}.

(** [(self.current_color_scheme + 1) % 6] in [usize]. *)
Definition next_color (app : App) : App :=
  {| current_color_scheme := wrap 64 (current_color_scheme app + 1) mod 6;
     start_time := start_time app;
     simulated_bpm := simulated_bpm app |}.

Definition prev_color (app : App) : App :=
  {| current_color_scheme :=
       if current_color_scheme app =? 0 then 5
       else wrap 64 (current_color_scheme app - 1);
     start_time := start_time app;
     simulated_bpm := simulated_bpm app |}.

(** [(self.simulated_bpm + 10.0).min(200.0)]. *)
Definition increase_bpm (app : App) : App :=
  {| current_color_scheme := current_color_scheme app;
     start_time := start_time app;
     simulated_bpm := F64.min (F64.add (simulated_bpm app) c10) c200 |}.

(** [(self.simulated_bpm - 10.0).max(60.0)]. *)
Definition decrease_bpm (app : App) : App :=
  {| current_color_scheme := current_color_scheme app;
     start_time := start_time app;
     simulated_bpm := F64.max (F64.sub (simulated_bpm app) c10) c60 |}.

Definition color_scheme (app : App) : ColorScheme :=
  match current_color_scheme app with
  | 0 => Cyan
  | 1 => Warm
  | 2 => Purple
  | 3 => Green
  | 4 => Sunset
  | _ => Ocean
  end.

Definition color_scheme_name (app : App) : string :=
  match color_scheme app with
  | Cyan => "Cyan (Default)"
  | Warm => "Warm (Orange/Red)"
  | Purple => "Purple/Magenta"
  | Green => "Green/Emerald"
  | Sunset => "Sunset Gradient"
  | Ocean => "Ocean (Deep Blue)"
  end.

(** ** Keys *)

(** [KeyCode], with the variants the loop distinguishes. *)
Inductive KeyCode : Type :=
| Char (c : Z)
| Right
| Left
| Up
| Down
| OtherKey.

Definition char_q : Z := 113.
Definition char_n : Z := 110.
Definition char_p : Z := 112.

(** The [match key.code] of the loop: [None] is [break]. *)
Definition handle_key (app : App) (code : KeyCode) : option App :=
  match code with
  | Char c =>
      if c =? char_q then None
      else if c =? char_n then Some (next_color app)
      else if c =? char_p then Some (prev_color app)
      else Some app
  | Right => Some (next_color app)
  | Left => Some (prev_color app)
  | Up => Some (increase_bpm app)
  | Down => Some (decrease_bpm app)
  | OtherKey => Some app
  end.

(** ** Invariant and transitions *)

(** The tempi the handlers can reach from 120: 60, 70, ..., 200. *)
Definition bpm_values : list F64.f64 := map (fun k => F64.of_Z (60 + 10 * k)) (zrange 15).

Definition is_bpm (b : F64.f64) : bool := existsb (F64.same b) bpm_values.

Definition app_ok (app : App) : Prop :=
  0 <= current_color_scheme app < 6 /\ is_bpm (simulated_bpm app) = true.

(** One handler call. *)
Inductive step : App -> App -> Prop :=
| step_next app : step app (next_color app)
| step_prev app : step app (prev_color app)
| step_up app : step app (increase_bpm app)
| step_down app : step app (decrease_bpm app).

(** The states reachable from a fresh [App] by handler calls. *)
Inductive reachable : App -> Prop :=
| reach_new now : reachable (new now)
| reach_step app app' : reachable app -> step app app' -> reachable app'.

(** The scheme an index selects, as a list lookup. *)
Definition schemes : list ColorScheme := [Cyan; Warm; Purple; Green; Sunset; Ocean].

End Demo.

Import Demo.

(** ** The tempo *)

Lemma is_bpm_In b : is_bpm b = true <-> In b bpm_values.
Proof.
  unfold is_bpm. rewrite existsb_exists. split.
  - intros (y & Hy & E). apply same_spec in E. now subst.
  - intros H. exists b. split; [assumption | now apply same_spec].
Qed.

Lemma bpm_step_enum :
  forallb (fun b => is_bpm (F64.min (F64.add b c10) c200)
                    && is_bpm (F64.max (F64.sub b c10) c60)) bpm_values = true.
Proof. vm_compute. reflexivity. Qed.

Lemma bpm_step b :
  is_bpm b = true ->
  is_bpm (F64.min (F64.add b c10) c200) = true /\ is_bpm (F64.max (F64.sub b c10) c60) = true.
Proof.
  intros H. apply is_bpm_In in H.
  pose proof (proj1 (forallb_forall _ _) bpm_step_enum b H) as E.
  now apply andb_true_iff in E.
Qed.

(** ** Handlers preserve the invariant *)

Lemma new_ok now : app_ok (new now).
Proof. split; [cbn; lia | reflexivity]. Qed.

Lemma next_color_ok app : app_ok app -> app_ok (next_color app).
Proof.
  intros [Hc Hb]. split; [|exact Hb]. cbn [next_color current_color_scheme].
  apply Z.mod_pos_bound. lia.
Qed.

Lemma prev_color_ok app : app_ok app -> app_ok (prev_color app).
Proof.
  intros [Hc Hb]. split; [|exact Hb]. cbn [prev_color current_color_scheme].
  destruct (Z.eqb_spec (current_color_scheme app) 0); [lia|].
  rewrite wrap_small; lia.
Qed.

Lemma increase_bpm_ok app : app_ok app -> app_ok (increase_bpm app).
Proof. intros [Hc Hb]. split; [exact Hc|]. now apply bpm_step. Qed.

Lemma decrease_bpm_ok app : app_ok app -> app_ok (decrease_bpm app).
Proof. intros [Hc Hb]. split; [exact Hc|]. now apply bpm_step. Qed.

Lemma step_ok app app' : step app app' -> app_ok app -> app_ok app'.
Proof.
  destruct 1; auto using next_color_ok, prev_color_ok, increase_bpm_ok, decrease_bpm_ok.
Qed.

Lemma handle_key_ok app code app' :
  handle_key app code = Some app' -> app_ok app -> app_ok app'.
Proof.
  intros H Hok. destruct code; cbn [handle_key] in H;
    repeat match type of H with context [if ?b then _ else _] => destruct b end;
    inversion H; subst; auto using next_color_ok, prev_color_ok, increase_bpm_ok, decrease_bpm_ok.
Qed.

#[export] Hint Resolve new_ok next_color_ok prev_color_ok increase_bpm_ok decrease_bpm_ok : viz.

(** ** Properties *)

(** The two halves of the invariant along the handler calls. *)
Lemma reachable_index app : reachable app -> 0 <= current_color_scheme app < 6.
Proof. intros H. enough (app_ok app) as [Hc _] by exact Hc. induction H; eauto using new_ok, step_ok. Qed.

Lemma reachable_bpm app : reachable app -> is_bpm (simulated_bpm app) = true.
Proof. intros H. enough (app_ok app) as [_ Hb] by exact Hb. induction H; eauto using new_ok, step_ok. Qed.

(** C6. In every state reachable from [App::new()] by the four handlers the
    scheme index is below six and the tempo is one of the fifteen floats 60,
    70, ..., 200: the index arithmetic never wraps and the clamps hold the
    tempo within [60, 200]. *)
Theorem reachable_ok app : reachable app -> app_ok app.
Proof. intros H. split; [now apply reachable_index | now apply reachable_bpm]. Qed.

Lemma reachable_ok_witness : app_ok (increase_bpm (prev_color (new 0))).
Proof.
  apply reachable_ok.
  eapply reach_step; [eapply reach_step; [apply (reach_new 0) | apply step_prev] | apply step_up].
Defined.

(** On a state that satisfies the invariant, [next_color] and
    [prev_color] undo each other: the scheme index cycles through 0..5 in both
    directions. *)
Theorem next_prev_inverse app :
  app_ok app ->
  prev_color (next_color app) = app /\ next_color (prev_color app) = app.
Proof.
  intros [Hc _]. destruct app as [c t b]. cbn [current_color_scheme] in Hc.
  unfold next_color, prev_color. cbn [current_color_scheme start_time simulated_bpm].
  assert (Hcases : c = 0 \/ c = 1 \/ c = 2 \/ c = 3 \/ c = 4 \/ c = 5) by lia.
  split; f_equal; destruct Hcases as [->|[->|[->|[->|[->| ->]]]]]; reflexivity.
Qed.

Lemma next_prev_inverse_witness :
  prev_color (next_color (new 7)) = new 7 /\ next_color (prev_color (new 7)) = new 7.
Proof. apply next_prev_inverse. apply new_ok. Defined.

Lemma color_scheme_last app : 5 <= current_color_scheme app -> color_scheme app = Ocean.
Proof.
  unfold color_scheme. destruct (current_color_scheme app) as [|p|p]; try lia.
  destruct p as [[[?|?|]|[?|?|]|]|[[?|?|]|[?|?|]|]|]; try reflexivity; lia.
Qed.

(** [color_scheme] selects the entry of the list Cyan, Warm, Purple,
    Green, Sunset, Ocean at the scheme index, for every index below six; an
    index of six or more (which no reachable state has) falls into the last
    arm, Ocean. *)
Theorem color_scheme_lookup app :
  0 <= current_color_scheme app ->
  color_scheme app = nth (Z.to_nat (current_color_scheme app)) schemes Ocean.
Proof.
  intros Hc.
  destruct (Z.le_gt_cases 5 (current_color_scheme app)) as [H5|H5].
  - rewrite color_scheme_last by assumption.
    destruct (Z.eq_dec (current_color_scheme app) 5) as [->|]; [reflexivity|].
    symmetry. apply nth_overflow. cbn [length schemes]. lia.
  - unfold color_scheme.
    assert (Hcases : current_color_scheme app = 0 \/ current_color_scheme app = 1 \/
                     current_color_scheme app = 2 \/ current_color_scheme app = 3 \/
                     current_color_scheme app = 4) by lia.
    destruct Hcases as [->|[->|[->|[->| ->]]]]; reflexivity.
Qed.

Lemma color_scheme_lookup_witness :
  color_scheme (next_color (next_color (new 0))) = Purple.
Proof.
  apply (color_scheme_lookup (next_color (next_color (new 0)))).
  cbn. lia.
Defined.
