(* ===== verification/RadialWave.v ===== *)
(** * The expanding rings: [render_concentric_waves] of [waveform_test/src/main.rs]

    For every cell the demo computes the distance to the centre of the area
    (rows count double), subtracts the distance the wave front has travelled in
    this beat, takes the remainder by 5 and turns it into an intensity; four
    thresholds select the glyph and the tier passed to the demo's own copy of
    [get_color_for_scheme]. *)

From Stdlib Require Import String ZArith Lia Bool List SpecFloat.
From S2P Require Import Prelude Ieee Exact Color Widget BeatClock App.
Import ListNotations.
#[local] Open Scope Z_scope.

Module Radial.

Import Tui Demo.

(** The literals of the function. *)
Definition two : F64.f64 := Eval vm_compute in F64.of_Z 2.
Definition five : F64.f64 := Eval vm_compute in F64.of_Z 5.
Definition fifteen : F64.f64 := Eval vm_compute in F64.of_Z 15.
Definition one : F64.f64 := Eval vm_compute in F64.of_Z 1.
Definition c07 : F64.f64 := Eval vm_compute in F64.lit 7 10.
Definition c05 : F64.f64 := Eval vm_compute in F64.lit 5 10.
Definition c03 : F64.f64 := Eval vm_compute in F64.lit 3 10.
Definition c015 : F64.f64 := Eval vm_compute in F64.lit 15 100.
Definition nanos_per_sec : Z := 1000000000.

(** [Instant::elapsed]: the time since [start], never negative. *)
Definition elapsed (start now : Instant) : Z := Z.max 0 (now - start).

(** [Duration::as_secs_f64]: whole seconds plus nanoseconds over 10^9. *)
Definition as_secs_f64 (d : Z) : F64.f64 :=
  F64.add (F64.of_Z (d / nanos_per_sec))
          (F64.div (F64.of_Z (d mod nanos_per_sec)) (F64.of_Z nanos_per_sec)).

(** The demo's copy of the resolver: the six built-in arms. *)
Definition get_color_for_scheme (scheme : ColorScheme) (intensity : F64.f64)
  (level : Z) : Color :=
  match scheme with
  | Cyan =>
      Scheme.shade (Scheme.tier (0, 255, 255) (0, 200, 255) (0, 150, 200) (0, 100, 150) level)
                   intensity
  | Warm =>
      Scheme.shade (Scheme.tier (255, 100, 0) (255, 150, 50) (200, 100, 0) (150, 70, 0) level)
                   intensity
  | Purple =>
      Scheme.shade (Scheme.tier (200, 50, 255) (180, 80, 230) (150, 50, 200) (100, 30, 150) level)
                   intensity
  | Green =>
      Scheme.shade (Scheme.tier (50, 255, 150) (50, 220, 120) (30, 180, 100) (20, 120, 70) level)
                   intensity
  | Sunset =>
      Scheme.shade (Scheme.tier (255, 100, 150) (255, 150, 100) (200, 100, 100) (150, 70, 80) level)
                   intensity
  | Ocean =>
      Scheme.shade (Scheme.tier (0, 150, 255) (20, 120, 220) (10, 80, 180) (5, 50, 120) level)
                   intensity
  end.

(** The centre of the area and the distance the wave front has travelled. *)
Definition center_x (area : Rect) : F64.f64 := F64.div (F64.of_Z (width area)) two.
Definition center_y (area : Rect) : F64.f64 := F64.div (F64.of_Z (height area)) two.
Definition wave_offset (beat_progress : F64.f64) : F64.f64 := F64.mul beat_progress fifteen.

(** The offsets of a cell from the centre (rows count double) and its
    distance to it: [(dx * dx + dy * dy).sqrt()]. *)
Definition dx (area : Rect) (x : Z) : F64.f64 := F64.sub (F64.of_Z x) (center_x area).
Definition dy (area : Rect) (y : Z) : F64.f64 :=
  F64.mul (F64.sub (F64.of_Z y) (center_y area)) two.
Definition dist (area : Rect) (y x : Z) : F64.f64 :=
  F64.sqrt (F64.add (F64.mul (dx area x) (dx area x)) (F64.mul (dy area y) (dy area y))).

(** [(dist - wave_offset) % 5.0] for the cell of row [y] and column [x]. *)
Definition wave_phase (area : Rect) (beat_progress : F64.f64) (y x : Z) : F64.f64 :=
  F64.rem (F64.sub (dist area y x) (wave_offset beat_progress)) five.

(** [if wave_phase < 1.0 { 1.0 - wave_phase } else { 0.0 }]. *)
Definition intensity_of (wave_phase : F64.f64) : F64.f64 :=
  if F64.ltb wave_phase one then F64.sub one wave_phase else F64.zero.

Definition intensity_at (area : Rect) (beat_progress : F64.f64) (y x : Z) : F64.f64 :=
  intensity_of (wave_phase area beat_progress y x).

(** The chain of thresholds: glyph and colour of a cell of that intensity. *)
Definition glyph_color (scheme : ColorScheme) (intensity : F64.f64) : char * Color :=
  if F64.gtb intensity c07 then (black_circle, get_color_for_scheme scheme intensity 0)
  else if F64.gtb intensity c05 then (fisheye, get_color_for_scheme scheme intensity 1)
  else if F64.gtb intensity c03 then (white_circle, get_color_for_scheme scheme intensity 2)
  else if F64.gtb intensity c015 then (middle_dot, get_color_for_scheme scheme intensity 3)
  else (space, Black).

Definition cell (scheme : ColorScheme) (area : Rect) (beat_progress : F64.f64)
  (y x : Z) : Span :=
  let '(char, color) := glyph_color scheme (intensity_at area beat_progress y x) in
  Span_styled (to_string char) (Style_fg Style_default color).

(** The nested loops: the lines of the paragraph. *)
Definition lines (scheme : ColorScheme) (area : Rect) (beat_progress : F64.f64) : list Line :=
  collect (Z.to_nat (height area))
          (fun y => collect (Z.to_nat (width area)) (cell scheme area beat_progress y)).

(** [render_concentric_waves(f, app, area)], given the instant the clock shows. *)
Definition render_concentric_waves (f : Frame) (app : App) (area : Rect)
  (now : Instant) : Frame :=
  let elapsed := as_secs_f64 (elapsed (start_time app) now) in
  let beat_progress := BeatClock.beat_progress elapsed (simulated_bpm app) in
  let text := lines (color_scheme app) area beat_progress in
  let widget :=
    with_block (Paragraph_new text)
               {| borders := ALL; title := "Concentric Waves"%string |} in
  render_widget f widget area.

(** The demo's scheme as a scheme of the player's resolver. *)
Definition embed (scheme : ColorScheme) : Scheme.ColorScheme :=
  match scheme with
  | Cyan => Scheme.Cyan
  | Warm => Scheme.Warm
  | Purple => Scheme.Purple
  | Green => Scheme.Green
  | Sunset => Scheme.Sunset
  | Ocean => Scheme.Ocean
  end.

(** The band of an intensity: the tier of a lit cell, or [None] for a blank. *)
Definition band (intensity : F64.f64) : option Z :=
  if F64.gtb intensity c07 then Some 0
  else if F64.gtb intensity c05 then Some 1
  else if F64.gtb intensity c03 then Some 2
  else if F64.gtb intensity c015 then Some 3
  else None.

(** The glyph of a tier. *)
Definition glyph_of (level : Z) : char :=
  match level with
  | 0 => black_circle
  | 1 => fisheye
  | 2 => white_circle
  | _ => middle_dot
  end.

End Radial.

Import Tui Demo Radial.

Lemma radial_grid scheme area bp :
  lines scheme area bp
  = grid_by_index (Z.to_nat (height area)) (Z.to_nat (width area)) (cell scheme area bp).
Proof. apply collect_grid. Qed.

Lemma glyph_color_band scheme i :
  glyph_color scheme i =
  match band i with
  | Some level => (glyph_of level, get_color_for_scheme scheme i level)
  | None => (space, Black)
  end.
Proof.
  unfold glyph_color, band.
  repeat match goal with |- context [if ?b then _ else _] => destruct b end; reflexivity.
Qed.

Lemma demo_color_ok scheme i level : color_ok (get_color_for_scheme scheme i level).
Proof. destruct scheme; apply shade_ok. Qed.

(** C27. The demo's copy of the resolver and the player's resolver agree: for
    every built-in scheme, intensity and level the demo's function returns
    what [get_color_for_scheme] of [ui/visualizations.rs] returns without an
    album colour. *)
Theorem demo_resolver_agrees scheme intensity level :
  Radial.get_color_for_scheme scheme intensity level
  = Scheme.get_color_for_scheme (embed scheme) intensity level None.
Proof. now destruct scheme. Qed.

(** The rendered paragraph has [height] lines of [width] spans; the
    frame receives exactly one more widget, bordered and titled, for the area
    it was asked to fill. *)
Theorem radial_render_shape f app area now :
  exists text,
    render_concentric_waves f app area now
    = f ++ [({| text := text;
                block := Some {| borders := ALL; title := "Concentric Waves"%string |} |}, area)]
    /\ length text = Z.to_nat (height area)
    /\ Forall (fun line => length line = Z.to_nat (width area)) text.
Proof.
  eexists. split; [reflexivity|]. rewrite radial_grid.
  split; [apply length_grid_by_index | apply grid_by_index_rows].
Qed.

(** C26. Every cell is blank (a black space) when its intensity is in no
    band, and otherwise shows the glyph of its band in the colour the resolver
    returns for the band's tier, each channel of which is a [u8]; an intensity
    that is NaN is in no band. *)
Theorem radial_cell_spec scheme area bp y x :
  let i := intensity_at area bp y x in
  match band i with
  | Some level =>
      0 <= level <= 3 /\
      shows (glyph_of level) (get_color_for_scheme scheme i level) (cell scheme area bp y x) /\
      color_ok (get_color_for_scheme scheme i level)
  | None => cell scheme area bp y x = blank
  end /\ (F64.is_nan i = true -> band i = None).
Proof.
  cbv zeta. split.
  - unfold cell. rewrite glyph_color_band.
    destruct (band (intensity_at area bp y x)) as [level|] eqn:E; [|reflexivity].
    split; [|split; [now split | apply demo_color_ok]].
    unfold band in E.
    repeat match type of E with context [if ?b then _ else _] => destruct b end;
      inversion E; lia.
  - now destruct (intensity_at area bp y x).
Qed.

(** The remainder keeps the sign of its dividend, so inside the wave
    front the phase is negative and the intensity exceeds one: in an area of
    20 by 10 at beat phase 0.5 the centre cell has phase -2.5 and intensity
    3.5, and is drawn as a solid disc in the fully saturated tier-0 colour. *)
Theorem radial_intensity_exceeds_one :
  let area := {| x := 0; y := 0; width := 20; height := 10 |} in
  let bp := F64.lit 5 10 in
  wave_phase area bp 5 10 = F64.lit (-25) 10 /\
  intensity_at area bp 5 10 = F64.lit 35 10 /\
  cell Cyan area bp 5 10
  = Span_styled (to_string black_circle) (Style_fg Style_default (Rgb 0 255 255)).
Proof. cbv zeta. repeat split; vm_compute; reflexivity. Qed.
