(* ===== verification/ClockBounds.v ===== *)
(** * The beat phase of every frame of the demo

    The demo computes the phase from the clock and the tempo of its state:
    [(start_time.elapsed().as_secs_f64() * simulated_bpm / 60.0) % 1.0].  For
    every state the handlers can reach the tempo is one of 60, 70, ..., 200,
    and a [Duration] holds at most [2^64] seconds, so the number of beats is a
    finite non-negative float and the phase lies in [[0, 1)]: the NaN phase of
    an overflowing product cannot occur in the demo.  The number of beats is
    the exact quotient [elapsed * bpm / 60] up to the two roundings of the
    product and the division, and the phase is what is left of it after
    whole beats are taken away. *)

From Stdlib Require Import String ZArith Lia Bool List SpecFloat Rbase Rfunctions Lra.
From S2P Require Import Prelude Ieee Exact Round Real RemSqrt Widget BeatClock App RadialWave.
Import ListNotations.
#[local] Open Scope Z_scope.

Import Tui Demo Radial BeatClock.

(** A [Duration] in nanoseconds: [u64] seconds and less than a second of
    nanoseconds. *)
Definition duration_ok (d : Z) : Prop := 0 <= d < 2 ^ 64 * nanos_per_sec.

(** A well-formed finite float that does not carry the sign bit. *)
Definition nonneg (f : F64.f64) : Prop :=
  F64.valid f = true /\ F64.is_finite f = true /\ F64.has_sign false f.

(** A time since start-up as the demo can read it: a non-negative float of
    at most [2^66] seconds. *)
Definition uptime (e : F64.f64) : Prop :=
  nonneg e /\ (B2R e <= 73786976294838206464)%R.

(** A tempo of the demo's range: a non-negative float between 60 and 200. *)
Definition tempo (b : F64.f64) : Prop :=
  nonneg b /\ (60 <= B2R b <= 200)%R.

(** The largest distance of the computed number of beats from the exact
    quotient [x]: two relative roundings and two absolute ones. *)
Definition beats_error (x : R) : R := (3 * eps * x + 2 * eta)%R.

#[local] Open Scope R_scope.

Lemma nonneg_R f : nonneg f -> 0 <= B2R f.
Proof. intros (_ & _ & S). now apply has_sign_false_R. Qed.

(** An unsigned 64-bit integer converts to a non-negative float of at most
    [2^65]. *)
Lemma of_Z_nonneg n :
  (0 <= n < 2 ^ 64)%Z -> nonneg (F64.of_Z n) /\ B2R (F64.of_Z n) <= 36893488147419103232.
Proof.
  intros Hn. destruct (of_Z_near n) as (V & H).
  assert (Hr : 0 <= IZR n <= 18446744073709551616).
  { split; [apply (IZR_le 0)|apply (IZR_le _ (2 ^ 64))]; lia. }
  pose proof bpow_1023_lower. destruct H as (F & N); [rewrite Rabs_pos_eq; lra|].
  apply near_bounds in N; [|lra]. pose proof eta_small. unfold eps in N.
  split; [|lra]. repeat split; try assumption. apply of_Z_sign. lia.
Qed.

Lemma duration_parts d :
  duration_ok d ->
  (0 <= d / nanos_per_sec < 2 ^ 64)%Z /\ (0 <= d mod nanos_per_sec < 1000000000)%Z.
Proof.
  unfold duration_ok, nanos_per_sec. intros Hd. split; [|apply Z.mod_pos_bound; lia].
  split; [apply Z.div_pos; lia | apply Z.div_lt_upper_bound; lia].
Qed.

(** The fraction of a second: [nanos as f64 / 1e9]. *)
Lemma subsec_R n :
  (0 <= n < 1000000000)%Z ->
  let q := F64.div (F64.of_Z n) (F64.of_Z nanos_per_sec) in
  nonneg q /\ B2R q <= 2.
Proof.
  intros Hn. unfold nanos_per_sec. cbv zeta. set (q := F64.div _ _).
  destruct (of_Z_R n) as (Vn & Fn & En); [lia|].
  destruct (of_Z_R 1000000000) as (Vd & Fd & Ed); [lia|].
  assert (Hr : 0 <= IZR n <= 1000000000).
  { split; [apply (IZR_le 0)|apply (IZR_le _ 1000000000)]; lia. }
  destruct (div_R _ _ Vn Vd Fn Fd) as (Vq & Hq); [rewrite Ed; lra|].
  rewrite En, Ed in Hq. fold q in Vq, Hq.
  assert (Hx : 0 <= IZR n / 1000000000 <= 1) by (split; lra).
  pose proof bpow_1023_lower. destruct Hq as (Fq & Nq); [rewrite Rabs_pos_eq; lra|].
  apply near_bounds in Nq; [|lra]. pose proof eta_small. unfold eps in Nq.
  split; [|lra]. repeat split; try assumption.
  apply (div_sign false false); apply of_Z_sign; lia.
Qed.

(** [as_secs_f64] of a duration is a non-negative float of at most [2^66]. *)
Lemma as_secs_f64_R d :
  duration_ok d -> nonneg (as_secs_f64 d) /\ B2R (as_secs_f64 d) <= 73786976294838206464.
Proof.
  intros Hd. destruct (duration_parts d Hd) as (Hs & Hn).
  destruct (of_Z_nonneg _ Hs) as ((Vs & Fs & Ss) & Bs).
  destruct (subsec_R _ Hn) as ((Vq & Fq & Sq) & Bq).
  pose proof (has_sign_false_R _ Ss). pose proof (has_sign_false_R _ Sq).
  destruct (add_R _ _ Vs Vq Fs Fq) as (Va & Ha). fold (as_secs_f64 d) in Va, Ha.
  pose proof bpow_1023_lower. destruct Ha as (Fa & Na); [rewrite Rabs_pos_eq; lra|].
  apply near_bounds in Na; [|lra]. pose proof eta_small. unfold eps in Na.
  split; [|lra]. repeat split; try assumption. now apply add_sign.
Qed.

(** The tempi of the demo are the integers 60, 70, ..., 200. *)
Lemma is_bpm_R b : is_bpm b = true -> nonneg b /\ 60 <= B2R b <= 200.
Proof.
  unfold is_bpm, bpm_values. intros H.
  apply existsb_exists in H as (v & Hin & Hs). apply same_spec in Hs. subst v.
  apply in_map_iff in Hin as (k & <- & Hk). apply in_zrange in Hk.
  destruct (of_Z_R (60 + 10 * k)) as (V & F & E); [lia|]. rewrite E.
  split; [repeat split; try assumption; apply of_Z_sign; lia|].
  split; [apply (IZR_le 60)|apply (IZR_le _ 200)]; lia.
Qed.

Lemma sixty_R : nonneg sixty /\ B2R sixty = 60.
Proof. repeat split. unfold sixty. float_value. lra. Qed.

(** The number of beats played is a finite non-negative float, two
    roundings away from the exact quotient. *)
Lemma beats_R elapsed bpm :
  uptime elapsed -> tempo bpm ->
  nonneg (beats elapsed bpm) /\
  Rabs (B2R (beats elapsed bpm) - B2R elapsed * B2R bpm / 60)
  <= beats_error (B2R elapsed * B2R bpm / 60).
Proof.
  intros ((Ve & Fe & Se) & Be) ((Vb & Fb & Sb) & Bb).
  destruct sixty_R as ((V6 & F6 & S6) & E6).
  pose proof (has_sign_false_R _ Se) as He. pose proof bpow_1023_lower. pose proof eta_small.
  pose proof eta_pos.
  assert (Hp : 0 <= B2R elapsed * B2R bpm <= 14757395258967641292800) by nra.
  destruct (mul_R _ _ Ve Vb Fe Fb) as (Vm & Hm).
  destruct Hm as (Fm & Nm); [rewrite Rabs_pos_eq; lra|].
  pose proof (mul_sign false false _ _ Se Sb) as Sm. cbn [xorb] in Sm.
  pose proof (has_sign_false_R _ Sm) as Hm0.
  pose proof (near_bounds _ _ Nm ltac:(lra)) as Bm. unfold eps in Bm.
  destruct (div_R _ _ Vm V6 Fm F6) as (Vq & Hq); [rewrite E6; lra|].
  fold (beats elapsed bpm) in Vq, Hq. rewrite E6 in Hq.
  destruct Hq as (Fq & Nq); [rewrite Rabs_pos_eq; lra|].
  pose proof (near_bounds _ _ Nq ltac:(lra)) as Bq. unfold eps in Bq.
  split; [repeat split; try assumption; apply (div_sign false false); assumption|].
  set (X := B2R elapsed * B2R bpm) in *. set (M := B2R (F64.mul elapsed bpm)) in *.
  unfold beats_error, eps. apply Rabs_le. lra.
Qed.

Lemma beats_nonneg elapsed bpm :
  nonneg elapsed -> B2R elapsed <= 73786976294838206464 ->
  nonneg bpm -> 60 <= B2R bpm <= 200 ->
  nonneg (beats elapsed bpm).
Proof. intros He Be Hb Bb. now apply beats_R. Qed.

(** The phase is the number of beats less a whole number of them. *)
Lemma phase_fraction elapsed bpm :
  nonneg (beats elapsed bpm) ->
  let p := beat_progress elapsed bpm in
  F64.valid p = true /\ 0 <= B2R p < 1 /\
  exists k : Z, B2R p = B2R (beats elapsed bpm) - IZR k.
Proof.
  intros (V & F & S) p. destruct one_R as (V1 & F1 & E1).
  destruct (rem_R _ F64.one V V1 F F1) as (Vp & Fp & Sp & Hp & k & Hk);
    [rewrite E1; apply R1_neq_R0|].
  fold (beat_progress elapsed bpm) in Vp, Fp, Sp, Hp, Hk. fold p in Vp, Fp, Sp, Hp, Hk.
  rewrite E1 in Hp, Hk. rewrite Rabs_R1 in Hp.
  assert (Hs : F64.sign (beats elapsed bpm) = false)
    by (apply has_sign_sign; [now destruct (beats _ _)|assumption]).
  rewrite Hs in Sp. pose proof (has_sign_false_R _ Sp) as H0.
  rewrite Rabs_pos_eq in Hp by assumption.
  repeat split; try assumption. exists k. rewrite Hk. ring.
Qed.

(** ** The phase the renderer uses *)

#[local] Open Scope Z_scope.

Lemma elapsed_duration start now :
  now - start < 2 ^ 64 * nanos_per_sec -> duration_ok (elapsed start now).
Proof. unfold duration_ok, elapsed, nanos_per_sec. lia. Qed.

Lemma phase_in_unit app d :
  reachable app -> duration_ok d ->
  in_unit (beat_progress (as_secs_f64 d) (simulated_bpm app)) = true.
Proof.
  intros Hr Hd. destruct (as_secs_f64_R d Hd) as (He & Be).
  destruct (is_bpm_R _ (reachable_bpm app Hr)) as (Hb & Bb).
  destruct (beats_nonneg _ _ He Be Hb Bb) as (V & F & S).
  apply rem_one_in_unit; try assumption.
  apply has_sign_sign; [now destruct (beats _ _)|assumption].
Qed.

(** The phase is a well-formed float as well. *)
Lemma phase_valid app d :
  reachable app -> duration_ok d ->
  F64.valid (beat_progress (as_secs_f64 d) (simulated_bpm app)) = true.
Proof.
  intros Hr Hd. destruct (as_secs_f64_R d Hd) as (He & Be).
  destruct (is_bpm_R _ (reachable_bpm app Hr)) as (Hb & Bb).
  destruct (beats_nonneg _ _ He Be Hb Bb) as (V & F & S).
  destruct one_R as (V1 & F1 & E1).
  apply (rem_R _ F64.one V V1 F F1). rewrite E1. apply R1_neq_R0.
Qed.

(** C10. For every state the handlers can reach and every reading of the
    clock, the demo's renderer draws the rings of a beat phase in [[0, 1)]:
    the tempo is one of 60, 70, ..., 200 and the time since start-up is a
    [Duration], so the number of beats is a finite non-negative float and the
    frame is the bordered paragraph of the lines of that phase. *)
Theorem demo_phase_in_unit f app area now :
  reachable app -> duration_ok (elapsed (start_time app) now) ->
  exists bp,
    in_unit bp = true /\
    render_concentric_waves f app area now
    = render_widget f
        (with_block (Paragraph_new (lines (color_scheme app) area bp))
                    {| borders := ALL; title := "Concentric Waves"%string |}) area.
Proof.
  intros Hr Hd. eexists. split; [|reflexivity]. now apply phase_in_unit.
Qed.

Lemma demo_phase_in_unit_witness :
  exists bp,
    in_unit bp = true /\
    render_concentric_waves [] (increase_bpm (new 1000))
      {| x := 0; y := 0; width := 20; height := 10 |} 7250001000
    = render_widget []
        (with_block
           (Paragraph_new (lines (color_scheme (increase_bpm (new 1000)))
                                 {| x := 0; y := 0; width := 20; height := 10 |} bp))
                    {| borders := ALL; title := "Concentric Waves"%string |})
        {| x := 0; y := 0; width := 20; height := 10 |}.
Proof.
  apply (demo_phase_in_unit [] (increase_bpm (new 1000))
           {| x := 0; y := 0; width := 20; height := 10 |} 7250001000).
  - eapply reach_step; [apply (reach_new 1000) | apply step_up].
  - apply elapsed_duration. cbn. lia.
Defined.

(** C29. The phase is the fractional part of the beats played.  For a time
    since start-up of at most [2^66] seconds and a tempo between 60 and 200,
    the computed number of beats is the exact quotient [elapsed * bpm / 60]
    up to the two roundings of the product and the division, and the phase
    is that number less a whole number of beats, at least 0 and below 1. *)
Theorem beat_phase_fraction elapsed bpm :
  uptime elapsed -> tempo bpm ->
  let n := B2R (beats elapsed bpm) in
  let p := B2R (beat_progress elapsed bpm) in
  (Rabs (n - B2R elapsed * B2R bpm / 60) <= beats_error (B2R elapsed * B2R bpm / 60))%R /\
  (0 <= p < 1)%R /\ exists k : Z, (p = n - IZR k)%R.
Proof.
  intros He Hb n p. destruct (beats_R elapsed bpm He Hb) as (Hn & Hacc).
  destruct (phase_fraction elapsed bpm Hn) as (_ & Hp & Hk). auto.
Qed.

Lemma beat_phase_fraction_witness :
  let n := B2R (beats (F64.lit 725 100) (F64.of_Z 120)) in
  let p := B2R (beat_progress (F64.lit 725 100) (F64.of_Z 120)) in
  (Rabs (n - B2R (F64.lit 725 100) * B2R (F64.of_Z 120) / 60)
   <= beats_error (B2R (F64.lit 725 100) * B2R (F64.of_Z 120) / 60))%R /\
  (0 <= p < 1)%R /\ exists k : Z, (p = n - IZR k)%R.
Proof.
  apply (beat_phase_fraction (F64.lit 725 100) (F64.of_Z 120)).
  - split; [repeat split|]. vm_compute F64.lit. float_value. lra.
  - split; [repeat split|]. vm_compute F64.of_Z. float_value. lra.
Defined.
