(* ===== verification/RadialBounds.v ===== *)
(** * The intensity of the rings

    The real-number analysis of one cell of the demo's renderer.  The
    distance to the centre and the distance the wave front has travelled are
    finite floats; their difference is reduced by [% 5.0], which keeps the
    sign of the dividend.  Outside the wave front the phase lies in [[0, 5)]
    and the intensity in [[0, 1]], as the rings are meant; inside the front
    the phase is negative, the intensity lies in [[1, 6]] and the cell is
    drawn as a solid disc. *)

From Stdlib Require Import String ZArith Lia Bool List SpecFloat Rbase Rfunctions R_sqrt Lra.
From S2P Require Import Prelude Ieee Exact Round Real Monotone RemSqrt.
From S2P Require Import Color ColorBounds Widget BeatClock App RadialWave ClockBounds.
Import ListNotations.
#[local] Open Scope Z_scope.

Import Tui Demo Radial.

(** The literal [6.0], the largest intensity. *)
Definition six : F64.f64 := Eval vm_compute in F64.of_Z 6.

(** A well-formed finite float. *)
Definition fin (f : F64.f64) : Prop := F64.valid f = true /\ F64.is_finite f = true.

(** The cell lies inside the wave front: the front has travelled further
    than the cell is from the centre. *)
Definition inside_front (area : Rect) (beat_progress : F64.f64) (y x : Z) : bool :=
  F64.ltb (dist area y x) (wave_offset beat_progress).

#[local] Open Scope R_scope.

(** ** The literals *)

Lemma rtwo_R : fin two /\ F64.has_sign false two /\ B2R two = 2.
Proof. repeat split. unfold two. float_value. lra. Qed.

Lemma rfive_R : fin five /\ B2R five = 5.
Proof. repeat split. unfold five. float_value. lra. Qed.

Lemma six_R : fin six /\ B2R six = 6.
Proof. repeat split. unfold six. float_value. lra. Qed.

Lemma fifteen_R : fin fifteen /\ B2R fifteen = 15.
Proof. repeat split. unfold fifteen. float_value. lra. Qed.

Lemma rone_R : fin one /\ B2R one = 1.
Proof. repeat split. unfold one. float_value. lra. Qed.

Lemma rc07_R : fin c07 /\ 0 < B2R c07 < 1.
Proof. repeat split; unfold c07; float_value; lra. Qed.

(** An integer below [2^53] as a bound. *)
Lemma bound_R n : (Z.abs n < 2 ^ 53)%Z -> fin (F64.of_Z n) /\ B2R (F64.of_Z n) = IZR n.
Proof. intros H. destruct (of_Z_R n H) as (V & F & E). now repeat split. Qed.

Lemma between_Z lo hi x :
  (Z.abs lo < 2 ^ 53)%Z -> (Z.abs hi < 2 ^ 53)%Z -> IZR lo <= x <= IZR hi ->
  between (F64.of_Z lo) (F64.of_Z hi) x.
Proof.
  intros Hl Hh Hx. destruct (bound_R lo Hl) as ((V1 & F1) & E1), (bound_R hi Hh) as ((V2 & F2) & E2).
  unfold between. rewrite E1, E2. auto.
Qed.

Lemma within_Z lo hi r :
  (Z.abs lo < 2 ^ 53)%Z -> (Z.abs hi < 2 ^ 53)%Z ->
  within (F64.of_Z lo) (F64.of_Z hi) r -> F64.is_finite r = true /\ IZR lo <= B2R r <= IZR hi.
Proof.
  intros Hl Hh [F H]. destruct (bound_R lo Hl) as (_ & E1), (bound_R hi Hh) as (_ & E2).
  rewrite E1, E2 in H. auto.
Qed.

Lemma has_sign_self f : F64.has_sign (F64.sign f) f.
Proof. now destruct f. Qed.

(** ** One cell, step by step *)

Section Cell.

Variable area : Rect.
Variable beat_progress : F64.f64.
Variables y x : Z.

Hypothesis area_ok : rect_ok area.
Hypothesis row : (0 <= y < height area)%Z.
Hypothesis column : (0 <= x < width area)%Z.
Hypothesis phase_valid : F64.valid beat_progress = true.
Hypothesis phase_unit : in_unit beat_progress = true.

Lemma beat_R : fin beat_progress /\ 0 <= B2R beat_progress < 1.
Proof.
  unfold in_unit in phase_unit. apply andb_true_iff in phase_unit as [H0 H1].
  destruct one_R as (V1 & F1 & E1).
  assert (F : F64.is_finite beat_progress = true).
  { apply (between_finite F64.zero beat_progress F64.one); try reflexivity; try assumption.
    unfold F64.leb, F64.ltb, SFleb, SFltb in *.
    destruct (SFcompare beat_progress F64.one) as [[]|]; congruence. }
  split; [now split|].
  apply leb_R in H0; try reflexivity; try assumption.
  apply ltb_R in H1; try assumption. cbn [B2R F64.zero] in H0. lra.
Qed.

Lemma offset_R : fin (wave_offset beat_progress) /\ 0 <= B2R (wave_offset beat_progress) <= 15.
Proof.
  destruct beat_R as ((V & F) & Hb). destruct fifteen_R as ((V15 & F15) & E15).
  destruct (mul_R _ _ V V15 F F15) as (Vm & _).
  destruct (mul_between beat_progress fifteen (F64.of_Z 0) (F64.of_Z 15) V V15 F F15) as (Fm & Hm).
  { apply between_Z; try (cbn; lia). rewrite E15. lra. }
  destruct (bound_R 0 ltac:(cbn; lia)) as (_ & E0), (bound_R 15 ltac:(cbn; lia)) as (_ & E1).
  rewrite E0, E1 in Hm. now repeat split.
Qed.

(** The centre of a side of [n] cells. *)
Lemma side_center_R n :
  in_u16 n ->
  let c := F64.div (F64.of_Z n) two in
  fin c /\ 0 <= B2R c <= 32768.
Proof.
  intros Hn c. destruct rtwo_R as ((V2 & F2) & S2 & E2).
  destruct (div_u16_R n two 2 Hn V2 F2 S2 E2 ltac:(lia)) as (V & F & S & N & Hq).
  fold c in V, F, S, N. split; [now split|]. split; [now apply has_sign_false_R|].
  apply near_bounds in N; [|lra]. unfold eps in N. pose proof eta_small.
  unfold_u8. assert (IZR n <= 65535) by (apply (IZR_le _ 65535); lia). lra.
Qed.

(** The offset of cell [z] from the centre of a side of [n] cells. *)
Lemma offset_from_center z n :
  in_u16 z -> in_u16 n ->
  let d := F64.sub (F64.of_Z z) (F64.div (F64.of_Z n) two) in
  fin d /\ -32768 <= B2R d <= 65535.
Proof.
  intros Hz Hn d. destruct (side_center_R n Hn) as ((Vc & Fc) & Hc).
  destruct (of_u16_R z Hz) as (Vz & Fz & _ & Ez & Hzr).
  destruct (sub_R _ _ Vz Vc Fz Fc) as (Vd & _). fold d in Vd.
  destruct (within_Z (-32768) 65535 d) as (Fd & Hd); try (cbn; lia).
  { apply sub_between; try assumption. apply between_Z; try (cbn; lia). rewrite Ez. lra. }
  now repeat split.
Qed.

Lemma dx_R : fin (dx area x) /\ -32768 <= B2R (dx area x) <= 65535.
Proof.
  destruct area_ok as (_ & _ & Hw & _).
  apply offset_from_center; [unfold_u8; lia|assumption].
Qed.

Lemma dy_R : fin (dy area y) /\ -65536 <= B2R (dy area y) <= 131070.
Proof.
  destruct area_ok as (_ & _ & _ & Hh). unfold dy, center_y.
  destruct (offset_from_center y (height area)) as ((V & F) & H); [unfold_u8; lia|assumption|].
  destruct rtwo_R as ((V2 & F2) & _ & E2).
  destruct (mul_R _ _ V V2 F F2) as (Vm & _).
  destruct (within_Z (-65536) 131070
              (F64.mul (F64.sub (F64.of_Z y) (F64.div (F64.of_Z (height area)) two)) two))
    as (Fd & Hd); try (cbn; lia).
  { apply mul_between; try assumption. apply between_Z; try (cbn; lia). rewrite E2. lra. }
  now repeat split.
Qed.

(** A square is a non-negative finite float. *)
Lemma square_R d k :
  (0 <= k < 2 ^ 26)%Z -> fin d -> - IZR k <= B2R d <= IZR k ->
  fin (F64.mul d d) /\ F64.has_sign false (F64.mul d d) /\
  0 <= B2R (F64.mul d d) <= IZR (k * k).
Proof.
  intros Hk (V & F) Hd. destruct (mul_R _ _ V V F F) as (Vm & _).
  destruct (within_Z 0 (k * k) (F64.mul d d)) as (Fd & Hb); try nia.
  { apply mul_between; try assumption. apply between_Z; try nia. rewrite mult_IZR. nra. }
  repeat split; try assumption; try tauto.
  pose proof (mul_sign _ _ _ _ (has_sign_self d) (has_sign_self d)) as S.
  now rewrite xorb_nilpotent in S.
Qed.

Lemma dist_R :
  fin (dist area y x) /\ F64.has_sign false (dist area y x) /\
  0 <= B2R (dist area y x) <= 262145.
Proof.
  destruct dx_R as (Fx & Hx), dy_R as (Fy & Hy).
  destruct (square_R (dx area x) 65535 ltac:(lia) Fx ltac:(lra)) as ((V1 & F1) & S1 & H1).
  destruct (square_R (dy area y) 131070 ltac:(lia) Fy ltac:(lra)) as ((V2 & F2) & S2 & H2).
  rewrite mult_IZR in H1, H2.
  destruct (add_R _ _ V1 V2 F1 F2) as (Va & _).
  destruct (within_Z 0 (2 ^ 36) (F64.add (F64.mul (dx area x) (dx area x))
                                          (F64.mul (dy area y) (dy area y))))
    as (Fa & Ha); try (cbn; lia).
  { apply add_between; try assumption. apply between_Z; try (cbn; lia).
    change (2 ^ 36)%Z with 68719476736%Z. lra. }
  change (2 ^ 36)%Z with (262144 * 262144)%Z in Ha. rewrite mult_IZR in Ha.
  destruct (sqrt_R _ Va Fa (add_sign _ _ S1 S2)) as (V & F & S & N).
  fold (dist area y x) in V, F, S, N.
  split; [now split|]. split; [assumption|]. split; [now apply has_sign_false_R|].
  assert (Hs : 0 <= sqrt (B2R (F64.add (F64.mul (dx area x) (dx area x))
                                       (F64.mul (dy area y) (dy area y)))) <= 262144).
  { split; [apply sqrt_pos|]. rewrite <- (sqrt_square 262144) by lra. apply sqrt_le_1_alt. lra. }
  apply near_bounds in N; [|lra]. unfold eps in N. pose proof eta_small. lra.
Qed.

(** The signed distance to the wave front. *)
Lemma front_R :
  let t := F64.sub (dist area y x) (wave_offset beat_progress) in
  fin t /\ -15 <= B2R t <= 262145.
Proof.
  intros t. destruct dist_R as ((Vd & Fd) & _ & Hd), offset_R as ((Vo & Fo) & Ho).
  destruct (sub_R _ _ Vd Vo Fd Fo) as (Vt & _). fold t in Vt.
  destruct (within_Z (-15) 262145 t) as (Ft & Ht); try (cbn; lia).
  { apply sub_between; try assumption. apply between_Z; try (cbn; lia). lra. }
  now repeat split.
Qed.

(** The phase: a finite float of magnitude below five with the sign of the
    signed distance. *)
Lemma wave_phase_R :
  let t := F64.sub (dist area y x) (wave_offset beat_progress) in
  let p := wave_phase area beat_progress y x in
  fin p /\ F64.has_sign (F64.sign t) p /\ -5 < B2R p < 5.
Proof.
  intros t p. destruct front_R as ((Vt & Ft) & Ht). destruct rfive_R as ((V5 & F5) & E5).
  destruct (rem_R _ _ Vt V5 Ft F5) as (V & F & S & Hp & _); [rewrite E5; lra|].
  change (F64.rem _ five) with p in V, F, S, Hp. rewrite E5, (Rabs_pos_eq 5) in Hp by lra.
  split; [now split|]. split; [assumption|]. apply Rabs_def2 in Hp. lra.
Qed.

(** Inside the front the distance is the smaller float. *)
Lemma inside_front_R :
  inside_front area beat_progress y x = true
  <-> B2R (dist area y x) < B2R (wave_offset beat_progress).
Proof.
  destruct dist_R as ((Vd & Fd) & _), offset_R as ((Vo & Fo) & _).
  now apply ltb_R.
Qed.

Lemma sign_of t s : F64.is_finite t = true -> F64.has_sign s t -> F64.sign t = s.
Proof. intros F S. apply has_sign_sign; [now destruct t|assumption]. Qed.

(** Inside the front the phase is not positive and the intensity is one or
    more. *)
Lemma intensity_inside :
  inside_front area beat_progress y x = true ->
  let i := intensity_at area beat_progress y x in
  fin i /\ 1 <= B2R i <= 6.
Proof.
  intros Hin i. apply inside_front_R in Hin.
  destruct dist_R as ((Vd & Fd) & _), offset_R as ((Vo & Fo) & _).
  destruct front_R as ((Vt & Ft) & _). destruct wave_phase_R as ((Vp & Fp) & Sp & Hp).
  destruct rone_R as ((V1 & F1) & E1).
  rewrite (sign_of _ true Ft (sub_sign_lt _ _ Fd Fo Hin)) in Sp.
  apply has_sign_true_R in Sp.
  assert (Hlt : F64.ltb (wave_phase area beat_progress y x) one = true)
    by (apply ltb_R; try assumption; lra).
  unfold i, intensity_at, intensity_of. rewrite Hlt.
  destruct (sub_R _ _ V1 Vp F1 Fp) as (Vi & _).
  destruct (within_Z 1 6 (F64.sub one (wave_phase area beat_progress y x))) as (Fi & Hi);
    try (cbn; lia).
  { apply sub_between; try assumption. apply between_Z; try (cbn; lia). lra. }
  now repeat split.
Qed.

(** Outside the front the phase is not negative and the intensity is at
    most one. *)
Lemma intensity_outside :
  inside_front area beat_progress y x = false ->
  let i := intensity_at area beat_progress y x in
  fin i /\ 0 <= B2R i <= 1.
Proof.
  intros Hout i.
  assert (Hge : B2R (wave_offset beat_progress) <= B2R (dist area y x)).
  { apply Rnot_lt_le. intros H. apply inside_front_R in H. congruence. }
  destruct dist_R as ((Vd & Fd) & Sd & _), offset_R as ((Vo & Fo) & _).
  destruct front_R as ((Vt & Ft) & _). destruct wave_phase_R as ((Vp & Fp) & Sp & Hp).
  destruct rone_R as ((V1 & F1) & E1).
  rewrite (sign_of _ false Ft (sub_sign_ge _ _ Fd Fo Sd Hge)) in Sp.
  apply has_sign_false_R in Sp.
  unfold i, intensity_at, intensity_of.
  destruct (F64.ltb (wave_phase area beat_progress y x) one) eqn:Hlt.
  - apply ltb_R in Hlt; try assumption.
    destruct (sub_R _ _ V1 Vp F1 Fp) as (Vi & _).
    destruct (within_Z 0 1 (F64.sub one (wave_phase area beat_progress y x))) as (Fi & Hi);
      try (cbn; lia).
    { apply sub_between; try assumption. apply between_Z; try (cbn; lia). lra. }
    now repeat split.
  - repeat split; cbn [B2R F64.zero]; lra.
Qed.

End Cell.

(** An intensity of one or more is in the first band. *)
Lemma band_solid i : fin i -> 1 <= B2R i -> band i = Some 0%Z.
Proof.
  intros (V & F) H. destruct rc07_R as ((V7 & F7) & H7).
  unfold band, F64.gtb. fold (F64.ltb c07 i).
  now rewrite (proj2 (ltb_R c07 i V7 V F7 F)) by lra.
Qed.

(** An intensity between zero and one is a unit intensity. *)
Lemma unit_of_R i : fin i -> 0 <= B2R i <= 1 -> unit_intensity i.
Proof.
  intros (V & F) H. destruct one_R as (V1 & F1 & E1). split; [assumption|].
  split; apply leb_R; try assumption; try reflexivity; cbn [B2R F64.zero]; lra.
Qed.

(** ** Theorems *)

(** C12. Inside the wave front (the front has travelled further than the cell
    is from the centre) the remainder is not positive, so the intensity lies
    between 1 and 6 instead of between 0 and 1, and the cell is drawn as a
    solid disc in the tier-0 colour, for every area, cell, scheme and beat
    phase in [[0, 1)]. *)
Theorem radial_inside_front_solid scheme area beat_progress y x :
  rect_ok area -> (0 <= y < height area)%Z -> (0 <= x < width area)%Z ->
  F64.valid beat_progress = true -> in_unit beat_progress = true ->
  inside_front area beat_progress y x = true ->
  let i := intensity_at area beat_progress y x in
  1 <= B2R i <= 6 /\
  cell scheme area beat_progress y x
  = Span_styled (to_string black_circle)
                (Style_fg Style_default (get_color_for_scheme scheme i 0)).
Proof.
  intros Hok Hy Hx Hv Hu Hin i.
  destruct (intensity_inside area beat_progress y x Hok Hy Hx Hv Hu Hin) as (Fi & Hi).
  split; [exact Hi|]. unfold cell. rewrite glyph_color_band.
  fold i. now rewrite (band_solid i Fi (proj1 Hi)).
Qed.

(** C19. Outside the wave front the rings are as they are meant: the
    intensity is a float between 0.0 and 1.0, and the colour of a lit cell
    is the base colour of its band dimmed, each channel at most the base
    channel. *)
Theorem radial_outside_front_dimmed scheme area beat_progress y x :
  rect_ok area -> (0 <= y < height area)%Z -> (0 <= x < width area)%Z ->
  F64.valid beat_progress = true -> in_unit beat_progress = true ->
  inside_front area beat_progress y x = false ->
  let i := intensity_at area beat_progress y x in
  unit_intensity i /\
  forall level,
    exists c, channels (get_color_for_scheme scheme i level) = Some c /\
              rgb_le c (Scheme.base_ref (embed scheme) level None).
Proof.
  intros Hok Hy Hx Hv Hu Hout i.
  destruct (intensity_outside area beat_progress y x Hok Hy Hx Hv Hu Hout) as (Fi & Hi).
  pose proof (unit_of_R i Fi Hi) as Hunit. split; [exact Hunit|]. intros level.
  replace (get_color_for_scheme scheme i level)
    with (Scheme.shade (Scheme.base_ref (embed scheme) level None) i) by now destruct scheme.
  apply shade_dims; [now apply base_ref_ok|assumption].
Qed.

Lemma sample_area_ok : rect_ok {| Tui.x := 0; Tui.y := 0; width := 20; height := 10 |}.
Proof. unfold rect_ok. cbn [Tui.x Tui.y width height]. unfold_u8. lia. Qed.

Lemma radial_inside_front_solid_witness :
  let area := {| Tui.x := 0; Tui.y := 0; width := 20; height := 10 |} in
  let i := intensity_at area (F64.lit 5 10) 5 10 in
  1 <= B2R i <= 6 /\
  cell Warm area (F64.lit 5 10) 5 10
  = Span_styled (to_string black_circle)
                (Style_fg Style_default (get_color_for_scheme Warm i 0)).
Proof.
  apply (radial_inside_front_solid Warm {| Tui.x := 0; Tui.y := 0; width := 20; height := 10 |}
           (F64.lit 5 10) 5 10);
    try reflexivity; try apply sample_area_ok; cbn [width height]; lia.
Defined.

Lemma radial_outside_front_dimmed_witness :
  let area := {| Tui.x := 0; Tui.y := 0; width := 20; height := 10 |} in
  let i := intensity_at area (F64.lit 5 10) 0 0 in
  unit_intensity i /\
  forall level,
    exists c, channels (get_color_for_scheme Warm i level) = Some c /\
              rgb_le c (Scheme.base_ref (embed Warm) level None).
Proof.
  apply (radial_outside_front_dimmed Warm {| Tui.x := 0; Tui.y := 0; width := 20; height := 10 |}
           (F64.lit 5 10) 0 0);
    try reflexivity; try apply sample_area_ok; cbn [width height]; lia.
Defined.

(** C13. In every frame of the demo (a state the handlers can reach, a
    reading of the clock that fits a [Duration], a cell of the area) the
    intensity of a cell is a finite float between 0 and 6: never NaN, never
    negative; it is at most 1 outside the wave front and at least 1 inside
    it. *)
Theorem demo_frame_intensity app area now y x :
  reachable app -> duration_ok (elapsed (start_time app) now) ->
  rect_ok area -> (0 <= y < height area)%Z -> (0 <= x < width area)%Z ->
  let bp := BeatClock.beat_progress (as_secs_f64 (elapsed (start_time app) now))
                                    (simulated_bpm app) in
  let i := intensity_at area bp y x in
  F64.valid i = true /\ F64.is_finite i = true /\
  if inside_front area bp y x then 1 <= B2R i <= 6 else 0 <= B2R i <= 1.
Proof.
  intros Hr Hdur Hok Hy Hx bp i.
  pose proof (phase_valid app _ Hr Hdur) as Hv. pose proof (phase_in_unit app _ Hr Hdur) as Hu.
  fold bp in Hv, Hu.
  destruct (inside_front area bp y x) eqn:Hin.
  - destruct (intensity_inside area bp y x Hok Hy Hx Hv Hu Hin) as ((V & F) & Hi). now repeat split.
  - destruct (intensity_outside area bp y x Hok Hy Hx Hv Hu Hin) as ((V & F) & Hi). now repeat split.
Qed.

Lemma demo_frame_intensity_witness :
  let area := {| Tui.x := 0; Tui.y := 0; width := 20; height := 10 |} in
  let app := increase_bpm (new 1000%Z) in
  let bp := BeatClock.beat_progress (as_secs_f64 (elapsed (start_time app) 7250001000%Z))
                                    (simulated_bpm app) in
  let i := intensity_at area bp 5 10 in
  F64.valid i = true /\ F64.is_finite i = true /\
  if inside_front area bp 5 10 then 1 <= B2R i <= 6 else 0 <= B2R i <= 1.
Proof.
  apply (demo_frame_intensity (increase_bpm (new 1000%Z))
           {| Tui.x := 0; Tui.y := 0; width := 20; height := 10 |} 7250001000%Z 5 10).
  - eapply reach_step; [apply (reach_new 1000%Z) | apply step_up].
  - apply elapsed_duration. cbn. lia.
  - apply sample_area_ok.
  - cbn [height]. lia.
  - cbn [width]. lia.
Defined.
