(* ===== verification/EventLoop.v ===== *)
(** * The demo's screen and event loop: [ui] and [main] of [waveform_test/src/main.rs]

    [ui] splits the frame into three panes and renders the title, the rings
    and the controls.  [main] puts the terminal into raw mode and the
    alternate screen, loops (draw, poll with the rest of the tick, read a key,
    dispatch it, restart the tick), and restores the terminal after the loop.

    The environment is explicit: every call that can fail or that reads the
    clock takes its answer from a record ([Setup], one [Tick] per iteration,
    [Teardown]), so [main] is a function of these answers and returns how the
    program ended together with the state the terminal is left in.  A call
    that fails is taken to have changed nothing.  The state [main] reports
    is the one at its return; [after_main] adds what the destructor of the
    library's terminal does when the local is dropped (one more attempt to
    show a hidden cursor).  The layout solver of the terminal library enters
    through the interface [Layout]; indexing the panes it returns is partial,
    as in the source. *)

From Stdlib Require Import String Ascii ZArith Lia Bool List SpecFloat.
From S2P Require Import Prelude Ieee Widget Text BeatClock App RadialWave.
Import ListNotations.
#[local] Open Scope Z_scope.

Module Loop.

Import Tui Demo Str.

(** ** Results of I/O *)

Inductive IoError : Type := io_error (code : Z).

(** [Result<A, io::Error>]. *)
Inductive io (A : Type) : Type :=
| Ok (a : A)
| Err (e : IoError).

Arguments Ok {A} a.
Arguments Err {A} e.

(** ** The layout solver *)

Inductive Constraint : Type := Length (n : Z).

(** [Layout::default().direction(Vertical).constraints(cs).split(area)]. *)
Class Layout : Type := { split : list Constraint -> Rect -> list Rect }.

(** The solver returns one pane per constraint. *)
Class LayoutOk (Y : Layout) : Prop := {
  split_length : forall cs area, length (split cs area) = length cs
}.

(** A solver for areas that are tall enough: the panes are stacked from the
    top, each as high as its constraint allows and the remaining rows permit. *)
Fixpoint stack (cs : list Constraint) (x y w h : Z) : list Rect :=
  match cs with
  | [] => []
  | Length n :: cs' =>
      let rows := Z.min n h in
      {| Tui.x := x; Tui.y := y; width := w; height := rows |}
        :: stack cs' x (y + rows) w (h - rows)
  end.

(** ** The screen *)

(** [format!("{:.0}", x)]: the nearest integer, halves to the even one, with
    the sign of [x]. *)
Definition round_half_even (m : positive) (e : Z) : Z :=
  if 0 <=? e then Z.shiftl (Zpos m) e
  else
    let q := Z.shiftr (Zpos m) (- e) in
    let r := Zpos m - Z.shiftl q (- e) in
    let half := Z.shiftl 1 (- e - 1) in
    if (half <? r) || ((r =? half) && Z.odd q) then q + 1 else q.

Definition fmt_f64_0 (x : F64.f64) : string :=
  match x with
  | S754_nan => "NaN"
  | S754_infinity s => if s then "-inf" else "inf"
  | S754_zero s => if s then "-0" else "0"
  | S754_finite s m e =>
      ((if s then "-" else "") ++ fmt_int (round_half_even m e))%string
  end.

(** The texts of the screen with characters outside ASCII. *)
Definition arrows_lr : list char := [8592; 47; 8594] ++ chars_of " or p/n".
Definition arrows_ud : list char := [8593; 47; 8595].

Definition title_line (app : App) : Line :=
  [ Span_styled (chars_of "Concentric Waves - BPM Reactive") (Style_fg Style_default Cyan_);
    Span_raw (chars_of " | ");
    Span_styled (chars_of (color_scheme_name app)) (Style_fg Style_default Yellow) ].

Definition controls_text (app : App) : list Line :=
  [ Line_raw (chars_of
      "Audio-reactive expanding rings synchronized to music tempo (40 lines)");
    Line_raw (chars_of "");
    [ Span_raw (chars_of "Controls: ");
      Span_styled arrows_lr (Style_fg Style_default Green_);
      Span_raw (chars_of " = Change colors | ");
      Span_styled arrows_ud (Style_fg Style_default Green_);
      Span_raw (chars_of (" = BPM (" ++ fmt_f64_0 (simulated_bpm app) ++ ") | "));
      Span_styled (chars_of "q") (Style_fg Style_default Red);
      Span_raw (chars_of " = Quit") ] ].

Section WithLayout.

Context {Y : Layout}.

(** [ui(f, app)] for a frame of the given area; [None] when a pane index is
    out of range (a panic). *)
Definition ui (f : Frame) (app : App) (area : Rect) (now : Instant) : option Frame :=
  let chunks := split [Length 3; Length 40; Length 5] area in
  match nth_error chunks 0, nth_error chunks 1, nth_error chunks 2 with
  | Some chunk0, Some chunk1, Some chunk2 =>
      let title :=
        with_block (Paragraph_new [title_line app])
                   {| borders := ALL; title := "Visualization" |} in
      let f := render_widget f title chunk0 in
      let f := Radial.render_concentric_waves f app chunk1 now in
      let controls :=
        with_block (Paragraph_new (controls_text app))
                   {| borders := ALL; title := "Info" |} in
      Some (render_widget f controls chunk2)
  | _, _, _ => None
  end.

End WithLayout.

(** ** The terminal and the environment *)

(** The modes of the terminal that the program changes, and the frames drawn
    so far. *)
Record Terminal : Type := {
  raw_mode : bool;
  alternate_screen : bool;
  cursor_hidden : bool;
  drawn : list Frame
}.

Definition fresh_terminal : Terminal :=
  {| raw_mode := false; alternate_screen := false; cursor_hidden := false; drawn := [] |}.

(** The terminal is as the program found it. *)
Definition restored (t : Terminal) : bool :=
  negb (raw_mode t) && negb (alternate_screen t) && negb (cursor_hidden t).

(** [Event]: a key, or anything else (mouse, resize, focus, paste). *)
Inductive Event : Type :=
| Key (code : KeyCode)
| OtherEvent.

(** The answers of the environment before the loop. *)
Record Setup : Type := {
  enable_raw_mode : io unit;
  enter_alternate_screen : io unit;
  terminal_new : io unit;
  app_now : Instant;
  loop_now : Instant
}.

(** The answers of the environment during one iteration: the result of the
    draw with the area of the frame and the instant the renderer reads, the
    instant at which the timeout is computed, the results of [poll] and
    [read], and the instants of the two clock reads that end the iteration. *)
Record Tick : Type := {
  draw_result : io unit;
  frame_area : Rect;
  draw_now : Instant;
  poll_now : Instant;
  poll_result : io bool;
  read_result : io Event;
  tick_now : Instant;
  reset_now : Instant
}.

(** The answers of the environment after the loop. *)
Record Teardown : Type := {
  disable_raw_mode : io unit;
  leave_alternate_screen : io unit;
  show_cursor : io unit
}.

(** ** The loop *)

(** [Duration::from_millis(50)], in nanoseconds. *)
Definition tick_rate : Z := 50 * 1000000.

(** [a.checked_sub(b)] on durations. *)
Definition checked_sub (a b : Z) : option Z := if b <=? a then Some (a - b) else None.

(** [tick_rate.checked_sub(last_tick.elapsed()).unwrap_or_else(|| Duration::from_secs(0))]. *)
Definition timeout_of (last_tick now : Instant) : Z :=
  match checked_sub tick_rate (Radial.elapsed last_tick now) with
  | Some d => d
  | None => 0
  end.

(** The variables of [main] that the loop changes, and the timeouts it has
    passed to [poll]. *)
Record State : Type := {
  app : App;
  last_tick : Instant;
  term : Terminal;
  timeouts : list Z
}.

(** How an iteration, the loop or the program ends. *)
Inductive Exit : Type :=
| Running (s : State)
| Quit (s : State)
| Failed (e : IoError) (s : State)
| Panicked (s : State).

Definition state_of (x : Exit) : State :=
  match x with Running s | Quit s | Failed _ s | Panicked s => s end.

Definition with_app (s : State) (a : App) : State :=
  {| app := a; last_tick := last_tick s; term := term s; timeouts := timeouts s |}.

Definition with_term (s : State) (t : Terminal) : State :=
  {| app := app s; last_tick := last_tick s; term := t; timeouts := timeouts s |}.

(** [if last_tick.elapsed() >= tick_rate { last_tick = Instant::now(); }]. *)
Definition end_of_tick (tk : Tick) (s : State) : State :=
  if tick_rate <=? Radial.elapsed (last_tick s) (tick_now tk)
  then {| app := app s; last_tick := reset_now tk; term := term s; timeouts := timeouts s |}
  else s.

Section WithLayout2.

Context {Y : Layout}.

(** [terminal.draw(|f| ui(f, &app))?]: a drawn frame is added to the terminal
    and the cursor is hidden. *)
Definition draw (tk : Tick) (s : State) : Exit :=
  match ui [] (app s) (frame_area tk) (draw_now tk) with
  | None => Panicked s
  | Some frame =>
      match draw_result tk with
      | Err e => Failed e s
      | Ok _ =>
          Running (with_term s
            {| raw_mode := raw_mode (term s);
               alternate_screen := alternate_screen (term s);
               cursor_hidden := true;
               drawn := drawn (term s) ++ [frame] |})
      end
  end.

(** The body of the loop after the draw. *)
Definition poll_and_dispatch (tk : Tick) (s : State) : Exit :=
  let timeout := timeout_of (last_tick s) (poll_now tk) in
  let s := {| app := app s; last_tick := last_tick s; term := term s;
              timeouts := timeouts s ++ [timeout] |} in
  match poll_result tk with
  | Err e => Failed e s
  | Ok false => Running (end_of_tick tk s)
  | Ok true =>
      match read_result tk with
      | Err e => Failed e s
      | Ok OtherEvent => Running (end_of_tick tk s)
      | Ok (Key code) =>
          match handle_key (app s) code with
          | None => Quit s
          | Some a => Running (end_of_tick tk (with_app s a))
          end
      end
  end.

Definition iteration (tk : Tick) (s : State) : Exit :=
  match draw tk s with
  | Running s' => poll_and_dispatch tk s'
  | x => x
  end.

(** The loop over the answers of the environment; [Running] when they are
    used up before the loop has ended. *)
Fixpoint run (ticks : list Tick) (s : State) : Exit :=
  match ticks with
  | [] => Running s
  | tk :: ticks' =>
      match iteration tk s with
      | Running s' => run ticks' s'
      | x => x
      end
  end.

(** The three calls before the loop, each returning early on an error. *)
Definition setup (su : Setup) : io unit * Terminal :=
  match enable_raw_mode su with
  | Err e => (Err e, fresh_terminal)
  | Ok _ =>
      let t := {| raw_mode := true; alternate_screen := false;
                  cursor_hidden := false; drawn := [] |} in
      match enter_alternate_screen su with
      | Err e => (Err e, t)
      | Ok _ =>
          let t := {| raw_mode := true; alternate_screen := true;
                      cursor_hidden := false; drawn := [] |} in
          match terminal_new su with
          | Err e => (Err e, t)
          | Ok _ => (Ok tt, t)
          end
      end
  end.

(** The three calls after the loop, each returning early on an error. *)
Definition teardown (td : Teardown) (t : Terminal) : io unit * Terminal :=
  match disable_raw_mode td with
  | Err e => (Err e, t)
  | Ok _ =>
      let t := {| raw_mode := false; alternate_screen := alternate_screen t;
                  cursor_hidden := cursor_hidden t; drawn := drawn t |} in
      match leave_alternate_screen td with
      | Err e => (Err e, t)
      | Ok _ =>
          let t := {| raw_mode := false; alternate_screen := false;
                      cursor_hidden := cursor_hidden t; drawn := drawn t |} in
          match show_cursor td with
          | Err e => (Err e, t)
          | Ok _ =>
              (Ok tt, {| raw_mode := false; alternate_screen := false;
                         cursor_hidden := false; drawn := drawn t |})
          end
      end
  end.

(** The first state of the loop: [App::new()] and [last_tick = Instant::now()]. *)
Definition initial (su : Setup) (t : Terminal) : State :=
  {| app := new (app_now su); last_tick := loop_now su; term := t; timeouts := [] |}.

(** How [main] ends: it returns, it panics, or it is still in the loop when the
    answers are used up. *)
Inductive Status : Type :=
| Returned (r : io unit)
| Aborted
| Unfinished.

Definition main (su : Setup) (ticks : list Tick) (td : Teardown) : Status * Terminal :=
  match setup su with
  | (Err e, t) => (Returned (Err e), t)
  | (Ok _, t) =>
      match run ticks (initial su t) with
      | Running s' => (Unfinished, term s')
      | Panicked s' => (Aborted, term s')
      | Failed e s' => (Returned (Err e), term s')
      | Quit s' =>
          let '(r, t') := teardown td (term s') in (Returned r, t')
      end
  end.

End WithLayout2.

(** ** The destructor of the terminal *)

(** [Drop for Terminal] of the terminal library: when the cursor is hidden
    the destructor calls [show_cursor] once more, [again] being the answer;
    an error is printed and otherwise ignored. *)
Definition drop_terminal (again : io unit) (t : Terminal) : Terminal :=
  if cursor_hidden t
  then match again with
       | Ok _ => {| raw_mode := raw_mode t; alternate_screen := alternate_screen t;
                    cursor_hidden := false; drawn := drawn t |}
       | Err _ => t
       end
  else t.

(** The terminal once [main] has ended, by a return or by a panic, and its
    locals have been dropped. *)
Definition after_main (again : io unit) (r : Status * Terminal) : Terminal :=
  match fst r with
  | Unfinished => snd r
  | _ => drop_terminal again (snd r)
  end.

(** ** Well-behaved answers *)

(** An iteration whose calls succeed and that does not read the quit key. *)
Definition quiet (tk : Tick) : bool :=
  match draw_result tk, poll_result tk, read_result tk with
  | Ok _, Ok false, _ => true
  | Ok _, Ok true, Ok OtherEvent => true
  | Ok _, Ok true, Ok (Key (Char c)) => negb (c =? char_q)
  | Ok _, Ok true, Ok (Key _) => true
  | _, _, _ => false
  end.

(** An iteration whose calls succeed and that reads the quit key. *)
Definition quits (tk : Tick) : bool :=
  match draw_result tk, poll_result tk, read_result tk with
  | Ok _, Ok true, Ok (Key (Char c)) => c =? char_q
  | _, _, _ => false
  end.

(** The loop has been left. *)
Definition ended (x : Exit) : bool :=
  match x with Running _ => false | _ => true end.

Definition setup_ok (su : Setup) : bool :=
  match enable_raw_mode su, enter_alternate_screen su, terminal_new su with
  | Ok _, Ok _, Ok _ => true
  | _, _, _ => false
  end.

Definition teardown_ok (td : Teardown) : bool :=
  match disable_raw_mode td, leave_alternate_screen td, show_cursor td with
  | Ok _, Ok _, Ok _ => true
  | _, _, _ => false
  end.

(** The stacking solver as an instance of the interface. *)
#[export] Instance stack_layout : Layout :=
  {| split cs area := stack cs (Tui.x area) (Tui.y area) (width area) (height area) |}.

(** ** The invariant of the loop *)

(** The application state has been reached by handler calls, every timeout
    passed to [poll] is within the tick, and the terminal is in raw mode on
    the alternate screen. *)
Definition loop_inv (s : State) : Prop :=
  reachable (app s) /\
  Forall (fun d => 0 <= d <= tick_rate) (timeouts s) /\
  raw_mode (term s) = true /\ alternate_screen (term s) = true.

(** The loop is left by the quit key only after a draw, which hides the
    cursor. *)
Definition exit_inv (x : Exit) : Prop :=
  loop_inv (state_of x) /\
  match x with
  | Quit s => cursor_hidden (term s) = true
  | _ => True
  end.

(** ** Sample answers *)

Definition all_ok_setup : Setup :=
  {| enable_raw_mode := Ok tt; enter_alternate_screen := Ok tt; terminal_new := Ok tt;
     app_now := 0; loop_now := 1000 |}.

Definition all_ok_teardown : Teardown :=
  {| disable_raw_mode := Ok tt; leave_alternate_screen := Ok tt; show_cursor := Ok tt |}.

(** Answers after the loop of which [show_cursor] fails. *)
Definition cursor_teardown (e : IoError) : Teardown :=
  {| disable_raw_mode := Ok tt; leave_alternate_screen := Ok tt; show_cursor := Err e |}.

(** An iteration at instant [now] on a 12 x 48 screen that reads [event]. *)
Definition key_tick (now : Instant) (event : Event) : Tick :=
  {| draw_result := Ok tt;
     frame_area := {| Tui.x := 0; Tui.y := 0; width := 12; height := 48 |};
     draw_now := now; poll_now := now + 1000000;
     poll_result := Ok true; read_result := Ok event;
     tick_now := now + 2000000; reset_now := now + 2000000 |}.

(** An iteration whose draw fails. *)
Definition broken_tick (now : Instant) (e : IoError) : Tick :=
  {| draw_result := Err e;
     frame_area := {| Tui.x := 0; Tui.y := 0; width := 12; height := 48 |};
     draw_now := now; poll_now := now;
     poll_result := Ok false; read_result := Ok OtherEvent;
     tick_now := now; reset_now := now |}.

End Loop.

Import Tui Demo Str Loop.

(** ** The layout *)

Lemma length_stack cs x y w h : length (stack cs x y w h) = length cs.
Proof.
  revert y h. induction cs as [|[n] cs IH]; intros y h; cbn; [reflexivity|now rewrite IH].
Qed.

#[export] Instance stack_layout_ok : LayoutOk stack_layout.
Proof. constructor. intros cs area. apply length_stack. Qed.

Lemma three_panes {Y : Layout} {YOk : LayoutOk Y} cs area :
  length cs = 3%nat -> exists c0 c1 c2, split cs area = [c0; c1; c2].
Proof.
  intros H. pose proof (split_length cs area) as Hl. rewrite H in Hl.
  destruct (split cs area) as [|c0 [|c1 [|c2 [|c3 l]]]]; try discriminate. eauto.
Qed.

(** ** The screen *)

Section Screen.

Context {Y : Layout} {YOk : LayoutOk Y}.

Lemma ui_some app area now : exists frame, ui [] app area now = Some frame.
Proof.
  destruct (three_panes [Length 3; Length 40; Length 5] area eq_refl) as (c0 & c1 & c2 & E).
  unfold ui. rewrite E. cbn [nth_error]. eauto.
Qed.

(** C37. Whatever the solver, as long as it returns one pane per constraint,
    [ui] never indexes out of range and appends exactly three bordered
    paragraphs to the frame: the title in the first pane, the rings in the
    second (one line per row of that pane) and the controls in the third. *)
Theorem ui_three_panes f app area now :
  exists c0 c1 c2 p0 p1 p2,
    split [Length 3; Length 40; Length 5] area = [c0; c1; c2] /\
    ui f app area now = Some (f ++ [(p0, c0); (p1, c1); (p2, c2)]) /\
    block p0 = Some {| borders := ALL; title := "Visualization" |} /\
    block p1 = Some {| borders := ALL; title := "Concentric Waves" |} /\
    block p2 = Some {| borders := ALL; title := "Info" |} /\
    length (text p1) = Z.to_nat (height c1).
Proof.
  destruct (three_panes [Length 3; Length 40; Length 5] area eq_refl) as (c0 & c1 & c2 & E).
  exists c0, c1, c2. unfold ui. rewrite E. cbn [nth_error].
  unfold Radial.render_concentric_waves, render_widget. rewrite <- !app_assoc. cbn [List.app].
  eexists _, _, _. split; [reflexivity|]. split; [reflexivity|].
  repeat split. cbn [text with_block Paragraph_new]. apply length_collect.
Qed.

(** ** One iteration *)

Lemma draw_cases tk s :
  (exists e, draw tk s = Failed e s /\ draw_result tk = Err e) \/
  (exists frame,
     draw tk s = Running (with_term s
       {| raw_mode := raw_mode (term s); alternate_screen := alternate_screen (term s);
          cursor_hidden := true; drawn := drawn (term s) ++ [frame] |}) /\
     exists u, draw_result tk = Ok u).
Proof.
  unfold draw. destruct (ui_some (app s) (frame_area tk) (draw_now tk)) as [frame ->].
  destruct (draw_result tk) as [u|e]; [right|left]; eauto.
Qed.

End Screen.

(** The timeouts lie within the tick. *)
Lemma timeout_of_range last now : 0 <= timeout_of last now <= tick_rate.
Proof.
  unfold timeout_of, checked_sub, Radial.elapsed, tick_rate.
  destruct (Z.leb_spec (Z.max 0 (now - last)) (50 * 1000000)); lia.
Qed.

Lemma end_of_tick_fields tk s :
  app (end_of_tick tk s) = app s /\ term (end_of_tick tk s) = term s /\
  timeouts (end_of_tick tk s) = timeouts s.
Proof. unfold end_of_tick. destruct (_ <=? _); auto. Qed.

Lemma drawn_end_of_tick tk s : drawn (term (end_of_tick tk s)) = drawn (term s).
Proof. now destruct (end_of_tick_fields tk s) as (_ & -> & _). Qed.

(** ** The invariant *)

Lemma handle_key_reachable a code a' :
  reachable a -> handle_key a code = Some a' -> reachable a'.
Proof.
  intros Hr. destruct code as [c| | | | |]; cbn;
    repeat match goal with |- context [if ?b then _ else _] => destruct b end;
    intros [= <-]; try assumption; eapply reach_step; eauto; constructor.
Qed.

Lemma loop_inv_end_of_tick tk s : loop_inv s -> loop_inv (end_of_tick tk s).
Proof.
  unfold loop_inv. destruct (end_of_tick_fields tk s) as (-> & -> & ->). auto.
Qed.

Lemma poll_and_dispatch_inv {Y : Layout} tk s :
  loop_inv s -> cursor_hidden (term s) = true -> exit_inv (poll_and_dispatch tk s).
Proof.
  intros (Hr & Ht & Hraw & Halt) Hc.
  assert (Hs : loop_inv {| app := app s; last_tick := last_tick s; term := term s;
                           timeouts := timeouts s ++ [timeout_of (last_tick s) (poll_now tk)] |}).
  { repeat split; try assumption. apply Forall_app. split; [assumption|].
    constructor; [apply timeout_of_range|constructor]. }
  unfold poll_and_dispatch, exit_inv.
  destruct (poll_result tk) as [[|]|e]; cbn [state_of];
    [|split; [now apply loop_inv_end_of_tick|exact I]|split; [assumption|exact I]].
  destruct (read_result tk) as [[code|]|e]; cbn [state_of];
    [|split; [now apply loop_inv_end_of_tick|exact I]|split; [assumption|exact I]].
  cbn [app]. destruct (handle_key (app s) code) as [a|] eqn:E; cbn [state_of].
  - split; [|exact I]. apply loop_inv_end_of_tick.
    destruct Hs as (_ & Ht' & _). repeat split; try assumption.
    now apply (handle_key_reachable (app s) code).
  - split; assumption.
Qed.

Lemma iteration_inv {Y : Layout} {YOk : LayoutOk Y} tk s :
  loop_inv s -> exit_inv (iteration tk s).
Proof.
  intros Hs. unfold iteration.
  destruct (draw_cases tk s) as [(e & -> & _)|(frame & -> & _)].
  - split; [assumption|exact I].
  - apply poll_and_dispatch_inv; [|reflexivity].
    destruct Hs as (Hr & Ht & Hraw & Halt). repeat split; assumption.
Qed.

Lemma run_inv {Y : Layout} {YOk : LayoutOk Y} ticks s :
  loop_inv s -> exit_inv (run ticks s).
Proof.
  revert s. induction ticks as [|tk ticks IH]; intros s Hs; cbn [run].
  - split; [assumption|exact I].
  - pose proof (iteration_inv tk s Hs) as Hx.
    destruct (iteration tk s) as [s'| | |]; try assumption.
    apply IH. apply Hx.
Qed.

(** ** Runs *)

Lemma setup_ok_spec su :
  setup_ok su = true ->
  setup su = (Ok tt, {| raw_mode := true; alternate_screen := true;
                        cursor_hidden := false; drawn := [] |}).
Proof.
  unfold setup_ok, setup.
  destruct (enable_raw_mode su) as [[]|], (enter_alternate_screen su) as [[]|],
    (terminal_new su) as [[]|]; now intros.
Qed.

Lemma teardown_ok_spec td t :
  teardown_ok td = true ->
  teardown td t = (Ok tt, {| raw_mode := false; alternate_screen := false;
                             cursor_hidden := false; drawn := drawn t |}).
Proof.
  unfold teardown_ok, teardown.
  destruct (disable_raw_mode td) as [[]|], (leave_alternate_screen td) as [[]|],
    (show_cursor td) as [[]|]; now intros.
Qed.

Lemma teardown_result td t :
  (fst (teardown td t) = Ok tt /\ restored (snd (teardown td t)) = true) \/
  (exists e, fst (teardown td t) = Err e /\
     (cursor_hidden t = true -> restored (snd (teardown td t)) = false) /\
     (raw_mode t = true -> alternate_screen t = true -> cursor_hidden t = true ->
      restored (snd (teardown td t)) = false)).
Proof.
  unfold teardown, restored.
  destruct (disable_raw_mode td) as [[]|e1]; [|right; exists e1; cbn; split; [|split];
    [reflexivity| intros ->; now rewrite !andb_false_r | now intros -> ]].
  destruct (leave_alternate_screen td) as [[]|e2]; [|right; exists e2; cbn; split; [|split];
    [reflexivity| intros ->; now rewrite !andb_false_r | now intros _ -> ]].
  destruct (show_cursor td) as [[]|e3]; [now left|right; exists e3; cbn; split; [|split];
    [reflexivity| now intros -> | now intros _ _ -> ]].
Qed.

Section Runs.

Context {Y : Layout} {YOk : LayoutOk Y}.

Lemma iteration_quiet tk s :
  quiet tk = true ->
  exists s', iteration tk s = Running s' /\
             length (drawn (term s')) = S (length (drawn (term s))).
Proof.
  unfold quiet, iteration. intros Hq.
  destruct (draw_cases tk s) as [(e & _ & E)|(frame & -> & _)]; [now rewrite E in Hq|].
  unfold poll_and_dispatch.
  destruct (draw_result tk) as [u|]; [|discriminate].
  assert (Hk : forall code, (match code with Char c => negb (c =? char_q) | _ => true end) = true ->
               exists a, handle_key (app s) code = Some a).
  { intros [c| | | | |]; cbn; eauto. destruct (c =? char_q); [discriminate|].
    destruct (c =? char_n); [eauto|]. destruct (c =? char_p); eauto. }
  destruct (poll_result tk) as [[|]|]; try discriminate;
    [destruct (read_result tk) as [[code|]|]; try discriminate|];
    [cbn [app with_term]; destruct (Hk code) as [a ->];
       [destruct code; try reflexivity; exact Hq|] | |];
    (eexists; split; [reflexivity|]);
    rewrite drawn_end_of_tick; cbn; rewrite length_app; cbn; lia.
Qed.

Lemma iteration_quits tk s :
  quits tk = true ->
  exists s', iteration tk s = Quit s' /\
             length (drawn (term s')) = S (length (drawn (term s))).
Proof.
  unfold quits, iteration. intros Hq.
  destruct (draw_cases tk s) as [(e & _ & E)|(frame & -> & _)]; [now rewrite E in Hq|].
  unfold poll_and_dispatch.
  destruct (draw_result tk) as [u|]; [|discriminate].
  destruct (poll_result tk) as [[|]|]; try discriminate.
  destruct (read_result tk) as [[[c| | | | |]|]|]; try discriminate.
  cbn [app with_term handle_key]. rewrite Hq.
  eexists; split; [reflexivity|]. cbn. rewrite length_app. cbn. lia.
Qed.

Lemma run_quiet pre rest s :
  forallb quiet pre = true ->
  exists s', run (pre ++ rest) s = run rest s' /\
             length (drawn (term s')) = (length pre + length (drawn (term s)))%nat.
Proof.
  revert s. induction pre as [|tk pre IH]; intros s Hq; [now exists s|].
  cbn [forallb] in Hq. apply andb_true_iff in Hq as [Hq Hpre].
  destruct (iteration_quiet tk s Hq) as (s1 & E1 & L1).
  destruct (IH s1 Hpre) as (s' & E' & L').
  exists s'. cbn [List.app run length]. rewrite E1. split; [exact E'|lia].
Qed.

End Runs.

(** ** The end of the loop *)

(** An iteration that is not quiet leaves the loop: by the quit key, an
    error or a panic. *)
Lemma iteration_ends {Y : Layout} tk s : quiet tk = false -> ended (iteration tk s) = true.
Proof.
  unfold quiet, iteration, draw, poll_and_dispatch. intros Hq.
  destruct (ui _ _ _ _); [|reflexivity].
  destruct (draw_result tk); [|reflexivity].
  destruct (poll_result tk) as [[|]|]; try discriminate; try reflexivity.
  destruct (read_result tk) as [[[c| | | | |]|]|]; try discriminate; try reflexivity.
  cbn [app with_term handle_key]. apply negb_false_iff in Hq. now rewrite Hq.
Qed.

(** The loop ends at the first iteration that is not quiet, whatever the
    environment would have answered afterwards. *)
Lemma run_ends_at {Y : Layout} pre tk post s :
  quiet tk = false ->
  ended (run (pre ++ tk :: post) s) = true /\
  forall post', run (pre ++ tk :: post') s = run (pre ++ tk :: post) s.
Proof.
  intros Hq. revert s. induction pre as [|t pre IH]; intros s; cbn [List.app run].
  - pose proof (iteration_ends tk s Hq) as E.
    destruct (iteration tk s); [discriminate|now split..].
  - destruct (iteration t s); [apply IH|now split..].
Qed.

Lemma first_not_quiet ticks :
  existsb (fun tk => negb (quiet tk)) ticks = true ->
  exists pre tk post, ticks = pre ++ tk :: post /\ forallb quiet pre = true /\ quiet tk = false.
Proof.
  induction ticks as [|t ticks IH]; [discriminate|]. cbn [existsb]. intros H.
  destruct (quiet t) eqn:Hq.
  - destruct (IH H) as (pre & tk & post & -> & Hpre & Htk).
    exists (t :: pre), tk, post. cbn [forallb]. now rewrite Hq.
  - now exists [], t, ticks.
Qed.

Lemma run_ends {Y : Layout} ticks s :
  existsb (fun tk => negb (quiet tk)) ticks = true ->
  ended (run ticks s) = true /\ forall more, run (ticks ++ more) s = run ticks s.
Proof.
  intros H. destruct (first_not_quiet ticks H) as (pre & tk & post & -> & _ & Hq).
  destruct (run_ends_at pre tk post s Hq) as [He Hi]. split; [exact He|].
  intros more. rewrite <- app_assoc. cbn [List.app]. apply Hi.
Qed.

(** ** After the destructor *)

(** The destructor touches the cursor only. *)
Lemma drop_terminal_modes again t :
  raw_mode (drop_terminal again t) = raw_mode t /\
  alternate_screen (drop_terminal again t) = alternate_screen t /\
  drawn (drop_terminal again t) = drawn t.
Proof. unfold drop_terminal. now destruct (cursor_hidden t), again. Qed.

Lemma drop_terminal_restored again t : restored t = true -> drop_terminal again t = t.
Proof.
  unfold restored, drop_terminal. destruct (cursor_hidden t); [|reflexivity].
  now rewrite andb_false_r.
Qed.

(** A terminal in raw mode or on the alternate screen is not restored by
    the destructor. *)
Lemma drop_terminal_unrestored again t :
  raw_mode t = true \/ alternate_screen t = true ->
  restored (drop_terminal again t) = false.
Proof.
  intros H. destruct (drop_terminal_modes again t) as (Hr & Ha & _).
  unfold restored. rewrite Hr, Ha. destruct H as [-> | ->]; [reflexivity|].
  now rewrite andb_false_r.
Qed.

(** What the three restoring calls leave when one of them fails: raw mode
    or the alternate screen, or else only the hidden cursor, the failing
    call being [show_cursor]. *)
Lemma teardown_failed td t e :
  raw_mode t = true -> alternate_screen t = true -> cursor_hidden t = true ->
  fst (teardown td t) = Err e ->
  (raw_mode (snd (teardown td t)) = true \/ alternate_screen (snd (teardown td t)) = true) \/
  (show_cursor td = Err e /\
   snd (teardown td t) = {| raw_mode := false; alternate_screen := false;
                            cursor_hidden := true; drawn := drawn t |}).
Proof.
  intros Hr Ha Hc. unfold teardown.
  destruct (disable_raw_mode td) as [[]|e1]; [|cbn; auto].
  destruct (leave_alternate_screen td) as [[]|e2]; [|cbn; auto].
  destruct (show_cursor td) as [[]|e3]; [discriminate|].
  cbn. intros [= ->]. right. now rewrite Hc.
Qed.

(** After a return of [Ok(())] the destructor has nothing to do. *)
Theorem main_ok_after_drop {Y : Layout} su ticks td again :
  fst (main su ticks td) = Returned (Ok tt) ->
  after_main again (main su ticks td) = snd (main su ticks td).
Proof.
  unfold after_main. intros H. rewrite H. apply drop_terminal_restored. revert H.
  unfold main. destruct (setup su) as [[[]|e] t]; [|discriminate].
  destruct (run ticks _) as [s|s|e s|s]; try discriminate.
  destruct (teardown_result td (term s)) as [[E R]|(e & E & _)];
    destruct (teardown td (term s)) as [r t']; cbn in *; subst; [auto|discriminate].
Qed.

(** After an error return the destructor leaves raw mode and the alternate
    screen as they are.  The terminal ends up restored in one case only: the
    failing call was the final [show_cursor] and the destructor's second
    attempt succeeded. *)
Theorem main_error_after_drop {Y : Layout} {YOk : LayoutOk Y} su ticks td again e :
  enable_raw_mode su = Ok tt ->
  fst (main su ticks td) = Returned (Err e) ->
  restored (after_main again (main su ticks td)) = false \/
  (show_cursor td = Err e /\ again = Ok tt /\
   restored (after_main again (main su ticks td)) = true).
Proof.
  intros Hraw. unfold after_main, main, setup. rewrite Hraw.
  destruct (enter_alternate_screen su) as [[]|e1];
    [|intros _; left; apply drop_terminal_unrestored; now left].
  destruct (terminal_new su) as [[]|e2];
    [|intros _; left; apply drop_terminal_unrestored; now left].
  match goal with |- context [run ticks ?s0] =>
    assert (H0 : loop_inv s0) by (repeat split; [apply reach_new|constructor]);
    pose proof (run_inv ticks s0 H0) as [(_ & _ & Hr & Ha) Hc];
    destruct (run ticks s0) as [s|s|e' s|s] end; try discriminate; cbn [state_of] in *.
  - pose proof (teardown_failed td (term s) e Hr Ha Hc) as Ht.
    destruct (teardown td (term s)) as [r t']. cbn [fst snd] in *.
    intros [= ->]. destruct (Ht eq_refl) as [Hm|[Hs ->]].
    + left. now apply drop_terminal_unrestored.
    + destruct again as [[]|e2]; [right|left]; auto.
  - intros _. left. apply drop_terminal_unrestored. now left.
Qed.

Example main_error_after_drop_example :
  let r := main (Y := stack_layout) all_ok_setup [key_tick 0 (Key (Char char_q))]
             (cursor_teardown (io_error 5)) in
  fst r = Returned (Err (io_error 5)) /\ restored (snd r) = false /\
  restored (after_main (Ok tt) r) = true.
Proof. vm_compute. auto. Qed.

(** ** Theorems *)

Lemma ui_three_panes_witness :
  exists c0 c1 c2 p0 p1 p2,
    split [Length 3; Length 40; Length 5] {| Tui.x := 0; Tui.y := 0; width := 12; height := 48 |}
      = [c0; c1; c2] /\
    ui [] (new 0) {| Tui.x := 0; Tui.y := 0; width := 12; height := 48 |} 5
      = Some ([] ++ [(p0, c0); (p1, c1); (p2, c2)]) /\
    block p0 = Some {| borders := ALL; title := "Visualization" |} /\
    block p1 = Some {| borders := ALL; title := "Concentric Waves" |} /\
    block p2 = Some {| borders := ALL; title := "Info" |} /\
    length (text p1) = Z.to_nat (height c1).
Proof. exact (@ui_three_panes stack_layout stack_layout_ok [] (new 0) _ 5). Defined.

(** C36. When [main] returns [Ok(())] the terminal is restored: raw mode is
    off, the alternate screen is left and the cursor is shown. *)
Theorem main_ok_restored {Y : Layout} su ticks td :
  fst (main su ticks td) = Returned (Ok tt) ->
  restored (snd (main su ticks td)) = true.
Proof.
  unfold main. destruct (setup su) as [[[]|e] t]; [|discriminate].
  destruct (run ticks _) as [s|s|e s|s]; try discriminate.
  destruct (teardown_result td (term s)) as [[E R]|(e & E & _)];
    destruct (teardown td (term s)) as [r t']; cbn in *; subst; [auto|discriminate].
Qed.

Lemma main_ok_restored_witness :
  restored (snd (main all_ok_setup [key_tick 0 (Key (Char char_q))] all_ok_teardown)) = true.
Proof. apply (main_ok_restored (Y := stack_layout)). vm_compute. reflexivity. Defined.

(** C8. The program ends when the quit key arrives: if every call succeeds,
    the iterations before the one that reads [q] are run one after the other,
    [main] returns [Ok(())] with the terminal restored, and one frame has been
    drawn per iteration, the last one included. *)
Theorem main_quits {Y : Layout} {YOk : LayoutOk Y} su pre tq post td :
  setup_ok su = true -> teardown_ok td = true ->
  forallb quiet pre = true -> quits tq = true ->
  exists t,
    main su (pre ++ tq :: post) td = (Returned (Ok tt), t) /\
    restored t = true /\ length (drawn t) = S (length pre).
Proof.
  intros Hsu Htd Hpre Hq. unfold main. rewrite (setup_ok_spec su Hsu).
  match goal with |- context [run _ ?s0] =>
    destruct (run_quiet pre (tq :: post) s0 Hpre) as (s1 & -> & L1) end.
  cbn [run]. destruct (iteration_quits tq s1 Hq) as (s2 & -> & L2).
  rewrite (teardown_ok_spec td _ Htd). eexists. split; [reflexivity|].
  split; [reflexivity|]. cbn in *. lia.
Qed.

Lemma main_quits_witness :
  exists t,
    main (Y := stack_layout) all_ok_setup
      ([key_tick 0 (Key Up); key_tick 50000000 (Key (Char char_n))]
         ++ key_tick 100000000 (Key (Char char_q)) :: [key_tick 150000000 (Key Down)])
      all_ok_teardown = (Returned (Ok tt), t) /\
    restored t = true /\ length (drawn t) = 3%nat.
Proof. apply (main_quits (Y := stack_layout)); reflexivity. Defined.

(** C7. An error return leaves the terminal unrestored: once raw mode has been
    enabled, whenever [main] returns an error (from entering the alternate
    screen, from creating the terminal, from a draw, a poll or a read inside
    the loop, or from one of the restoring calls) raw mode, the alternate
    screen or the hidden cursor is still in effect. *)
Theorem main_error_unrestored {Y : Layout} {YOk : LayoutOk Y} su ticks td e :
  enable_raw_mode su = Ok tt ->
  fst (main su ticks td) = Returned (Err e) ->
  restored (snd (main su ticks td)) = false.
Proof.
  intros Hraw. unfold main, setup. rewrite Hraw.
  destruct (enter_alternate_screen su) as [[]|e1]; [|reflexivity].
  destruct (terminal_new su) as [[]|e2]; [|reflexivity].
  match goal with |- context [run ticks ?s0] =>
    assert (H0 : loop_inv s0) by (repeat split; [apply reach_new|constructor]);
    pose proof (run_inv ticks s0 H0) as [(_ & _ & Hr & Ha) Hc];
    destruct (run ticks s0) as [s|s|e' s|s] end; try discriminate; cbn [state_of] in *.
  - destruct (teardown_result td (term s)) as [[E R]|(e' & E & _ & R)];
      destruct (teardown td (term s)) as [r t']; cbn in *; subst; [discriminate|auto].
  - intros _. cbn. unfold restored. now rewrite Hr.
Qed.

Lemma main_error_unrestored_witness :
  restored (snd (main (Y := stack_layout) all_ok_setup
                   [key_tick 0 (Key Up); broken_tick 50000000 (io_error 5)]
                   all_ok_teardown)) = false.
Proof.
  apply (main_error_unrestored (Y := stack_layout) _ _ _ (io_error 5)); reflexivity.
Defined.

(** C21. Throughout the loop the application state is one that the handlers
    reach from [App::new()], so the scheme index is below six and the tempo
    is one of 60, 70, ..., 200; every timeout passed to [poll] lies between
    zero and the tick; and the terminal stays in raw mode on the alternate
    screen. *)
Theorem loop_invariant {Y : Layout} {YOk : LayoutOk Y} su t ticks :
  raw_mode t = true -> alternate_screen t = true ->
  let s := state_of (run ticks (initial su t)) in
  reachable (app s) /\ app_ok (app s) /\
  Forall (fun d => 0 <= d <= tick_rate) (timeouts s) /\
  raw_mode (term s) = true /\ alternate_screen (term s) = true.
Proof.
  intros Hr Ha s.
  assert (H0 : loop_inv (initial su t)) by (repeat split; [apply reach_new|constructor|auto..]).
  destruct (run_inv ticks _ H0) as [(H1 & H2 & H3 & H4) _]. fold s in H1, H2, H3, H4.
  split; [assumption|]. split; [|auto].
  split; [now apply reachable_index | now apply reachable_bpm].
Qed.

Lemma loop_invariant_witness :
  let s := state_of (run (Y := stack_layout)
                       [key_tick 0 (Key Up); key_tick 50000000 (Key Left)]
                       (initial all_ok_setup
                          {| raw_mode := true; alternate_screen := true;
                             cursor_hidden := false; drawn := [] |})) in
  reachable (app s) /\ app_ok (app s) /\
  Forall (fun d => 0 <= d <= tick_rate) (timeouts s) /\
  raw_mode (term s) = true /\ alternate_screen (term s) = true.
Proof. apply (loop_invariant (Y := stack_layout)); reflexivity. Defined.

Lemma fmt_bpm_enum :
  forallb (fun k => String.eqb (fmt_f64_0 (F64.of_Z (60 + 10 * k))) (fmt_int (60 + 10 * k)))
          (zrange 15) = true.
Proof. vm_compute. reflexivity. Qed.

(** The tempo shown in the controls is exact: in a state that satisfies the
    invariant of the application, [{:.0}] prints the tempo as one of the
    integers 60, 70, ..., 200, with no rounding. *)
Theorem controls_show_tempo a :
  app_ok a ->
  exists k, 0 <= k < 15 /\ fmt_f64_0 (simulated_bpm a) = fmt_int (60 + 10 * k).
Proof.
  intros [_ Hb]. apply is_bpm_In in Hb. unfold bpm_values in Hb.
  apply in_map_iff in Hb as (k & <- & Hk). exists k. split; [now apply in_zrange in Hk|].
  apply String.eqb_eq. exact (proj1 (forallb_forall _ _) fmt_bpm_enum k Hk).
Qed.

Lemma controls_show_tempo_witness :
  exists k, 0 <= k < 15 /\ fmt_f64_0 (simulated_bpm (increase_bpm (new 0))) = fmt_int (60 + 10 * k).
Proof. apply controls_show_tempo. apply increase_bpm_ok, new_ok. Defined.

(** The timeout passed to [poll] is the rest of the tick: the tick minus
    the time since it began while that is at most the tick, and zero once the
    tick is over. *)
Theorem timeout_is_rest_of_tick last now :
  last <= now ->
  timeout_of last now = Z.max 0 (tick_rate - (now - last)).
Proof.
  intros H. unfold timeout_of, checked_sub, Radial.elapsed, tick_rate.
  destruct (Z.leb_spec (Z.max 0 (now - last)) (50 * 1000000)); lia.
Qed.

Lemma timeout_is_rest_of_tick_witness :
  timeout_of 1000 20001000 = Z.max 0 (tick_rate - (20001000 - 1000)).
Proof. apply timeout_is_rest_of_tick. lia. Defined.

(** C11. The program ends as soon as the environment gives an answer that is
    not quiet (the quit key, a failing draw, poll or read): [main] is then
    not left inside the loop, and what the environment would have answered
    after that iteration does not matter. *)
Theorem main_terminates {Y : Layout} su ticks td :
  existsb (fun tk => negb (quiet tk)) ticks = true ->
  fst (main su ticks td) <> Unfinished /\
  forall more, main su (ticks ++ more) td = main su ticks td.
Proof.
  intros H. unfold main. destruct (setup su) as [[u|e] t]; [|now split].
  destruct (run_ends ticks (initial su t) H) as [He Hi]. split.
  - destruct (run ticks (initial su t)); try discriminate.
    now destruct (teardown td _).
  - intros more. now rewrite Hi.
Qed.

Lemma main_terminates_witness :
  let ticks := [key_tick 0 (Key Up); key_tick 50000000 (Key (Char char_q));
                key_tick 100000000 (Key Down)] in
  fst (main (Y := stack_layout) all_ok_setup ticks all_ok_teardown) <> Unfinished /\
  forall more, main (Y := stack_layout) all_ok_setup (ticks ++ more) all_ok_teardown
               = main (Y := stack_layout) all_ok_setup ticks all_ok_teardown.
Proof.
  apply (main_terminates (Y := stack_layout) all_ok_setup
           [key_tick 0 (Key Up); key_tick 50000000 (Key (Char char_q));
            key_tick 100000000 (Key Down)] all_ok_teardown).
  reflexivity.
Defined.
