(* ===== verification/Effects.v ===== *)
(** * The effects placeholder of [ui/effects.rs]

    With the [fx] feature [EffectsState] holds the instant of the last update
    and reports the time since; without it the state is a unit with no-op
    [update] and [clear], and [ProgressBarEffect] has the single value [None].
    Both variants are instances of one interface. *)

From Stdlib Require Import ZArith Lia Bool List.
From S2P Require Import Prelude.
#[local] Open Scope Z_scope.

Module Effects.

(** An [Instant] and a [Duration], in nanoseconds. *)
Definition Instant : Type := Z.
Definition Duration : Type := Z.

(** [later.duration_since(earlier)]: zero when [earlier] is the later one. *)
Definition duration_since (later earlier : Instant) : Duration := Z.max 0 (later - earlier).

(** ** With the [fx] feature *)

Module Fx.

Record EffectsState : Type := { last_update : Instant }.

(** [EffectsState::default()], given the instant the clock shows. *)
Definition default (now : Instant) : EffectsState := {| last_update := now |}.

(** [self.elapsed()], given the instant the clock shows. *)
Definition elapsed (self : EffectsState) (now : Instant) : Duration :=
  duration_since now (last_update self).

End Fx.

(** ** Without the [fx] feature *)

Module Stub.

Inductive EffectsState : Type := EffectsState_unit.

Definition default : EffectsState := EffectsState_unit.

Definition update (self : EffectsState) : EffectsState := self.
Definition clear (self : EffectsState) : EffectsState := self.

Inductive ProgressBarEffect : Type := None.

Definition ProgressBarEffect_default : ProgressBarEffect := None.

End Stub.

(** What both variants provide: a state that can be created at an instant. *)
Class EffectsApi (S : Type) : Type := { create : Instant -> S }.

#[export] Instance fx_api : EffectsApi Fx.EffectsState := {| create := Fx.default |}.
#[export] Instance stub_api : EffectsApi Stub.EffectsState := {| create := fun _ => Stub.default |}.

End Effects.

Import Effects.

(** The time since the last update is never negative, is zero at the
    instant of creation, and grows with the clock. *)
Theorem effects_elapsed_monotone created now later :
  now <= later ->
  0 <= Fx.elapsed (Fx.default created) now <= Fx.elapsed (Fx.default created) later /\
  Fx.elapsed (Fx.default created) created = 0.
Proof. unfold Fx.elapsed, Fx.default, duration_since. cbn. lia. Qed.

Lemma effects_elapsed_monotone_witness :
  0 <= Fx.elapsed (Fx.default 10) 25 <= Fx.elapsed (Fx.default 10) 40 /\
  Fx.elapsed (Fx.default 10) 10 = 0.
Proof. apply effects_elapsed_monotone. lia. Defined.

(** Without the feature the state has a single value, so [update] and
    [clear] change nothing and any two states are equal. *)
Theorem effects_stub_noop (s s' : Stub.EffectsState) :
  Stub.update s = s /\ Stub.clear s = s /\ s = s'.
Proof. now destruct s, s'. Qed.
