(* ===== verification/Compositor.v ===== *)
(** * Compositing widgets into terminal cells

    What the terminal library does with the paragraphs the renderers hand to
    [render_widget]: a block draws its border on the rim of the area and its
    title on the top row, and lays the text out in the inner area, one cell
    per character, clipping what does not fit (no wrapping, no scrolling).
    A buffer is a partial function from screen positions to cells; a widget
    rendered later lies over what was rendered before.  The model follows the
    library's documented behaviour for left-aligned text of characters one
    cell wide, which is all the renderers produce. *)

From Stdlib Require Import String ZArith Lia Bool List Morphisms RelationClasses.
From S2P Require Import Prelude Widget Text.
Import ListNotations.
#[local] Open Scope Z_scope.

Module Screen.

Import Tui Str.

(** A terminal cell: its symbol and style. *)
Definition Cell : Type := (char * Style)%type.

(** The content of a buffer: the cell at column [sx] and row [sy], if one
    has been written. *)
Definition Layer : Type := Z -> Z -> option Cell.

Definition empty : Layer := fun _ _ => None.

(** [top] written after [under]. *)
Definition over (top under : Layer) : Layer :=
  fun sx sy => match top sx sy with Some c => Some c | None => under sx sy end.

(** Buffers are compared cell by cell. *)
Definition layer_eq (a b : Layer) : Prop := forall sx sy, a sx sy = b sx sy.

(** [Rect::right], [Rect::bottom] and [Rect::is_empty]. *)
Definition right (r : Rect) : Z := Z.min u16_max (x r + width r).
Definition bottom (r : Rect) : Z := Z.min u16_max (y r + height r).
Definition is_empty (r : Rect) : bool := (width r =? 0) || (height r =? 0).

(** The position lies in the rectangle. *)
Definition inside (r : Rect) (sx sy : Z) : bool :=
  (x r <=? sx) && (sx <? x r + width r) && (y r <=? sy) && (sy <? y r + height r).

(** [Block::inner]: a border takes one cell on each side; without a border
    the title still takes the top row. *)
Definition inner (b : Block) (area : Rect) : Rect :=
  match borders b with
  | ALL =>
      {| x := Z.min (Z.min u16_max (x area + 1)) (right area);
         y := Z.min (Z.min u16_max (y area + 1)) (bottom area);
         width := saturating_sub (saturating_sub (width area) 1) 1;
         height := saturating_sub (saturating_sub (height area) 1) 1 |}
  | NONE =>
      {| x := x area;
         y := Z.min (Z.min u16_max (y area + 1)) (bottom area);
         width := width area;
         height := saturating_sub (height area) 1 |}
  end.

(** The cells of a line: one per character, in the style of its span. *)
Definition glyphs (l : Line) : list Cell :=
  flat_map (fun s => map (fun c => (c, style s)) (content s)) l.

(** The text of a paragraph in [area]: line [i] on row [i] of the area. *)
Definition text_layer (text : list Line) (area : Rect) : Layer :=
  fun sx sy =>
    if inside area sx sy
    then nth_error (glyphs (nth (Z.to_nat (sy - y area)) text [])) (Z.to_nat (sx - x area))
    else None.

(** The symbols of a plain border. *)
Definition horizontal : char := 9472.
Definition vertical : char := 9474.
Definition top_left : char := 9484.
Definition top_right : char := 9488.
Definition bottom_left : char := 9492.
Definition bottom_right : char := 9496.

Definition plain (c : char) : Cell := (c, Style_default).

(** The border of [area]: the sides are drawn left, top, right, bottom and
    the corners last, so in an area one cell wide or high the later symbol
    shows. *)
Definition border_layer (area : Rect) : Layer :=
  fun sx sy =>
    if negb (inside area sx sy) then None
    else
      let l := x area in
      let t := y area in
      let r := x area + width area - 1 in
      let b := y area + height area - 1 in
      if (sx =? l) && (sy =? t) then Some (plain top_left)
      else if (sx =? l) && (sy =? b) then Some (plain bottom_left)
      else if (sx =? r) && (sy =? t) then Some (plain top_right)
      else if (sx =? r) && (sy =? b) then Some (plain bottom_right)
      else if sy =? b then Some (plain horizontal)
      else if sx =? r then Some (plain vertical)
      else if sy =? t then Some (plain horizontal)
      else if sx =? l then Some (plain vertical)
      else None.

(** The symbols of a block: the six of the border and the bytes of the title. *)
Definition block_symbol (c : char) : Prop :=
  In c [horizontal; vertical; top_left; top_right; bottom_left; bottom_right] \/ 0 <= c < 256.

(** The area of a title on the top row: between the corners of a border. *)
Definition title_area (b : Block) (area : Rect) : Rect :=
  match borders b with
  | ALL =>
      {| x := Z.min u16_max (x area + 1); y := y area;
         width := saturating_sub (width area) 2; height := 1 |}
  | NONE => {| x := x area; y := y area; width := width area; height := 1 |}
  end.

(** [Block::render]: nothing in an empty area; the border, then the title
    as one unstyled line. *)
Definition block_layer (b : Block) (area : Rect) : Layer :=
  if is_empty area then empty
  else
    let title := text_layer [Line_raw (chars_of (title b))] (title_area b area) in
    match borders b with
    | ALL => over title (border_layer area)
    | NONE => title
    end.

(** [Paragraph::render]: the block, then the text in the inner area. *)
Definition paragraph_layer (p : Paragraph) (area : Rect) : Layer :=
  match block p with
  | None => text_layer (text p) area
  | Some b => over (text_layer (text p) (inner b area)) (block_layer b area)
  end.

(** The buffer after the widgets of a frame have been rendered in order. *)
Definition screen (f : Frame) : Layer :=
  fold_left (fun buf '(p, area) => over (paragraph_layer p area) buf) f empty.

(** The rectangle does not reach past the last column and row of a [u16]
    screen. *)
Definition on_screen (r : Rect) : Prop :=
  rect_ok r /\ x r + width r <= u16_max /\ y r + height r <= u16_max.

(** The cell shows the glyph [c]. *)
Definition cell_is (c : char) (o : option Cell) : bool :=
  match o with Some (c', _) => c' =? c | None => false end.

(** The number of rows of [area] in which column [sx] of the buffer shows
    the glyph [c]. *)
Definition count_in_column (c : char) (buf : Layer) (area : Rect) (sx : Z) : nat :=
  length (filter (fun i => cell_is c (buf sx (y area + i))) (zrange (Z.to_nat (height area)))).

End Screen.

Import Tui Str Screen.

(** ** Buffers up to cell-wise equality *)

#[export] Instance layer_eq_equiv : Equivalence layer_eq.
Proof.
  split; [intros a sx sy; reflexivity | intros a b H sx sy; symmetry; apply H|].
  intros a b c H1 H2 sx sy. now rewrite H1.
Qed.

#[export] Instance over_proper : Proper (layer_eq ==> layer_eq ==> layer_eq) over.
Proof. intros a a' Ha b b' Hb sx sy. unfold over. now rewrite Ha, Hb. Qed.

Lemma over_assoc a b c : layer_eq (over a (over b c)) (over (over a b) c).
Proof. intros sx sy. unfold over. now destruct (a sx sy). Qed.

Lemma over_empty_l a : layer_eq (over empty a) a.
Proof. intros sx sy. reflexivity. Qed.

Lemma over_empty_r a : layer_eq (over a empty) a.
Proof. intros sx sy. unfold over, empty. now destruct (a sx sy). Qed.

Lemma over_idem a : layer_eq (over a a) a.
Proof. intros sx sy. unfold over. now destruct (a sx sy). Qed.

(** Rendering one more widget lays it over the screen so far. *)
Lemma screen_app f g :
  layer_eq (screen (f ++ g))
           (fold_left (fun buf '(p, area) => over (paragraph_layer p area) buf) g (screen f)).
Proof. unfold screen. rewrite fold_left_app. reflexivity. Qed.

Lemma screen_render_widget f p area :
  screen (render_widget f p area) = over (paragraph_layer p area) (screen f).
Proof. unfold render_widget, screen. now rewrite fold_left_app. Qed.

(** ** Nothing is drawn outside the area *)

Ltac unfold_rect :=
  unfold on_screen, rect_ok, inside, inner, title_area, right, bottom, is_empty,
    saturating_sub in *;
  cbn [x y width height borders] in *; unfold_u8.

Ltac bool_lia :=
  repeat match goal with
  | H : _ && _ = true |- _ => apply andb_true_iff in H; destruct H
  | H : _ || _ = false |- _ => apply orb_false_iff in H; destruct H
  | H : negb _ = false |- _ => apply negb_false_iff in H
  | |- _ && _ = true => apply andb_true_iff; split
  | |- _ && _ = false => apply andb_false_iff
  end;
  rewrite ?Z.leb_le, ?Z.ltb_lt, ?Z.eqb_eq, ?Z.eqb_neq, ?Z.leb_gt, ?Z.ltb_ge in *;
  try lia.

Lemma inside_spec r sx sy :
  inside r sx sy = true <-> x r <= sx < x r + width r /\ y r <= sy < y r + height r.
Proof. unfold inside. rewrite !andb_true_iff, !Z.leb_le, !Z.ltb_lt. lia. Qed.

Lemma inside_inner b area sx sy :
  rect_ok area -> inside (inner b area) sx sy = true -> inside area sx sy = true.
Proof.
  intros Hok. rewrite !inside_spec. destruct b as [[|] t]; unfold_rect; lia.
Qed.

Lemma inside_title_area b area sx sy :
  rect_ok area -> is_empty area = false ->
  inside (title_area b area) sx sy = true -> inside area sx sy = true /\ sy = y area.
Proof.
  intros Hok He. rewrite !inside_spec. destruct b as [[|] t]; unfold_rect; bool_lia.
Qed.

Lemma text_layer_inside text area sx sy c :
  text_layer text area sx sy = Some c -> inside area sx sy = true.
Proof. unfold text_layer. now destruct (inside area sx sy). Qed.

Lemma border_layer_inside area sx sy c :
  border_layer area sx sy = Some c -> inside area sx sy = true.
Proof. unfold border_layer. now destruct (inside area sx sy). Qed.

Lemma over_some a b sx sy c :
  over a b sx sy = Some c -> a sx sy = Some c \/ b sx sy = Some c.
Proof. unfold over. destruct (a sx sy); auto. Qed.

Lemma block_layer_inside b area sx sy c :
  rect_ok area -> block_layer b area sx sy = Some c -> inside area sx sy = true.
Proof.
  intros Hok. unfold block_layer. destruct (is_empty area) eqn:He; [discriminate|].
  assert (Ht : forall c, text_layer [Line_raw (chars_of (title b))] (title_area b area) sx sy
                         = Some c -> inside area sx sy = true).
  { intros c' H. apply text_layer_inside in H. now apply inside_title_area in H. }
  destruct (borders b); [apply Ht|].
  intros H. apply over_some in H as [H|H]; [now apply Ht in H | now apply border_layer_inside in H].
Qed.

Lemma paragraph_inside p area sx sy c :
  rect_ok area -> paragraph_layer p area sx sy = Some c -> inside area sx sy = true.
Proof.
  intros Hok. unfold paragraph_layer. destruct (block p) as [b|]; [|apply text_layer_inside].
  intros H. apply over_some in H as [H|H]; [|now apply block_layer_inside in H].
  apply text_layer_inside in H. now apply inside_inner in H.
Qed.

(** ** Where the text shows *)

(** Inside the inner area a bordered block has drawn nothing. *)
Lemma block_layer_interior b area sx sy :
  on_screen area -> borders b = ALL -> inside (inner b area) sx sy = true ->
  block_layer b area sx sy = None.
Proof.
  intros Hon Hb Hin. unfold block_layer. rewrite Hb.
  destruct (is_empty area) eqn:He; [reflexivity|].
  apply inside_spec in Hin. unfold inner in Hin. rewrite Hb in Hin.
  unfold over, text_layer, border_layer.
  replace (inside (title_area b area) sx sy) with false
    by (symmetry; unfold title_area; rewrite Hb; unfold_rect; bool_lia).
  replace (inside area sx sy) with true by (symmetry; unfold_rect; bool_lia).
  cbn [negb]. unfold_rect.
  repeat match goal with |- context [?a =? ?b] =>
    replace (a =? b) with false by (symmetry; apply Z.eqb_neq; lia) end.
  reflexivity.
Qed.

(** The cell of line [i] and column [j] of the text of a bordered paragraph
    is the cell one row and one column further in, provided it is among the
    first [height - 2] lines and [width - 2] columns. *)
Lemma bordered_text_cell p b area i j :
  on_screen area -> block p = Some b -> borders b = ALL ->
  0 <= i < height area - 2 -> 0 <= j < width area - 2 ->
  paragraph_layer p area (x area + 1 + j) (y area + 1 + i)
  = nth_error (glyphs (nth (Z.to_nat i) (text p) [])) (Z.to_nat j).
Proof.
  intros Hon Hp Hb Hi Hj. unfold paragraph_layer. rewrite Hp. unfold over.
  assert (Hin : inside (inner b area) (x area + 1 + j) (y area + 1 + i) = true).
  { apply inside_spec. unfold inner. rewrite Hb. unfold_rect. lia. }
  rewrite (block_layer_interior b area _ _ Hon Hb Hin).
  unfold text_layer. rewrite Hin.
  replace (y area + 1 + i - y (inner b area)) with i
    by (unfold inner; rewrite Hb; unfold_rect; lia).
  replace (x area + 1 + j - x (inner b area)) with j
    by (unfold inner; rewrite Hb; unfold_rect; lia).
  now destruct (nth_error _ _).
Qed.

(** Outside the first [height - 2] lines and [width - 2] columns the text of
    a bordered paragraph shows nowhere: the cell that would hold it is the
    border's, or lies outside the area. *)
Lemma bordered_text_clipped p b area sx sy :
  on_screen area -> block p = Some b -> borders b = ALL ->
  ~ (x area + 1 <= sx < x area + width area - 1 /\ y area + 1 <= sy < y area + height area - 1) ->
  paragraph_layer p area sx sy = block_layer b area sx sy.
Proof.
  intros Hon Hp Hb Hout. unfold paragraph_layer. rewrite Hp. unfold over, text_layer.
  replace (inside (inner b area) sx sy) with false; [reflexivity|].
  symmetry. apply not_true_is_false. rewrite inside_spec. unfold inner. rewrite Hb.
  unfold_rect. lia.
Qed.

(** Without a block every line and column of the text within the area shows
    where it is. *)
Lemma plain_text_cell ls area i j :
  0 <= i < height area -> 0 <= j < width area ->
  paragraph_layer (Paragraph_new ls) area (x area + j) (y area + i)
  = nth_error (glyphs (nth (Z.to_nat i) ls [])) (Z.to_nat j).
Proof.
  intros Hi Hj. unfold paragraph_layer, Paragraph_new. cbn [block text]. unfold text_layer.
  replace (inside area (x area + j) (y area + i)) with true
    by (symmetry; apply inside_spec; lia).
  now replace (y area + i - y area) with i by lia; replace (x area + j - x area) with j by lia.
Qed.

(** A line of one-character spans has one cell per span. *)
Lemma glyphs_single (l : Line) :
  Forall (fun s => length (content s) = 1%nat) l ->
  glyphs l = map (fun s => (hd 0 (content s), style s)) l.
Proof.
  induction 1 as [|s l Hs _ IH]; [reflexivity|].
  change (glyphs (s :: l)) with (map (fun c => (c, style s)) (content s) ++ glyphs l).
  rewrite IH. cbn [map]. destruct (content s) as [|c [|c' r]]; try discriminate. reflexivity.
Qed.

Lemma glyphs_Line_raw cs : glyphs (Line_raw cs) = map plain cs.
Proof. destruct cs as [|c cs]; [reflexivity|]. cbn. now rewrite app_nil_r. Qed.

(** The cell of row [i] and column [j] of a grid of one-character spans. *)
Lemma grid_line_cell h w (f : Z -> Z -> Span) i j :
  (forall i j, length (content (f i j)) = 1%nat) ->
  0 <= i < Z.of_nat h -> 0 <= j < Z.of_nat w ->
  nth_error (glyphs (nth (Z.to_nat i) (grid_by_index h w f) [])) (Z.to_nat j)
  = Some (hd 0 (content (f i j)), style (f i j)).
Proof.
  intros Hf Hi Hj. rewrite nth_grid_by_index by lia. rewrite glyphs_single.
  - rewrite map_map, nth_error_map.
    rewrite (nth_error_nth' _ 0) by (rewrite length_zrange; lia).
    rewrite nth_zrange by lia. cbn [option_map]. now rewrite !Z2Nat.id by lia.
  - apply Forall_forall. intros s Hs. apply in_map_iff in Hs as (k & <- & _). apply Hf.
Qed.

(** ** What a block draws *)

Lemma chars_of_range s : Forall (fun c => 0 <= c < 256) (chars_of s).
Proof.
  induction s as [|a s IH]; constructor; [|assumption].
  pose proof (Ascii.N_ascii_bounded a). lia.
Qed.

Lemma border_layer_symbol area sx sy c st :
  border_layer area sx sy = Some (c, st) -> block_symbol c.
Proof.
  unfold border_layer. intros H. left.
  repeat match type of H with
         | (if ?b then _ else _) = _ => destruct b
         end; try discriminate; inversion H; subst; cbn; auto 10.
Qed.

Lemma title_layer_symbol t area sx sy c st :
  text_layer [Line_raw (chars_of t)] area sx sy = Some (c, st) -> block_symbol c.
Proof.
  unfold text_layer. destruct (inside area sx sy); [|discriminate].
  destruct (Z.to_nat (sy - y area)) as [|n]; cbn [nth].
  2: { destruct n; cbn; destruct (Z.to_nat _); discriminate. }
  rewrite glyphs_Line_raw, nth_error_map.
  match goal with |- context [option_map _ ?o] => destruct o as [c'|] eqn:E end;
    cbn [option_map plain]; intros H; inversion H; subst.
  right. apply nth_error_In in E.
  exact (proj1 (Forall_forall _ _) (chars_of_range t) _ E).
Qed.

Lemma block_layer_symbol b area sx sy c st :
  block_layer b area sx sy = Some (c, st) -> block_symbol c.
Proof.
  unfold block_layer. destruct (is_empty area); [discriminate|].
  destruct (borders b); [apply title_layer_symbol|].
  intros H. apply over_some in H as [H|H];
    [now apply title_layer_symbol in H | now apply border_layer_symbol in H].
Qed.

(** A glyph that is no symbol of a block shows nowhere in one. *)
Lemma block_layer_glyph b area sx sy c :
  ~ block_symbol c -> cell_is c (block_layer b area sx sy) = false.
Proof.
  intros Hc. destruct (block_layer b area sx sy) as [[c' st]|] eqn:E; [|reflexivity].
  apply block_layer_symbol in E. cbn. apply Z.eqb_neq. congruence.
Qed.

(** On the rim of its area a border always shows a symbol. *)
Lemma border_rim area sx sy :
  inside area sx sy = true ->
  sx = x area \/ sx = x area + width area - 1 \/ sy = y area \/ sy = y area + height area - 1 ->
  exists c, border_layer area sx sy = Some c.
Proof.
  intros Hin Hrim. unfold border_layer. rewrite Hin. cbn [negb].
  repeat match goal with
         | |- exists c, (if ?b then _ else _) = Some c => destruct b eqn:?
         | |- exists c, Some _ = Some c => eexists; reflexivity
         end.
  exfalso. bool_lia.
Qed.

(** On the rim of a bordered paragraph a symbol of the block shows. *)
Lemma bordered_rim p b area sx sy :
  on_screen area -> block p = Some b -> borders b = ALL ->
  inside area sx sy = true ->
  sx = x area \/ sx = x area + width area - 1 \/ sy = y area \/ sy = y area + height area - 1 ->
  exists c st, paragraph_layer p area sx sy = Some (c, st) /\ block_symbol c.
Proof.
  intros Hon Hp Hb Hin Hrim.
  rewrite (bordered_text_clipped p b) by (auto; lia).
  destruct (border_rim area sx sy Hin Hrim) as (c0 & Hc).
  destruct (block_layer b area sx sy) as [[c st]|] eqn:E.
  - exists c, st. split; [reflexivity|]. now apply block_layer_symbol in E.
  - exfalso. unfold block_layer in E. rewrite Hb in E.
    apply inside_spec in Hin.
    replace (is_empty area) with false in E by (symmetry; unfold is_empty; bool_lia).
    unfold over in E. rewrite Hc in E. now destruct (text_layer _ _ _ _).
Qed.

(** So a glyph that is no symbol of a block does not show on the rim,
    whatever was on the screen before. *)
Lemma bordered_rim_glyph p b area under sx sy c :
  on_screen area -> block p = Some b -> borders b = ALL ->
  inside area sx sy = true ->
  sx = x area \/ sx = x area + width area - 1 \/ sy = y area \/ sy = y area + height area - 1 ->
  ~ block_symbol c ->
  cell_is c (over (paragraph_layer p area) under sx sy) = false.
Proof.
  intros Hon Hp Hb Hin Hrim Hc.
  destruct (bordered_rim p b area sx sy Hon Hp Hb Hin Hrim) as (c' & st & E & Hs).
  unfold over. rewrite E. cbn. apply Z.eqb_neq. congruence.
Qed.

(** Counting a glyph in a column of the screen, given where it shows. *)
Lemma count_in_column_eq c buf area sx k (g : bool) :
  rect_ok area ->
  (forall i, 0 <= i < height area -> cell_is c (buf sx (y area + i)) = (i =? k) && g) ->
  count_in_column c buf area sx
  = if g && ((0 <=? k) && (k <? height area)) then 1%nat else 0%nat.
Proof.
  intros Hok H. unfold count_in_column.
  rewrite (filter_ext_in _ (fun i => (i =? k) && g)).
  - rewrite count_eq_zrange_if. destruct Hok as (_ & _ & _ & Hh). unfold in_u16 in Hh.
    now rewrite Z2Nat.id by lia.
  - intros i Hi. apply in_zrange in Hi. apply H. lia.
Qed.

(** ** The frame rule *)

(** Rendering a widget changes the screen only inside the widget's
    area: every cell outside it is what it was before. *)
Theorem render_widget_frame f p area sx sy :
  rect_ok area -> inside area sx sy = false ->
  screen (render_widget f p area) sx sy = screen f sx sy.
Proof.
  intros Hok Hout. rewrite screen_render_widget. unfold over.
  destruct (paragraph_layer p area sx sy) as [c|] eqn:E; [|reflexivity].
  apply paragraph_inside in E; [congruence|assumption].
Qed.

Lemma render_widget_frame_witness :
  let area := {| x := 2; y := 3; width := 10; height := 4 |} in
  let p := with_block (Paragraph_new [Line_raw (chars_of "abc")])
                      {| borders := ALL; title := "T"%string |} in
  screen (render_widget [] p area) 12 3 = screen [] 12 3.
Proof.
  apply (render_widget_frame [] _ {| x := 2; y := 3; width := 10; height := 4 |} 12 3).
  - unfold rect_ok. cbn [x y width height]. unfold_u8. lia.
  - reflexivity.
Defined.
