(* ===== verification/Display.v ===== *)
(** * What the renderers put on the screen

    The paragraph of the travelling sine line, composited into cells.  The
    grid of the line is computed for the whole area; without a border
    every cell of it shows, with a border the text is laid out in the inner
    area, so the last two rows and the last two columns of the grid are
    clipped and a column whose lit cell lies in one of these rows shows no
    lit cell at all. *)

From Stdlib Require Import String ZArith Lia Bool List SpecFloat.
From S2P Require Import Prelude Ieee Exact Libm Widget Text LinearWave LinearBounds Compositor.
Import ListNotations.
#[local] Open Scope Z_scope.

Import Tui Linear Screen.

(** The number of lit cells (full blocks) that column [sx] of the screen
    shows within the rows of [area]. *)
Definition lit_in_column (buf : Layer) (area : Rect) (sx : Z) : nat :=
  count_in_column full_block buf area sx.

Section LinearScreen.

Context {L : Libm}.
Variable area : Rect.
Variable beat_progress : F64.f64.
Variable album_color : option rgb.
Variable frame : Frame.

Hypothesis area_ok : on_screen area.

Let positions := wave_positions area beat_progress.
Let color := wave_color album_color.

(** The glyph of the wave is no symbol of a block. *)
Lemma full_block_no_symbol : ~ block_symbol full_block.
Proof. unfold block_symbol, full_block. cbn. intuition (try discriminate; lia). Qed.

Lemma cell_single positions' color' i j : length (content (cell positions' color' i j)) = 1%nat.
Proof.
  unfold cell. destruct (i =? nth (Z.to_nat j) positions' 0); [|reflexivity].
  now destruct color' as [[r g] b].
Qed.

(** Line [i], column [j] of the text the renderer builds. *)
Lemma rendered_cell i j :
  0 <= i < height area -> 0 <= j < width area ->
  nth_error (glyphs (nth (Z.to_nat i) (rendered area beat_progress album_color) []))
            (Z.to_nat j)
  = Some (hd 0 (content (cell positions color i j)), style (cell positions color i j)).
Proof.
  intros Hi Hj. destruct area_ok as (Hok & _). rewrite rendered_grid by exact Hok.
  apply grid_line_cell; [intros; apply cell_single|lia..].
Qed.

Lemma cell_is_lit s : length (content s) = 1%nat ->
  cell_is full_block (Some (hd 0 (content s), style s)) = lit s.
Proof.
  unfold cell_is, lit, is_glyph. destruct (content s) as [|c [|c' r]]; try discriminate.
  reflexivity.
Qed.

(** The screen after the call, with and without the border. *)
Lemma screen_rendered show_border :
  screen (render_concentric_waves frame area beat_progress album_color show_border)
  = over (paragraph_layer
            (if show_border
             then with_block (Paragraph_new (rendered area beat_progress album_color))
                             {| borders := ALL; title := "Visualization"%string |}
             else Paragraph_new (rendered area beat_progress album_color)) area)
         (screen frame).
Proof. unfold render_concentric_waves. rewrite screen_render_widget. now destruct show_border. Qed.

(** Whether row [i] of screen column [x area + j] shows the lit cell of
    column [j] of the grid, without a border. *)
Lemma plain_row_lit i j :
  0 <= i < height area -> 0 <= j < width area ->
  cell_is full_block
    (screen (render_concentric_waves frame area beat_progress album_color false)
            (x area + j) (y area + i))
  = (i =? wave_position area beat_progress j).
Proof.
  intros Hi Hj. destruct area_ok as (Hok & _).
  rewrite screen_rendered. unfold over.
  rewrite plain_text_cell, rendered_cell by assumption.
  rewrite cell_is_lit by apply cell_single. rewrite lit_cell.
  unfold positions. now rewrite nth_wave_positions.
Qed.

(** The same with a border: the rows of the rim show the border, the rows
    between show the lines of the grid from the first on. *)
Lemma bordered_row_lit i j :
  0 <= i < height area -> 0 <= j < width area - 2 ->
  cell_is full_block
    (screen (render_concentric_waves frame area beat_progress album_color true)
            (x area + 1 + j) (y area + i))
  = (i =? wave_position area beat_progress j + 1)
    && (wave_position area beat_progress j <? height area - 2).
Proof.
  intros Hi Hj. destruct area_ok as (Hok & Hx & Hy).
  pose proof (wave_position_nonneg area beat_progress j) as Hp.
  rewrite screen_rendered.
  set (b := {| borders := ALL; title := "Visualization"%string |}).
  set (p := with_block _ b).
  destruct (Z.eq_dec i 0) as [H0|H0]; [|destruct (Z.eq_dec i (height area - 1)) as [H1|H1]].
  1, 2: rewrite (bordered_rim_glyph p b)
      by (auto using full_block_no_symbol; try (apply inside_spec; lia); lia);
    symmetry; bool_lia.
  unfold over. replace (y area + i) with (y area + 1 + (i - 1)) by lia.
  rewrite (bordered_text_cell p b) by (auto; lia).
  cbn [text p with_block Paragraph_new].
  rewrite rendered_cell by lia.
  rewrite cell_is_lit by apply cell_single. rewrite lit_cell.
  unfold positions. rewrite nth_wave_positions by (auto; lia).
  destruct (Z.eqb_spec (i - 1) (wave_position area beat_progress j)) as [E|E].
  - rewrite (proj2 (Z.eqb_eq i _)), (proj2 (Z.ltb_lt _ _)) by lia. reflexivity.
  - rewrite (proj2 (Z.eqb_neq i _)) by lia. reflexivity.
Qed.

(** How many lit cells a column of the screen shows, without a border. *)
Lemma plain_column j :
  0 <= j < width area ->
  count_in_column full_block
    (screen (render_concentric_waves frame area beat_progress album_color false))
    area (x area + j)
  = if (0 <=? wave_position area beat_progress j)
       && (wave_position area beat_progress j <? height area)
    then 1%nat else 0%nat.
Proof.
  intros Hj. destruct area_ok as (Hok & _).
  rewrite (count_in_column_eq _ _ _ _ (wave_position area beat_progress j) true Hok).
  - reflexivity.
  - intros i Hi. rewrite plain_row_lit by assumption. now rewrite andb_true_r.
Qed.

End LinearScreen.

(** C17. With a border the text is laid out in the inner area, while the
    grid is computed for the whole area: column [j] of the grid shows in
    screen column [x + 1 + j], and its lit cell shows only when it lies in
    one of the first [height - 2] rows.  A column whose position is one of
    the last two rows shows no lit cell, although the position is a row of
    the area. *)
Theorem linear_border_clips {L : Libm} area beat_progress album_color frame j :
  on_screen area -> 0 <= j < width area - 2 ->
  lit_in_column (screen (render_concentric_waves frame area beat_progress album_color true))
    area (x area + 1 + j)
  = if wave_position area beat_progress j <? height area - 2 then 1%nat else 0%nat.
Proof.
  intros Hon Hj. pose proof (wave_position_nonneg area beat_progress j) as Hp.
  destruct Hon as (Hok & Hx & Hy). unfold lit_in_column.
  rewrite (count_in_column_eq _ _ _ _ (wave_position area beat_progress j + 1)
             (wave_position area beat_progress j <? height area - 2) Hok).
  - destruct (Z.ltb_spec (wave_position area beat_progress j) (height area - 2));
      [|reflexivity].
    cbn [andb]. now rewrite (proj2 (Z.leb_le 0 _)), (proj2 (Z.ltb_lt _ _)) by lia.
  - intros i Hi. now apply bordered_row_lit.
Qed.

Lemma on_screen_area_of w h : in_u16 w -> in_u16 h -> on_screen (area_of w h).
Proof.
  intros Hw Hh. split; [now apply rect_ok_area_of|]. unfold area_of. cbn [x y width height].
  unfold_u8. lia.
Qed.

Lemma linear_border_clips_witness :
  lit_in_column
    (screen (render_concentric_waves (L := model_libm) [] (area_of 12 5) (F64.lit 5 10) None true))
    (area_of 12 5) (x (area_of 12 5) + 1 + 4)
  = if wave_position (L := model_libm) (area_of 12 5) (F64.lit 5 10) 4 <? height (area_of 12 5) - 2
    then 1%nat else 0%nat.
Proof.
  apply (linear_border_clips (L := model_libm) (area_of 12 5) (F64.lit 5 10) None [] 4).
  - apply on_screen_area_of; unfold_u8; lia.
  - cbn [area_of width]. lia.
Defined.

(** In an area of twelve by five cells at beat phase 0.5, with the model
    sine, the position of every column is row 3 or row 4, a row of the area;
    drawn with a border, no column of the screen shows a lit cell: the whole
    line is hidden behind the border. *)
Theorem linear_border_hides_line :
  let area := area_of 12 5 in
  let buf := screen (render_concentric_waves (L := model_libm) [] area (F64.lit 5 10) None true) in
  forallb (fun p => (3 <=? p) && (p <? height area))
          (wave_positions (L := model_libm) area (F64.lit 5 10)) = true /\
  forallb (fun sx => Nat.eqb (lit_in_column buf area sx) 0)
          (zrange (Z.to_nat (width area))) = true.
Proof. cbv zeta. split; vm_compute; reflexivity. Qed.

(** C9. Without a border, in an area of five rows or more, every column of
    the area shows exactly one lit cell on the screen, for every finite beat
    phase, every album colour, every math library whose sine stays within
    [[-1, 1]], and whatever was drawn before. *)
Theorem linear_screen_unbroken {L : Libm} {LOk : LibmOk L} area beat_progress album_color frame j :
  on_screen area -> 5 <= height area ->
  F64.valid beat_progress = true -> F64.is_finite beat_progress = true ->
  0 <= j < width area ->
  lit_in_column (screen (render_concentric_waves frame area beat_progress album_color false))
    area (x area + j) = 1%nat.
Proof.
  intros Hon Hh Hv Hf Hj. unfold lit_in_column. rewrite plain_column by assumption.
  pose proof (wave_position_nonneg area beat_progress j).
  pose proof (wave_position_lt area beat_progress (conj (proj1 Hon) Hh) Hv Hf j Hj).
  now rewrite (proj2 (Z.leb_le 0 _)), (proj2 (Z.ltb_lt _ _)) by lia.
Qed.

Lemma linear_screen_unbroken_witness :
  lit_in_column (screen (render_concentric_waves (L := model_libm) [] (area_of 80 24) (F64.lit 25 100)
                                     (Some (200, 100, 50)) false))
    (area_of 80 24) (x (area_of 80 24) + 79) = 1%nat.
Proof.
  apply (linear_screen_unbroken (L := model_libm) (LOk := model_libm_ok)
           (area_of 80 24) (F64.lit 25 100) (Some (200, 100, 50)) [] 79).
  - apply on_screen_area_of; unfold_u8; lia.
  - cbn [area_of height]. lia.
  - reflexivity.
  - reflexivity.
  - cbn [area_of width]. lia.
Defined.
